(** * The delegation engine of the LM Studio toolbox: agent loop, tool-call
      grammar, tool dispatch and code-artifact extraction.

    A shallow embedding of [validatePath] and of [runAgentLoop] (the helper
    inside the [consult_secondary_agent] tool of the tools provider), with the
    runtime services it relies on (strings, regular expressions, [JSON.parse],
    [path]) modelled next to it.

    Text is modelled as [string]: a sequence of 8-bit characters.  The
    character classes [\s], [\w] and the case mapping are the ASCII ones;
    characters above 127 are neither blank nor word characters and have no
    case.  Paths follow the POSIX flavour of [path].  Everything outside the
    process (the chat endpoint, the file system, the web, the Python
    interpreter, the clock) is a parameter whose answers may depend on all
    that happened before; each call and its answer is recorded in a trace. *)

From Stdlib Require Import String Ascii List ZArith Lia Bool Arith Sorted.
Import ListNotations.
Open Scope string_scope.

(* ================================================================== *)
(** ** JavaScript strings *)
(* ================================================================== *)

Module Js.

Definition code (c : ascii) : nat := nat_of_ascii c.

(** [\s] and the characters removed by [trim()]. *)
Definition is_space (c : ascii) : bool :=
  let n := code c in ((n =? 32) || ((9 <=? n) && (n <=? 13)))%nat.

Definition is_digit (c : ascii) : bool :=
  let n := code c in ((48 <=? n) && (n <=? 57))%nat.

Definition is_upper (c : ascii) : bool :=
  let n := code c in ((65 <=? n) && (n <=? 90))%nat.

Definition is_lower (c : ascii) : bool :=
  let n := code c in ((97 <=? n) && (n <=? 122))%nat.

(** [\w] *)
Definition is_word (c : ascii) : bool :=
  is_digit c || is_upper c || is_lower c || (code c =? 95)%nat.

Definition lower_char (c : ascii) : ascii :=
  if is_upper c then ascii_of_nat (code c + 32) else c.

Fixpoint toLowerCase (s : string) : string :=
  match s with
  | EmptyString => EmptyString
  | String c t => String (lower_char c) (toLowerCase t)
  end.

(** [s.startsWith(p)] *)
Fixpoint startsWith (s p : string) : bool :=
  match p, s with
  | EmptyString, _ => true
  | String _ _, EmptyString => false
  | String a p', String b s' => Ascii.eqb a b && startsWith s' p'
  end.

(** [s.includes(sub)] *)
Fixpoint includes (s sub : string) : bool :=
  startsWith s sub ||
  match s with
  | EmptyString => false
  | String _ t => includes t sub
  end.

(** [s.slice(0, n)] for [0 <= n] *)
Fixpoint take (n : nat) (s : string) : string :=
  match n, s with
  | S n', String c t => String c (take n' t)
  | _, _ => EmptyString
  end.

(** [s.slice(n)] for [0 <= n] *)
Fixpoint drop (n : nat) (s : string) : string :=
  match n, s with
  | S n', String _ t => drop n' t
  | _, _ => s
  end.

(** [s.substring(a, b)] for [0 <= a <= b] *)
Definition substring (s : string) (a b : nat) : string :=
  take (b - a) (drop a s).

Fixpoint trimStart (s : string) : string :=
  match s with
  | String c t => if is_space c then trimStart t else s
  | EmptyString => EmptyString
  end.

Fixpoint trimEnd (s : string) : string :=
  match s with
  | EmptyString => EmptyString
  | String c t =>
      match trimEnd t with
      | EmptyString => if is_space c then EmptyString else String c EmptyString
      | t' => String c t'
      end
  end.

Definition trim (s : string) : string := trimEnd (trimStart s).

(** [xs.join(sep)] *)
Fixpoint join (sep : string) (xs : list string) : string :=
  match xs with
  | [] => ""
  | [x] => x
  | x :: rest => x ++ sep ++ join sep rest
  end.

(** [s.split(sep)] for a non-empty separator: the pieces between the
    successive non-overlapping occurrences of [sep]. *)
Fixpoint split_aux (sep : string) (acc s : string) : list string :=
  match s with
  | EmptyString => [acc]
  | String c t =>
      if startsWith s sep
      then acc :: split_aux_skip sep (String.length sep - 1) t
      else split_aux sep (acc ++ String c EmptyString) t
  end
with split_aux_skip (sep : string) (k : nat) (s : string) : list string :=
  match k, s with
  | 0, _ =>
      match s with
      | EmptyString => [""]
      | String c t =>
          if startsWith s sep
          then "" :: split_aux_skip sep (String.length sep - 1) t
          else split_aux sep (String c EmptyString) t
      end
  | S k', String _ t => split_aux_skip sep k' t
  | S _, EmptyString => [""]
  end.

Definition split (s sep : string) : list string := split_aux sep "" s.

(** Decimal rendering of a natural number, as a template literal does. *)
Fixpoint digits_of (fuel n : nat) (acc : string) : string :=
  match fuel with
  | 0 => acc
  | S f =>
      let d := String (ascii_of_nat (48 + n mod 10)) acc in
      if (n <? 10)%nat then d else digits_of f (n / 10) d
  end.

Definition string_of_nat (n : nat) : string := digits_of (S n) n "".

Definition string_of_Z (z : Z) : string :=
  if (z <? 0)%Z then "-" ++ string_of_nat (Z.to_nat (- z))
  else string_of_nat (Z.to_nat z).

(** The double-quote character, and a helper to write texts that contain
    it: [q s] is [s] with every apostrophe turned into a double quote. *)
Definition dquote : ascii := ascii_of_nat 34.

Fixpoint q (s : string) : string :=
  match s with
  | EmptyString => EmptyString
  | String c t => String (if Ascii.eqb c "'"%char then dquote else c) (q t)
  end.

Definition nl : string := String (ascii_of_nat 10) EmptyString.

End Js.

(* ================================================================== *)
(** ** Regular expressions (backtracking matcher) *)
(* ================================================================== *)

(** The matcher follows the ECMAScript semantics of the constructs the
    source's patterns use: alternatives are tried left to right, [*] takes as
    many iterations as possible and gives them back one by one, [*?] takes as
    few as possible, an iteration that consumes nothing is not taken, and a
    search returns the match at the leftmost position where one exists. *)

Module Regex.

Inductive regex : Type :=
| Eps                                   (* the empty pattern *)
| Chr (p : ascii -> bool)               (* one character satisfying [p] *)
| Cat (a b : regex)                     (* [ab] *)
| Alt (a b : regex)                     (* [a|b] *)
| Rep (greedy : bool) (a : regex)       (* [a*] and [a*?] *)
| Grp (n : nat) (a : regex)             (* capture group number [n] *)
| Bos.                                  (* [^] without the m flag *)

(** A position in the subject: the index and the text from there on. *)
Record cursor : Type := Cur { pos : nat; rest : string }.

(** Captured groups, most recent binding first. *)
Definition captures : Type := list (nat * string).

Fixpoint group (n : nat) (g : captures) : option string :=
  match g with
  | [] => None
  | (m, s) :: g' => if Nat.eqb m n then Some s else group n g'
  end.

Definition consumed (c c' : cursor) : string :=
  Js.take (pos c' - pos c) (rest c).

Section Exec.
Context {A : Type}.

Definition orElse (x y : option A) : option A :=
  match x with Some _ => x | None => y end.

(** The iterations of [a*] and [a*?] from cursor [c], where [one] matches
    [a] once: another iteration is tried before (greedy) or after (lazy) the
    continuation; an iteration must consume something.  [n] bounds the
    number of iterations by the length of what is left. *)
Fixpoint iterate
         (one : cursor -> captures -> (cursor -> captures -> option A) -> option A)
         (greedy : bool) (k : cursor -> captures -> option A)
         (n : nat) (c : cursor) (g : captures) {struct n} : option A :=
  let more :=
    match n with
    | 0 => None
    | S n' =>
        one c g (fun c' g' =>
          if (String.length (rest c') <? String.length (rest c))%nat
          then iterate one greedy k n' c' g' else None)
    end in
  if greedy then orElse more (k c g) else orElse (k c g) more.

Fixpoint exec (r : regex) (c : cursor) (g : captures)
         (k : cursor -> captures -> option A) {struct r} : option A :=
  match r with
  | Eps => k c g
  | Chr p =>
      match rest c with
      | String x t => if p x then k (Cur (S (pos c)) t) g else None
      | EmptyString => None
      end
  | Cat a b => exec a c g (fun c' g' => exec b c' g' k)
  | Alt a b => orElse (exec a c g k) (exec b c g k)
  | Rep greedy a => iterate (exec a) greedy k (String.length (rest c)) c g
  | Grp n a => exec a c g (fun c' g' => k c' ((n, consumed c c') :: g'))
  | Bos => if Nat.eqb (pos c) 0 then k c g else None
  end.
End Exec.

(** The result of a successful match. *)
Record found : Type := Found {
  index : nat;            (* where the match starts *)
  whole : string;         (* [match[0]] *)
  groups : captures;      (* [match[1]], [match[2]], ... *)
  stop : cursor           (* the position just after the match *)
}.

Definition match_at (r : regex) (c : cursor) : option found :=
  exec r c [] (fun c' g => Some (Found (pos c) (consumed c c') g c')).

(** Leftmost match at or after the cursor. *)
Fixpoint search_from (r : regex) (i : nat) (s : string) : option found :=
  match match_at r (Cur i s) with
  | Some m => Some m
  | None =>
      match s with
      | EmptyString => None
      | String _ t => search_from r (S i) t
      end
  end.

(** [s.match(r)] for a pattern without the g flag. *)
Definition search (r : regex) (s : string) : option found := search_from r 0 s.

(** [Array.from(s.matchAll(r))] for a pattern with the g flag: after a match
    the search resumes where it stopped, one character further when the
    match was empty. *)
Fixpoint matchAll_from (fuel : nat) (r : regex) (i : nat) (s : string)
  : list found :=
  match fuel with
  | 0 => []
  | S fuel' =>
      match search_from r i s with
      | None => []
      | Some m =>
          m ::
          (if (pos (stop m) =? index m)%nat
           then match rest (stop m) with
                | EmptyString => []
                | String _ t => matchAll_from fuel' r (S (pos (stop m))) t
                end
           else matchAll_from fuel' r (pos (stop m)) (rest (stop m)))
      end
  end.

Definition matchAll (r : regex) (s : string) : list found :=
  matchAll_from (S (String.length s)) r 0 s.

(** [s.replace(r, by)] for a pattern with the g flag and a replacement text
    without [$] patterns. *)
Fixpoint replaceAll_from (fuel : nat) (r : regex) (by_ : string) (i : nat)
         (s : string) : string :=
  match fuel with
  | 0 => s
  | S fuel' =>
      match search_from r i s with
      | None => s
      | Some m =>
          Js.take (index m - i) s ++ by_ ++
          (if (pos (stop m) =? index m)%nat
           then match rest (stop m) with
                | EmptyString => ""
                | String x t =>
                    String x (replaceAll_from fuel' r by_ (S (pos (stop m))) t)
                end
           else replaceAll_from fuel' r by_ (pos (stop m)) (rest (stop m)))
      end
  end.

Definition replaceAll (r : regex) (by_ : string) (s : string) : string :=
  replaceAll_from (S (String.length s)) r by_ 0 s.

(** *** Pattern combinators *)

Definition just (x : ascii) : ascii -> bool := Ascii.eqb x.

(** A literal character under the i flag. *)
Definition just_ci (x : ascii) : ascii -> bool :=
  fun y => Ascii.eqb (Js.lower_char x) (Js.lower_char y).

Definition any : ascii -> bool := fun _ => true.     (* [\s\S] *)

(** [.]: any character except a line terminator. *)
Definition dot : ascii -> bool :=
  fun y => negb ((Js.code y =? 10)%nat || (Js.code y =? 13)%nat).

Fixpoint lit (s : string) : regex :=
  match s with
  | EmptyString => Eps
  | String x EmptyString => Chr (just x)
  | String x t => Cat (Chr (just x)) (lit t)
  end.

Fixpoint lit_ci (s : string) : regex :=
  match s with
  | EmptyString => Eps
  | String x EmptyString => Chr (just_ci x)
  | String x t => Cat (Chr (just_ci x)) (lit_ci t)
  end.

Definition star (a : regex) : regex := Rep true a.       (* [a*]  *)
Definition lazy_star (a : regex) : regex := Rep false a. (* [a*?] *)
Definition plus (a : regex) : regex := Cat a (Rep true a).  (* [a+] *)
Definition opt (a : regex) : regex := Alt a Eps.         (* [a?]  *)

Fixpoint alts (rs : list regex) : regex :=
  match rs with
  | [] => Eps
  | [a] => a
  | a :: rest => Alt a (alts rest)
  end.

End Regex.

(* ================================================================== *)
(** ** JSON values and [JSON.parse] *)
(* ================================================================== *)

Module Json.

(** A number keeps the text of its literal: its value is only ever tested
    for being zero (truthiness). *)
#[warnings="-register-all"]
Inductive json : Type :=
| JNull
| JBool (b : bool)
| JNum (literal : string)
| JStr (s : string)
| JArr (items : list json)
| JObj (fields : list (string * json)).

(** *** Objects: own properties in insertion order, one binding per key *)

Fixpoint lookup (k : string) (fields : list (string * json)) : option json :=
  match fields with
  | [] => None
  | (k', v) :: rest => if String.eqb k' k then Some v else lookup k rest
  end.

(** [obj[k] = v] *)
Fixpoint set (k : string) (v : json) (fields : list (string * json))
  : list (string * json) :=
  match fields with
  | [] => [(k, v)]
  | (k', v') :: rest =>
      if String.eqb k' k then (k, v) :: rest else (k', v') :: set k v rest
  end.

(** *** Truthiness and property access *)

(** The mantissa of a numeric literal has no digit other than 0. *)
Fixpoint num_is_zero (literal : string) : bool :=
  match literal with
  | EmptyString => true
  | String c t =>
      if Ascii.eqb c "e"%char || Ascii.eqb c "E"%char then true
      else if Js.is_digit c && negb (Ascii.eqb c "0"%char) then false
      else num_is_zero t
  end.

Definition truthy (v : json) : bool :=
  match v with
  | JNull => false
  | JBool b => b
  | JNum n => negb (num_is_zero n)
  | JStr s => negb (String.eqb s "")
  | JArr _ | JObj _ => true
  end.

(** Values as an expression yields them: [None] is [undefined]. *)
Definition value : Type := option json.

Definition truthyV (v : value) : bool :=
  match v with Some j => truthy j | None => false end.

(** [a || b] *)
Definition or_ (a b : value) : value := if truthyV a then a else b.

(** [v.k] on a value that is neither [null] nor [undefined]: own property
    of an object, [undefined] on anything else (none of the keys the
    engine reads is a built-in property of a string, number, boolean or
    array). *)
Definition prop (v : json) (k : string) : value :=
  match v with
  | JObj fields => lookup k fields
  | _ => None
  end.

(** [v?.k] *)
Definition propV (v : value) (k : string) : value :=
  match v with
  | Some JNull | None => None
  | Some j => prop j k
  end.

Definition isArray (v : value) : bool :=
  match v with Some (JArr _) => true | _ => false end.

(** [v === "text"] *)
Definition is_str (v : value) (text : string) : bool :=
  match v with Some (JStr s) => String.eqb s text | _ => false end.

(** *** Parsing *)

(** JSON blanks: space, tab, line feed, carriage return. *)
Definition is_blank (c : ascii) : bool :=
  let n := Js.code c in
  ((n =? 32) || (n =? 9) || (n =? 10) || (n =? 13))%nat.

Fixpoint skip_blanks (s : string) : string :=
  match s with
  | String c t => if is_blank c then skip_blanks t else s
  | EmptyString => EmptyString
  end.

Definition hex_value (c : ascii) : option nat :=
  let n := Js.code c in
  if Js.is_digit c then Some (n - 48)
  else if ((97 <=? n) && (n <=? 102))%nat then Some (n - 87)
  else if ((65 <=? n) && (n <=? 70))%nat then Some (n - 55)
  else None.

(** The UTF-8 bytes of a code unit given by a [\u] escape. *)
Definition utf8 (n : nat) : string :=
  if (n <? 128)%nat then String (ascii_of_nat n) ""
  else if (n <? 2048)%nat then
    String (ascii_of_nat (192 + n / 64))
      (String (ascii_of_nat (128 + n mod 64)) "")
  else
    String (ascii_of_nat (224 + n / 4096))
      (String (ascii_of_nat (128 + (n / 64) mod 64))
         (String (ascii_of_nat (128 + n mod 64)) "")).

(** The characters of a string literal after its opening quote; returns
    the decoded text and what follows the closing quote. *)
Fixpoint string_body (s : string) (acc : string) : option (string * string) :=
  match s with
  | EmptyString => None
  | String c t =>
      if Ascii.eqb c Js.dquote then Some (acc, t)
      else if (Js.code c <? 32)%nat then None
      else if Ascii.eqb c "\"%char then
        match t with
        | String e t' =>
            let put x := string_body t' (acc ++ String x "") in
            if Ascii.eqb e Js.dquote then put Js.dquote
            else if Ascii.eqb e "\"%char then put "\"%char
            else if Ascii.eqb e "/"%char then put "/"%char
            else if Ascii.eqb e "b"%char then put (ascii_of_nat 8)
            else if Ascii.eqb e "f"%char then put (ascii_of_nat 12)
            else if Ascii.eqb e "n"%char then put (ascii_of_nat 10)
            else if Ascii.eqb e "r"%char then put (ascii_of_nat 13)
            else if Ascii.eqb e "t"%char then put (ascii_of_nat 9)
            else if Ascii.eqb e "u"%char then
              match t' with
              | String h1 (String h2 (String h3 (String h4 t''))) =>
                  match hex_value h1, hex_value h2, hex_value h3, hex_value h4 with
                  | Some a, Some b, Some c', Some d =>
                      string_body t''
                        (acc ++ utf8 (((a * 16 + b) * 16 + c') * 16 + d))
                  | _, _, _, _ => None
                  end
              | _ => None
              end
            else None
        | EmptyString => None
        end
      else string_body t (acc ++ String c "")
  end.

Fixpoint digits (s : string) (acc : string) : string * string :=
  match s with
  | String c t => if Js.is_digit c then digits t (acc ++ String c "") else (acc, s)
  | EmptyString => (acc, s)
  end.

(** A JSON number: optional minus, integer part without a leading zero,
    optional fraction, optional exponent. *)
Definition number (s : string) : option (string * string) :=
  let '(sign, s1) :=
    match s with
    | String "-"%char t => ("-", t)
    | _ => ("", s)
    end in
  let '(int, s2) := digits s1 "" in
  if String.eqb int "" then None
  else if Js.startsWith int "0" && negb (String.eqb int "0") then None
  else
    let frac :=
      match s2 with
      | String "."%char t =>
          let '(f, s3) := digits t "" in
          if String.eqb f "" then None else Some ("." ++ f, s3)
      | _ => Some ("", s2)
      end in
    match frac with
    | None => None
    | Some (f, s3) =>
        match s3 with
        | String e t =>
            if Ascii.eqb e "e"%char || Ascii.eqb e "E"%char then
              let '(esign, t1) :=
                match t with
                | String "+"%char u => ("+", u)
                | String "-"%char u => ("-", u)
                | _ => ("", t)
                end in
              let '(x, s4) := digits t1 "" in
              if String.eqb x "" then None
              else Some (sign ++ int ++ f ++ String e esign ++ x, s4)
            else Some (sign ++ int ++ f, s3)
        | EmptyString => Some (sign ++ int ++ f, s3)
        end
    end.

(** Recursive descent.  [parse_value] reads one value after blanks;
    [parse_items] reads the rest of an array after an item has been read,
    [parse_fields] the rest of an object.  The fuel bounds the number of
    values and separators read. *)
Fixpoint parse_value (fuel : nat) (s : string) : option (json * string) :=
  match fuel with
  | 0 => None
  | S fuel' =>
      match skip_blanks s with
      | EmptyString => None
      | String c t =>
          if Ascii.eqb c "{"%char then
            match skip_blanks t with
            | String "}"%char t' => Some (JObj [], t')
            | t' => parse_field fuel' t' []
            end
          else if Ascii.eqb c "["%char then
            match skip_blanks t with
            | String "]"%char t' => Some (JArr [], t')
            | t' =>
                match parse_value fuel' t' with
                | Some (v, t'') => parse_items fuel' t'' [v]
                | None => None
                end
            end
          else if Ascii.eqb c Js.dquote then
            match string_body t "" with
            | Some (str, t') => Some (JStr str, t')
            | None => None
            end
          else if Js.startsWith (String c t) "true" then Some (JBool true, Js.drop 4 (String c t))
          else if Js.startsWith (String c t) "false" then Some (JBool false, Js.drop 5 (String c t))
          else if Js.startsWith (String c t) "null" then Some (JNull, Js.drop 4 (String c t))
          else
            match number (String c t) with
            | Some (n, t') => Some (JNum n, t')
            | None => None
            end
      end
  end
with parse_items (fuel : nat) (s : string) (acc : list json)
     : option (json * string) :=
  match fuel with
  | 0 => None
  | S fuel' =>
      match skip_blanks s with
      | String "]"%char t => Some (JArr acc, t)
      | String ","%char t =>
          match parse_value fuel' t with
          | Some (v, t') => parse_items fuel' t' (acc ++ [v])%list
          | None => None
          end
      | _ => None
      end
  end
with parse_field (fuel : nat) (s : string) (acc : list (string * json))
     : option (json * string) :=
  match fuel with
  | 0 => None
  | S fuel' =>
      match skip_blanks s with
      | String c t =>
          if Ascii.eqb c Js.dquote then
            match string_body t "" with
            | Some (key, t1) =>
                match skip_blanks t1 with
                | String ":"%char t2 =>
                    match parse_value fuel' t2 with
                    | Some (v, t3) =>
                        match skip_blanks t3 with
                        | String "}"%char t4 => Some (JObj (set key v acc), t4)
                        | String ","%char t4 => parse_field fuel' t4 (set key v acc)
                        | _ => None
                        end
                    | None => None
                    end
                | _ => None
                end
            | None => None
            end
          else None
      | EmptyString => None
      end
  end.

(** [JSON.parse(text)]: [None] when it throws a [SyntaxError]. *)
Definition parse (text : string) : option json :=
  match parse_value (S (String.length text)) text with
  | Some (v, t) =>
      match skip_blanks t with
      | EmptyString => Some v
      | _ => None
      end
  | None => None
  end.

(** [JSON.stringify] of an array of strings. *)
Fixpoint escape (s : string) : string :=
  match s with
  | EmptyString => ""
  | String c t =>
      (if Ascii.eqb c Js.dquote then String "\"%char (String Js.dquote "")
       else if Ascii.eqb c "\"%char then "\\"
       else if (Js.code c =? 10)%nat then "\n"
       else if (Js.code c =? 13)%nat then "\r"
       else if (Js.code c =? 9)%nat then "\t"
       else if (Js.code c =? 8)%nat then "\b"
       else if (Js.code c =? 12)%nat then "\f"
       else if (Js.code c <? 32)%nat then
         "\u00" ++ String (if (Js.code c <? 16)%nat then "0"%char else "1"%char)
           (String (ascii_of_nat
                      (let d := Js.code c mod 16 in
                       if (d <? 10)%nat then 48 + d else 87 + d)) "")
       else String c "") ++ escape t
  end.

Definition stringify_strings (xs : list string) : string :=
  "[" ++ Js.join "," (map (fun x => String Js.dquote (escape x) ++ String Js.dquote "") xs) ++ "]".

End Json.

(* ================================================================== *)
(** ** POSIX [path]: [resolve], [join], [dirname] *)
(* ================================================================== *)

Module Path.

(** [normalizeString]: the segments of [path] with empty and [.] segments
    dropped and each [..] cancelling the segment before it; above the
    start, [..] is kept when [allowAboveRoot] and dropped otherwise. *)
Fixpoint fold_segments (allowAboveRoot : bool) (segs kept : list string)
  : list string :=
  match segs with
  | [] => rev kept
  | seg :: more =>
      if String.eqb seg "" || String.eqb seg "." then
        fold_segments allowAboveRoot more kept
      else if String.eqb seg ".." then
        match kept with
        | top :: below =>
            if String.eqb top ".."
            then fold_segments allowAboveRoot more (".." :: kept)
            else fold_segments allowAboveRoot more below
        | [] =>
            fold_segments allowAboveRoot more
              (if allowAboveRoot then [".."] else [])
        end
      else fold_segments allowAboveRoot more (seg :: kept)
  end.

Definition normalizeString (path : string) (allowAboveRoot : bool) : string :=
  Js.join "/" (fold_segments allowAboveRoot (Js.split path "/") []).

Definition isAbsolute (path : string) : bool := Js.startsWith path "/".

Fixpoint endsWithSlash (path : string) : bool :=
  match path with
  | EmptyString => false
  | String c EmptyString => Ascii.eqb c "/"%char
  | String _ t => endsWithSlash t
  end.

Definition normalize (path : string) : string :=
  if String.eqb path "" then "."
  else
    let isAbs := isAbsolute path in
    let trailingSeparator := endsWithSlash path in
    let p := normalizeString path (negb isAbs) in
    if String.eqb p "" then
      if isAbs then "/" else if trailingSeparator then "./" else "."
    else
      let p := if trailingSeparator then p ++ "/" else p in
      if isAbs then "/" ++ p else p.

(** [join(...paths)] *)
Definition join (paths : list string) : string :=
  match filter (fun p => negb (String.eqb p "")) paths with
  | [] => "."
  | parts => normalize (Js.join "/" parts)
  end.

(** [resolve(...paths)]: the arguments are taken from the right until an
    absolute one is met; the process's current directory [cwd] comes
    last. *)
Fixpoint resolve_args (rev_paths : list string) (cwd : string)
         (resolvedPath : string) : string * bool :=
  match rev_paths with
  | [] =>
      if String.eqb cwd "" then (resolvedPath, false)
      else (cwd ++ "/" ++ resolvedPath, isAbsolute cwd)
  | p :: more =>
      if String.eqb p "" then resolve_args more cwd resolvedPath
      else if isAbsolute p then (p ++ "/" ++ resolvedPath, true)
      else resolve_args more cwd (p ++ "/" ++ resolvedPath)
  end.

Definition resolve (cwd : string) (paths : list string) : string :=
  let '(resolvedPath, resolvedAbsolute) := resolve_args (rev paths) cwd "" in
  let p := normalizeString resolvedPath (negb resolvedAbsolute) in
  if resolvedAbsolute then "/" ++ p
  else if String.eqb p "" then "." else p.

Fixpoint char_at (i : nat) (s : string) : option ascii :=
  match s, i with
  | EmptyString, _ => None
  | String c _, 0 => Some c
  | String _ t, S i' => char_at i' t
  end.

(** The loop of [dirname]: from index [i] down to 1, the index of the last
    slash that has a non-slash character after it. *)
Fixpoint dirname_end (i : nat) (path : string) (matchedSlash : bool)
  : option nat :=
  match i with
  | 0 => None
  | S i' =>
      match char_at i path with
      | Some "/"%char =>
          if matchedSlash then dirname_end i' path true else Some i
      | _ => dirname_end i' path false
      end
  end.

Definition dirname (path : string) : string :=
  if String.eqb path "" then "."
  else
    let hasRoot := isAbsolute path in
    match dirname_end (String.length path - 1) path true with
    | None => if hasRoot then "/" else "."
    | Some e => if hasRoot && (e =? 1)%nat then "//" else Js.take e path
    end.

End Path.

(* ================================================================== *)
(** ** The outside world: chat endpoint, file system, web, interpreter *)
(* ================================================================== *)

(** What an awaited call comes back with: a value, or a thrown error with
    its [message]. *)
Inductive outcome (A : Type) : Type :=
| Ok (a : A)
| Threw (message : string).
Arguments Ok {A} a.
Arguments Threw {A} message.

Record message : Type := Msg { role : string; content : string }.

(** One [POST /chat/completions] round trip. *)
Inductive chat_reply : Type :=
| ChatThrew (message : string)   (* [fetch] rejected, or the body was not
                                    [{choices:[{message:{content}}]}] *)
| ChatStatus (status : Z)        (* [response.ok] is false *)
| ChatOk (raw : string).         (* [data.choices[0].message.content] *)

(** Every call the engine makes to a collaborator, with what came back. *)
Inductive event : Type :=
| EChat (msgs : list message) (reply : chat_reply)
| EReadFile (path : string) (r : outcome string)
| EReaddir (path : string) (r : outcome (list string))
| EMkdir (path : string) (r : outcome unit)
| EWriteFile (path data : string) (r : outcome unit)
| EAppendFile (path data : string) (r : outcome unit)
| ERm (path : string) (r : outcome unit)
| ESearch (query : Json.value) (r : outcome string)
| EFetchUrl (url : Json.value) (r : outcome string)
| ERunPython (script : string) (r : outcome (string * string))
| ENow (iso : string)
| EDateNow (ms : Z)
| EConsoleError (text : string).

(** The collaborators.  Each answer may depend on everything that happened
    before (the trace), so the record stands for an arbitrary endpoint and an
    arbitrary file system.  The last three fields are pure services of the
    runtime that are not modelled here: the text form of a value that is not
    a string, the way [writeFile] treats a payload that is not a string, and
    the compilation of a pattern supplied by the model. *)
Record Env : Type := {
  chat : list event -> list message -> chat_reply;
  readFile : list event -> string -> outcome string;
  readdir : list event -> string -> outcome (list string);
  mkdir : list event -> string -> outcome unit;
  writeFile : list event -> string -> string -> outcome unit;
  appendFile : list event -> string -> string -> outcome unit;
  rm : list event -> string -> outcome unit;
  duck_search : list event -> Json.value -> outcome string;
  fetch_text : list event -> Json.value -> outcome string;
  run_python : list event -> string -> outcome (string * string);
  now_iso : list event -> string;
  date_now : list event -> Z;
  process_cwd : string;
  text_of : Json.json -> string;
  payload_of : Json.json -> outcome string;
  regexp_test : Json.json -> outcome (string -> bool)
}.

(** The mutable variables of one [runAgentLoop] invocation, and the trace. *)
Record mem : Type := Mem {
  msgList : list message;
  loops : Z;
  finalContent : string;
  filesModified : list string;
  processedFiles : list string;
  trace : list event
}.

Definition set_msgList (f : list message -> list message) (m : mem) : mem :=
  Mem (f (msgList m)) (loops m) (finalContent m) (filesModified m)
      (processedFiles m) (trace m).
Definition set_loops (f : Z -> Z) (m : mem) : mem :=
  Mem (msgList m) (f (loops m)) (finalContent m) (filesModified m)
      (processedFiles m) (trace m).
Definition set_finalContent (f : string -> string) (m : mem) : mem :=
  Mem (msgList m) (loops m) (f (finalContent m)) (filesModified m)
      (processedFiles m) (trace m).
Definition set_filesModified (f : list string -> list string) (m : mem) : mem :=
  Mem (msgList m) (loops m) (finalContent m) (f (filesModified m))
      (processedFiles m) (trace m).
Definition set_processedFiles (f : list string -> list string) (m : mem) : mem :=
  Mem (msgList m) (loops m) (finalContent m) (filesModified m)
      (f (processedFiles m)) (trace m).
Definition set_trace (f : list event -> list event) (m : mem) : mem :=
  Mem (msgList m) (loops m) (finalContent m) (filesModified m)
      (processedFiles m) (f (trace m)).

(** *** Computations: state passing with exceptions *)

Definition M (A : Type) : Type := mem -> outcome A * mem.

Definition ret {A} (a : A) : M A := fun m => (Ok a, m).
Definition throw {A} (msg : string) : M A := fun m => (Threw msg, m).

Definition bind {A B} (c : M A) (k : A -> M B) : M B :=
  fun m =>
    match c m with
    | (Ok a, m') => k a m'
    | (Threw e, m') => (Threw e, m')
    end.

(** [try { c } catch (err) { h err.message }]: what [c] did to the state
    before throwing stays done. *)
Definition try_catch {A} (c : M A) (h : string -> M A) : M A :=
  fun m =>
    match c m with
    | (Ok a, m') => (Ok a, m')
    | (Threw e, m') => h e m'
    end.

Definition update (f : mem -> mem) : M unit := fun m => (Ok tt, f m).
Definition read {A} (f : mem -> A) : M A := fun m => (Ok (f m), m).

Declare Scope engine_scope.
Delimit Scope engine_scope with engine.
Notation "x <- c ;; k" := (bind c (fun x => k))
  (at level 61, c at next level, right associativity) : engine_scope.
Notation "c ;; k" := (bind c (fun _ => k))
  (at level 61, right associativity) : engine_scope.
Open Scope engine_scope.

(** An awaited call: ask the collaborator, log the event, return or throw. *)
Definition await {A} (ask : list event -> outcome A)
           (log : outcome A -> event) : M A :=
  fun m =>
    let r := ask (trace m) in
    (r, set_trace (fun t => t ++ [log r])%list m).

Definition push_message (r c : string) : M unit :=
  update (set_msgList (fun l => l ++ [Msg r c])%list).

(* ================================================================== *)
(** ** The security helper *)
(* ================================================================== *)

Section Engine.

Variable env : Env.

(** [validatePath(baseDir, requestedPath)] *)
Definition validatePath (baseDir requestedPath : string) : outcome string :=
  let resolved := Path.resolve (process_cwd env) [baseDir; requestedPath] in
  let lowerResolved := Js.toLowerCase resolved in
  let lowerBase := Js.toLowerCase (Path.resolve (process_cwd env) [baseDir]) in
  if negb (Js.startsWith lowerResolved lowerBase) then
    Threw ("Access Denied: Path '" ++ requestedPath ++ "' is outside the workspace.")
  else Ok resolved.

(** The call sites pass values taken from parsed JSON: [resolve] throws a
    [TypeError] on an argument that is not a string (the text of the message
    is shortened here). *)
Definition validatePath_any (baseDir : string) (requestedPath : Json.value)
  : M string :=
  fun m =>
    match requestedPath with
    | Some (Json.JStr p) => (validatePath baseDir p, m)
    | Some v => (Threw ("The path argument must be of type string. Received " ++ text_of env v), m)
    | None => (Threw "The path argument must be of type string. Received undefined", m)
    end.

(** [v.k] where [v] may be [null]: reading a property of [null] throws. *)
Definition member (v : Json.json) (k : string) : M Json.value :=
  match v with
  | Json.JNull => throw ("Cannot read properties of null (reading '" ++ k ++ "')")
  | _ => ret (Json.prop v k)
  end.

(** The text form of a value (template literals, string methods). *)
Definition toText (v : Json.json) : string :=
  match v with
  | Json.JStr s => s
  | _ => text_of env v
  end.

(** [await mkdir(path, { recursive: true })] *)
Definition do_mkdir (path : string) : M unit :=
  await (fun t => mkdir env t path) (EMkdir path).

(** [await writeFile(path, data, "utf-8")] *)
Definition do_writeFile (path data : string) : M unit :=
  await (fun t => writeFile env t path data) (EWriteFile path data).

(** The same with a payload taken from parsed JSON: a string is written as
    it is; for anything else the runtime decides, before touching the disk,
    whether it throws or what text it writes. *)
Definition do_writeFile_any (path : string) (data : Json.json) : M unit :=
  match data with
  | Json.JStr s => do_writeFile path s
  | _ =>
      match payload_of env data with
      | Ok s => do_writeFile path s
      | Threw e => throw e
      end
  end.

(** [await readFile(path, "utf-8")] and [await readdir(path)] *)
Definition do_readFile (path : string) : M string :=
  await (fun t => readFile env t path) (EReadFile path).

Definition do_readdir (path : string) : M (list string) :=
  await (fun t => readdir env t path) (EReaddir path).

(** [new Date().toISOString()] *)
Definition do_now : M string :=
  fun m =>
    let iso := now_iso env (trace m) in
    (Ok iso, set_trace (fun t => t ++ [ENow iso])%list m).

(** [Date.now()] *)
Definition do_date_now : M Z :=
  fun m =>
    let ms := date_now env (trace m) in
    (Ok ms, set_trace (fun t => t ++ [EDateNow ms])%list m).

(** [console.error(text, e)] *)
Definition console_error (text : string) : M unit :=
  update (set_trace (fun t => t ++ [EConsoleError text])%list).

(** [filesModified.push(name)] *)
Definition push_file (name : string) : M unit :=
  update (set_filesModified (fun l => l ++ [name])%list).

(* ---------------------------------------------------------------- *)
(** ** Marker stripping, refusal detection, tool-call grammar *)
(* ---------------------------------------------------------------- *)

Import Regex.

Fixpoint seq (rs : list regex) : regex :=
  match rs with
  | [] => Eps
  | [a] => a
  | a :: more => Cat a (seq more)
  end.

(** [/<\|.*?\|>/g] *)
Definition markerRegex : regex :=
  seq [lit "<|"; lazy_star (Chr dot); lit "|>"].

(** [content.replace(/<\|.*?\|>/g, "").trim()] *)
Definition cleanup (raw : string) : string :=
  Js.trim (replaceAll markerRegex "" raw).

Definition refusalKeywords : list string :=
  [ "i cannot browse"; "i don't have access"; "i can't access";
    "unable to browse"; "real-time news"; "no internet access";
    "as an ai"; "i do not have the ability"; "cannot access the internet" ].

(** [refusalKeywords.some(kw => trimmed.toLowerCase().includes(kw))] *)
Definition isRefusal (trimmed : string) : bool :=
  existsb (fun kw => Js.includes (Js.toLowerCase trimmed) kw) refusalKeywords.

(** [/\{[\s\S]*\}/] *)
Definition jsonRegex : regex := seq [lit "{"; star (Chr any); lit "}"].

Definition jsonMatch (trimmed : string) : option string :=
  option_map whole (search jsonRegex trimmed).

(** [/to=([a-zA-Z0-9_.]+)/] *)
Definition toolNameRegex : regex :=
  seq [lit "to=";
       Grp 1 (plus (Chr (fun c => Js.is_word c || Ascii.eqb c "."%char)))].

Definition toolNameMatch (trimmed : string) : option string :=
  match search toolNameRegex trimmed with
  | Some m => group 1 (groups m)
  | None => None
  end.

(** [args.k = v] *)
Definition assign (args : Json.json) (k : string) (v : Json.value) : Json.json :=
  match args, v with
  | Json.JObj fields, Some x => Json.JObj (Json.set k x fields)
  | _, _ => args
  end.

(** [if (args.path && !args.file_name) args.file_name = args.path;
     if (args.data && !args.content) args.content = args.data;] *)
Definition map_save_file_args (args : Json.json) : Json.json :=
  let args1 :=
    if Json.truthyV (Json.prop args "path")
       && negb (Json.truthyV (Json.prop args "file_name"))
    then assign args "file_name" (Json.prop args "path") else args in
  if Json.truthyV (Json.prop args1 "data")
     && negb (Json.truthyV (Json.prop args1 "content"))
  then assign args1 "content" (Json.prop args1 "data") else args1.

(** The normalized tool call [{tool, args}]; a missing property is [None]. *)
Record toolCall : Type := ToolCall { tool : Json.value; args : Json.value }.

(** The tool-use check after the refusal test: [None] is [toolCall === null]. *)
Definition parseToolCall (trimmed : string) : option toolCall :=
  match jsonMatch trimmed with
  | None => None
  | Some span =>
      match Json.parse span with
      | None => None                         (* parsing failed, stays null *)
      | Some parsed =>
          if Json.truthyV (Json.prop parsed "tool")
             && Json.truthyV (Json.prop parsed "args")
          then Some (ToolCall (Json.prop parsed "tool") (Json.prop parsed "args"))
          else if Json.truthyV (Json.prop parsed "name")
                  && Json.truthyV (Json.prop parsed "arguments")
          then
            let toolName := Json.prop parsed "name" in
            let args :=
              match Json.prop parsed "arguments" with
              | Some a =>
                  Some (if Json.is_str toolName "save_file"
                        then map_save_file_args a else a)
              | None => None
              end in
            Some (ToolCall toolName args)
          else
            match toolNameMatch trimmed with
            | Some name =>
                let toolName :=
                  if Js.startsWith name "functions."
                  then Js.drop 10 name else name in
                let args :=
                  if String.eqb toolName "save_file" && Json.isArray (Some parsed)
                  then Json.JObj [("files", parsed)] else parsed in
                let args :=
                  if String.eqb toolName "save_file"
                  then map_save_file_args args else args in
                Some (ToolCall (Some (Json.JStr toolName)) (Some args))
            | None => None
            end
      end
  end.

(* ---------------------------------------------------------------- *)
(** ** Tool dispatch *)
(* ---------------------------------------------------------------- *)

Variable allowFileSystem allowWeb allowCode : bool.
Variable currentWorkingDirectory : string.

Definition argOf (tc : toolCall) (k : string) : Json.value :=
  Json.propV (args tc) k.

(** The body of the batch loop of [save_file]: one entry of [args.files];
    returns the name when the entry was saved. *)
Definition save_batch_item (fileObj : Json.json) : M (option string) :=
  n1 <- member fileObj "file_name" ;;
  n2 <- member fileObj "name" ;;
  n3 <- member fileObj "path" ;;
  let fName := Json.or_ (Json.or_ n1 n2) n3 in
  c1 <- member fileObj "content" ;;
  c2 <- member fileObj "data" ;;
  let fContent := Json.or_ c1 c2 in
  match fName, fContent with
  | Some name, Some data =>
      if Json.truthy name && Json.truthy data then
        try_catch
          (fpath <- validatePath_any currentWorkingDirectory fName ;;
           do_mkdir (Path.dirname fpath) ;;
           do_writeFile_any fpath data ;;
           push_file (toText name) ;;
           ret (Some (toText name)))
          (fun _ => ret None)      (* continue saving others *)
      else ret None
  | _, _ => ret None
  end.

Fixpoint save_batch (files : list Json.json) (savedList : list string)
  : M (list string) :=
  match files with
  | [] => ret savedList
  | fileObj :: more =>
      r <- save_batch_item fileObj ;;
      save_batch more
        (match r with Some n => savedList ++ [n] | None => savedList end)%list
  end.

Definition save_file (tc : toolCall) : M string :=
  match argOf tc "files" with
  | Some (Json.JArr files) =>
      savedList <- save_batch files [] ;;
      ret (if (0 <? List.length savedList)%nat
           then "Success: Saved " ++ Js.string_of_nat (List.length savedList)
                ++ " files: " ++ Js.join ", " savedList
           else "Error: No valid files found in batch.")
  | _ =>
      let fileName :=
        Json.or_ (Json.or_ (argOf tc "file_name") (argOf tc "name"))
                 (argOf tc "path") in
      let content := Json.or_ (argOf tc "content") (argOf tc "data") in
      match fileName, content with
      | Some name, Some data =>
          if Json.truthy name && Json.truthy data then
            fpath <- validatePath_any currentWorkingDirectory fileName ;;
            do_mkdir (Path.dirname fpath) ;;
            do_writeFile_any fpath data ;;
            push_file (toText name) ;;
            ret ("Success: File saved to " ++ fpath)
          else ret "Error: Missing 'file_name' (or 'name', 'path') or 'content' (or 'data') arguments."
      | _, _ => ret "Error: Missing 'file_name' (or 'name', 'path') or 'content' (or 'data') arguments."
      end
  end.

(** The number of pieces of [content.split(sep)]. *)
Definition split_length (content sep : string) : nat :=
  if String.eqb sep "" then String.length content
  else List.length (Js.split content sep).

(** The replacement text of [content.replace(old, new)] for a string
    pattern: [$$], [$&], [$`] and [$'] are expanded. *)
Fixpoint expand (template matched before after : string) : string :=
  match template with
  | EmptyString => EmptyString
  | String d more =>
      if Ascii.eqb d "$"%char then
        match more with
        | String c t =>
            if Ascii.eqb c "$"%char then "$" ++ expand t matched before after
            else if Ascii.eqb c "&"%char then matched ++ expand t matched before after
            else if Ascii.eqb c "`"%char then before ++ expand t matched before after
            else if Ascii.eqb c "'"%char then after ++ expand t matched before after
            else String d (expand more matched before after)
        | EmptyString => String d EmptyString
        end
      else String d (expand more matched before after)
  end.

(** [content.replace(old, new)]: the first occurrence only. *)
Fixpoint replace_first (content old new before : string) {struct content}
  : string :=
  if Js.startsWith content old then
    before ++ expand new old before (Js.drop (String.length old) content)
           ++ Js.drop (String.length old) content
  else
    match content with
    | EmptyString => before
    | String c t => replace_first t old new (before ++ String c "")
    end.

Definition replace_text_in_file (tc : toolCall) : M string :=
  fpath <- validatePath_any currentWorkingDirectory (argOf tc "file_name") ;;
  content <- do_readFile fpath ;;
  match argOf tc "old_string", argOf tc "new_string", argOf tc "file_name" with
  | Some old, Some new, Some name =>
      if negb (Js.includes content (toText old)) then
        ret "Error: 'old_string' not found exactly."
      else
        let count := (Z.of_nat (split_length content (toText old)) - 1)%Z in
        if (1 <? count)%Z then
          ret ("Error: Found " ++ Js.string_of_Z count ++ " occurrences. Be more specific.")
        else
          do_writeFile fpath (replace_first content (toText old) (toText new) "") ;;
          push_file (toText name) ;;
          ret "Success: Text replaced."
  | _, _, _ => ret ""
  end.

Fixpoint delete_matching (test : string -> bool) (files deleted : list string)
  : M (list string) :=
  match files with
  | [] => ret deleted
  | file :: more =>
      if test file then
        let target := Path.join [currentWorkingDirectory; file] in
        await (fun t => rm env t target) (ERm target) ;;
        delete_matching test more (deleted ++ [file])%list
      else delete_matching test more deleted
  end.

Definition delete_files_by_pattern (pattern : Json.json) : M string :=
  match regexp_test env pattern with
  | Threw e => throw e
  | Ok test =>
      files <- do_readdir currentWorkingDirectory ;;
      deleted <- delete_matching test files [] ;;
      ret ("Deleted " ++ Js.string_of_nat (List.length deleted) ++ " files: "
           ++ Js.join ", " deleted)
  end.

(** The file-system tools (the [if (allowFileSystem)] block); the result
    is the new [toolResult], empty when no branch applies. *)
Definition fileSystemTools (tc : toolCall) : M string :=
  if Json.is_str (tool tc) "read_file" && Json.truthyV (argOf tc "file_name") then
    fpath <- validatePath_any currentWorkingDirectory (argOf tc "file_name") ;;
    do_readFile fpath
  else if Json.is_str (tool tc) "list_directory" then
    files <- do_readdir currentWorkingDirectory ;;
    ret (Json.stringify_strings files)
  else if Json.is_str (tool tc) "save_file" then
    save_file tc
  else if Json.is_str (tool tc) "replace_text_in_file"
          && Json.truthyV (argOf tc "file_name")
          && Json.truthyV (argOf tc "old_string")
          && Json.truthyV (argOf tc "new_string") then
    replace_text_in_file tc
  else if Json.is_str (tool tc) "delete_files_by_pattern"
          && Json.truthyV (argOf tc "pattern") then
    match argOf tc "pattern" with
    | Some pattern => delete_files_by_pattern pattern
    | None => ret ""
    end
  else if Json.is_str (tool tc) "rag_local_files" then
    ret "Local RAG available (mocked for refactor)."
  else ret "".

(** The web tools (the [if (allowWeb && !toolResult)] block). *)
Definition webTools (tc : toolCall) : M string :=
  if Json.is_str (tool tc) "wikipedia_search" then ret "Wiki Search (mocked)"
  else if Json.is_str (tool tc) "duckduckgo_search" then
    await (fun t => duck_search env t (argOf tc "query")) (ESearch (argOf tc "query"))
  else if Json.is_str (tool tc) "fetch_web_content" && Json.truthyV (argOf tc "url") then
    text <- await (fun t => fetch_text env t (argOf tc "url")) (EFetchUrl (argOf tc "url")) ;;
    ret (Js.substring text 0 5000)
  else ret "".

(** The temporary script of [run_python]:
    [join(currentWorkingDirectory, `temp_script_${Date.now()}.py`)] *)
Definition scriptPath (ms : Z) : string :=
  Path.join [currentWorkingDirectory;
             "temp_script_" ++ Js.string_of_Z ms ++ ".py"].

(** [originalRunPythonImplementation({ python })]: the snippet is written
    to a temporary script in the working directory, the interpreter is
    started on the script and awaited, and the script is removed.
    [run_python env] stands for the child process: it answers with what the
    process printed, or throws when the process cannot be started or exits
    with a code other than zero, and the script is then left where it is.
    A snippet that is [undefined] makes [writeFile] throw before it touches
    the disk (the text of the message is shortened here). *)
Definition originalRunPythonImplementation (python : Json.value)
  : M (string * string) :=
  ms <- do_date_now ;;
  let scriptFilePath := scriptPath ms in
  match python with
  | Some data => do_writeFile_any scriptFilePath data
  | None => throw "The data argument must be of type string. Received undefined"
  end ;;
  res <- await (fun t => run_python env t scriptFilePath)
               (ERunPython scriptFilePath) ;;
  await (fun t => rm env t scriptFilePath) (ERm scriptFilePath) ;;
  let '(stdout, stderr) := res in
  ret (Js.trim stdout, Js.trim stderr).

(** The code tools (the [if (allowCode && !toolResult)] block). *)
Definition codeTools (tc : toolCall) : M string :=
  if Json.is_str (tool tc) "run_python" then
    res <- originalRunPythonImplementation (argOf tc "python") ;;
    let '(stdout, stderr) := res in
    ret (if negb (String.eqb stderr "") then "Error: " ++ stderr else stdout)
  else ret "".

(** The [try { ... } catch (err) { toolResult = `Error: ${err.message}` }]
    around the three blocks. *)
Definition dispatch (tc : toolCall) : M string :=
  try_catch
    (r1 <- (if allowFileSystem then fileSystemTools tc else ret "") ;;
     r2 <- (if allowWeb && String.eqb r1 "" then webTools tc else ret r1) ;;
     r3 <- (if allowCode && String.eqb r2 "" then codeTools tc else ret r2) ;;
     ret (if String.eqb r3 "" then "Error: Tool not found/allowed." else r3))
    (fun message => ret ("Error: " ++ message)).

(* ---------------------------------------------------------------- *)
(** ** The loop *)
(* ---------------------------------------------------------------- *)

Variable allow_tools forceTools : bool.
Variable loopLimit : Z.

Definition toolsEnabled : bool := allow_tools || forceTools.

(** What [runAgentLoop] returns. *)
Inductive result : Type :=
| Error (error : string) (files : list string)        (* [{error, filesModified}] *)
| Response (response : string) (files : list string). (* [{response, filesModified}] *)

(** How one pass through the body of the [while] ends. *)
Inductive flow : Type :=
| Continue                 (* back to the loop test *)
| Break                    (* [break], [finalContent] is set *)
| Return (r : result).     (* [return] out of [runAgentLoop] *)

Definition refusalNotice : string :=
  "SYSTEM ERROR: You HAVE access to tools. USE THEM.".

Definition noToolNotice : string :=
  "SYSTEM NOTICE: You did not call a tool. If you are finished, output 'TASK_COMPLETED'. If not, please USE A TOOL (e.g., save_file, read_file) to proceed.".

Definition increment_loops : M unit := update (set_loops (fun n => n + 1)%Z).

(** [toolCall && toolCall.tool]: the call that will be dispatched. *)
Definition detectToolCall (trimmed : string) : option toolCall :=
  match parseToolCall trimmed with
  | Some tc => if Json.truthyV (tool tc) then Some tc else None
  | None => None
  end.

(** The part of the body after the reply has been cleaned up. *)
Definition handleContent (content : string) : M flow :=
  if negb toolsEnabled then
    files <- read filesModified ;;
    ret (Return (Response content files))
  else
    let trimmed := Js.trim content in
    if isRefusal trimmed then
      push_message "assistant" content ;;
      push_message "system" refusalNotice ;;
      increment_loops ;;
      ret Continue
    else
      match detectToolCall trimmed with
      | Some tc =>
          push_message "assistant" content ;;
          toolResult <- dispatch tc ;;
          push_message "user" ("Tool Output: " ++ toolResult) ;;
          increment_loops ;;
          ret Continue
      | None =>
          (* no tool call detected *)
          n <- read loops ;;
          if Js.includes content "TASK_COMPLETED" || (loopLimit - 1 <=? n)%Z then
            update (set_finalContent (fun _ => content)) ;;
            ret Break
          else
            push_message "assistant" content ;;
            push_message "system" noToolNotice ;;
            increment_loops ;;
            ret Continue
      end.

(** One pass through the body of [while (loops < loopLimit)]. *)
Definition turn : M flow :=
  fun m =>
    let reply := chat env (trace m) (msgList m) in
    let m1 := set_trace (fun t => t ++ [EChat (msgList m) reply])%list m in
    match reply with
    | ChatThrew message => (Ok (Return (Error message (filesModified m1))), m1)
    | ChatStatus status =>
        (Ok (Return (Error ("API Error: " ++ Js.string_of_Z status)
                           (filesModified m1))), m1)
    | ChatOk raw => handleContent (cleanup raw) m1
    end.

(** [while (loops < loopLimit) { ... }]; [None] when the fuel runs out
    before the loop is left. *)
Fixpoint agentLoop (fuel : nat) (m : mem) : option (flow * mem) :=
  if (loops m <? loopLimit)%Z then
    match fuel with
    | 0 => None
    | S fuel' =>
        match turn m with
        | (Ok Continue, m') => agentLoop fuel' m'
        | (Ok f, m') => Some (f, m')
        | (Threw message, m') =>
            Some (Return (Error message (filesModified m')), m')
        end
    end
  else Some (Break, m).

(* ---------------------------------------------------------------- *)
(** ** Auto-save: the code-artifact extraction after the loop *)
(* ---------------------------------------------------------------- *)

Definition space : regex := Chr Js.is_space.        (* [\s] *)
Definition word : regex := Chr Js.is_word.          (* [\w] *)
Definition fence : regex := lit "```".

(** [/```\s*(\w+)?\s*([\s\S]*?)```/g] *)
Definition codeBlockRegex : regex :=
  seq [fence; star space; opt (Grp 1 (plus word)); star space;
       Grp 2 (lazy_star (Chr any)); fence].

(** [tsx|ts|jsx|js|html|css|json|md|py|sh|java|rs|go|sql|yaml|yml|c|cpp|h|hpp|txt]
    under the i flag *)
Definition extension : regex :=
  alts (map lit_ci
    [ "tsx"; "ts"; "jsx"; "js"; "html"; "css"; "json"; "md"; "py"; "sh";
      "java"; "rs"; "go"; "sql"; "yaml"; "yml"; "c"; "cpp"; "h"; "hpp"; "txt" ]).

(** The class of path characters: word characters, [-], [/], [\] and [.] *)
Definition path_char (c : ascii) : bool :=
  Js.is_word c || Ascii.eqb c "-"%char || Ascii.eqb c "/"%char
  || Ascii.eqb c "\"%char || Ascii.eqb c "."%char.

(** The captured file name: path characters, a dot, a known extension. *)
Definition fileNameGroup : regex :=
  Grp 1 (seq [plus (Chr path_char); lit "."; extension]).

(** The pattern of [nameMatch]: a backtick, [**], [###], [filename:] or
    [file:], then as little as possible, then the file name. *)
Definition nameRegex : regex :=
  seq [alts [lit "`"; lit "**"; lit "###"; lit_ci "filename:"; lit_ci "file:"];
       lazy_star (Chr any); fileNameGroup].

(** The pattern of [commentMatch]: at the start of the line a comment
    opener, blanks, an optional [filename:] or [file:], blanks, the name. *)
Definition commentRegex : regex :=
  seq [Bos; alts [lit "//"; lit "#"; lit "<!--"; lit ";"]; star space;
       opt (alts [lit_ci "filename:"; lit_ci "file:"]); star space;
       fileNameGroup].

(** One match of [codeBlockRegex]. *)
Record block : Type := Block {
  fullBlock : string;     (* [match[0]] *)
  lang : string;          (* [(match[1] || "txt").toLowerCase()] *)
  code : string;          (* [match[2]] *)
  start : nat             (* [match.index || 0] *)
}.

Definition block_of (m : found) : block :=
  Block (whole m)
        (Js.toLowerCase
           (match group 1 (groups m) with
            | Some l => if String.eqb l "" then "txt" else l
            | None => "txt"
            end))
        (match group 2 (groups m) with Some c => c | None => "" end)
        (index m).

(** [Array.from(finalContent.matchAll(codeBlockRegex))] *)
Definition blocks (text : string) : list block :=
  map block_of (matchAll codeBlockRegex text).

Definition first_group (r : regex) (s : string) : string :=
  match search r s with
  | Some m => match group 1 (groups m) with Some n => Js.trim n | None => "" end
  | None => ""
  end.

(** The file name found before the block, in the 500 characters of
    [text] that precede it. *)
Definition lookbackName (text : string) (b : block) : string :=
  first_group nameRegex (Js.substring text (start b - 500) (start b)).

(** [code.split('\n')[0]] *)
Fixpoint firstLineOf (s : string) : string :=
  match s with
  | EmptyString => EmptyString
  | String c t => if (Js.code c =? 10)%nat then EmptyString else String c (firstLineOf t)
  end.

(** The file name in a comment on the first line of the block. *)
Definition commentName (b : block) : string :=
  first_group commentRegex (Js.trim (firstLineOf (code b))).

(** The [fileName] of the single-file path: the lookback first, the
    first-line comment when the lookback gave nothing. *)
Definition inferFileName (text : string) (b : block) : string :=
  let fileName := lookbackName text b in
  if String.eqb fileName "" then commentName b else fileName.

Definition isShell (lang : string) : bool :=
  existsb (String.eqb lang)
    ["bash"; "sh"; "cmd"; "powershell"; "console"; "zsh"; "terminal"].

Definition has (set : list string) (x : string) : bool :=
  existsb (String.eqb x) set.

Definition add_processed (name : string) : M unit :=
  update (set_processedFiles (fun s => if has s name then s else s ++ [name])%list).

(** [finalContent.slice(0, index) + replacement + finalContent.slice(index + fullBlock.length)] *)
Definition replace_span (b : block) (replacement : string) : M unit :=
  update (set_finalContent (fun text =>
    Js.take (start b) text ++ replacement
    ++ Js.drop (start b + String.length (fullBlock b)) text)).

(** One entry of a JSON batch; returns 1 when the entry was written. *)
Definition extract_batch_item (item : Json.json) : M nat :=
  p1 <- member item "path" ;;
  p2 <- member item "file_name" ;;
  p3 <- member item "name" ;;
  let fName := Json.or_ (Json.or_ p1 p2) p3 in
  c1 <- member item "content" ;;
  c2 <- member item "data" ;;
  c3 <- member item "code" ;;
  let fContent := Json.or_ (Json.or_ c1 c2) c3 in
  match fName, fContent with
  | Some (Json.JStr name), Some (Json.JStr data) =>
      if negb (String.eqb name "") && negb (String.eqb data "") then
        fpath <- validatePath_any currentWorkingDirectory fName ;;
        do_mkdir (Path.dirname fpath) ;;
        do_writeFile fpath data ;;
        push_file name ;;
        add_processed name ;;
        ret 1
      else ret 0
  | _, _ => ret 0
  end.

Fixpoint extract_batch (items : list Json.json) (extractedCount : nat) : M nat :=
  match items with
  | [] => ret extractedCount
  | item :: more =>
      n <- extract_batch_item item ;;
      extract_batch more (extractedCount + n)
  end.

(** The smart JSON unpacking of a [json] block; the result is
    [handledAsBatch].  Whatever is thrown inside is caught and the block
    falls through to the single-file path. *)
Definition unpackJson (b : block) : M bool :=
  try_catch
    (match Json.parse (code b) with
     | None => throw "Unexpected token in JSON"
     | Some (Json.JArr items) =>
         extractedCount <- extract_batch items 0 ;;
         if (0 <? extractedCount)%nat then
           replace_span b
             (Js.nl ++ "[System: Successfully extracted and saved "
              ++ Js.string_of_nat extractedCount ++ " files from JSON block.]"
              ++ Js.nl) ;;
           ret true
         else ret false
     | Some _ => ret false
     end)
    (fun _ => ret false).

(** The single-file path of a block that was not handled as a batch. *)
Definition saveSingle (b : block) : M unit :=
  if (50 <? String.length (Js.trim (code b)))%nat then
    text <- read finalContent ;;
    let fileName := inferFileName text b in
    if isShell (lang b) && String.eqb fileName "" then ret tt
    else if String.eqb fileName "" then ret tt
    else
      seen <- read processedFiles ;;
      if has seen fileName then ret tt
      else
        let fpath := Path.join [currentWorkingDirectory; fileName] in
        try_catch
          (do_mkdir (Path.dirname fpath) ;;
           do_writeFile fpath (code b) ;;
           push_file fileName ;;
           add_processed fileName ;;
           replace_span b
             (Js.nl ++ "[System: File '" ++ fileName ++ "' created successfully.]"
              ++ Js.nl))
          (fun _ => console_error ("Failed to auto-save file " ++ fileName ++ ":"))
  else ret tt.

(** The body of the backward [for] loop. *)
Definition processBlock (b : block) : M unit :=
  handledAsBatch <-
    (if String.eqb (lang b) "json" then unpackJson b else ret false) ;;
  if handledAsBatch then ret tt else saveSingle b.

Fixpoint forEach {A} (body : A -> M unit) (xs : list A) : M unit :=
  match xs with
  | [] => ret tt
  | x :: more => body x ;; forEach body more
  end.

Variable autoSave : bool.

(** [if (autoSave && allowFileSystem && finalContent) { ... }]: the blocks
    of the text as it is when the loop ends, walked from the last to the
    first. *)
Definition autoSavePass : M unit :=
  text <- read finalContent ;;
  if autoSave && allowFileSystem && negb (String.eqb text "") then
    update (set_processedFiles (fun _ => [])) ;;
    forEach processBlock (rev (blocks text))
  else ret tt.

(* ---------------------------------------------------------------- *)
(** ** Project history and the whole of [runAgentLoop] *)
(* ---------------------------------------------------------------- *)

Variable taskPrompt : string.

Definition updateProjectInfo : M unit :=
  files <- read filesModified ;;
  if (0 <? List.length files)%nat && allowFileSystem then
    let infoPath := Path.join [currentWorkingDirectory; "beledarian_info.md"] in
    timestamp <- do_now ;;
    let logEntry :=
      Js.nl ++ "- **[" ++ timestamp ++ "]** Task: " ++ String Js.dquote ""
      ++ Js.substring taskPrompt 0 50 ++ "..." ++ String Js.dquote ""
      ++ " | Modified: " ++ Js.join ", " files in
    try_catch
      (await (fun t => appendFile env t infoPath logEntry)
             (EAppendFile infoPath logEntry))
      (fun _ =>
         try_catch
           (do_writeFile infoPath ("# Project History" ++ Js.nl ++ logEntry))
           (fun _ => ret tt))
  else ret tt.

(** From the [while] loop to the end of [runAgentLoop]: the loop, then
    (unless the loop returned) the auto-save pass, the history entry and
    the final [return].  [None] when the fuel does not suffice for the
    loop; [Threw] would be a rejection of the promise. *)
Definition runFrom (fuel : nat) (m : mem) : option (outcome result * mem) :=
  match agentLoop fuel m with
  | None => None
  | Some (Return r, m') => Some (Ok r, m')
  | Some (_, m') =>
      Some ((autoSavePass ;; updateProjectInfo ;;
             text <- read finalContent ;;
             files <- read filesModified ;;
             ret (Response text files)) m')
  end.

(* ---------------------------------------------------------------- *)
(** ** The system prompt and the first two messages *)
(* ---------------------------------------------------------------- *)

Variable role contextData subAgentProfilesStr : string.

Definition reviewerPersona : string :=
  Js.nl ++ Js.nl ++ "## Your Persona" ++ Js.nl
  ++ "You are a Senior Code Reviewer. Your job is to analyze code, find bugs, security issues, or logic errors, and FIX them."
  ++ Js.nl ++ Js.nl
  ++ "IMPORTANT: To fix a file, you MUST use the 'save_file' tool with the complete, corrected content. DO NOT use 'container.exec' or diff formats. Just overwrite the file with the fixed version using 'save_file'.".

(** The persona paragraph; nothing when the profiles do not parse or
    reading [profiles[role]] throws. *)
Definition personaOf : string :=
  match Json.parse subAgentProfilesStr with
  | Some Json.JNull | None => ""
  | Some profiles =>
      match Json.prop profiles role with
      | Some p =>
          if Json.truthy p
          then Js.nl ++ Js.nl ++ "## Your Persona" ++ Js.nl ++ toText p
          else if String.eqb role "reviewer" then reviewerPersona else ""
      | None => if String.eqb role "reviewer" then reviewerPersona else ""
      end
  end.

Definition allowedTools : list string :=
  ((if allowFileSystem
    then ["read_file"; "list_directory"; "save_file"; "replace_text_in_file";
          "delete_files_by_pattern"; "rag_local_files"; "search_file_content"]
    else [])
   ++ (if allowWeb
       then ["wikipedia_search"; "duckduckgo_search"; "fetch_web_content";
             "rag_web_content"]
       else [])
   ++ (if allowCode then ["run_python"; "run_javascript"] else []))%list.

Definition hasTools : bool :=
  toolsEnabled && (0 <? List.length allowedTools)%nat.

(** A file read whose failure is ignored: [try { ... } catch (e) { }] *)
Definition readOptional (path : string) : M string :=
  try_catch (do_readFile path) (fun _ => ret "").

Definition buildSystemPrompt : M string :=
  instructions <- readOptional (Path.join [currentWorkingDirectory; "SUB_AGENT_INSTRUCTIONS.md"]) ;;
  let p0 := if String.eqb (Js.trim instructions) ""
            then "You are a helpful assistant." else instructions in
  projectInfo <- readOptional (Path.join [currentWorkingDirectory; "beledarian_info.md"]) ;;
  let p1 := if String.eqb (Js.trim projectInfo) "" then p0
            else p0 ++ Js.nl ++ Js.nl
                 ++ "## ? Current Project Info (beledarian_info.md)" ++ Js.nl
                 ++ projectInfo ++ Js.nl in
  let p2 := p1 ++ Js.nl ++ Js.nl ++ "## ? Current Workspace" ++ Js.nl
            ++ "Your current working directory is: " ++ Js.nl ++ Js.nl
            ++ currentWorkingDirectory ++ Js.nl
            ++ "Always assume relative paths are from this directory." in
  let p3 := p2 ++ personaOf in
  ret (if hasTools
       then p3 ++ Js.nl ++ Js.nl ++ "## Allowed Tools" ++ Js.nl
            ++ "You have access to the following tools via JSON output: "
            ++ Js.join ", " allowedTools ++ "." ++ Js.nl
            ++ Js.q "Refer to the 'Tool Usage' section above for the JSON format."
            ++ Js.nl
       else p3).

Definition toolsReminder : string :=
  if hasTools
  then Js.nl ++ Js.nl ++ "[SYSTEM REMINDER: You have access to tools: "
       ++ Js.join ", " allowedTools
       ++ ". If you need information you don't have, USE A TOOL. Do not refuse.]"
  else "".

(** The state in which the [while] loop is entered, after the events
    [before] of the session so far. *)
Definition initialState (before : list event) : mem :=
  match buildSystemPrompt (Mem [] 0%Z "" [] [] before) with
  | (r, m) =>
      let currentSystemPrompt := match r with Ok p => p | Threw _ => "" end in
      Mem [ Msg "system" currentSystemPrompt;
            Msg "user" ("Task: " ++ taskPrompt ++ Js.nl ++ Js.nl ++ "Context: "
                        ++ contextData ++ toolsReminder) ]
          0%Z "" [] [] (trace m)
  end.

(** [runAgentLoop(role, taskPrompt, contextData, loopLimit, forceTools,
    currentWorkingDirectory)] *)
Definition runAgentLoop (fuel : nat) (before : list event)
  : option (outcome result * mem) :=
  runFrom fuel (initialState before).

End Engine.

(* ================================================================== *)
(** ** Reading a trace *)
(* ================================================================== *)

(** The number of chat-completion calls in a trace. *)
Definition isChat (e : event) : bool :=
  match e with EChat _ _ => true | _ => false end.

Definition chatCalls (t : list event) : nat := List.length (filter isChat t).

(** The successful file writes of a trace, oldest first. *)
Fixpoint writesOf (t : list event) : list (string * string) :=
  match t with
  | [] => []
  | EWriteFile path data (Ok _) :: more => (path, data) :: writesOf more
  | _ :: more => writesOf more
  end.

(** The error text of a reply that is not a success. *)
Definition errorOf (reply : chat_reply) : string :=
  match reply with
  | ChatThrew message => message
  | ChatStatus status => "API Error: " ++ Js.string_of_Z status
  | ChatOk _ => ""
  end.

Definition logChat (m : mem) (reply : chat_reply) : mem :=
  set_trace (fun t => t ++ [EChat (msgList m) reply])%list m.

(** [m'] differs from [m] by nothing the loop control looks at: the same
    turn counter, the same transcript, no further chat call. *)
Definition quiet (m m' : mem) : Prop :=
  loops m' = loops m /\ msgList m' = msgList m
  /\ chatCalls (trace m') = chatCalls (trace m).

(** A computation that is quiet from every state. *)
Definition keeps {A} (c : M A) : Prop := forall m, quiet m (snd (c m)).

(** A computation that never throws. *)
Definition total {A} (c : M A) : Prop := forall m, exists a, fst (c m) = Ok a.

(* ================================================================== *)
(** ** A reference world *)
(* ================================================================== *)

(** A world in which the endpoint answers with the scripted [replies], one
    per call, no file exists yet, every file operation succeeds, and the
    clock of [Date.now()] ticks once per event. *)
Definition scripted (replies : list chat_reply) (t : list event) : chat_reply :=
  nth (List.length (filter (fun e => match e with EChat _ _ => true | _ => false end) t))
      replies (ChatThrew "fetch failed").

Definition calm (replies : list chat_reply) : Env :=
  {| chat := fun t _ => scripted replies t;
     readFile := fun _ _ => Threw "ENOENT: no such file or directory";
     readdir := fun _ _ => Ok [];
     mkdir := fun _ _ => Ok tt;
     writeFile := fun _ _ _ => Ok tt;
     appendFile := fun _ _ _ => Ok tt;
     rm := fun _ _ => Ok tt;
     duck_search := fun _ _ => Ok "[]";
     fetch_text := fun _ _ => Ok "";
     run_python := fun _ _ => Ok ("", "");
     now_iso := fun _ => "2025-01-01T00:00:00.000Z";
     date_now := fun t => Z.of_nat (List.length t);
     process_cwd := "/";
     text_of := fun _ => "[object Object]";
     payload_of := fun _ => Threw "The data argument must be of type string";
     regexp_test := fun _ => Ok (fun _ => false) |}.

(** The same world, except that the first attempt to write a file fails. *)
Definition isWrite (e : event) : bool :=
  match e with EWriteFile _ _ _ => true | _ => false end.

Definition firstWriteFails : Env :=
  {| chat := chat (calm []);
     readFile := readFile (calm []);
     readdir := readdir (calm []);
     mkdir := mkdir (calm []);
     writeFile := fun t _ _ =>
       if existsb isWrite t then Ok tt else Threw "EACCES: permission denied";
     appendFile := appendFile (calm []);
     rm := rm (calm []);
     duck_search := duck_search (calm []);
     fetch_text := fetch_text (calm []);
     run_python := run_python (calm []);
     now_iso := now_iso (calm []);
     date_now := date_now (calm []);
     process_cwd := process_cwd (calm []);
     text_of := text_of (calm []);
     payload_of := payload_of (calm []);
     regexp_test := regexp_test (calm []) |}.

(** The state of an invocation in its first turn, with the given messages. *)
Definition fresh (msgs : list message) : mem := Mem msgs 0%Z "" [] [] [].

(* ================================================================== *)
(** ** The specification's reading of the grammar and of the extractor *)
(* ================================================================== *)

(** Follows the specification's words, "the first well-formed [{...}] span
    in the text": the span that opens at the first opening brace and closes
    at the brace that balances it.  [balancedEnd] scans what follows an
    opening brace, [depth] braces being open. *)
Fixpoint balancedEnd (s : string) (depth : nat) (acc : string) : option string :=
  match s with
  | EmptyString => None
  | String c t =>
      if Ascii.eqb c "{"%char then balancedEnd t (S depth) (acc ++ String c "")
      else if Ascii.eqb c "}"%char then
        match depth with
        | 0 => None
        | 1 => Some (acc ++ String c "")
        | S d => balancedEnd t d (acc ++ String c "")
        end
      else balancedEnd t depth (acc ++ String c "")
  end.

Fixpoint firstWellFormedSpan (s : string) : option string :=
  match s with
  | EmptyString => None
  | String c t =>
      if Ascii.eqb c "{"%char then balancedEnd t 1 (String c "")
      else firstWellFormedSpan t
  end.

(** The second half of the tool-use check, on a span already chosen: what
    [parseToolCall] does with the span it considers. *)
Definition parsesToCall (span : string) : bool :=
  match Json.parse span with
  | Some parsed =>
      (Json.truthyV (Json.prop parsed "tool") && Json.truthyV (Json.prop parsed "args"))
      || (Json.truthyV (Json.prop parsed "name") && Json.truthyV (Json.prop parsed "arguments"))
  | None => false
  end.

(** The three inputs of the normalization property. *)
Definition canonicalShape : string :=
  Js.q "{'tool':'save_file','args':{'path':'a.ts','data':'x'}}".
Definition vendorShape : string :=
  Js.q "{'name':'save_file','arguments':{'file_name':'a.ts','content':'x'}}".
Definition bareShape : string :=
  Js.q "to=functions.save_file {'path':'a.ts','data':'x'}".

(** "a normalized tool call named save_file whose args contain file_name
    equal to a.ts and content equal to x" *)
Definition normalizedSaveFile (text : string) : Prop :=
  exists tc,
    parseToolCall text = Some tc /\
    tool tc = Some (Json.JStr "save_file") /\
    argOf tc "file_name" = Some (Json.JStr "a.ts") /\
    argOf tc "content" = Some (Json.JStr "x").

(** What the [save_file] handler takes as the name and the content. *)
Definition savedName (tc : toolCall) : Json.value :=
  Json.or_ (Json.or_ (argOf tc "file_name") (argOf tc "name")) (argOf tc "path").
Definition savedContent (tc : toolCall) : Json.value :=
  Json.or_ (argOf tc "content") (argOf tc "data").

(** What the body of the loop does with a text that is no refusal and
    yields no call: the final text when the marker is there or the turn is
    the last one allowed, the nudge otherwise. *)
Definition noCallOutcome (loopLimit : Z) (content : string) (m : mem)
  : outcome flow * mem :=
  if Js.includes content "TASK_COMPLETED" || (loopLimit - 1 <=? loops m)%Z
  then (Ok Break, set_finalContent (fun _ => content) m)
  else (Ok Continue,
        Mem (msgList m ++ [Msg "assistant" content; Msg "system" noToolNotice])
            (loops m + 1) (finalContent m) (filesModified m)
            (processedFiles m) (trace m)).

(** "every text that contains TASK_COMPLETED ends the loop on that turn,
    whatever else it contains" *)
Definition markerAlwaysEnds : Prop :=
  forall env afs aw ac cwd at_ ft limit (m : mem) raw,
    toolsEnabled at_ ft = true ->
    (loops m < limit)%Z ->
    chat env (trace m) (msgList m) = ChatOk raw ->
    Js.includes (cleanup raw) "TASK_COMPLETED" = true ->
    exists m', turn env afs aw ac cwd at_ ft limit m = (Ok Break, m')
               /\ finalContent m' = cleanup raw.

(** "the parser considers only the first well-formed span" *)
Definition considersFirstSpan : Prop :=
  forall trimmed, jsonMatch trimmed = firstWellFormedSpan trimmed.

(** A block resolves to [name] in [text]: it is long enough for the
    single-file path and the inference yields [name]. *)
Definition resolvesTo (text name : string) (b : block) : bool :=
  (50 <? String.length (Js.trim (code b)))%nat
  && String.eqb (inferFileName text b) name.

Definition timesIn (name : string) (names : list string) : nat :=
  List.length (filter (String.eqb name) names).

(** The data of the successful writes to [path], oldest first. *)
Definition writesTo (path : string) (t : list event) : list string :=
  map snd (filter (fun w => String.eqb (fst w) path) (writesOf t)).

(** The auto-save pass over [text], started from a clean state. *)
Definition passOver (env : Env) (cwd text : string) : mem :=
  snd (autoSavePass env true cwd true (Mem [] 0%Z text [] [] [])).

(** "two or more blocks whose inferred path is the same: the pass writes
    that path exactly once, with the body of the last of them" *)
Definition lastOfSamePathWins (env : Env) (cwd text name : string) : Prop :=
  let same :=
    filter (fun b => String.eqb (inferFileName text b) name) (blocks text) in
  2 <= List.length same ->
  writesTo (Path.join [cwd; name]) (trace (passOver env cwd text))
  = [code (List.last same (Block "" "" "" 0))].

(** The span the tool-use check considers, computed directly: it opens at
    the first opening brace that has a closing brace somewhere after it and
    runs to the last closing brace of the text.  [lastClose t] is the length
    of [t] up to and including its last closing brace. *)
Fixpoint lastClose (t : string) : option nat :=
  match t with
  | EmptyString => None
  | String c u =>
      match lastClose u with
      | Some n => Some (S n)
      | None => if Ascii.eqb c "}"%char then Some 1 else None
      end
  end.

Fixpoint openToLastClose (s : string) : option string :=
  match s with
  | EmptyString => None
  | String c t =>
      if Ascii.eqb c "{"%char then
        match lastClose t with
        | Some n => Some (String c (Js.take n t))
        | None => openToLastClose t
        end
      else openToLastClose t
  end.

Fixpoint occurs (c : ascii) (s : string) : bool :=
  match s with
  | EmptyString => false
  | String x t => Ascii.eqb x c || occurs c t
  end.

(** An entry of a JSON batch that the unpacking would write: a non-empty
    string under [path], [file_name] or [name] and a non-empty string under
    [content], [data] or [code]. *)
Definition saveable (item : Json.json) : bool :=
  match Json.or_ (Json.or_ (Json.prop item "path") (Json.prop item "file_name"))
                 (Json.prop item "name"),
        Json.or_ (Json.or_ (Json.prop item "content") (Json.prop item "data"))
                 (Json.prop item "code") with
  | Some (Json.JStr name), Some (Json.JStr data) =>
      negb (String.eqb name "") && negb (String.eqb data "")
  | _, _ => false
  end.

(** A JSON batch block: tagged [json], its body an array with at least one
    saveable entry. *)
Definition isBatch (b : block) : bool :=
  String.eqb (lang b) "json"
  && match Json.parse (code b) with
     | Some (Json.JArr items) => existsb saveable items
     | _ => false
     end.

(** The state after the single-file path has saved block [b] as
    [fileName]: the directory made, the file written with the body of the
    block, the name recorded, the span of the block replaced by the marker. *)
Definition savedState (cwd : string) (b : block) (fileName : string) (m : mem)
  : mem :=
  let fpath := Path.join [cwd; fileName] in
  Mem (msgList m) (loops m)
      (Js.take (start b) (finalContent m)
       ++ (Js.nl ++ "[System: File '" ++ fileName ++ "' created successfully.]"
           ++ Js.nl)
       ++ Js.drop (start b + String.length (fullBlock b)) (finalContent m))
      (filesModified m ++ [fileName])
      (processedFiles m ++ [fileName])
      (trace m ++ [EMkdir (Path.dirname fpath) (Ok tt);
                   EWriteFile fpath (code b) (Ok tt)]).

(** The state of the backward walk after the blocks [done]. *)
Definition walked (env : Env) (cwd : string) (done : list block) (m : mem) : mem :=
  snd (forEach (processBlock env cwd) done (set_processedFiles (fun _ => []) m)).

(** What the single-file path does with block [b] in state [m], spelled
    out: nothing unless the body is long enough, a name is inferred and that
    name has not been processed; otherwise the directory is made and the file
    written, and a failure of either is logged and otherwise ignored. *)
Definition singleStep (env : Env) (cwd : string) (b : block) (m : mem) : mem :=
  let fileName := inferFileName (finalContent m) b in
  let fpath := Path.join [cwd; fileName] in
  let failed := EConsoleError ("Failed to auto-save file " ++ fileName ++ ":") in
  if (50 <? String.length (Js.trim (code b)))%nat
     && negb (String.eqb fileName "")
     && negb (has (processedFiles m) fileName)
  then
    match mkdir env (trace m) (Path.dirname fpath) with
    | Threw e =>
        set_trace (fun t => t ++ [EMkdir (Path.dirname fpath) (Threw e); failed])%list m
    | Ok _ =>
        match writeFile env (trace m ++ [EMkdir (Path.dirname fpath) (Ok tt)])
                        fpath (code b) with
        | Threw e =>
            set_trace (fun t => t ++ [EMkdir (Path.dirname fpath) (Ok tt);
                                      EWriteFile fpath (code b) (Threw e); failed])%list m
        | Ok _ => savedState cwd b fileName m
        end
    end
  else m.

(** An event that is no file write, or a write to a path that
    [validatePath] returned for some requested name. *)
Definition guarded (env : Env) (cwd : string) (e : event) : Prop :=
  match e with
  | EWriteFile path _ _ => exists name, validatePath env cwd name = Ok path
  | _ => True
  end.

(** A computation that only adds guarded events to the trace. *)
Definition writesGuarded {A} (env : Env) (cwd : string) (c : M A) : Prop :=
  forall m, exists evs,
    trace (snd (c m)) = (trace m ++ evs)%list /\ Forall (guarded env cwd) evs.

(** The first [K] characters of the text being rewritten are still those of
    the original [text]. *)
Definition prefixKept (text : string) (K : nat) (m : mem) : Prop :=
  K <= String.length text /\ Js.take K (finalContent m) = Js.take K text.

(* ================================================================== *)
(** ** Sample texts *)
(* ================================================================== *)

Definition versionA : string :=
  "export const a = 1; // first version of the module, long enough".
Definition versionB : string :=
  "export const a = 2; // second version of the module, long enough".

Definition tsBlock (heading body : string) : string :=
  "### " ++ heading ++ Js.nl ++ "```ts" ++ Js.nl ++ body ++ Js.nl ++ "```" ++ Js.nl.

(** Two versions of [a.ts], one after the other. *)
Definition twoVersions : string :=
  tsBlock "a.ts" versionA ++ tsBlock "a.ts" versionB ++ "TASK_COMPLETED".

Definition firstBlock : block :=
  Eval vm_compute in nth 0 (blocks twoVersions) (Block "" "" "" 0).
Definition lastBlock : block :=
  Eval vm_compute in nth 1 (blocks twoVersions) (Block "" "" "" 0).

(** Two blocks under the heading [a.ts], the second one short. *)
Definition shortLast : string :=
  tsBlock "a.ts" versionA ++ tsBlock "a.ts" "export const a = 2;"
  ++ "TASK_COMPLETED".

(** The same after a JSON batch that also names [a.ts]. *)
Definition batchThenTwo : string :=
  "```json" ++ Js.nl ++ Js.q "[{'path':'a.ts','content':'old'}]" ++ Js.nl
  ++ "```" ++ Js.nl ++ twoVersions.

(** A final text whose heading names a file above the working directory. *)
Definition escapingReply : string :=
  tsBlock "../evil.ts" versionA ++ "TASK_COMPLETED".

(* ================================================================== *)
(** ** Relations between the state before and after a computation *)
(* ================================================================== *)

(** [R] holds between every state and the state the computation leaves. *)
Definition preserves {A} (R : mem -> mem -> Prop) (c : M A) : Prop :=
  forall m, R m (snd (c m)).

(** The trace has only gained events that satisfy [P]. *)
Definition adds (P : event -> Prop) (m m' : mem) : Prop :=
  exists evs, trace m' = (trace m ++ evs)%list /\ Forall P evs.

(** [filesModified] has only gained entries. *)
Definition grows (m m' : mem) : Prop :=
  exists added, filesModified m' = (filesModified m ++ added)%list.

(** A call to the file system. *)
Definition isFsEvent (e : event) : bool :=
  match e with
  | EReadFile _ _ | EReaddir _ _ | EMkdir _ _ | EWriteFile _ _ _
  | EAppendFile _ _ _ | ERm _ _ => true
  | _ => false
  end.

(** Where the name [n] is saved: at the path [validatePath] gives for it
    (the save tools and the JSON unpacking), or at the name joined to the
    working directory (the single-file path of the auto-save pass). *)
Definition savedAt (env : Env) (cwd n path : string) : Prop :=
  validatePath env cwd n = Ok path \/ path = Path.join [cwd; n].

(** Among the events [evs] there is a successful write of the file of [n]. *)
Definition written (env : Env) (cwd : string) (evs : list event) (n : string)
  : Prop :=
  exists path data, In (path, data) (writesOf evs) /\ savedAt env cwd n path.

(** An event that is no call to the file system, or the write or the
    removal of a temporary script of [run_python]. *)
Definition offDisk (cwd : string) (e : event) : Prop :=
  match e with
  | EWriteFile p _ _ | ERm p _ => exists ms, p = scriptPath cwd ms
  | EReadFile _ _ | EReaddir _ _ | EMkdir _ _ | EAppendFile _ _ _ => False
  | _ => True
  end.

(** What a stretch of the run did to the disk and to the list of modified
    files: the trace gained [evs], [filesModified] gained [added], every name
    added was written among [evs], no more names were added than files
    written; with the file-system permission off ([fs = false]) no name was
    added and the disk was touched only for the temporary scripts of
    [run_python], and not at all when the code permission is off too
    ([py = false]). *)
Definition audited (env : Env) (cwd : string) (fs py : bool) (m m' : mem)
  : Prop :=
  exists evs added,
    trace m' = (trace m ++ evs)%list
    /\ filesModified m' = (filesModified m ++ added)%list
    /\ Forall (written env cwd evs) added
    /\ List.length added <= List.length (writesOf evs)
    /\ (fs = false -> added = [] /\ Forall (offDisk cwd) evs)
    /\ (fs = false -> py = false -> existsb isFsEvent evs = false).

(** The list of files a result reports. *)
Definition filesOf (r : result) : list string :=
  match r with
  | Error _ files => files
  | Response _ files => files
  end.

(** The tool names each block of the dispatcher handles. *)
Definition fileSystemToolNames : list string :=
  [ "read_file"; "list_directory"; "save_file"; "replace_text_in_file";
    "delete_files_by_pattern"; "rag_local_files" ].
Definition webToolNames : list string :=
  [ "wikipedia_search"; "duckduckgo_search"; "fetch_web_content" ].
Definition codeToolNames : list string := [ "run_python" ].

(** The call names a tool of a block whose permission is on. *)
Definition offered (allowFileSystem allowWeb allowCode : bool) (tc : toolCall)
  : bool :=
  allowFileSystem && existsb (Json.is_str (tool tc)) fileSystemToolNames
  || allowWeb && existsb (Json.is_str (tool tc)) webToolNames
  || allowCode && existsb (Json.is_str (tool tc)) codeToolNames.

Definition toolNotFound : string := "Error: Tool not found/allowed.".

(** A [save_file] call for one file. *)
Definition saveCall (args : Json.json) : toolCall :=
  ToolCall (Some (Json.JStr "save_file")) (Some args).

(** A world like [calm []] in which every file exists and is empty. *)
Definition emptyFiles : Env :=
  {| chat := chat (calm []);
     readFile := fun _ _ => Ok "";
     readdir := readdir (calm []);
     mkdir := mkdir (calm []);
     writeFile := writeFile (calm []);
     appendFile := appendFile (calm []);
     rm := rm (calm []);
     duck_search := duck_search (calm []);
     fetch_text := fetch_text (calm []);
     run_python := run_python (calm []);
     now_iso := now_iso (calm []);
     date_now := date_now (calm []);
     process_cwd := process_cwd (calm []);
     text_of := text_of (calm []);
     payload_of := payload_of (calm []);
     regexp_test := regexp_test (calm []) |}.

(** Sample calls. *)
Definition saveInside : toolCall :=
  saveCall (Json.JObj [("path", Json.JStr "src/a.ts"); ("data", Json.JStr "x")]).
Definition saveOutside : toolCall :=
  saveCall (Json.JObj [("file_name", Json.JStr "../evil.ts");
                       ("content", Json.JStr "x")]).
Definition sampleBatch : list Json.json :=
  [ Json.JObj [("name", Json.JStr "a.ts"); ("content", Json.JStr "x")];
    Json.JStr "junk";
    Json.JObj [("path", Json.JStr "../b.ts"); ("data", Json.JStr "y")];
    Json.JObj [("file_name", Json.JStr "c.ts"); ("data", Json.JStr "z")] ].
Definition saveBatch : toolCall :=
  saveCall (Json.JObj [("files", Json.JArr sampleBatch)]).
Definition readCall (name : string) : toolCall :=
  ToolCall (Some (Json.JStr "read_file"))
           (Some (Json.JObj [("file_name", Json.JStr name)])).

(** The index just after a block in the text it was found in. *)
Definition spanEnd (b : block) : nat := start b + String.length (fullBlock b).

(** Two states with the same text. *)
Definition sameText (m m' : mem) : Prop := finalContent m' = finalContent m.
(** The name and the content the JSON unpacking takes from a batch entry. *)
Definition batchName (item : Json.json) : Json.value :=
  Json.or_ (Json.or_ (Json.prop item "path") (Json.prop item "file_name"))
           (Json.prop item "name").
Definition batchData (item : Json.json) : Json.value :=
  Json.or_ (Json.or_ (Json.prop item "content") (Json.prop item "data"))
           (Json.prop item "code").

(** A batch entry that can be saved, described by its name, the path
    [validatePath] gives for the name, and its content. *)
Record entry : Type := Entry { entryName : string; entryPath : string; entryData : string }.

Definition entryOf (env : Env) (cwd : string) (item : Json.json) (e : entry)
  : Prop :=
  batchName item = Some (Json.JStr (entryName e)) /\ entryName e <> ""
  /\ batchData item = Some (Json.JStr (entryData e)) /\ entryData e <> ""
  /\ validatePath env cwd (entryName e) = Ok (entryPath e).

(** The note that replaces an unpacked batch. *)
Definition batchNote (n : nat) : string :=
  Js.nl ++ "[System: Successfully extracted and saved "
  ++ Js.string_of_nat n ++ " files from JSON block.]" ++ Js.nl.

(** The JSON block of [batchThenTwo], its entries, and the state in which
    the walk over [batchThenTwo] starts. *)
Definition batchBlock : block :=
  Eval vm_compute in nth 0 (blocks batchThenTwo) (Block "" "" "" 0).
Definition batchItems : list Json.json :=
  [Json.JObj [("path", Json.JStr "a.ts"); ("content", Json.JStr "old")]].
Definition batchEntries : list entry := [Entry "a.ts" "/home/u/ws/a.ts" "old"].

(** The events of a history update: the clock, and appends or writes to the
    project history file. *)
Definition historyEvent (cwd : string) (e : event) : bool :=
  match e with
  | ENow _ => true
  | EAppendFile p _ _ | EWriteFile p _ _ =>
      String.eqb p (Path.join [cwd; "beledarian_info.md"])
  | _ => false
  end.

(** A call with the given arguments, whatever the tool. *)
Definition callWith (args : Json.json) : toolCall :=
  ToolCall (Some (Json.JStr "save_file")) (Some args).

(* ================================================================== *)
(** ** The [consult_secondary_agent] tool around [runAgentLoop] *)
(* ================================================================== *)

(** [createSafeToolImplementation(originalImplementation, isEnabled,
    toolName)]: the wrapper throws when the tool is disabled. *)
Definition disabledMessage (toolName : string) : string :=
  "Tool '" ++ toolName
  ++ "' is disabled in the plugin settings. Please ask the user to enable 'Allow "
  ++ Regex.replaceAll (Regex.lit "_") " " toolName
  ++ "' (or similar) in the settings.".

Definition createSafeToolImplementation {P R : Type}
           (originalImplementation : P -> list event -> option (outcome R * list event))
           (isEnabled : bool) (toolName : string)
  : P -> list event -> option (outcome R * list event) :=
  fun params t =>
    if negb isEnabled then Some (Threw (disabledMessage toolName), t)
    else originalImplementation params t.

(** What the tool returns: [{error}] or [{response, generated_files}];
    [response] is [None] when it is [undefined]. *)
Inductive consulted : Type :=
| ConsultError (error : string)
| ConsultResponse (response : option string) (generated_files : list string).

(** The parameters of the tool, with their defaults filled in. *)
Record consultParams : Type := ConsultParams {
  task : string;
  agent_role : string;
  context : string;
  allow_tools_param : bool
}.

Section Consult.

Variable env : Env.
Variables enableSecondary debugMode autoSave showFullCode : bool.
Variables allowFileSystem allowWeb allowCode : bool.
Variable subAgentProfilesStr : string.
Variable currentWorkingDirectory : string.

(** A string operand of [+] or of a template literal: [undefined] is
    rendered as its name. *)
Definition shown (v : option string) : string :=
  match v with Some s => s | None => "undefined" end.

(** [result.error] and [result.response]: [None] when the property is
    absent. *)
Definition errorField (r : result) : option string :=
  match r with Error e _ => Some e | Response _ _ => None end.
Definition responseField (r : result) : option string :=
  match r with Error _ _ => None | Response s _ => Some s end.

Definition truthyText (v : option string) : bool :=
  match v with Some s => negb (String.eqb s "") | None => false end.

(** The loop that reads the modified files for the reviewer's context; a
    file that cannot be read is left out. *)
Fixpoint debugContextOf (files : list string) (debugContext : string)
         (t : list event) : string * list event :=
  match files with
  | [] => (debugContext, t)
  | f :: more =>
      let path := Path.join [currentWorkingDirectory; f] in
      let r := readFile env t path in
      let t' := (t ++ [EReadFile path r])%list in
      match r with
      | Ok c =>
          debugContextOf more
            (debugContext ++ Js.nl ++ "--- " ++ f ++ " ---" ++ Js.nl ++ c ++ Js.nl) t'
      | Threw _ => debugContextOf more debugContext t'
      end
  end.

Definition fullPath (f : string) : string :=
  if Path.isAbsolute f then f else Path.join [currentWorkingDirectory; f].

(** [f.split('.').pop() || 'txt'] *)
Definition extensionOf (f : string) : string :=
  let last := List.last (Js.split f ".") "" in
  if String.eqb last "" then "txt" else last.

(** The loop that appends the content of the generated files. *)
Fixpoint generatedCode (files : list string) (finalResponse : string)
         (t : list event) : string * list event :=
  match files with
  | [] => (finalResponse, t)
  | f :: more =>
      let r := readFile env t (fullPath f) in
      let t' := (t ++ [EReadFile (fullPath f) r])%list in
      match r with
      | Ok content =>
          generatedCode more
            (finalResponse ++ Js.nl ++ "**" ++ f ++ "**" ++ Js.nl ++ "```"
             ++ extensionOf f ++ Js.nl ++ content ++ Js.nl ++ "```" ++ Js.nl) t'
      | Threw _ => generatedCode more finalResponse t'
      end
  end.

(** [/```[\s\S]*?```/g] *)
Definition anyBlockRegex : Regex.regex :=
  seq [fence; Regex.lazy_star (Regex.Chr Regex.any); fence].

Definition hiddenNote : string :=
  Js.nl ++ "[System: Code Block Hidden for Brevity. The code has been handled/saved by the sub-agent. Do NOT request it again. Proceed.]" ++ Js.nl.

Definition debugTaskOf (files : list string) : string :=
  "Review the code in these files: " ++ Js.join ", " files
  ++ ". Check for bugs, syntax errors, or logic flaws. If you find any, use 'save_file' to FIX them. If they are correct, confirm it.".

(** The auto-debug pass: the reviewer runs with a limit of five turns and
    tools forced on; what it reports is appended to the response. *)
Definition autoDebug (allow_tools : bool) (files : list string)
           (finalResponse : option string) (fuel : nat) (t : list event)
  : option (outcome (option string) * list event) :=
  let '(debugContext, t1) :=
    debugContextOf files ("Here is the content of the created files:" ++ Js.nl) t in
  match runAgentLoop env allowFileSystem allowWeb allowCode
          currentWorkingDirectory allow_tools true 5%Z autoSave
          (debugTaskOf files) "reviewer" debugContext subAgentProfilesStr
          fuel t1 with
  | None => None
  | Some (Threw e, m2) => Some (Threw e, trace m2)
  | Some (Ok debugResult, m2) =>
      let report :=
        if truthyText (responseField debugResult)
        then shown (responseField debugResult) else "Debug pass completed." in
      let r1 := shown finalResponse ++ Js.nl ++ Js.nl
                ++ "--- Auto-Debug Report ---" ++ Js.nl ++ report in
      let r2 :=
        if (0 <? List.length (filesOf debugResult))%nat
        then r1 ++ Js.nl ++ "(The reviewer fixed these files: "
             ++ Js.join ", " (filesOf debugResult) ++ ")"
        else r1 in
      Some (Ok (Some r2), trace m2)
  end.

(** The list of generated files appended for the main agent, with the
    content of the files when the full code is to be shown. *)
Definition listGenerated (files : list string) (finalResponse : option string)
           (t : list event) : option string * list event :=
  if (0 <? List.length files)%nat then
    let listed :=
      shown finalResponse ++ Js.nl ++ Js.nl ++ "[GENERATED_FILES]: "
      ++ Js.join ", " (map fullPath files) in
    if showFullCode then
      let '(r, t') :=
        generatedCode files
          (listed ++ Js.nl ++ Js.nl ++ "### Generated Code Content:" ++ Js.nl) t in
      (Some r, t')
    else (Some listed, t)
  else (finalResponse, t).

(** [if (!showFullCode) finalResponse = finalResponse.replace(...)]: the
    method call throws when the response is [undefined]. *)
Definition hideCode (finalResponse : option string) : outcome (option string) :=
  if negb showFullCode then
    match finalResponse with
    | None => Threw "Cannot read properties of undefined (reading 'replace')"
    | Some text => Ok (Some (Regex.replaceAll anyBlockRegex hiddenNote text))
    end
  else Ok finalResponse.

(** The implementation of the tool, after the configuration has been read. *)
Definition consultSecondaryAgent (params : consultParams) (fuel : nat)
           (t : list event) : option (outcome consulted * list event) :=
  if negb enableSecondary
  then Some (Ok (ConsultError "Secondary agent is disabled in settings."), t)
  else
    (* 1. primary agent loop *)
    match runAgentLoop env allowFileSystem allowWeb allowCode
            currentWorkingDirectory (allow_tools_param params) false 8%Z
            autoSave (task params) (agent_role params) (context params)
            subAgentProfilesStr fuel t with
    | None => None
    | Some (Threw e, m1) => Some (Threw e, trace m1)
    | Some (Ok primaryResult, m1) =>
        if truthyText (errorField primaryResult)
        then Some (Ok (ConsultError (shown (errorField primaryResult))), trace m1)
        else
          let files := filesOf primaryResult in
          (* 2. auto-debug loop *)
          match (if debugMode && (0 <? List.length files)%nat
                 then autoDebug (allow_tools_param params) files
                        (responseField primaryResult) fuel (trace m1)
                 else Some (Ok (responseField primaryResult), trace m1)) with
          | None => None
          | Some (Threw e, t2) => Some (Threw e, t2)
          | Some (Ok finalResponse, t2) =>
              let '(finalResponse, t3) := listGenerated files finalResponse t2 in
              match hideCode finalResponse with
              | Threw e => Some (Threw e, t3)
              | Ok response => Some (Ok (ConsultResponse response files), t3)
              end
          end
    end.

(** The tool as registered: the implementation behind the wrapper. *)
Definition consultSecondaryAgentTool (fuel : nat)
  : consultParams -> list event -> option (outcome consulted * list event) :=
  createSafeToolImplementation
    (fun params => consultSecondaryAgent params fuel)
    enableSecondary "consult_secondary_agent".

End Consult.

(** A sample delegation. *)
Definition sampleParams : consultParams :=
  ConsultParams "Write a.ts" "coder" "" true.

(* ================================================================== *)
(** ** The state manager ([stateManager.ts]) *)
(* ================================================================== *)

Module StateManager.

Section Manager.

Variable env : Env.
Variable homedir : string.        (* [os.homedir()] *)

Definition CONFIG_FILE_NAME : string := ".plugin_state.json".

Definition DEFAULT_DIR : string :=
  Path.join [homedir; ".beledarians-llm-toolbox"; "workspace"].

Definition statePath : string :=
  Path.join [homedir; ".beledarians-llm-toolbox"; CONFIG_FILE_NAME].

Definition stateDir : string := Path.join [homedir; ".beledarians-llm-toolbox"].

(** [{ currentWorkingDirectory: DEFAULT_DIR }] *)
Definition defaultState : Json.json :=
  Json.JObj [("currentWorkingDirectory", Json.JStr DEFAULT_DIR)].

(** [getPersistedState()]: the parsed content of the state file when it has
    a truthy [currentWorkingDirectory], the default state otherwise and on
    any error. *)
Definition getPersistedState : M Json.json :=
  try_catch
    (content <- do_readFile env statePath ;;
     match Json.parse content with
     | None => throw "Unexpected token in JSON"
     | Some state =>
         dir <- member state "currentWorkingDirectory" ;;
         ret (if Json.truthyV dir then state else defaultState)
     end)
    (fun _ => ret defaultState).

(** [JSON.stringify(state, null, 2)] for a state that has the one property
    of the [PluginState] interface. *)
Definition stringifyState (currentWorkingDirectory : string) : string :=
  "{" ++ Js.nl ++ "  "
  ++ String Js.dquote "currentWorkingDirectory" ++ String Js.dquote ": "
  ++ String Js.dquote (Json.escape currentWorkingDirectory)
  ++ String Js.dquote Js.nl ++ "}".

(** [savePersistedState(state)] *)
Definition savePersistedState (currentWorkingDirectory : string) : M unit :=
  try_catch
    (do_mkdir env stateDir ;;
     do_writeFile env statePath (stringifyState currentWorkingDirectory))
    (fun _ => console_error "Failed to save plugin state:").

(** [ensureWorkspaceExists(path)] *)
Definition ensureWorkspaceExists (path : string) : M unit :=
  try_catch
    (do_mkdir env path)
    (fun _ => console_error ("Failed to create/access directory " ++ path)).

End Manager.

End StateManager.

(** A world like [calm []] in which the state file holds [content]. *)
Definition holding (content : string) : Env :=
  {| chat := chat (calm []);
     readFile := fun _ _ => Ok content;
     readdir := readdir (calm []);
     mkdir := mkdir (calm []);
     writeFile := writeFile (calm []);
     appendFile := appendFile (calm []);
     rm := rm (calm []);
     duck_search := duck_search (calm []);
     fetch_text := fetch_text (calm []);
     run_python := run_python (calm []);
     now_iso := now_iso (calm []);
     date_now := date_now (calm []);
     process_cwd := process_cwd (calm []);
     text_of := text_of (calm []);
     payload_of := payload_of (calm []);
     regexp_test := regexp_test (calm []) |}.

(* ================================================================== *)
(** ** The [duckduckgo_search] tool: retry with exponential backoff *)
(* ================================================================== *)

Module DuckDuckGo.

(** A thrown value: an [Error] object with its name and message, or
    anything else with its text. *)
Inductive thrown : Type :=
| ErrorObject (name message : string)
| Other (text : string).

(** [String(err)] *)
Definition thrownText (err : thrown) : string :=
  match err with
  | ErrorObject name message =>
      if String.eqb name "" then message
      else if String.eqb message "" then name
      else name ++ ": " ++ message
  | Other text => text
  end.

(** [error instanceof Error ? error.message : String(error)] *)
Definition messageOf (err : thrown) : string :=
  match err with
  | ErrorObject _ message => message
  | Other text => text
  end.

Record hit : Type := Hit { title : string; url : string; description : string }.

Record formatted : Type :=
  Formatted { title' : string; link : string; snippet : string }.

(** What one call of the search library comes back with: an object whose
    [results] may be missing, or a thrown value. *)
Inductive answer : Type :=
| Found (results : option (list hit))
| Failed (err : thrown).

(** What happened so far: the setting read, the loading of the library
    ([None] when it loaded, the value thrown when it did not), searches,
    waits (in milliseconds) and log lines. *)
Inductive step : Type :=
| ReadSetting (key : string)
| Imported (failure : option thrown)
| Searched (a : answer)
| Logged (text : string)
| Waited (delay : Z).

(** What the tool returns. *)
Inductive reply : Type :=
| NoResults                               (* [{results: "No results found."}] *)
| Results (results : list formatted)      (* [{results: formattedResults}] *)
| SearchError (error : string).           (* [{error}] *)

Section Tool.

(** [await import('duck-duck-scrape')]: [None] when the library loads, the
    value thrown when it does not. *)
Variable importLibrary : list step -> option thrown.

(** [search(query, options)] of the library. *)
Variable search : list step -> string -> answer.
Variable query : string.

Definition maxRetries : nat := 3.

Definition rateLimited (errorMessage : string) : bool :=
  Js.includes errorMessage "anomaly" || Js.includes errorMessage "429"
  || Js.includes errorMessage "too quickly".

(** [while (attempt < maxRetries) { try ... catch ... }]: the value of
    [searchResults] after the loop ([None] is [undefined]), or the value
    thrown out of it. *)
Fixpoint retryLoop (fuel : nat) (attempt : nat) (t : list step)
  : option ((option answer + thrown) * list step) :=
  if (attempt <? maxRetries)%nat then
    match fuel with
    | 0 => None
    | S fuel' =>
        let a := search t query in
        let t1 := (t ++ [Searched a])%list in
        match a with
        | Found _ => Some (inl (Some a), t1)                      (* break *)
        | Failed err =>
            if rateLimited (thrownText err) && (attempt <? maxRetries - 1)%nat
            then
              let delay := (1000 * 2 ^ Z.of_nat attempt)%Z in
              retryLoop fuel' (attempt + 1)
                (t1 ++ [Logged ("Rate limit hit, retrying in "
                                ++ Js.string_of_Z delay ++ "ms... (Attempt "
                                ++ Js.string_of_nat (attempt + 1) ++ "/"
                                ++ Js.string_of_nat maxRetries ++ ")");
                        Waited delay])%list
            else Some (inr err, t1)                               (* throw err *)
        end
    end
  else Some (inl None, t).

Definition format (r : hit) : formatted :=
  Formatted (title r) (url r) (description r).

(** The trace when the library has been asked for: the setting
    [searchApiKey] is read first, outside the [try], and is not used. *)
Definition configured (t : list step) : list step :=
  (t ++ [ReadSetting "searchApiKey"])%list.

(** The trace when the library has loaded. *)
Definition loaded (t : list step) : list step :=
  (configured t ++ [Imported None])%list.

(** The implementation of the tool: the setting is read, the library is
    loaded inside the [try], and only then the searches start; whatever is
    thrown on the way, by the import or out of the loop, is reported as
    [{error}]. *)
Definition duckduckgo_search (fuel : nat) (t : list step)
  : option (reply * list step) :=
  match importLibrary (configured t) with
  | Some err =>
      Some (SearchError ("Search failed: " ++ messageOf err),
            (configured t ++ [Imported (Some err)])%list)
  | None =>
      match retryLoop fuel 0 (loaded t) with
      | None => None
      | Some (inr err, t') =>
          Some (SearchError ("Search failed: " ++ messageOf err), t')
      | Some (inl searchResults, t') =>
          match searchResults with
          | Some (Found (Some (r :: more))) =>
              Some (Results (map format (r :: more)), t')
          | _ => Some (NoResults, t')
          end
      end
  end.

End Tool.

(** The searches and the waits of a trace. *)
Definition isSearch (s : step) : bool :=
  match s with Searched _ => true | _ => false end.

Definition waits (t : list step) : list Z :=
  flat_map (fun s => match s with Waited d => [d] | _ => [] end) t.

(** A library that always answers with the same thing, one that loads and
    one that does not. *)
Definition always (a : answer) : list step -> string -> answer := fun _ _ => a.
Definition loads : list step -> option thrown := fun _ => None.
Definition missing : list step -> option thrown :=
  fun _ => Some (ErrorObject "Error" "Cannot find module 'duck-duck-scrape'").

End DuckDuckGo.

(** A world like [calm []] in which the model answers every call with the
    same tool call. *)
Definition listCall : string := Js.q "{'tool':'list_directory','args':{}}".

Definition toolLoop : Env :=
  {| chat := fun _ _ => ChatOk listCall;
     readFile := readFile (calm []);
     readdir := readdir (calm []);
     mkdir := mkdir (calm []);
     writeFile := writeFile (calm []);
     appendFile := appendFile (calm []);
     rm := rm (calm []);
     duck_search := duck_search (calm []);
     fetch_text := fetch_text (calm []);
     run_python := run_python (calm []);
     now_iso := now_iso (calm []);
     date_now := date_now (calm []);
     process_cwd := process_cwd (calm []);
     text_of := text_of (calm []);
     payload_of := payload_of (calm []);
     regexp_test := regexp_test (calm []) |}.

(** A sample edit. *)
Definition editCall : toolCall :=
  ToolCall (Some (Json.JStr "replace_text_in_file"))
           (Some (Json.JObj [("file_name", Json.JStr "a.ts");
                             ("old_string", Json.JStr "y = 2");
                             ("new_string", Json.JStr "y = 3")])).

(** The same edit with nothing to put in place of the old text. *)
Definition eraseCall : toolCall :=
  ToolCall (Some (Json.JStr "replace_text_in_file"))
           (Some (Json.JObj [("file_name", Json.JStr "a.ts");
                             ("old_string", Json.JStr "y = 2");
                             ("new_string", Json.JStr "")])).

(** A path segment that names something: not empty, not [.] or [..], and
    without a slash. *)
Definition cleanSegment (seg : string) : bool :=
  negb (String.eqb seg "") && negb (String.eqb seg ".")
  && negb (String.eqb seg "..") && negb (occurs "/"%char seg).

(** The names recorded since [m0] are distinct and all marked as
    processed. *)
Definition distinctSince (m0 s : mem) : Prop :=
  exists added,
    filesModified s = (filesModified m0 ++ added)%list
    /\ NoDup added
    /\ forall x, In x added -> has (processedFiles s) x = true.

(** A JSON block whose second entry points outside the workspace. *)
Definition mixedBatchText : string :=
  "```json" ++ Js.nl
  ++ Js.q "[{'path':'a.ts','content':'A'},{'path':'../b.ts','content':'B'},{'path':'c.ts','content':'C'}]"
  ++ Js.nl ++ "```" ++ Js.nl.

Definition mixedBatchBlock : block :=
  Eval vm_compute in nth 0 (blocks mixedBatchText) (Block "" "" "" 0).

(** ** Fenced blocks, read off the text *)

Definition tick (c : ascii) : bool := Regex.just "`" c.

(** The text after a fence at the start of [s]. *)
Definition fenced (s : string) : option string :=
  match s with
  | String a (String b (String c v)) =>
      if tick a && tick b && tick c then Some v else None
  | _ => None
  end.

(** The text after the first fence of [u]. *)
Fixpoint closing (u : string) : option string :=
  match fenced u with
  | Some v => Some v
  | None =>
      match u with
      | EmptyString => None
      | String _ t => closing t
      end
  end.

(** The text after a fenced block at the start of [s]: an opening fence and
    the first closing fence after it. *)
Definition blockAt (s : string) : option string :=
  match fenced s with
  | Some u => closing u
  | None => None
  end.

(** No fenced block starts anywhere in [s]. *)
Fixpoint noBlock (s : string) : bool :=
  match blockAt s with
  | Some _ => false
  | None =>
      match s with
      | EmptyString => true
      | String _ t => noBlock t
      end
  end.

(** No backtick in [s]. *)
Fixpoint plain (s : string) : bool :=
  match s with
  | EmptyString => true
  | String c t => negb (tick c) && plain t
  end.

(** The name under which the JSON unpacking saves an entry, when it saves
    it: both the name and the content are non-empty strings. *)
Definition unpackedName (item : Json.json) : option string :=
  match batchName item, batchData item with
  | Some (Json.JStr name), Some (Json.JStr data) =>
      if negb (String.eqb name "") && negb (String.eqb data "")
      then Some name else None
  | _, _ => None
  end.

(** The names a block asks the JSON unpacking to save: those of the entries
    of a [json] block whose body is an array. *)
Definition batchNames (b : block) : list string :=
  if String.eqb (lang b) "json" then
    match Json.parse (code b) with
    | Some (Json.JArr items) =>
        flat_map (fun item => match unpackedName item with
                              | Some n => [n]
                              | None => []
                              end) items
    | _ => []
    end
  else [].

(** Block [b] of [text] leads to the file of the name [p] through that
    name only: when its inferred name is another one, the name is joined to
    another path, and no entry of its JSON batch is named [p] or validated
    to the file of [p]. *)
Definition onlyByName (env : Env) (cwd text p : string) (b : block) : Prop :=
  (Path.join [cwd; inferFileName text b] = Path.join [cwd; p] ->
   inferFileName text b = p)
  /\ forall n, In n (batchNames b) ->
       n <> p /\ validatePath env cwd n <> Ok (Path.join [cwd; p]).

(** Between [m] and [m'] nothing happened to the name [p] and to the file
    [path]: the name was neither processed nor recorded, the file was not
    written. *)
Definition untouched (p path : string) (m m' : mem) : Prop :=
  has (processedFiles m') p = has (processedFiles m) p
  /\ writesTo path (trace m') = writesTo path (trace m)
  /\ timesIn p (filesModified m') = timesIn p (filesModified m).

(** The state after the blocks [bs] have been processed one after the
    other, starting from [m]. *)
Definition runBlocks (env : Env) (cwd : string) (bs : list block) (m : mem)
  : mem :=
  fold_left (fun s b => snd (processBlock env cwd b s)) bs m.

(** More than the 500 characters of the lookback, none of which opens a
    file name. *)
Definition padding : string :=
  Eval vm_compute in string_of_list_ascii (List.repeat "."%char 510).

(** Two versions of [a.ts] far behind a JSON batch that names another
    file. *)
Definition batchAsideThenTwo : string :=
  "```json" ++ Js.nl ++ Js.q "[{'path':'b.ts','content':'other'}]" ++ Js.nl
  ++ "```" ++ Js.nl ++ padding ++ Js.nl ++ twoVersions.

Definition asideBatch : block :=
  Eval vm_compute in nth 0 (blocks batchAsideThenTwo) (Block "" "" "" 0).
Definition asideFirst : block :=
  Eval vm_compute in nth 1 (blocks batchAsideThenTwo) (Block "" "" "" 0).
Definition asideLast : block :=
  Eval vm_compute in nth 2 (blocks batchAsideThenTwo) (Block "" "" "" 0).

(** Two versions of [a.ts] far behind a block whose heading spells the same
    file [./a.ts]. *)
Definition versionC : string :=
  "export const a = 3; // a version under another spelling, long enough".

Definition aliasThenTwo : string :=
  tsBlock "./a.ts" versionC ++ padding ++ Js.nl ++ twoVersions.

(** A block of [a.ts] followed, under the same heading, by a JSON batch
    that names another file. *)
Definition batchLast : string :=
  tsBlock "a.ts" versionA
  ++ "```json" ++ Js.nl
  ++ Js.q "[{'path':'b.ts','content':'export const b = 1; // the only entry of the batch'}]"
  ++ Js.nl ++ "```" ++ Js.nl ++ "TASK_COMPLETED".

(** A call of [run_python]. *)
Definition pythonCall : string :=
  Js.q "{'tool':'run_python','args':{'python':'print(1)'}}".

(* ================================================================== *)
(** * Properties *)
(* ================================================================== *)

Lemma chatCalls_app (t u : list event) :
  chatCalls (t ++ u) = chatCalls t + chatCalls u.
Proof.
  unfold chatCalls. rewrite filter_app, length_app. reflexivity.
Qed.

Lemma writesOf_app (t u : list event) :
  writesOf (t ++ u) = (writesOf t ++ writesOf u)%list.
Proof.
  induction t as [| e t IH]; simpl; [reflexivity |].
  destruct e; try apply IH. destruct r; [simpl; f_equal |]; apply IH.
Qed.

(** ** Strings *)

Lemma drop_length (n : nat) (s : string) :
  String.length (Js.drop n s) = String.length s - n.
Proof.
  revert s. induction n as [| n IH]; intros [| c t]; simpl; auto.
Qed.

Lemma drop_drop (n k : nat) (s : string) :
  Js.drop k (Js.drop n s) = Js.drop (n + k) s.
Proof.
  revert s. induction n as [| n IH]; intros s; simpl; [reflexivity |].
  destruct s as [| c t]; [destruct k; reflexivity | apply IH].
Qed.

Lemma take_length (n : nat) (s : string) :
  String.length (Js.take n s) = Nat.min n (String.length s).
Proof.
  revert s. induction n as [| n IH]; intros [| c t]; simpl; auto.
Qed.

Lemma take_take (n k : nat) (s : string) :
  k <= n -> Js.take k (Js.take n s) = Js.take k s.
Proof.
  revert k s. induction n as [| n IH]; intros k s Hk.
  - assert (k = 0) by lia. subst. destruct s; reflexivity.
  - destruct k as [| k]; [destruct s; reflexivity |].
    destruct s as [| c t]; simpl; [reflexivity |]. f_equal. apply IH. lia.
Qed.

Lemma take_app (k : nat) (s u : string) :
  k <= String.length s -> Js.take k (s ++ u) = Js.take k s.
Proof.
  revert s. induction k as [| k IH]; intros s Hk.
  - destruct s; destruct u; reflexivity.
  - destruct s as [| c t]; simpl in *; [lia |]. f_equal. apply IH. lia.
Qed.

Lemma take_drop (n : nat) (s : string) : Js.take n s ++ Js.drop n s = s.
Proof.
  revert s. induction n as [| n IH]; intros [| c t]; simpl; auto.
  f_equal. apply IH.
Qed.

(** ** The matcher only moves forward *)

Module RegexFacts.
Import Regex.

(** [c'] is [c] moved forward by some characters of the subject. *)
Definition advances (c c' : cursor) : Prop :=
  exists n, n <= String.length (rest c)
            /\ pos c' = pos c + n /\ rest c' = Js.drop n (rest c).

Lemma advances_refl (c : cursor) : advances c c.
Proof.
  exists 0. repeat split; try lia; try (destruct (rest c); reflexivity).
Qed.

Lemma advances_trans (a b c : cursor) :
  advances a b -> advances b c -> advances a c.
Proof.
  intros (n & Hn & Hp & Hr) (k & Hk & Hp' & Hr').
  exists (n + k). rewrite Hr, drop_length in Hk.
  repeat split; try lia. rewrite Hr', Hr. apply drop_drop.
Qed.

Lemma advances_end (c c' : cursor) :
  advances c c' ->
  pos c <= pos c' /\
  pos c' + String.length (rest c') = pos c + String.length (rest c).
Proof.
  intros (n & Hn & Hp & Hr). rewrite Hr, drop_length. lia.
Qed.

Section Forward.
Context {A : Type}.

(** A matcher hands to its continuation a cursor further on. *)
Definition forward
  (f : cursor -> captures -> (cursor -> captures -> option A) -> option A) : Prop :=
  forall c g k x, f c g k = Some x ->
    exists c' g', advances c c' /\ k c' g' = Some x.

Lemma iterate_forward one greedy :
  forward one ->
  forall n k c g x,
    iterate one greedy k n c g = Some x ->
    exists c' g', advances c c' /\ k c' g' = Some x.
Proof.
  intros Hone. induction n as [| n IH]; intros k c g x H.
  - simpl in H. exists c, g. split; [apply advances_refl |].
    destruct greedy; simpl in H; [assumption |].
    destruct (k c g); [assumption | discriminate].
  - assert (Hmore :
      forall y, one c g (fun c' g' =>
          if (String.length (rest c') <? String.length (rest c))%nat
          then iterate one greedy k n c' g' else None) = Some y ->
        exists c' g', advances c c' /\ k c' g' = Some y).
    { intros y Hy. apply Hone in Hy. destruct Hy as (c1 & g1 & Hadv & Hk).
      destruct (String.length (rest c1) <? String.length (rest c))%nat;
        [| discriminate].
      apply IH in Hk. destruct Hk as (c2 & g2 & Hadv2 & Hk2).
      exists c2, g2. split; [eapply advances_trans; eassumption | assumption]. }
    simpl in H. destruct greedy; simpl in H.
    + match type of H with
      | orElse ?e _ = _ => destruct e as [y |] eqn:E
      end; simpl in H.
      * inversion H; subst. apply Hmore. reflexivity.
      * exists c, g. split; [apply advances_refl | assumption].
    + destruct (k c g) as [y |] eqn:E; simpl in H.
      * exists c, g. split; [apply advances_refl |]. congruence.
      * apply Hmore. exact H.
Qed.

Lemma exec_forward (r : regex) : forward (exec r).
Proof.
  induction r as [| p | a IHa b IHb | a IHa b IHb | greedy a IHa | n a IHa |];
    intros c g k x H; simpl in H.
  - exists c, g. split; [apply advances_refl | assumption].
  - destruct c as [i s]. simpl in H. destruct s as [| y t]; [discriminate |].
    destruct (p y); [| discriminate].
    exists (Cur (S i) t), g. split; [| assumption].
    exists 1. simpl. repeat split; try lia; try (destruct t; reflexivity).
  - apply IHa in H. destruct H as (c1 & g1 & H1 & H).
    apply IHb in H. destruct H as (c2 & g2 & H2 & H).
    exists c2, g2. split; [eapply advances_trans; eassumption | assumption].
  - destruct (exec a c g k) as [y |] eqn:E; simpl in H.
    + inversion H; subst. apply IHa in E. exact E.
    + apply IHb in H. exact H.
  - eapply iterate_forward; eassumption.
  - apply IHa in H. destruct H as (c1 & g1 & H1 & H).
    exists c1, ((n, consumed c c1) :: g1). split; assumption.
  - destruct (Nat.eqb (pos c) 0); [| discriminate].
    exists c, g. split; [apply advances_refl | assumption].
Qed.

End Forward.

(** A match found from index [i] starts at or after [i], stops at or
    after its start, and leaves the rest of the subject. *)
Lemma search_from_bounds (r : regex) (s : string) :
  forall i m, search_from r i s = Some m ->
    i <= index m /\ index m <= pos (stop m) /\
    pos (stop m) + String.length (rest (stop m)) = i + String.length s.
Proof.
  induction s as [| y t IH]; intros i m H; simpl in H.
  - unfold match_at in H.
    destruct (exec r (Cur i "") [] _) as [f |] eqn:E; [| discriminate].
    inversion H; subst f. apply exec_forward in E.
    destruct E as (c' & g' & Hadv & Hk). inversion Hk; subst m. simpl.
    apply advances_end in Hadv. simpl in Hadv. lia.
  - unfold match_at in H.
    destruct (exec r (Cur i (String y t)) [] _) as [f |] eqn:E.
    + inversion H; subst f. apply exec_forward in E.
      destruct E as (c' & g' & Hadv & Hk). inversion Hk; subst m. simpl.
      apply advances_end in Hadv. simpl in Hadv. simpl. lia.
    + apply IH in H. simpl. lia.
Qed.

(** The matches of [matchAll] lie within the subject and come in the order
    of the text. *)
Lemma matchAll_from_sorted (r : regex) :
  forall fuel i s,
    Forall (fun m => i <= index m /\ index m <= i + String.length s)
           (matchAll_from fuel r i s)
    /\ StronglySorted (fun a b => index a <= index b) (matchAll_from fuel r i s).
Proof.
  induction fuel as [| fuel IH]; intros i s; simpl.
  - split; constructor.
  - destruct (search_from r i s) as [m |] eqn:E; [| split; constructor].
    apply search_from_bounds in E. destruct E as (E1 & E2 & E3).
    assert (Htail :
      Forall (fun a => index m <= index a /\ index a <= i + String.length s)
        (if (pos (stop m) =? index m)%nat
         then match rest (stop m) with
              | EmptyString => []
              | String _ t => matchAll_from fuel r (S (pos (stop m))) t
              end
         else matchAll_from fuel r (pos (stop m)) (rest (stop m)))
      /\ StronglySorted (fun a b => index a <= index b)
        (if (pos (stop m) =? index m)%nat
         then match rest (stop m) with
              | EmptyString => []
              | String _ t => matchAll_from fuel r (S (pos (stop m))) t
              end
         else matchAll_from fuel r (pos (stop m)) (rest (stop m)))).
    { destruct (pos (stop m) =? index m)%nat.
      - destruct (rest (stop m)) as [| y t] eqn:Er; [split; constructor |].
        destruct (IH (S (pos (stop m))) t) as (Hall & Hs). split; [| exact Hs].
        eapply Forall_impl; [| exact Hall]. simpl. simpl in E3. intros a Ha. lia.
      - destruct (IH (pos (stop m)) (rest (stop m))) as (Hall & Hs).
        split; [| exact Hs].
        eapply Forall_impl; [| exact Hall]. simpl. intros a Ha. lia. }
    destruct Htail as (Hall & Hs). split.
    + constructor; [lia |].
      eapply Forall_impl; [| exact Hall]. simpl. intros a Ha. lia.
    + constructor; [exact Hs |].
      eapply Forall_impl; [| exact Hall]. simpl. intros a Ha. lia.
Qed.

End RegexFacts.

(** ** Quiet and total computations *)

Lemma quiet_refl (m : mem) : quiet m m.
Proof. repeat split. Qed.

Lemma quiet_trans (a b c : mem) : quiet a b -> quiet b c -> quiet a c.
Proof.
  intros (H1 & H2 & H3) (H4 & H5 & H6). repeat split; congruence.
Qed.

Lemma keeps_ret {A} (a : A) : keeps (ret a).
Proof. intros m. apply quiet_refl. Qed.

Lemma keeps_throw {A} (e : string) : keeps (@throw A e).
Proof. intros m. apply quiet_refl. Qed.

Lemma keeps_read {A} (f : mem -> A) : keeps (read f).
Proof. intros m. apply quiet_refl. Qed.

Lemma keeps_bind {A B} (c : M A) (k : A -> M B) :
  keeps c -> (forall a, keeps (k a)) -> keeps (bind c k).
Proof.
  intros Hc Hk m. unfold bind. specialize (Hc m).
  destruct (c m) as [[a | e] m1]; simpl in *; [| assumption].
  eapply quiet_trans; [eassumption | apply Hk].
Qed.

Lemma keeps_try_catch {A} (c : M A) (h : string -> M A) :
  keeps c -> (forall e, keeps (h e)) -> keeps (try_catch c h).
Proof.
  intros Hc Hh m. unfold try_catch. specialize (Hc m).
  destruct (c m) as [[a | e] m1]; simpl in *; [assumption |].
  eapply quiet_trans; [eassumption | apply Hh].
Qed.

Lemma keeps_await {A} (ask : list event -> outcome A) (log : outcome A -> event) :
  (forall r, isChat (log r) = false) -> keeps (await ask log).
Proof.
  intros Hlog m. unfold await. simpl. repeat split. simpl.
  rewrite chatCalls_app. unfold chatCalls at 2. simpl. rewrite Hlog. simpl. lia.
Qed.

Lemma keeps_update (f : mem -> mem) :
  (forall m, quiet m (f m)) -> keeps (update f).
Proof. intros H m. apply H. Qed.

Lemma total_ret {A} (a : A) : total (ret a).
Proof. intros m. exists a. reflexivity. Qed.

Lemma total_read {A} (f : mem -> A) : total (read f).
Proof. intros m. eexists. reflexivity. Qed.

Lemma total_update (f : mem -> mem) : total (update f).
Proof. intros m. eexists. reflexivity. Qed.

Lemma total_bind {A B} (c : M A) (k : A -> M B) :
  total c -> (forall a, total (k a)) -> total (bind c k).
Proof.
  intros Hc Hk m. unfold bind. destruct (Hc m) as (a & Ha).
  destruct (c m) as [r m1]. simpl in Ha. subst r. apply Hk.
Qed.

Lemma total_try_catch {A} (c : M A) (h : string -> M A) :
  (forall e, total (h e)) -> total (try_catch c h).
Proof.
  intros Hh m. unfold try_catch.
  destruct (c m) as [[a | e] m1]; [exists a; reflexivity | apply Hh].
Qed.

Lemma forEach_keeps {A} (body : A -> M unit) (xs : list A) :
  (forall x, keeps (body x)) -> keeps (forEach body xs).
Proof.
  intros H. induction xs as [| x xs IH]; simpl.
  - apply keeps_ret.
  - apply keeps_bind; [apply H | intros _; exact IH].
Qed.

Lemma forEach_total {A} (body : A -> M unit) (xs : list A) :
  (forall x, total (body x)) -> total (forEach body xs).
Proof.
  intros H. induction xs as [| x xs IH]; simpl.
  - apply total_ret.
  - apply total_bind; [apply H | intros _; exact IH].
Qed.

(** Taking a computation apart along its binds, handlers and branches. *)
Ltac keeps_step :=
  first
    [ apply keeps_ret | apply keeps_throw | apply keeps_read
    | apply keeps_bind; [| intros ?]
    | apply keeps_try_catch; [| intros ?]
    | apply keeps_await; intros ?; reflexivity
    | apply keeps_update; intros ?; repeat split; simpl;
      rewrite ?chatCalls_app; unfold chatCalls; simpl; lia
    | match goal with
      | |- keeps (if ?b then _ else _) => destruct b
      | |- keeps (match ?x with _ => _ end) => destruct x
      | |- keeps (let '(_, _) := ?x in _) => destruct x
      end ].

Ltac total_step :=
  first
    [ apply total_ret | apply total_read | apply total_update
    | apply total_try_catch; intros ?
    | apply total_bind; [| intros ?]
    | match goal with
      | |- total (if ?b then _ else _) => destruct b
      | |- total (match ?x with _ => _ end) => destruct x
      end ].

(** ** The span of the tool-use check *)

Module SpanFacts.
Import Regex.

Lemma lastClose_none (t : string) :
  lastClose t = None -> occurs "}"%char t = false.
Proof.
  induction t as [| c u IH]; simpl; [reflexivity |].
  destruct (lastClose u); [discriminate |].
  destruct (Ascii.eqb c "}"%char); [discriminate |].
  intros _. simpl. apply IH. reflexivity.
Qed.

Lemma lastClose_some (t : string) (n : nat) :
  lastClose t = Some n ->
  exists mid, Js.take n t = mid ++ "}" /\ occurs "}"%char (Js.drop n t) = false.
Proof.
  revert n. induction t as [| c u IH]; simpl; intros n H; [discriminate |].
  destruct (lastClose u) as [k |] eqn:E.
  - inversion H; subst n. destruct (IH k eq_refl) as (mid & Hm & Ho).
    exists (String c mid). simpl. rewrite Hm. split; [reflexivity | exact Ho].
  - destruct (Ascii.eqb c "}"%char) eqn:Ec; [| discriminate].
    inversion H; subst n. apply Ascii.eqb_eq in Ec. subst c.
    exists "". simpl. split.
    + destruct u; reflexivity.
    + replace (Js.drop 0 u) with u by (destruct u; reflexivity).
      apply lastClose_none. exact E.
Qed.

Lemma openToLastClose_none (t : string) :
  lastClose t = None -> openToLastClose t = None.
Proof.
  induction t as [| c u IH]; simpl; [reflexivity |].
  destruct (lastClose u) eqn:E; [discriminate |].
  intros _. destruct (Ascii.eqb c "{"%char); apply IH; reflexivity.
Qed.

Lemma iterate_S {A} one greedy (k : cursor -> captures -> option A) n c g :
  iterate one greedy k (S n) c g
  = let more :=
      one c g (fun c' g' =>
        if (String.length (rest c') <? String.length (rest c))%nat
        then iterate one greedy k n c' g' else None) in
    if greedy then orElse more (k c g) else orElse (k c g) more.
Proof. reflexivity. Qed.

Lemma exec_Chr_cons {A} p i x t g (k : cursor -> captures -> option A) :
  exec (Chr p) (Cur i (String x t)) g k
  = if p x then k (Cur (S i) t) g else None.
Proof. reflexivity. Qed.

Lemma exec_Cat {A} a b c g (k : cursor -> captures -> option A) :
  exec (Cat a b) c g k = exec a c g (fun c' g' => exec b c' g' k).
Proof. reflexivity. Qed.

Lemma exec_Rep {A} greedy a c g (k : cursor -> captures -> option A) :
  exec (Rep greedy a) c g k
  = iterate (exec a) greedy k (String.length (rest c)) c g.
Proof. reflexivity. Qed.

(** The greedy [[\s\S]*] followed by a closing brace stops at the last
    closing brace. *)
Lemma greedy_to_last_close {A} (f : cursor -> captures -> A) (t : string) :
  forall i g,
    iterate (exec (Chr any)) true
            (fun c' g' => exec (Chr (just "}"%char)) c' g'
                            (fun c'' g'' => Some (f c'' g'')))
            (String.length t) (Cur i t) g
    = match lastClose t with
      | Some n => Some (f (Cur (i + n) (Js.drop n t)) g)
      | None => None
      end.
Proof.
  induction t as [| c u IH]; intros i g.
  - reflexivity.
  - cbn [String.length]. rewrite iterate_S. cbv zeta.
    rewrite !exec_Chr_cons. unfold any at 1. cbn [rest String.length].
    assert (Hlt : (String.length u <? S (String.length u))%nat = true)
      by (apply Nat.ltb_lt; lia).
    rewrite Hlt, IH. cbn [lastClose].
    destruct (lastClose u) as [n |].
    + cbn [orElse]. replace (i + S n) with (S i + n) by lia. reflexivity.
    + cbn [orElse]. change (just "}"%char c) with (Ascii.eqb "}"%char c).
      rewrite (Ascii.eqb_sym "}"%char c).
      destruct (Ascii.eqb c "}"%char); [| reflexivity].
      replace (i + 1) with (S i) by lia.
      replace (Js.drop 1 (String c u)) with u by (destruct u; reflexivity).
      reflexivity.
Qed.

Lemma search_jsonRegex (s : string) :
  forall i, option_map whole (search_from jsonRegex i s) = openToLastClose s.
Proof.
  induction s as [| c t IH]; intros i.
  - reflexivity.
  - cbn [search_from]. unfold match_at, jsonRegex. cbn [seq lit]. unfold star.
    rewrite exec_Cat, exec_Chr_cons. cbv beta.
    change (just "{"%char c) with (Ascii.eqb "{"%char c).
    rewrite (Ascii.eqb_sym "{"%char c).
    cbn [openToLastClose].
    destruct (Ascii.eqb c "{"%char) eqn:Ec.
    + rewrite exec_Cat, exec_Rep. cbn [rest].
      rewrite (greedy_to_last_close
                 (fun c' g' => Found i (consumed (Cur i (String c t)) c') g' c')).
      destruct (lastClose t) as [n |] eqn:El.
      * cbn [option_map whole]. unfold consumed. cbn [pos rest].
        replace (S i + n - i) with (S n) by lia. reflexivity.
      * rewrite IH. reflexivity.
    + apply IH.
Qed.

Lemma jsonMatch_direct (s : string) : jsonMatch s = openToLastClose s.
Proof. unfold jsonMatch, search. apply search_jsonRegex. Qed.

Lemma openToLastClose_shape (s span : string) :
  openToLastClose s = Some span ->
  exists pre mid post,
    s = pre ++ span ++ post /\ span = "{" ++ mid ++ "}"
    /\ occurs "{"%char pre = false /\ occurs "}"%char post = false.
Proof.
  induction s as [| c t IH]; simpl; intros H; [discriminate |].
  destruct (Ascii.eqb c "{"%char) eqn:Ec.
  - destruct (lastClose t) as [n |] eqn:El.
    + inversion H; subst span. apply Ascii.eqb_eq in Ec. subst c.
      destruct (lastClose_some t n El) as (mid & Hm & Ho).
      exists "", mid, (Js.drop n t). simpl. rewrite <- Hm.
      repeat split; try assumption. f_equal. symmetry. apply take_drop.
    + rewrite (openToLastClose_none t El) in H. discriminate.
  - destruct (IH H) as (pre & mid & post & Hs & Hspan & Hpre & Hpost).
    exists (String c pre), mid, post. simpl. rewrite Ec. subst t.
    repeat split; assumption.
Qed.

End SpanFacts.

(** ** C3 *)

(** C3, amended.  For each of the three inputs the parser produces a tool
    call named [save_file] from which the [save_file] handler takes the file
    name [a.ts] and the content [x].  For the vendor shape and for the bare
    object with a [to=functions.save_file] token the args contain [file_name]
    and [content]; for the canonical shape the args are passed through as they
    were written, with [path] and [data] only. *)
Theorem save_file_shapes_parsed :
  (exists tc,
     parseToolCall canonicalShape = Some tc
     /\ tool tc = Some (Json.JStr "save_file")
     /\ args tc = Some (Json.JObj [("path", Json.JStr "a.ts"); ("data", Json.JStr "x")])
     /\ savedName tc = Some (Json.JStr "a.ts")
     /\ savedContent tc = Some (Json.JStr "x"))
  /\ (normalizedSaveFile vendorShape
      /\ exists tc, parseToolCall vendorShape = Some tc
                    /\ savedName tc = Some (Json.JStr "a.ts")
                    /\ savedContent tc = Some (Json.JStr "x"))
  /\ (normalizedSaveFile bareShape
      /\ exists tc, parseToolCall bareShape = Some tc
                    /\ savedName tc = Some (Json.JStr "a.ts")
                    /\ savedContent tc = Some (Json.JStr "x")).
Proof.
  split; [| split].
  - eexists. split; [vm_compute; reflexivity |]. repeat split.
  - split; eexists; (split; [vm_compute; reflexivity |]); repeat split.
  - split; eexists; (split; [vm_compute; reflexivity |]); repeat split.
Qed.

(** ** Lists in order *)

Lemma StronglySorted_app {A} (R : A -> A -> Prop) (l1 l2 : list A) :
  StronglySorted R l1 -> StronglySorted R l2 ->
  (forall x y, In x l1 -> In y l2 -> R x y) ->
  StronglySorted R (l1 ++ l2).
Proof.
  induction l1 as [| a l1 IH]; simpl; intros H1 H2 Hx; [exact H2 |].
  inversion H1; subst. constructor.
  - apply IH; auto.
  - apply Forall_app. split; [assumption |].
    apply Forall_forall. intros y Hy. apply Hx; auto.
Qed.

Lemma StronglySorted_rev {A} (R : A -> A -> Prop) (l : list A) :
  StronglySorted R l -> StronglySorted (fun a b => R b a) (rev l).
Proof.
  induction l as [| a l IH]; simpl; intros H; [constructor |].
  inversion H as [| ? ? Hs Hall]; subst. apply StronglySorted_app.
  - apply IH. exact Hs.
  - repeat constructor.
  - intros x y Hx [Hy | []]. subst y. apply in_rev in Hx.
    rewrite Forall_forall in Hall. apply Hall. exact Hx.
Qed.

Lemma StronglySorted_app_inv {A} (R : A -> A -> Prop) (l1 l2 : list A) :
  StronglySorted R (l1 ++ l2) ->
  StronglySorted R l1 /\ StronglySorted R l2
  /\ (forall x y, In x l1 -> In y l2 -> R x y).
Proof.
  induction l1 as [| a l1 IH]; simpl; intros H.
  - repeat split; [constructor | exact H | intros x y []].
  - inversion H as [| ? ? Hs Hall]; subst.
    destruct (IH Hs) as (H1 & H2 & Hx).
    apply Forall_app in Hall. destruct Hall as [Ha1 Ha2].
    repeat split; [constructor; assumption | assumption |].
    intros x y [Hxa | Hx1] Hy.
    + subst x. rewrite Forall_forall in Ha2. apply Ha2. exact Hy.
    + apply Hx; assumption.
Qed.

Lemma StronglySorted_map {A B} (f : A -> B) (R : B -> B -> Prop) (l : list A) :
  StronglySorted (fun a b => R (f a) (f b)) l -> StronglySorted R (map f l).
Proof.
  induction 1 as [| a l Hs IH Hall]; simpl; constructor; [assumption |].
  apply Forall_map. exact Hall.
Qed.

Lemma take_drop_comm (a n : nat) (s : string) :
  Js.take n (Js.drop a s) = Js.drop a (Js.take (a + n) s).
Proof.
  revert s. induction a as [| a IH]; intros s; simpl.
  - destruct s; destruct (Js.take n _); reflexivity.
  - destruct s as [| c t]; simpl; [destruct n; reflexivity | apply IH].
Qed.

Lemma substring_of_prefix (s s' : string) (a k : nat) :
  a <= k -> Js.take k s = Js.take k s' ->
  Js.substring s a k = Js.substring s' a k.
Proof.
  intros Hak H. unfold Js.substring. rewrite !take_drop_comm.
  replace (a + (k - a)) with k by lia. rewrite H. reflexivity.
Qed.

Lemma has_app (l : list string) (x y : string) :
  has (l ++ [y]) x = has l x || String.eqb x y.
Proof.
  unfold has. rewrite existsb_app. simpl. rewrite orb_false_r. reflexivity.
Qed.

Lemma timesIn_app (l : list string) (x y : string) :
  timesIn x (l ++ [y]) = timesIn x l + (if String.eqb x y then 1 else 0).
Proof.
  unfold timesIn. rewrite filter_app, length_app. simpl.
  destruct (String.eqb x y); reflexivity.
Qed.

(** ** Relations kept by computations *)

Section Preserved.

Variable R : mem -> mem -> Prop.
Hypothesis R_refl : forall m, R m m.
Hypothesis R_trans : forall a b c, R a b -> R b c -> R a c.

Lemma preserves_ret {A} (a : A) : preserves R (ret a).
Proof. intros m. apply R_refl. Qed.

Lemma preserves_throw {A} (e : string) : preserves R (@throw A e).
Proof. intros m. apply R_refl. Qed.

Lemma preserves_read {A} (f : mem -> A) : preserves R (read f).
Proof. intros m. apply R_refl. Qed.

Lemma preserves_bind {A B} (c : M A) (k : A -> M B) :
  preserves R c -> (forall a, preserves R (k a)) -> preserves R (bind c k).
Proof.
  intros Hc Hk m. unfold bind. specialize (Hc m).
  destruct (c m) as [[a | e] m1]; simpl in *; [| assumption].
  eapply R_trans; [eassumption | apply Hk].
Qed.

Lemma preserves_try_catch {A} (c : M A) (h : string -> M A) :
  preserves R c -> (forall e, preserves R (h e)) -> preserves R (try_catch c h).
Proof.
  intros Hc Hh m. unfold try_catch. specialize (Hc m).
  destruct (c m) as [[a | e] m1]; simpl in *; [assumption |].
  eapply R_trans; [eassumption | apply Hh].
Qed.

Lemma preserves_forEach {A} (body : A -> M unit) (xs : list A) :
  (forall x, preserves R (body x)) -> preserves R (forEach body xs).
Proof.
  intros H. induction xs as [| x xs IH]; simpl.
  - apply preserves_ret.
  - apply preserves_bind; [apply H | intros _; exact IH].
Qed.

Lemma preserves_same {A} (c : M A) :
  (forall m, snd (c m) = m) -> preserves R c.
Proof. intros H m. rewrite H. apply R_refl. Qed.

End Preserved.

Lemma adds_refl (P : event -> Prop) (m : mem) : adds P m m.
Proof. exists []. rewrite app_nil_r. split; [reflexivity | constructor]. Qed.

Lemma adds_trans (P : event -> Prop) (a b c : mem) :
  adds P a b -> adds P b c -> adds P a c.
Proof.
  intros (e1 & H1 & G1) (e2 & H2 & G2). exists (e1 ++ e2)%list.
  rewrite H2, H1, app_assoc. split; [reflexivity | apply Forall_app; auto].
Qed.

Lemma grows_refl (m : mem) : grows m m.
Proof. exists []. rewrite app_nil_r. reflexivity. Qed.

Lemma grows_trans (a b c : mem) : grows a b -> grows b c -> grows a c.
Proof.
  intros (x & Hx) (y & Hy). exists (x ++ y)%list. rewrite Hy, Hx, app_assoc.
  reflexivity.
Qed.

Lemma await_adds {A} (P : event -> Prop) (ask : list event -> outcome A)
      (log : outcome A -> event) :
  (forall r, P (log r)) -> preserves (adds P) (await ask log).
Proof.
  intros H m. unfold await. simpl. eexists. split; [reflexivity |].
  constructor; [apply H | constructor].
Qed.

Section Properties.

Variable env : Env.
Variables allowFileSystem allowWeb allowCode : bool.
Variable currentWorkingDirectory : string.
Variables allow_tools forceTools : bool.
Variable loopLimit : Z.
Variable autoSave : bool.
Variable taskPrompt : string.

Local Abbreviation turn' :=
  (turn env allowFileSystem allowWeb allowCode currentWorkingDirectory
        allow_tools forceTools loopLimit).
Local Abbreviation agentLoop' :=
  (agentLoop env allowFileSystem allowWeb allowCode currentWorkingDirectory
             allow_tools forceTools loopLimit).
Local Abbreviation runFrom' :=
  (runFrom env allowFileSystem allowWeb allowCode currentWorkingDirectory
           allow_tools forceTools loopLimit autoSave taskPrompt).
Local Abbreviation handleContent' :=
  (handleContent env allowFileSystem allowWeb allowCode currentWorkingDirectory
                 allow_tools forceTools loopLimit).

(** The body of the loop on a reply that is not a success. *)
Lemma turn_failure (m : mem) :
  (forall raw, chat env (trace m) (msgList m) <> ChatOk raw) ->
  turn' m =
    (Ok (Return (Error (errorOf (chat env (trace m) (msgList m)))
                       (filesModified m))),
     logChat m (chat env (trace m) (msgList m))).
Proof.
  intros Hbad. unfold turn.
  destruct (chat env (trace m) (msgList m)) as [msg | st | raw] eqn:E;
    try reflexivity.
  exfalso. exact (Hbad raw eq_refl).
Qed.

Lemma turn_success (m : mem) (raw : string) :
  chat env (trace m) (msgList m) = ChatOk raw ->
  turn' m = handleContent' (cleanup raw) (logChat m (ChatOk raw)).
Proof.
  intros E. unfold turn. rewrite E. reflexivity.
Qed.

(** One more turn: when the body ends in [continue], the run goes on from
    the state it left. *)
Lemma runFrom_step (fuel : nat) (m m' : mem) :
  (loops m < loopLimit)%Z ->
  turn' m = (Ok Continue, m') ->
  runFrom' (S fuel) m = runFrom' fuel m'.
Proof.
  intros Hlt Ht. unfold runFrom. simpl.
  apply Z.ltb_lt in Hlt. rewrite Hlt, Ht. reflexivity.
Qed.

(** ** C9 *)

(** C9.  On any turn (the loop test holds in state [m]), when the
    chat-completion call answers with a non-2xx status or throws, the run
    returns at once: the result carries the error and the [filesModified]
    accumulated so far, and the only thing that happened is that one call
    (no retry, no write, no history entry). *)
Theorem transport_error_ends_run (fuel : nat) (m : mem) :
  (loops m < loopLimit)%Z ->
  (forall raw, chat env (trace m) (msgList m) <> ChatOk raw) ->
  runFrom' (S fuel) m =
    Some (Ok (Error (errorOf (chat env (trace m) (msgList m)))
                    (filesModified m)),
          logChat m (chat env (trace m) (msgList m))).
Proof.
  intros Hlt Hbad. unfold runFrom. simpl.
  apply Z.ltb_lt in Hlt. rewrite Hlt.
  rewrite (turn_failure m Hbad). reflexivity.
Qed.

(** ** C6 *)

(** C6.  With tools enabled, a reply whose (marker-stripped, trimmed) text
    contains one of the refusal phrases, whatever its letter case, is
    handled as a refusal whatever else it contains: the text is appended as
    an assistant message, the corrective system message follows, the turn
    counter goes up by one and the body ends in [continue].  Nothing else
    happens on that turn: the trace gains the chat call only, so a tool call
    in the same text is not dispatched. *)
Theorem refusal_takes_priority (m : mem) (raw kw : string) :
  toolsEnabled allow_tools forceTools = true ->
  chat env (trace m) (msgList m) = ChatOk raw ->
  In kw refusalKeywords ->
  Js.includes (Js.toLowerCase (Js.trim (cleanup raw))) kw = true ->
  turn' m =
    (Ok Continue,
     Mem (msgList m ++ [Msg "assistant" (cleanup raw); Msg "system" refusalNotice])
         (loops m + 1) (finalContent m) (filesModified m) (processedFiles m)
         (trace m ++ [EChat (msgList m) (ChatOk raw)])).
Proof.
  intros Htools Hchat Hkw Hinc.
  rewrite (turn_success m raw Hchat). unfold handleContent.
  rewrite Htools. simpl negb. cbv iota.
  assert (Href : isRefusal (Js.trim (cleanup raw)) = true).
  { unfold isRefusal. apply existsb_exists. exists kw. split; assumption. }
  rewrite Href.
  unfold bind, push_message, increment_loops, update, ret, logChat,
    set_msgList, set_loops, set_trace. simpl.
  rewrite <- app_assoc. reflexivity.
Qed.

(** ** C10 *)

Section Disabled.

Variables role contextData subAgentProfilesStr : string.

Local Abbreviation initial :=
  (initialState env allowFileSystem allowWeb allowCode currentWorkingDirectory
                false false taskPrompt role contextData subAgentProfilesStr).

Lemma initialState_shape (at_ ft : bool) (before : list event) :
  let m0 := initialState env allowFileSystem allowWeb allowCode
              currentWorkingDirectory at_ ft taskPrompt role contextData
              subAgentProfilesStr before in
  loops m0 = 0%Z /\ finalContent m0 = "" /\ filesModified m0 = [] /\
  List.length (msgList m0) = 2 /\
  exists r1 r2,
    trace m0 =
      (before ++
       [EReadFile (Path.join [currentWorkingDirectory; "SUB_AGENT_INSTRUCTIONS.md"]) r1;
        EReadFile (Path.join [currentWorkingDirectory; "beledarian_info.md"]) r2])%list.
Proof.
  unfold initialState, buildSystemPrompt, readOptional, do_readFile, await,
    try_catch, bind, ret, set_trace. simpl.
  destruct (readFile env before
              (Path.join [currentWorkingDirectory; "SUB_AGENT_INSTRUCTIONS.md"]))
    as [i | e]; simpl;
    match goal with
    | |- context [readFile env ?t ?p] => destruct (readFile env t p) as [j | e']
    end; simpl;
    repeat split; eexists; eexists; rewrite <- app_assoc; reflexivity.
Qed.

(** C10.  With [allow_tools] and [forceTools] both false and a positive turn
    limit, when the first chat-completion call succeeds the invocation returns
    after that single call with the marker-stripped text of the reply and an
    empty [filesModified].  The final state is the initial one plus the record
    of that call: no message was appended (no refusal handling, no tool
    dispatch), [finalContent] is untouched (no extraction), and the trace
    holds no write and no history append. *)
Theorem tools_disabled_single_call (fuel : nat) (before : list event) (raw : string) :
  (0 < loopLimit)%Z ->
  chat env (trace (initial before)) (msgList (initial before)) = ChatOk raw ->
  runAgentLoop env allowFileSystem allowWeb allowCode currentWorkingDirectory
    false false loopLimit autoSave taskPrompt role contextData
    subAgentProfilesStr (S fuel) before
  = Some (Ok (Response (cleanup raw) []),
          logChat (initial before) (ChatOk raw))
  /\ chatCalls (trace (logChat (initial before) (ChatOk raw)))
     = chatCalls before + 1
  /\ writesOf (trace (logChat (initial before) (ChatOk raw)))
     = writesOf before.
Proof.
  intros Hpos Hchat.
  destruct (initialState_shape false false before) as (Hl & _ & Hf & _ & r1 & r2 & Ht).
  split; [| split].
  - unfold runAgentLoop, runFrom. simpl.
    rewrite Hl. apply Z.ltb_lt in Hpos. rewrite Hpos.
    unfold turn. rewrite Hchat. unfold handleContent, toolsEnabled. simpl.
    unfold bind, read, ret. simpl. rewrite Hf. reflexivity.
  - unfold logChat. simpl. rewrite Ht, !chatCalls_app. unfold chatCalls. simpl. lia.
  - unfold logChat. simpl. rewrite Ht.
    rewrite !writesOf_app. simpl. rewrite !app_nil_r. reflexivity.
Qed.

End Disabled.

(** ** The no-call branch (C4, C5) *)

Lemma handleContent_no_call (content : string) (m : mem) :
  toolsEnabled allow_tools forceTools = true ->
  isRefusal (Js.trim content) = false ->
  detectToolCall (Js.trim content) = None ->
  handleContent' content m = noCallOutcome loopLimit content m.
Proof.
  intros Htools Href Hcall. unfold handleContent, noCallOutcome.
  rewrite Htools, Href, Hcall. simpl negb. cbv iota.
  unfold bind, read. simpl.
  destruct (Js.includes content "TASK_COMPLETED" || (loopLimit - 1 <=? loops m)%Z).
  - reflexivity.
  - unfold bind, push_message, increment_loops, update, ret,
      set_msgList, set_loops. simpl.
    rewrite <- app_assoc. reflexivity.
Qed.

Lemma parse_failure_is_no_call (trimmed : string) :
  (jsonMatch trimmed = None \/
   exists span, jsonMatch trimmed = Some span /\ Json.parse span = None) ->
  detectToolCall trimmed = None.
Proof.
  unfold detectToolCall, parseToolCall.
  intros [Hnone | (span & Hspan & Hparse)].
  - rewrite Hnone. reflexivity.
  - rewrite Hspan, Hparse. reflexivity.
Qed.

(** C4, amended.  With tools enabled, a reply whose marker-stripped text
    contains [TASK_COMPLETED], matches no refusal phrase and yields no tool
    call ends the loop on that turn: the text becomes [finalContent] and the
    loop is left by [break]. *)
Theorem completion_marker_ends_loop (fuel : nat) (m : mem) (raw : string) :
  toolsEnabled allow_tools forceTools = true ->
  (loops m < loopLimit)%Z ->
  chat env (trace m) (msgList m) = ChatOk raw ->
  Js.includes (cleanup raw) "TASK_COMPLETED" = true ->
  isRefusal (Js.trim (cleanup raw)) = false ->
  detectToolCall (Js.trim (cleanup raw)) = None ->
  agentLoop' (S fuel) m
  = Some (Break, set_finalContent (fun _ => cleanup raw) (logChat m (ChatOk raw))).
Proof.
  intros Htools Hlt Hchat Hmark Href Hcall. simpl.
  apply Z.ltb_lt in Hlt. rewrite Hlt.
  rewrite (turn_success m raw Hchat).
  rewrite (handleContent_no_call _ _ Htools Href Hcall).
  unfold noCallOutcome. rewrite Hmark. reflexivity.
Qed.

(** ** C8 *)

Lemma isShell_not_json (l : string) :
  isShell l = true -> String.eqb l "json" = false.
Proof.
  unfold isShell. simpl. intros H.
  repeat (apply orb_prop in H; destruct H as [H | H]);
    try discriminate;
    apply String.eqb_eq in H; subst l; reflexivity.
Qed.

(** C8.  A block whose language tag is one of [bash], [sh], [cmd],
    [powershell], [console], [zsh], [terminal] and for which neither the
    lookback nor the first-line comment yields a file name is left alone by
    the extraction pass: processing it changes nothing at all (no write, no
    entry in [filesModified], no change of the text). *)
Theorem unlabeled_shell_block_is_skipped (b : block) (m : mem) :
  isShell (lang b) = true ->
  lookbackName (finalContent m) b = "" ->
  commentName b = "" ->
  processBlock env currentWorkingDirectory b m = (Ok tt, m).
Proof.
  intros Hshell Hlook Hcomment. unfold processBlock.
  rewrite (isShell_not_json _ Hshell). unfold bind at 1, ret at 1.
  unfold saveSingle.
  destruct (50 <? String.length (Js.trim (code b)))%nat; [| reflexivity].
  unfold bind, read. unfold inferFileName. rewrite Hlook. simpl.
  rewrite Hcomment, Hshell. reflexivity.
Qed.

(** ** The bound on the number of turns (C2) *)

Local Abbreviation dispatch' :=
  (dispatch env allowFileSystem allowWeb allowCode currentWorkingDirectory).

Lemma validatePath_any_keeps (base : string) (p : Json.value) :
  keeps (validatePath_any env base p).
Proof.
  intros m. unfold validatePath_any.
  destruct p as [[] |]; apply quiet_refl.
Qed.

Lemma member_keeps (v : Json.json) (k : string) : keeps (member v k).
Proof. unfold member. destruct v; repeat keeps_step. Qed.

Lemma do_writeFile_any_keeps (path : string) (data : Json.json) :
  keeps (do_writeFile_any env path data).
Proof.
  unfold do_writeFile_any, do_writeFile. destruct data; repeat keeps_step.
Qed.

Ltac keeps_prim :=
  first
    [ apply validatePath_any_keeps | apply member_keeps
    | apply do_writeFile_any_keeps
    | unfold do_mkdir, do_writeFile, do_readFile, do_readdir, push_file,
        add_processed, replace_span, console_error; keeps_step
    | keeps_step ].

Lemma save_batch_item_keeps (fileObj : Json.json) :
  keeps (save_batch_item env currentWorkingDirectory fileObj).
Proof. unfold save_batch_item. repeat keeps_prim. Qed.

Lemma save_batch_keeps (files : list Json.json) :
  forall saved, keeps (save_batch env currentWorkingDirectory files saved).
Proof.
  induction files as [| f files IH]; intros saved; simpl.
  - apply keeps_ret.
  - apply keeps_bind; [apply save_batch_item_keeps | intros r; apply IH].
Qed.

Lemma save_file_keeps (tc : toolCall) :
  keeps (save_file env currentWorkingDirectory tc).
Proof.
  unfold save_file.
  destruct (argOf tc "files") as [[| | | | files |] |];
    try (repeat keeps_prim; fail).
  apply keeps_bind; [apply save_batch_keeps | intros; apply keeps_ret].
Qed.

Lemma replace_text_in_file_keeps (tc : toolCall) :
  keeps (replace_text_in_file env currentWorkingDirectory tc).
Proof. unfold replace_text_in_file. repeat keeps_prim. Qed.

Lemma delete_matching_keeps (test : string -> bool) (files : list string) :
  forall deleted,
    keeps (delete_matching env currentWorkingDirectory test files deleted).
Proof.
  induction files as [| f files IH]; intros deleted; simpl.
  - apply keeps_ret.
  - destruct (test f); [| apply IH].
    apply keeps_bind; [keeps_step | intros; apply IH].
Qed.

Lemma delete_files_by_pattern_keeps (pattern : Json.json) :
  keeps (delete_files_by_pattern env currentWorkingDirectory pattern).
Proof.
  unfold delete_files_by_pattern.
  destruct (regexp_test env pattern); [| apply keeps_throw].
  apply keeps_bind; [unfold do_readdir; keeps_step | intros files].
  apply keeps_bind; [apply delete_matching_keeps | intros; apply keeps_ret].
Qed.

Lemma dispatch_keeps (tc : toolCall) : keeps (dispatch' tc).
Proof.
  unfold dispatch. apply keeps_try_catch; [| intros; apply keeps_ret].
  apply keeps_bind.
  { destruct allowFileSystem; [| apply keeps_ret]. unfold fileSystemTools.
    repeat first
      [ apply save_file_keeps | apply replace_text_in_file_keeps
      | apply delete_files_by_pattern_keeps | keeps_prim ]. }
  intros r1. apply keeps_bind.
  { destruct (allowWeb && String.eqb r1 ""); [| apply keeps_ret].
    unfold webTools. repeat keeps_prim. }
  intros r2. apply keeps_bind; [| intros; apply keeps_ret].
  destruct (allowCode && String.eqb r2 ""); [| apply keeps_ret].
  unfold codeTools. repeat keeps_prim.
Qed.

Lemma dispatch_total (tc : toolCall) : total (dispatch' tc).
Proof. unfold dispatch. apply total_try_catch. intros e. apply total_ret. Qed.

(** The body of the loop never throws, makes exactly one chat call, and
    when it ends in [continue] the turn counter has gone up by one. *)
Lemma handleContent_progress (content : string) (m : mem) :
  exists f m',
    handleContent' content m = (Ok f, m')
    /\ chatCalls (trace m') = chatCalls (trace m)
    /\ (f = Continue -> loops m' = loops m + 1)%Z.
Proof.
  unfold handleContent.
  destruct (negb (toolsEnabled allow_tools forceTools)).
  { eexists _, _. split; [reflexivity |]. split; [reflexivity | discriminate]. }
  destruct (isRefusal (Js.trim content)).
  { eexists _, _. split; [reflexivity |]. split; reflexivity. }
  destruct (detectToolCall (Js.trim content)) as [tc |].
  - unfold bind at 1. unfold push_message at 1. unfold update at 1.
    unfold bind at 1.
    pose proof (dispatch_keeps tc
      (set_msgList (fun l => (l ++ [Msg "assistant" content])%list) m)) as Hq.
    destruct (dispatch_total tc
      (set_msgList (fun l => (l ++ [Msg "assistant" content])%list) m)) as (res & Hres).
    destruct (dispatch' tc _) as [r m1]. simpl in Hres, Hq. subst r.
    destruct Hq as (Hl & _ & Hc).
    eexists _, _. split; [reflexivity |]. simpl.
    split; [exact Hc | intros _; rewrite Hl; reflexivity].
  - unfold bind, read. simpl.
    destruct (Js.includes content "TASK_COMPLETED" || (loopLimit - 1 <=? loops m)%Z).
    + eexists _, _. split; [reflexivity |]. split; [reflexivity | discriminate].
    + eexists _, _. split; [reflexivity |]. split; reflexivity.
Qed.

Lemma turn_progress (m : mem) :
  exists f m',
    turn' m = (Ok f, m')
    /\ chatCalls (trace m') = chatCalls (trace m) + 1
    /\ (f = Continue -> loops m' = loops m + 1)%Z.
Proof.
  unfold turn.
  destruct (chat env (trace m) (msgList m)) as [msg | st | raw].
  - eexists _, _. split; [reflexivity |]. simpl. rewrite chatCalls_app.
    split; [reflexivity | discriminate].
  - eexists _, _. split; [reflexivity |]. simpl. rewrite chatCalls_app.
    split; [reflexivity | discriminate].
  - destruct (handleContent_progress (cleanup raw)
                (set_trace (fun t => (t ++ [EChat (msgList m) (ChatOk raw)])%list) m))
      as (f & m' & H & Hc & Hl).
    exists f, m'. split; [exact H |]. simpl in Hc, Hl.
    rewrite Hc, chatCalls_app. split; [reflexivity | exact Hl].
Qed.

(** The loop is left within [loopLimit - loops] passes. *)
Lemma agentLoop_terminates (fuel : nat) :
  forall m,
    Z.to_nat (loopLimit - loops m) <= fuel ->
    exists f m',
      agentLoop' fuel m = Some (f, m')
      /\ f <> Continue
      /\ chatCalls (trace m') <= chatCalls (trace m) + Z.to_nat (loopLimit - loops m).
Proof.
  induction fuel as [| fuel IH]; intros m Hfuel.
  - simpl. destruct (loops m <? loopLimit)%Z eqn:E.
    + apply Z.ltb_lt in E. lia.
    + exists Break, m. repeat split; [discriminate | lia].
  - simpl. destruct (loops m <? loopLimit)%Z eqn:E.
    2:{ exists Break, m. repeat split; [discriminate | lia]. }
    apply Z.ltb_lt in E.
    destruct (turn_progress m) as (f & m1 & Ht & Hc & Hl). rewrite Ht.
    destruct f as [| | r].
    + specialize (Hl eq_refl).
      destruct (IH m1) as (f' & m' & Hrun & Hne & Hcalls); [lia |].
      exists f', m'. repeat split; [exact Hrun | exact Hne | lia].
    + exists Break, m1. repeat split; [discriminate | lia].
    + exists (Return r), m1. repeat split; [discriminate | lia].
Qed.

Lemma extract_batch_item_keeps (item : Json.json) :
  keeps (extract_batch_item env currentWorkingDirectory item).
Proof. unfold extract_batch_item. repeat keeps_prim. Qed.

Lemma extract_batch_keeps (items : list Json.json) :
  forall n, keeps (extract_batch env currentWorkingDirectory items n).
Proof.
  induction items as [| i items IH]; intros n; simpl.
  - apply keeps_ret.
  - apply keeps_bind; [apply extract_batch_item_keeps | intros; apply IH].
Qed.

Lemma processBlock_keeps (b : block) :
  keeps (processBlock env currentWorkingDirectory b).
Proof.
  unfold processBlock. apply keeps_bind.
  - destruct (String.eqb (lang b) "json"); [| apply keeps_ret].
    unfold unpackJson. apply keeps_try_catch; [| intros; apply keeps_ret].
    destruct (Json.parse (code b)) as [[| | | | items |] |];
      try (repeat keeps_prim; fail).
    apply keeps_bind; [apply extract_batch_keeps | intros n].
    repeat keeps_prim.
  - intros handled. destruct handled; [apply keeps_ret |].
    unfold saveSingle. repeat keeps_prim.
Qed.

Lemma processBlock_total (b : block) :
  total (processBlock env currentWorkingDirectory b).
Proof.
  unfold processBlock. apply total_bind.
  - destruct (String.eqb (lang b) "json"); [| apply total_ret].
    unfold unpackJson. apply total_try_catch. intros; apply total_ret.
  - intros handled. destruct handled; [apply total_ret |].
    unfold saveSingle, console_error. repeat total_step.
Qed.

Lemma autoSavePass_keeps :
  keeps (autoSavePass env allowFileSystem currentWorkingDirectory autoSave).
Proof.
  unfold autoSavePass. apply keeps_bind; [apply keeps_read | intros text].
  destruct (autoSave && allowFileSystem && negb (String.eqb text ""));
    [| apply keeps_ret].
  apply keeps_bind; [keeps_step | intros _].
  apply forEach_keeps. apply processBlock_keeps.
Qed.

Lemma autoSavePass_total :
  total (autoSavePass env allowFileSystem currentWorkingDirectory autoSave).
Proof.
  unfold autoSavePass. apply total_bind; [apply total_read | intros text].
  destruct (autoSave && allowFileSystem && negb (String.eqb text ""));
    [| apply total_ret].
  apply total_bind; [apply total_update | intros _].
  apply forEach_total. apply processBlock_total.
Qed.

Lemma updateProjectInfo_keeps :
  keeps (updateProjectInfo env allowFileSystem currentWorkingDirectory taskPrompt).
Proof.
  unfold updateProjectInfo. apply keeps_bind; [apply keeps_read | intros files].
  destruct ((0 <? List.length files)%nat && allowFileSystem); [| apply keeps_ret].
  apply keeps_bind.
  - intros m. unfold do_now. simpl. repeat split. simpl.
    rewrite chatCalls_app. unfold chatCalls at 2. simpl. lia.
  - intros timestamp. repeat keeps_prim.
Qed.

Lemma updateProjectInfo_total :
  total (updateProjectInfo env allowFileSystem currentWorkingDirectory taskPrompt).
Proof.
  unfold updateProjectInfo. apply total_bind; [apply total_read | intros files].
  destruct ((0 <? List.length files)%nat && allowFileSystem); [| apply total_ret].
  apply total_bind.
  - intros m. eexists. reflexivity.
  - intros timestamp. repeat total_step.
Qed.

(** From any state, enough fuel for the turns that are left lets the run
    finish with a result object, after at most that many chat calls. *)
Lemma runFrom_terminates (m : mem) :
  exists r m',
    runFrom' (Z.to_nat (loopLimit - loops m)) m = Some (Ok r, m')
    /\ chatCalls (trace m') <= chatCalls (trace m) + Z.to_nat (loopLimit - loops m).
Proof.
  destruct (agentLoop_terminates (Z.to_nat (loopLimit - loops m)) m (le_n _))
    as (f & m1 & Hrun & Hne & Hcalls).
  unfold runFrom. rewrite Hrun.
  assert (Hpost :
    exists r m',
      (autoSavePass env allowFileSystem currentWorkingDirectory autoSave ;;
       updateProjectInfo env allowFileSystem currentWorkingDirectory taskPrompt ;;
       text <- read finalContent ;;
       files <- read filesModified ;;
       ret (Response text files)) m1 = (Ok r, m')
      /\ chatCalls (trace m') = chatCalls (trace m1)).
  { set (post := (autoSavePass _ _ _ _ ;; _)).
    assert (Ht : total post).
    { subst post. apply total_bind; [apply autoSavePass_total | intros _].
      apply total_bind; [apply updateProjectInfo_total | intros _].
      repeat total_step. }
    assert (Hk : keeps post).
    { subst post. apply keeps_bind; [apply autoSavePass_keeps | intros _].
      apply keeps_bind; [apply updateProjectInfo_keeps | intros _].
      repeat keeps_step. }
    destruct (Ht m1) as (r & Hr). specialize (Hk m1).
    destruct (post m1) as [o m']. simpl in *. subst o.
    exists r, m'. split; [reflexivity | apply Hk]. }
  destruct f as [| | r].
  - contradiction.
  - destruct Hpost as (r & m' & Hp & Hc). exists r, m'.
    split; [rewrite Hp; reflexivity | lia].
  - exists r, m1. split; [reflexivity | lia].
Qed.

Section Invocation.

Variables role contextData subAgentProfilesStr : string.

(** C2.  Whatever the endpoint and the tools answer, an invocation of
    [runAgentLoop] needs no more than [loopLimit] passes through the loop: with
    that much fuel it returns a result object, and it has made at most
    [loopLimit] chat-completion calls.  On the last allowed turn
    ([loops = loopLimit - 1]), with tools enabled, a reply that is no refusal
    and yields no tool call is accepted as the final text, with or without the
    completion marker. *)
Theorem loop_bounded_by_turn_limit (before : list event) :
  (exists r m',
     runAgentLoop env allowFileSystem allowWeb allowCode currentWorkingDirectory
       allow_tools forceTools loopLimit autoSave taskPrompt role contextData
       subAgentProfilesStr (Z.to_nat loopLimit) before = Some (Ok r, m')
     /\ chatCalls (trace m') <= chatCalls before + Z.to_nat loopLimit)
  /\
  (forall (fuel : nat) (m : mem) (raw : string),
     toolsEnabled allow_tools forceTools = true ->
     loops m = (loopLimit - 1)%Z ->
     chat env (trace m) (msgList m) = ChatOk raw ->
     isRefusal (Js.trim (cleanup raw)) = false ->
     detectToolCall (Js.trim (cleanup raw)) = None ->
     agentLoop' (S fuel) m
     = Some (Break, set_finalContent (fun _ => cleanup raw) (logChat m (ChatOk raw)))).
Proof.
  split.
  - destruct (initialState_shape role contextData subAgentProfilesStr
                allow_tools forceTools before)
      as (Hl & _ & _ & _ & r1 & r2 & Ht).
    unfold runAgentLoop.
    set (m0 := initialState _ _ _ _ _ _ _ _ _ _ _ _) in *.
    destruct (runFrom_terminates m0) as (r & m' & Hrun & Hcalls).
    rewrite Hl, Z.sub_0_r in Hrun, Hcalls.
    exists r, m'. split; [exact Hrun |].
    rewrite Ht, chatCalls_app in Hcalls.
    change (chatCalls [EReadFile _ r1; EReadFile _ r2]) with 0 in Hcalls. lia.
  - intros fuel m raw Htools Hlast Hchat Href Hcall. simpl.
    assert (Hlt : (loops m <? loopLimit)%Z = true) by (apply Z.ltb_lt; lia).
    rewrite Hlt, (turn_success m raw Hchat).
    rewrite (handleContent_no_call _ _ Htools Href Hcall).
    unfold noCallOutcome. simpl loops.
    assert (Hge : (loopLimit - 1 <=? loops m)%Z = true) by (apply Z.leb_le; lia).
    rewrite Hge, orb_true_r. reflexivity.
Qed.

End Invocation.

(** ** C5 *)

(** C5, amended.  The tool-use check considers one span only: the one from
    the first opening brace of the trimmed text to its last closing brace.
    When there is no such span, or when [JSON.parse] rejects it, the parser
    result is null and the loop takes the no-call branch (the final text when
    the marker is present or the turn is the last one, the nudge and another
    turn otherwise): the failure is never reported as an error. *)
Theorem malformed_call_is_no_call (m : mem) (raw : string) :
  toolsEnabled allow_tools forceTools = true ->
  chat env (trace m) (msgList m) = ChatOk raw ->
  isRefusal (Js.trim (cleanup raw)) = false ->
  (jsonMatch (Js.trim (cleanup raw)) = None \/
   exists span, jsonMatch (Js.trim (cleanup raw)) = Some span
                /\ Json.parse span = None) ->
  (forall span, jsonMatch (Js.trim (cleanup raw)) = Some span ->
     exists pre mid post,
       Js.trim (cleanup raw) = pre ++ span ++ post
       /\ span = "{" ++ mid ++ "}"
       /\ occurs "{"%char pre = false /\ occurs "}"%char post = false)
  /\ parseToolCall (Js.trim (cleanup raw)) = None
  /\ turn' m = noCallOutcome loopLimit (cleanup raw) (logChat m (ChatOk raw)).
Proof.
  intros Htools Hchat Href Hbad. split; [| split].
  - intros span Hspan. rewrite SpanFacts.jsonMatch_direct in Hspan.
    apply SpanFacts.openToLastClose_shape. exact Hspan.
  - unfold parseToolCall. destruct Hbad as [Hn | (span & Hs & Hp)].
    + rewrite Hn. reflexivity.
    + rewrite Hs, Hp. reflexivity.
  - rewrite (turn_success m raw Hchat).
    apply handleContent_no_call; try assumption.
    apply parse_failure_is_no_call. exact Hbad.
Qed.

(** ** The auto-save pass (C7) *)

Local Abbreviation processBlock' := (processBlock env currentWorkingDirectory).
Local Abbreviation saveSingle' := (saveSingle env currentWorkingDirectory).

Lemma saveSingle_run (b : block) (m : mem) :
  saveSingle' b m = (Ok tt, singleStep env currentWorkingDirectory b m).
Proof.
  unfold saveSingle, singleStep.
  destruct (50 <? String.length (Js.trim (code b)))%nat; [| reflexivity].
  unfold bind at 1, read at 1. cbv zeta.
  destruct (String.eqb (inferFileName (finalContent m) b) "") eqn:En.
  { rewrite andb_true_r. simpl. destruct (isShell (lang b)); reflexivity. }
  rewrite andb_false_r. unfold bind at 1, read at 1.
  destruct (has (processedFiles m) (inferFileName (finalContent m) b)) eqn:Eh.
  { reflexivity. }
  simpl andb. cbv iota.
  unfold try_catch, bind, do_mkdir, do_writeFile, await, push_file,
    add_processed, replace_span, console_error, update, set_trace,
    set_filesModified, set_processedFiles, set_finalContent. simpl.
  destruct (mkdir env (trace m) _) as [[] | e]; simpl.
  - destruct (writeFile env _ _ _) as [[] | e]; simpl.
    + unfold savedState. rewrite Eh. rewrite <- !app_assoc. reflexivity.
    + rewrite <- !app_assoc. reflexivity.
  - rewrite <- !app_assoc. reflexivity.
Qed.

Lemma extract_batch_unsaveable (items : list Json.json) :
  existsb saveable items = false ->
  forall n m,
    extract_batch env currentWorkingDirectory items n m = (Ok n, m)
    \/ exists e, extract_batch env currentWorkingDirectory items n m = (Threw e, m).
Proof.
  induction items as [| item items IH]; intros Hnone n m; simpl.
  - left. reflexivity.
  - simpl in Hnone. apply orb_false_elim in Hnone. destruct Hnone as [Hitem Hrest].
    destruct item as [| bo | num | str | arr | fields].
    + right. eexists. reflexivity.
    + destruct (IH Hrest (n + 0) m) as [H | (e & H)];
        [left | right; exists e]; unfold bind; simpl; rewrite H;
        try rewrite Nat.add_0_r; reflexivity.
    + destruct (IH Hrest (n + 0) m) as [H | (e & H)];
        [left | right; exists e]; unfold bind; simpl; rewrite H;
        try rewrite Nat.add_0_r; reflexivity.
    + destruct (IH Hrest (n + 0) m) as [H | (e & H)];
        [left | right; exists e]; unfold bind; simpl; rewrite H;
        try rewrite Nat.add_0_r; reflexivity.
    + destruct (IH Hrest (n + 0) m) as [H | (e & H)];
        [left | right; exists e]; unfold bind; simpl; rewrite H;
        try rewrite Nat.add_0_r; reflexivity.
    + assert (Hitem' :
        extract_batch_item env currentWorkingDirectory (Json.JObj fields) m
        = (Ok 0, m)).
      { unfold extract_batch_item, member, bind, ret. simpl.
        unfold saveable in Hitem. simpl in Hitem.
        destruct (Json.or_ (Json.or_ (Json.lookup "path" fields)
                                     (Json.lookup "file_name" fields))
                           (Json.lookup "name" fields)) as [[| | | name | |] |];
          try reflexivity.
        destruct (Json.or_ (Json.or_ (Json.lookup "content" fields)
                                     (Json.lookup "data" fields))
                           (Json.lookup "code" fields)) as [[| | | data | |] |];
          try reflexivity.
        rewrite Hitem. reflexivity. }
      unfold bind. rewrite Hitem'.
      destruct (IH Hrest (n + 0) m) as [H | (e & H)];
        [left | right; exists e]; rewrite H;
        try rewrite Nat.add_0_r; reflexivity.
Qed.

Lemma processBlock_single (b : block) (m : mem) :
  isBatch b = false ->
  processBlock' b m = (Ok tt, singleStep env currentWorkingDirectory b m).
Proof.
  intros Hb. unfold processBlock, isBatch in *.
  destruct (String.eqb (lang b) "json").
  2:{ unfold bind at 1, ret at 1. apply saveSingle_run. }
  simpl in Hb.
  assert (Hunpack : unpackJson env currentWorkingDirectory b m = (Ok false, m)).
  { unfold unpackJson, try_catch.
    destruct (Json.parse (code b)) as [[| | | | items |] |]; try reflexivity.
    destruct (extract_batch_unsaveable items Hb 0 m) as [H | (e & H)].
    - unfold bind. rewrite H. reflexivity.
    - unfold bind. rewrite H. reflexivity. }
  unfold bind at 1. rewrite Hunpack. apply saveSingle_run.
Qed.

(** The blocks of a text start within it and come in text order. *)
Lemma blocks_sorted (text : string) :
  Forall (fun b => start b <= String.length text) (blocks text)
  /\ StronglySorted (fun a b => start a <= start b) (blocks text).
Proof.
  unfold blocks, Regex.matchAll.
  destruct (RegexFacts.matchAll_from_sorted codeBlockRegex
              (S (String.length text)) 0 text) as (Hall & Hs).
  split.
  - apply Forall_map. eapply Forall_impl; [| exact Hall].
    simpl. intros a Ha. lia.
  - apply StronglySorted_map. exact Hs.
Qed.

Lemma blocks_of_empty : blocks "" = [].
Proof. reflexivity. Qed.

Lemma inferFileName_prefix (text fc : string) (b : block) :
  Js.take (start b) fc = Js.take (start b) text ->
  inferFileName fc b = inferFileName text b.
Proof.
  intros H. unfold inferFileName, lookbackName.
  rewrite (substring_of_prefix fc text (start b - 500) (start b)) by (lia || exact H).
  reflexivity.
Qed.

Section Walk.

Variables text p : string.
Hypothesis p_named : p <> "".
Hypothesis mkdir_ok :
  forall t, mkdir env t (Path.dirname (Path.join [currentWorkingDirectory; p])) = Ok tt.
Hypothesis writeFile_ok :
  forall t data, writeFile env t (Path.join [currentWorkingDirectory; p]) data = Ok tt.

Local Abbreviation step := (singleStep env currentWorkingDirectory).

Lemma prefixKept_length (K : nat) (m : mem) :
  prefixKept text K m -> K <= String.length (finalContent m).
Proof.
  intros (HK & H). apply (f_equal String.length) in H.
  rewrite !take_length in H. lia.
Qed.

Lemma prefixKept_same (K k : nat) (m m' : mem) :
  prefixKept text K m -> k <= K -> finalContent m' = finalContent m ->
  prefixKept text k m'.
Proof.
  intros (HK & H) Hk Hfc. split; [lia |]. rewrite Hfc.
  rewrite <- (take_take K k (finalContent m)) by exact Hk.
  rewrite H. apply take_take. exact Hk.
Qed.

Lemma prefixKept_saved (K : nat) (b : block) (n : string) (m : mem) :
  prefixKept text K m -> start b <= K ->
  prefixKept text (start b) (savedState currentWorkingDirectory b n m).
Proof.
  intros HK Hb. pose proof (prefixKept_length K m HK) as Hlen.
  destruct (prefixKept_same K (start b) m m HK Hb eq_refl) as (Hs & Ht).
  split; [exact Hs |]. unfold savedState. simpl.
  rewrite take_app by (rewrite take_length; lia).
  rewrite take_take by lia. exact Ht.
Qed.

Ltac unchanged Hsame :=
  split; [apply Hsame; reflexivity |]; simpl;
  repeat split; auto; try (rewrite orb_false_r; reflexivity);
  try lia; try discriminate.

(** One block of the walk, seen from the name [p]. *)
Lemma step_facts (K : nat) (b : block) (m : mem) :
  prefixKept text K m -> start b <= K ->
  prefixKept text (start b) (step b m)
  /\ has (processedFiles (step b m)) p
     = has (processedFiles m) p || resolvesTo text p b
  /\ timesIn p (filesModified (step b m))
     = timesIn p (filesModified m)
       + (if resolvesTo text p b && negb (has (processedFiles m) p) then 1 else 0)
  /\ (resolvesTo text p b = true -> has (processedFiles m) p = true ->
      step b m = m)
  /\ (resolvesTo text p b = true -> has (processedFiles m) p = false ->
      step b m = savedState currentWorkingDirectory b p m).
Proof.
  intros HK Hb.
  assert (Hname : inferFileName (finalContent m) b = inferFileName text b).
  { apply inferFileName_prefix.
    destruct (prefixKept_same K (start b) m m HK Hb eq_refl) as (_ & H). exact H. }
  assert (Hsame : forall m', finalContent m' = finalContent m ->
                             prefixKept text (start b) m').
  { intros m' Hfc. eapply prefixKept_same; eassumption. }
  unfold singleStep, resolvesTo. rewrite Hname.
  set (n := inferFileName text b).
  destruct (50 <? String.length (Js.trim (code b)))%nat; simpl andb.
  2:{ unchanged Hsame. }
  destruct (String.eqb n "") eqn:En; simpl andb.
  { apply String.eqb_eq in En.
    assert (Hnp : String.eqb n p = false).
    { apply String.eqb_neq. intros E. apply p_named. congruence. }
    rewrite Hnp. unchanged Hsame. }
  destruct (String.eqb n p) eqn:Enp.
  - apply String.eqb_eq in Enp. rewrite Enp.
    destruct (has (processedFiles m) p) eqn:Eh; simpl.
    + unchanged Hsame.
    + rewrite mkdir_ok, writeFile_ok.
      split; [apply (prefixKept_saved K); assumption |].
      unfold savedState. simpl. rewrite has_app, timesIn_app, Eh, String.eqb_refl.
      repeat split; auto; discriminate.
  - assert (Epn : String.eqb p n = false) by (rewrite String.eqb_sym; exact Enp).
    destruct (has (processedFiles m) n); simpl.
    { unchanged Hsame. }
    destruct (mkdir env (trace m) _) as [[] | e].
    + destruct (writeFile env _ _ _) as [[] | e].
      * split; [apply (prefixKept_saved K); assumption |].
        unfold savedState. simpl. rewrite has_app, timesIn_app, Epn.
        repeat split; try discriminate; try (rewrite orb_false_r; reflexivity); lia.
      * unchanged Hsame.
    + unchanged Hsame.
Qed.

Lemma forEach_steps (bs : list block) :
  Forall (fun b => isBatch b = false) bs ->
  forall m, forEach processBlock' bs m = (Ok tt, fold_left (fun m b => step b m) bs m).
Proof.
  induction 1 as [| b bs Hb _ IH]; intros m; simpl; [reflexivity |].
  unfold bind. rewrite (processBlock_single b m Hb). apply IH.
Qed.


End Walk.

(** ** The validated writes (C1) *)

Section Guarded.

Local Abbreviation guards c := (writesGuarded env currentWorkingDirectory c).

Lemma guards_silent {A} (c : M A) :
  (forall m, trace (snd (c m)) = trace m) -> guards c.
Proof.
  intros H m. exists []. rewrite H, app_nil_r. split; [reflexivity | constructor].
Qed.

Lemma guards_bind {A B} (c : M A) (k : A -> M B) :
  guards c -> (forall a, guards (k a)) -> guards (bind c k).
Proof.
  intros Hc Hk m. unfold bind. destruct (Hc m) as (e1 & H1 & G1).
  destruct (c m) as [[a | e] m1]; simpl in *.
  - destruct (Hk a m1) as (e2 & H2 & G2). exists (e1 ++ e2)%list.
    rewrite H2, H1, app_assoc. split; [reflexivity | apply Forall_app; auto].
  - exists e1. auto.
Qed.

Lemma guards_try_catch {A} (c : M A) (h : string -> M A) :
  guards c -> (forall e, guards (h e)) -> guards (try_catch c h).
Proof.
  intros Hc Hh m. unfold try_catch. destruct (Hc m) as (e1 & H1 & G1).
  destruct (c m) as [[a | e] m1]; simpl in *.
  - exists e1. auto.
  - destruct (Hh e m1) as (e2 & H2 & G2). exists (e1 ++ e2)%list.
    rewrite H2, H1, app_assoc. split; [reflexivity | apply Forall_app; auto].
Qed.

Lemma guards_await {A} (ask : list event -> outcome A) (log : outcome A -> event) :
  (forall r, guarded env currentWorkingDirectory (log r)) -> guards (await ask log).
Proof.
  intros H m. unfold await. simpl. eexists. split; [reflexivity |].
  constructor; [apply H | constructor].
Qed.

(** The sequence of every validated save: validate, make the directory,
    write, then go on. *)
Lemma guards_validated_write {A} (v : Json.value) (data : Json.json) (k : M A) :
  guards k ->
  guards (fpath <- validatePath_any env currentWorkingDirectory v ;;
          do_mkdir env (Path.dirname fpath) ;;
          do_writeFile_any env fpath data ;; k).
Proof.
  intros Hk m. unfold bind at 1. unfold validatePath_any.
  destruct v as [[| | | name | |] |]; simpl;
    try (exists []; rewrite app_nil_r; split; [reflexivity | constructor]).
  destruct (validatePath env currentWorkingDirectory name) as [fpath |] eqn:E; simpl.
  2:{ exists []. rewrite app_nil_r. split; [reflexivity | constructor]. }
  revert m. apply guards_bind; [apply guards_await; intros; exact I | intros _].
  apply guards_bind; [| intros _; exact Hk].
  unfold do_writeFile_any, do_writeFile.
  destruct data; try (destruct (payload_of env _));
    try (apply guards_silent; reflexivity);
    apply guards_await; intros r; exists name; exact E.
Qed.

Lemma save_batch_guards (files : list Json.json) :
  forall saved, guards (save_batch env currentWorkingDirectory files saved).
Proof.
  induction files as [| f files IH]; intros saved; simpl.
  - apply guards_silent. reflexivity.
  - apply guards_bind; [| intros r; apply IH].
    unfold save_batch_item.
    repeat (apply guards_bind;
            [apply guards_silent; intros m; unfold member; destruct f; reflexivity
            | intros ?]).
    match goal with
    | |- guards (match ?x with _ => _ end) => destruct x as [name |]
    end; [| apply guards_silent; reflexivity].
    match goal with
    | |- guards (match ?x with _ => _ end) => destruct x as [data |]
    end; [| apply guards_silent; reflexivity].
    destruct (Json.truthy name && Json.truthy data);
      [| apply guards_silent; reflexivity].
    apply guards_try_catch; [| intros; apply guards_silent; reflexivity].
    apply guards_validated_write.
    apply guards_bind; intros; apply guards_silent; reflexivity.
Qed.

(** Both [save_file] paths of the dispatcher write validated paths only. *)
Lemma save_file_guards (tc : toolCall) :
  guards (save_file env currentWorkingDirectory tc).
Proof.
  unfold save_file.
  assert (Hsingle : forall (n c : Json.value),
    guards (match n, c with
            | Some name, Some data =>
                if Json.truthy name && Json.truthy data then
                  fpath <- validatePath_any env currentWorkingDirectory n ;;
                  do_mkdir env (Path.dirname fpath) ;;
                  do_writeFile_any env fpath data ;;
                  push_file (toText env name) ;;
                  ret ("Success: File saved to " ++ fpath)
                else ret "Error: Missing 'file_name' (or 'name', 'path') or 'content' (or 'data') arguments."
            | _, _ => ret "Error: Missing 'file_name' (or 'name', 'path') or 'content' (or 'data') arguments."
            end)).
  { intros [name |] [data |]; try (apply guards_silent; reflexivity).
    destruct (Json.truthy name && Json.truthy data);
      [| apply guards_silent; reflexivity].
    unfold bind at 1. intros m. unfold validatePath_any.
    destruct name as [| | | s | |]; simpl;
      try (exists []; rewrite app_nil_r; split; [reflexivity | constructor]).
    destruct (validatePath env currentWorkingDirectory s) as [fpath |] eqn:E; simpl.
    2:{ exists []. rewrite app_nil_r. split; [reflexivity | constructor]. }
    revert m. apply guards_bind; [apply guards_await; intros; exact I | intros _].
    apply guards_bind.
    - unfold do_writeFile_any, do_writeFile.
      destruct data; try (destruct (payload_of env _));
        try (apply guards_silent; reflexivity);
        apply guards_await; intros r; exists s; exact E.
    - intros _. apply guards_bind; intros; apply guards_silent; reflexivity. }
  destruct (argOf tc "files") as [[| | | | files |] |]; try apply Hsingle.
  apply guards_bind; [apply save_batch_guards |].
  intros saved. apply guards_silent. reflexivity.
Qed.

(** The JSON-batch path of the extractor writes validated paths only. *)
Lemma extract_batch_guards (items : list Json.json) :
  forall n, guards (extract_batch env currentWorkingDirectory items n).
Proof.
  induction items as [| item items IH]; intros n; simpl.
  - apply guards_silent. reflexivity.
  - apply guards_bind; [| intros r; apply IH].
    unfold extract_batch_item.
    repeat (apply guards_bind;
            [apply guards_silent; intros m; unfold member; destruct item; reflexivity
            | intros ?]).
    match goal with
    | |- guards (match ?x with _ => _ end) => destruct x as [[| | | name | |] |]
    end; try (apply guards_silent; reflexivity).
    match goal with
    | |- guards (match ?x with _ => _ end) => destruct x as [[| | | data | |] |]
    end; try (apply guards_silent; reflexivity).
    destruct (negb (String.eqb name "") && negb (String.eqb data ""));
      [| apply guards_silent; reflexivity].
    apply (guards_validated_write (Some (Json.JStr name)) (Json.JStr data)).
    repeat (apply guards_bind; [apply guards_silent; reflexivity | intros ?]).
    apply guards_silent. reflexivity.
Qed.

End Guarded.

End Properties.

(* ================================================================== *)
(** ** Disk access and the list of modified files *)
(* ================================================================== *)

Lemma written_more (env : Env) (cwd : string) (e1 e2 e3 : list event)
      (n : string) :
  written env cwd e2 n -> written env cwd (e1 ++ e2 ++ e3) n.
Proof.
  intros (path & data & Hin & Hs). exists path, data. split; [| exact Hs].
  rewrite !writesOf_app. apply in_or_app. right. apply in_or_app. left.
  exact Hin.
Qed.

Lemma offDisk_of_other (cwd : string) (e : event) :
  isFsEvent e = false -> offDisk cwd e.
Proof. destruct e; simpl; intros H; try discriminate; exact I. Qed.

Section Audit.

Variable env : Env.
Variable currentWorkingDirectory : string.

Local Abbreviation audit := (audited env currentWorkingDirectory).

Lemma audited_refl (fs py : bool) (m : mem) : audit fs py m m.
Proof.
  exists [], []. rewrite !app_nil_r. repeat split; simpl; auto.
Qed.

Lemma audited_trans (fs py : bool) (a b c : mem) :
  audit fs py a b -> audit fs py b c -> audit fs py a c.
Proof.
  intros (e1 & f1 & T1 & F1 & W1 & L1 & O1 & N1)
         (e2 & f2 & T2 & F2 & W2 & L2 & O2 & N2).
  exists (e1 ++ e2)%list, (f1 ++ f2)%list.
  rewrite T2, T1, F2, F1, !app_assoc, writesOf_app, !length_app.
  split; [reflexivity |]. split; [reflexivity |]. split; [| split; [lia |]].
  - apply Forall_app. split.
    + eapply Forall_impl; [| exact W1]. intros n Hn.
      apply (written_more env currentWorkingDirectory [] e1 e2 n Hn).
    + eapply Forall_impl; [| exact W2]. intros n Hn.
      rewrite <- (app_nil_r e2).
      apply (written_more env currentWorkingDirectory e1 e2 [] n Hn).
  - split.
    + intros H. destruct (O1 H) as [-> A1], (O2 H) as [-> A2].
      split; [reflexivity | apply Forall_app; split; assumption].
    + intros H H'. rewrite existsb_app, (N1 H H'), (N2 H H'). reflexivity.
Qed.

(** One event and no name. *)
Lemma audited_event (fs py : bool) (m : mem) (e : event) :
  (fs = false -> offDisk currentWorkingDirectory e) ->
  (fs = false -> py = false -> isFsEvent e = false) ->
  audit fs py m (set_trace (fun t => t ++ [e])%list m).
Proof.
  intros Hoff Hno. exists [e], []. rewrite app_nil_r.
  split; [reflexivity |]. split; [reflexivity |]. split; [constructor |].
  split; [simpl; lia |]. split.
  - intros H. split; [reflexivity |]. constructor; [exact (Hoff H) | constructor].
  - intros H H'. simpl. rewrite (Hno H H'). reflexivity.
Qed.

Lemma audited_await {A} (fs py : bool) (ask : list event -> outcome A)
      (log : outcome A -> event) :
  (fs = false -> forall r, offDisk currentWorkingDirectory (log r)) ->
  (fs = false -> py = false -> forall r, isFsEvent (log r) = false) ->
  preserves (audit fs py) (await ask log).
Proof.
  intros Hoff Hno m. unfold await. cbn [snd].
  apply audited_event; intros; auto.
Qed.

Lemma audited_update (fs py : bool) (f : mem -> mem) :
  (forall m, trace (f m) = trace m) ->
  (forall m, filesModified (f m) = filesModified m) ->
  preserves (audit fs py) (update f).
Proof.
  intros Ht Hf m. simpl. exists [], []. rewrite !app_nil_r, Ht, Hf.
  repeat split; simpl; auto.
Qed.

Lemma audited_log (fs py : bool) (text : string) :
  preserves (audit fs py) (console_error text).
Proof.
  intros m. apply audited_event; intros; [exact I | reflexivity].
Qed.

Lemma audited_now (fs py : bool) : preserves (audit fs py) (do_now env).
Proof.
  intros m. apply audited_event; intros; [exact I | reflexivity].
Qed.

Lemma audited_date_now (fs py : bool) :
  preserves (audit fs py) (do_date_now env).
Proof.
  intros m. apply audited_event; intros; [exact I | reflexivity].
Qed.

(** A write that is followed by the push of the name it saves. *)
Lemma audited_write_push {A} (py : bool) (path data name : string) (k : M A) :
  savedAt env currentWorkingDirectory name path ->
  preserves (audit true py) k ->
  preserves (audit true py)
    (do_writeFile env path data ;; push_file name ;; k).
Proof.
  intros Hs Hk m. unfold bind, do_writeFile, await, push_file, update.
  cbn [fst snd].
  destruct (writeFile env (trace m) path data) as [[] | e] eqn:W; cbn [snd].
  - eapply audited_trans; [| apply Hk].
    exists [EWriteFile path data (Ok tt)], [name]. simpl.
    repeat split; auto; try discriminate.
    constructor; [| constructor]. exists path, data. split; [left; reflexivity | exact Hs].
  - exists [EWriteFile path data (Threw e)], []. simpl. rewrite app_nil_r.
    repeat split; auto; discriminate.
Qed.

Lemma audited_write_any_push {A} (py : bool) (path name : string)
      (data : Json.json) (k : M A) :
  savedAt env currentWorkingDirectory name path ->
  preserves (audit true py) k ->
  preserves (audit true py)
    (do_writeFile_any env path data ;; push_file name ;; k).
Proof.
  intros Hs Hk. unfold do_writeFile_any.
  destruct data; try (apply audited_write_push; assumption);
    destruct (payload_of env _);
    try (apply audited_write_push; assumption);
    intros m; apply audited_refl.
Qed.

(** What follows a successful [validatePath] knows the name and its path. *)
Lemma audited_validated {A} (fs py : bool) (v : Json.value)
      (k : string -> M A) :
  (forall name fpath,
      v = Some (Json.JStr name) ->
      validatePath env currentWorkingDirectory name = Ok fpath ->
      preserves (audit fs py) (k fpath)) ->
  preserves (audit fs py)
    (fpath <- validatePath_any env currentWorkingDirectory v ;; k fpath).
Proof.
  intros Hk m. unfold bind, validatePath_any.
  destruct v as [[| | | name | |] |]; try apply audited_refl.
  destruct (validatePath env currentWorkingDirectory name) as [fpath | e] eqn:E;
    [| apply audited_refl].
  exact (Hk name fpath eq_refl E m).
Qed.

Ltac audit_with fs py prim :=
  repeat first
    [ prim
    | progress cbv zeta
    | apply (preserves_ret (audit fs py) (audited_refl fs py))
    | apply (preserves_throw (audit fs py) (audited_refl fs py))
    | apply (preserves_read (audit fs py) (audited_refl fs py))
    | apply (preserves_bind (audit fs py) (audited_trans fs py)); [| intros ?]
    | apply (preserves_try_catch (audit fs py) (audited_trans fs py));
      [| intros ?]
    | apply audited_await; intros;
      first [discriminate | reflexivity | exact I | eexists; reflexivity]
    | apply audited_update; intros; reflexivity
    | apply audited_log
    | apply audited_now
    | apply audited_date_now
    | apply (preserves_same (audit fs py) (audited_refl fs py));
      intros; reflexivity
    | match goal with
      | |- preserves _ (if ?b then _ else _) => destruct b
      | |- preserves _ (match ?x with _ => _ end) => destruct x
      end ].

Lemma member_audited (fs py : bool) (v : Json.json) (k : string) :
  preserves (audit fs py) (member v k).
Proof.
  apply (preserves_same (audit fs py) (audited_refl fs py)). intros m.
  destruct v; reflexivity.
Qed.

Ltac audit_prim := apply member_audited.

(** The sequence of every validated save: validate, make the directory,
    write, record the name. *)
Lemma audited_validated_save {A} (py : bool) (v : Json.value)
      (name data : Json.json) (k : string -> M A) :
  v = Some name ->
  (forall fpath, preserves (audit true py) (k fpath)) ->
  preserves (audit true py)
    (fpath <- validatePath_any env currentWorkingDirectory v ;;
     do_mkdir env (Path.dirname fpath) ;;
     do_writeFile_any env fpath data ;;
     push_file (toText env name) ;;
     k fpath).
Proof.
  intros Hv Hk. apply audited_validated. intros s fpath Hs Hp.
  assert (name = Json.JStr s) by congruence. subst name.
  apply (preserves_bind _ (audited_trans _ _)); [| intros _].
  - unfold do_mkdir. apply audited_await; intros; discriminate.
  - apply audited_write_any_push; [left; exact Hp | apply Hk].
Qed.

Lemma save_batch_item_audited (py : bool) (fileObj : Json.json) :
  preserves (audit true py)
    (save_batch_item env currentWorkingDirectory fileObj).
Proof.
  unfold save_batch_item.
  repeat (apply (preserves_bind _ (audited_trans _ _));
          [apply member_audited | intros ?]).
  cbv zeta.
  destruct (Json.or_ (Json.or_ a a0) a1) as [name |] eqn:En;
    [| audit_with true py audit_prim].
  destruct (Json.or_ a2 a3) as [data |];
    [| audit_with true py audit_prim].
  destruct (Json.truthy name && Json.truthy data);
    [| audit_with true py audit_prim].
  apply (preserves_try_catch _ (audited_trans _ _));
    [| intros ?; audit_with true py audit_prim].
  apply (audited_validated_save py (Some name) name data
           (fun _ => ret (Some (toText env name))) eq_refl).
  intros _. audit_with true py audit_prim.
Qed.

Lemma save_batch_audited (py : bool) (files : list Json.json) :
  forall saved,
    preserves (audit true py)
      (save_batch env currentWorkingDirectory files saved).
Proof.
  induction files as [| f files IH]; intros saved; simpl.
  - audit_with true py audit_prim.
  - apply (preserves_bind _ (audited_trans _ _));
      [apply save_batch_item_audited | intros r; apply IH].
Qed.

Lemma save_file_audited (py : bool) (tc : toolCall) :
  preserves (audit true py) (save_file env currentWorkingDirectory tc).
Proof.
  unfold save_file.
  assert (Hsingle :
    preserves (audit true py)
      (let fileName :=
         Json.or_ (Json.or_ (argOf tc "file_name") (argOf tc "name"))
                  (argOf tc "path") in
       let content := Json.or_ (argOf tc "content") (argOf tc "data") in
       match fileName, content with
       | Some name, Some data =>
           if Json.truthy name && Json.truthy data then
             fpath <- validatePath_any env currentWorkingDirectory fileName ;;
             do_mkdir env (Path.dirname fpath) ;;
             do_writeFile_any env fpath data ;;
             push_file (toText env name) ;;
             ret ("Success: File saved to " ++ fpath)
           else ret "Error: Missing 'file_name' (or 'name', 'path') or 'content' (or 'data') arguments."
       | _, _ => ret "Error: Missing 'file_name' (or 'name', 'path') or 'content' (or 'data') arguments."
       end)).
  { cbv zeta.
    destruct (Json.or_ (Json.or_ (argOf tc "file_name") (argOf tc "name"))
                       (argOf tc "path")) as [name |];
      [| audit_with true py audit_prim].
    destruct (Json.or_ (argOf tc "content") (argOf tc "data")) as [data |];
      [| audit_with true py audit_prim].
    destruct (Json.truthy name && Json.truthy data);
      [| audit_with true py audit_prim].
    apply (audited_validated_save py (Some name) name data
             (fun fpath => ret ("Success: File saved to " ++ fpath)) eq_refl).
    intros fpath. audit_with true py audit_prim. }
  destruct (argOf tc "files") as [[| | | | files |] |]; try exact Hsingle.
  apply (preserves_bind _ (audited_trans _ _));
    [apply save_batch_audited | intros saved].
  audit_with true py audit_prim.
Qed.

Lemma replace_text_in_file_audited (py : bool) (tc : toolCall) :
  preserves (audit true py)
    (replace_text_in_file env currentWorkingDirectory tc).
Proof.
  unfold replace_text_in_file.
  apply audited_validated. intros s fpath Hs Hp.
  apply (preserves_bind _ (audited_trans _ _)).
  { unfold do_readFile. apply audited_await; intros; discriminate. }
  intros content. rewrite Hs.
  destruct (argOf tc "old_string") as [old |];
    [| audit_with true py audit_prim].
  destruct (argOf tc "new_string") as [new |];
    [| audit_with true py audit_prim].
  destruct (negb (Js.includes content (toText env old)));
    [audit_with true py audit_prim |].
  cbv zeta. destruct (1 <? _)%Z; [audit_with true py audit_prim |].
  apply audited_write_push; [left; exact Hp |].
  audit_with true py audit_prim.
Qed.

Lemma delete_matching_audited (py : bool) (test : string -> bool)
      (files : list string) :
  forall deleted,
    preserves (audit true py)
      (delete_matching env currentWorkingDirectory test files deleted).
Proof.
  induction files as [| f files IH]; intros deleted; simpl.
  - audit_with true py audit_prim.
  - destruct (test f); [| apply IH].
    apply (preserves_bind _ (audited_trans _ _)); [| intros r; apply IH].
    audit_with true py audit_prim.
Qed.

Lemma read_file_audited (py : bool) (v : Json.value) :
  preserves (audit true py)
    (fpath <- validatePath_any env currentWorkingDirectory v ;;
     do_readFile env fpath).
Proof.
  apply audited_validated. intros s fpath _ _.
  unfold do_readFile. apply audited_await; intros; discriminate.
Qed.

Lemma fileSystemTools_audited (py : bool) (tc : toolCall) :
  preserves (audit true py) (fileSystemTools env currentWorkingDirectory tc).
Proof.
  unfold fileSystemTools, delete_files_by_pattern, do_readdir.
  audit_with true py
    ltac:(first [ audit_prim | apply read_file_audited
                | apply save_file_audited
                | apply replace_text_in_file_audited
                | apply delete_matching_audited ]).
Qed.

(** [run_python] touches the disk for its temporary script only. *)
Lemma codeTools_audited (fs : bool) (tc : toolCall) :
  preserves (audit fs true) (codeTools env currentWorkingDirectory tc).
Proof.
  unfold codeTools, originalRunPythonImplementation, do_writeFile_any,
    do_writeFile.
  audit_with fs true audit_prim.
Qed.

Variables allowFileSystem allowWeb allowCode : bool.

Lemma dispatch_audited (tc : toolCall) :
  preserves (audit allowFileSystem allowCode)
    (dispatch env allowFileSystem allowWeb allowCode currentWorkingDirectory tc).
Proof.
  unfold dispatch.
  apply (preserves_try_catch _ (audited_trans _ _));
    [| intros e; apply (preserves_ret _ (audited_refl _ _))].
  apply (preserves_bind _ (audited_trans _ _)).
  - destruct allowFileSystem; [apply fileSystemTools_audited |].
    apply (preserves_ret _ (audited_refl _ _)).
  - intros r1. apply (preserves_bind _ (audited_trans _ _)).
    + unfold webTools. audit_with allowFileSystem allowCode audit_prim.
    + intros r2. apply (preserves_bind _ (audited_trans _ _)).
      * destruct allowCode; cbn [andb];
          [| apply (preserves_ret _ (audited_refl _ _))].
        destruct (String.eqb r2 "");
          [apply codeTools_audited | apply (preserves_ret _ (audited_refl _ _))].
      * intros r3. apply (preserves_ret _ (audited_refl _ _)).
Qed.

Variables allow_tools forceTools : bool.
Variable loopLimit : Z.

Lemma handleContent_audited (content : string) :
  preserves (audit allowFileSystem allowCode)
    (handleContent env allowFileSystem allowWeb allowCode
       currentWorkingDirectory allow_tools forceTools loopLimit content).
Proof.
  unfold handleContent, push_message, increment_loops.
  audit_with allowFileSystem allowCode ltac:(apply dispatch_audited).
Qed.

Lemma turn_audited :
  preserves (audit allowFileSystem allowCode)
    (turn env allowFileSystem allowWeb allowCode currentWorkingDirectory
       allow_tools forceTools loopLimit).
Proof.
  intros m. unfold turn.
  assert (H : audit allowFileSystem allowCode m
                (set_trace (fun t => t ++ [EChat (msgList m) (chat env (trace m) (msgList m))])%list m)).
  { apply audited_event; intros; [exact I | reflexivity]. }
  destruct (chat env (trace m) (msgList m)); simpl; try exact H.
  eapply audited_trans; [exact H | apply handleContent_audited].
Qed.

Lemma agentLoop_audited (fuel : nat) :
  forall m f m',
    agentLoop env allowFileSystem allowWeb allowCode currentWorkingDirectory
      allow_tools forceTools loopLimit fuel m = Some (f, m') ->
    audit allowFileSystem allowCode m m'.
Proof.
  induction fuel as [| fuel IH]; intros m f m'; simpl;
    destruct (loops m <? loopLimit)%Z;
    try (intros [= <- <-]; apply audited_refl); try discriminate.
  pose proof (turn_audited m) as Ht.
  destruct (turn env allowFileSystem allowWeb allowCode currentWorkingDirectory
              allow_tools forceTools loopLimit m) as [[[] | e] m1]; simpl in Ht.
  - intros H. eapply audited_trans; [exact Ht | eapply IH; exact H].
  - intros [= <- <-]. exact Ht.
  - intros [= <- <-]. exact Ht.
  - intros [= <- <-]. exact Ht.
Qed.

Lemma handleContent_return_files (content : string) (m : mem) (res : result)
      (m' : mem) :
  handleContent env allowFileSystem allowWeb allowCode currentWorkingDirectory
    allow_tools forceTools loopLimit content m = (Ok (Return res), m') ->
  filesOf res = filesModified m'.
Proof.
  unfold handleContent.
  destruct (negb (toolsEnabled allow_tools forceTools)).
  - intros [= <- <-]. reflexivity.
  - destruct (isRefusal (Js.trim content)); [intros [=] |].
    destruct (detectToolCall (Js.trim content)) as [tc |].
    + unfold bind at 1. simpl. unfold bind at 1.
      destruct (dispatch _ _ _ _ _ _ _) as [[s | e] m1]; intros [=].
    + unfold bind at 1. simpl.
      destruct (Js.includes content "TASK_COMPLETED" || _); intros [=].
Qed.

Lemma turn_return_files (m : mem) (res : result) (m' : mem) :
  turn env allowFileSystem allowWeb allowCode currentWorkingDirectory
    allow_tools forceTools loopLimit m = (Ok (Return res), m') ->
  filesOf res = filesModified m'.
Proof.
  unfold turn. destruct (chat env (trace m) (msgList m)).
  - intros [= <- <-]. reflexivity.
  - intros [= <- <-]. reflexivity.
  - apply handleContent_return_files.
Qed.

Lemma agentLoop_return_files (fuel : nat) :
  forall m res m',
    agentLoop env allowFileSystem allowWeb allowCode currentWorkingDirectory
      allow_tools forceTools loopLimit fuel m = Some (Return res, m') ->
    filesOf res = filesModified m'.
Proof.
  induction fuel as [| fuel IH]; intros m res m'; simpl;
    destruct (loops m <? loopLimit)%Z; try discriminate.
  destruct (turn env allowFileSystem allowWeb allowCode currentWorkingDirectory
              allow_tools forceTools loopLimit m) as [[[] | e] m1] eqn:T.
  - apply IH.
  - discriminate.
  - intros [= <- <-]. exact (turn_return_files _ _ _ T).
  - intros [= <- <-]. reflexivity.
Qed.

Lemma extract_batch_item_audited (py : bool) (item : Json.json) :
  preserves (audit true py)
    (extract_batch_item env currentWorkingDirectory item).
Proof.
  unfold extract_batch_item.
  repeat (apply (preserves_bind _ (audited_trans _ _));
          [apply member_audited | intros ?]).
  cbv zeta.
  destruct (Json.or_ (Json.or_ a a0) a1) as [[| | | name | |] |];
    try solve [audit_with true py audit_prim].
  destruct (Json.or_ (Json.or_ a2 a3) a4) as [[| | | data | |] |];
    try solve [audit_with true py audit_prim].
  destruct (negb (String.eqb name "") && negb (String.eqb data ""));
    [| audit_with true py audit_prim].
  apply audited_validated. intros s fpath [= <-] Hp.
  apply (preserves_bind _ (audited_trans _ _)); [| intros _].
  - unfold do_mkdir. apply audited_await; intros; discriminate.
  - apply audited_write_push; [left; exact Hp |].
    unfold add_processed. audit_with true py audit_prim.
Qed.

Lemma extract_batch_audited (py : bool) (items : list Json.json) :
  forall n,
    preserves (audit true py)
      (extract_batch env currentWorkingDirectory items n).
Proof.
  induction items as [| i items IH]; intros n; simpl.
  - audit_with true py audit_prim.
  - apply (preserves_bind _ (audited_trans _ _));
      [apply extract_batch_item_audited | intros r; apply IH].
Qed.

Lemma saveSingle_audited (py : bool) (b : block) :
  preserves (audit true py) (saveSingle env currentWorkingDirectory b).
Proof.
  unfold saveSingle.
  destruct (50 <? String.length (Js.trim (code b)))%nat.
  2:{ audit_with true py audit_prim. }
  apply (preserves_bind _ (audited_trans _ _));
    [audit_with true py audit_prim | intros text].
  cbv zeta.
  destruct (isShell (lang b) && _); [audit_with true py audit_prim |].
  destruct (String.eqb (inferFileName text b) "");
    [audit_with true py audit_prim |].
  apply (preserves_bind _ (audited_trans _ _));
    [audit_with true py audit_prim | intros seen].
  destruct (has seen (inferFileName text b));
    [audit_with true py audit_prim |].
  apply (preserves_try_catch _ (audited_trans _ _));
    [| intros ?; audit_with true py audit_prim].
  apply (preserves_bind _ (audited_trans _ _)); [| intros _].
  - unfold do_mkdir. apply audited_await; intros; discriminate.
  - apply audited_write_push; [right; reflexivity |].
    unfold add_processed, replace_span. audit_with true py audit_prim.
Qed.

Lemma processBlock_audited (py : bool) (b : block) :
  preserves (audit true py) (processBlock env currentWorkingDirectory b).
Proof.
  unfold processBlock, unpackJson, replace_span.
  audit_with true py
    ltac:(first [ audit_prim | apply extract_batch_audited
                | apply saveSingle_audited ]).
Qed.

Variable autoSave : bool.

Lemma autoSavePass_audited :
  preserves (audit allowFileSystem allowCode)
    (autoSavePass env allowFileSystem currentWorkingDirectory autoSave).
Proof.
  unfold autoSavePass.
  apply (preserves_bind _ (audited_trans _ _));
    [apply (preserves_read _ (audited_refl _ _)) | intros text].
  destruct autoSave, allowFileSystem; simpl;
    try apply (preserves_ret _ (audited_refl _ _)).
  destruct (String.eqb text ""); simpl;
    [apply (preserves_ret _ (audited_refl _ _)) |].
  apply (preserves_bind _ (audited_trans _ _)).
  - apply audited_update; intros; reflexivity.
  - intros _. apply (preserves_forEach _ (audited_refl _ _) (audited_trans _ _)).
    apply processBlock_audited.
Qed.

Variable taskPrompt : string.

Lemma updateProjectInfo_audited :
  preserves (audit allowFileSystem allowCode)
    (updateProjectInfo env allowFileSystem currentWorkingDirectory taskPrompt).
Proof.
  unfold updateProjectInfo.
  apply (preserves_bind _ (audited_trans _ _));
    [apply (preserves_read _ (audited_refl _ _)) | intros files].
  destruct allowFileSystem;
    [| rewrite andb_false_r; apply (preserves_ret _ (audited_refl _ _))].
  unfold do_writeFile. audit_with true allowCode audit_prim.
Qed.

Lemma runFrom_audited (fuel : nat) (m : mem) (r : outcome result) (m' : mem) :
  runFrom env allowFileSystem allowWeb allowCode currentWorkingDirectory
    allow_tools forceTools loopLimit autoSave taskPrompt fuel m = Some (r, m') ->
  audit allowFileSystem allowCode m m'
  /\ match r with Ok res => filesOf res = filesModified m' | Threw _ => True end.
Proof.
  unfold runFrom.
  destruct (agentLoop env allowFileSystem allowWeb allowCode
              currentWorkingDirectory allow_tools forceTools loopLimit fuel m)
    as [[f m1] |] eqn:L; [| discriminate].
  pose proof (agentLoop_audited _ _ _ _ L) as H1.
  assert (Hrest :
    forall r m',
      (autoSavePass env allowFileSystem currentWorkingDirectory autoSave ;;
       updateProjectInfo env allowFileSystem currentWorkingDirectory taskPrompt ;;
       text <- read finalContent ;;
       files <- read filesModified ;;
       ret (Response text files)) m1 = (r, m') ->
      audit allowFileSystem allowCode m m'
      /\ match r with Ok res => filesOf res = filesModified m' | Threw _ => True end).
  { intros r0 m0. unfold bind at 1.
    pose proof (autoSavePass_audited m1) as H2.
    destruct (autoSavePass env allowFileSystem currentWorkingDirectory autoSave m1)
      as [[[] | e] m2]; simpl in H2.
    - unfold bind at 1.
      pose proof (updateProjectInfo_audited m2) as H3.
      destruct (updateProjectInfo env allowFileSystem currentWorkingDirectory
                  taskPrompt m2) as [[[] | e] m3]; simpl in H3.
      + intros [= <- <-]. split; [| reflexivity].
        eapply audited_trans; [exact H1 |]. eapply audited_trans; eassumption.
      + intros [= <- <-]. split; [| exact I].
        eapply audited_trans; [exact H1 |]. eapply audited_trans; eassumption.
    - intros [= <- <-]. split; [| exact I].
      eapply audited_trans; eassumption. }
  destruct f as [| | res].
  - intros [= E]. exact (Hrest _ _ E).
  - intros [= E]. exact (Hrest _ _ E).
  - intros [= <- <-]. split; [exact H1 |].
    exact (agentLoop_return_files _ _ _ _ L).
Qed.

End Audit.

Section Delegation.

Variable env : Env.
Variables allowFileSystem allowWeb allowCode : bool.
Variable currentWorkingDirectory : string.
Variables allow_tools forceTools : bool.
Variable loopLimit : Z.
Variable autoSave : bool.
Variables taskPrompt role contextData subAgentProfilesStr : string.

(** X1.  With the file-system permission off, an invocation reads the two
    prompt files while it builds the system prompt.  After that the only
    calls to the file system are those of [run_python], which writes its
    temporary script into the working directory and removes it; with the
    code permission off as well there is no call at all.  No tool, no
    auto-save and no history entry saves a file, and the result reports no
    modified file. *)
Theorem file_system_off_touches_only_temporary_scripts (before : list event) :
  exists r m' r1 r2 evs,
    runAgentLoop env false allowWeb allowCode currentWorkingDirectory
      allow_tools forceTools loopLimit autoSave taskPrompt role contextData
      subAgentProfilesStr (Z.to_nat loopLimit) before = Some (Ok r, m')
    /\ trace m' =
       (before ++
        [EReadFile (Path.join [currentWorkingDirectory; "SUB_AGENT_INSTRUCTIONS.md"]) r1;
         EReadFile (Path.join [currentWorkingDirectory; "beledarian_info.md"]) r2]
        ++ evs)%list
    /\ Forall (offDisk currentWorkingDirectory) evs
    /\ (allowCode = false -> existsb isFsEvent evs = false)
    /\ filesOf r = [].
Proof.
  unfold runAgentLoop.
  pose proof (initialState_shape env false allowWeb allowCode
                currentWorkingDirectory taskPrompt role contextData
                subAgentProfilesStr allow_tools forceTools before) as S0.
  cbv zeta in S0. destruct S0 as (L0 & _ & F0 & _ & r1 & r2 & T0).
  destruct (runFrom_terminates env false allowWeb allowCode
              currentWorkingDirectory allow_tools forceTools loopLimit
              autoSave taskPrompt
              (initialState env false allowWeb allowCode currentWorkingDirectory
                 allow_tools forceTools taskPrompt role contextData
                 subAgentProfilesStr before)) as (r & m' & Hrun & _).
  rewrite L0, Z.sub_0_r in Hrun.
  destruct (runFrom_audited _ _ _ _ _ _ _ _ _ _ _ _ _ _ Hrun)
    as ((evs & added & T & F & _ & _ & Off & No) & Hfiles).
  destruct (Off eq_refl) as (-> & Hev).
  exists r, m', r1, r2, evs. split; [exact Hrun |].
  rewrite T, T0, <- app_assoc. split; [reflexivity |].
  split; [exact Hev |]. split; [exact (No eq_refl) |].
  rewrite Hfiles, F, F0. reflexivity.
Qed.

(** X2.  Every file an invocation reports as modified was written: the
    invocation ends, and for each name in the list of its result there is,
    among the events since it started, a successful write to the file of
    that name, which is the path [validatePath] gives for the name or the
    name joined to the working directory.  The list is never longer than
    the number of successful writes. *)
Theorem reported_files_were_written (before : list event) :
  exists r m' evs,
    runAgentLoop env allowFileSystem allowWeb allowCode currentWorkingDirectory
      allow_tools forceTools loopLimit autoSave taskPrompt role contextData
      subAgentProfilesStr (Z.to_nat loopLimit) before = Some (Ok r, m')
    /\ trace m' = (before ++ evs)%list
    /\ filesOf r = filesModified m'
    /\ Forall (written env currentWorkingDirectory evs) (filesOf r)
    /\ List.length (filesOf r) <= List.length (writesOf evs).
Proof.
  unfold runAgentLoop.
  pose proof (initialState_shape env allowFileSystem allowWeb allowCode
                currentWorkingDirectory taskPrompt role contextData
                subAgentProfilesStr allow_tools forceTools before) as S0.
  cbv zeta in S0. destruct S0 as (L0 & _ & F0 & _ & r1 & r2 & T0).
  destruct (runFrom_terminates env allowFileSystem allowWeb allowCode
              currentWorkingDirectory allow_tools forceTools loopLimit
              autoSave taskPrompt
              (initialState env allowFileSystem allowWeb allowCode
                 currentWorkingDirectory allow_tools forceTools taskPrompt role
                 contextData subAgentProfilesStr before)) as (r & m' & Hrun & _).
  rewrite L0, Z.sub_0_r in Hrun.
  destruct (runFrom_audited _ _ _ _ _ _ _ _ _ _ _ _ _ _ Hrun)
    as ((evs & added & T & F & W & Len & _) & Hfiles).
  eexists r, m', _. split; [exact Hrun |].
  rewrite T, T0, <- app_assoc. split; [reflexivity |]. split; [exact Hfiles |].
  rewrite Hfiles, F, F0. split.
  - eapply Forall_impl; [| exact W]. intros n Hn.
    rewrite <- (app_nil_r evs).
    exact (written_more env currentWorkingDirectory [_; _] evs [] n Hn).
  - rewrite writesOf_app. simpl. exact Len.
Qed.

(** X3.  The transcript is append-only and grows in step with the turn
    counter: a turn that continues the loop appends exactly two messages,
    the cleaned reply as the assistant and then one system or user message,
    and adds one to the counter; a turn that ends the loop leaves both the
    transcript and the counter as they were. *)
Theorem continuing_turn_appends_two_messages (m : mem) :
  match turn env allowFileSystem allowWeb allowCode currentWorkingDirectory
          allow_tools forceTools loopLimit m with
  | (Ok Continue, m') =>
      exists raw speaker note,
        chat env (trace m) (msgList m) = ChatOk raw
        /\ msgList m' =
           (msgList m ++ [Msg "assistant" (cleanup raw); Msg speaker note])%list
        /\ (speaker = "system" \/ speaker = "user")
        /\ loops m' = (loops m + 1)%Z
  | (_, m') => msgList m' = msgList m /\ loops m' = loops m
  end.
Proof.
  unfold turn. destruct (chat env (trace m) (msgList m)) as [e | s | raw];
    [split; reflexivity | split; reflexivity |].
  set (m1 := set_trace _ m). unfold handleContent.
  destruct (negb (toolsEnabled allow_tools forceTools)); [split; reflexivity |].
  destruct (isRefusal (Js.trim (cleanup raw))).
  { simpl. exists raw, "system", refusalNotice. rewrite <- app_assoc. auto. }
  destruct (detectToolCall (Js.trim (cleanup raw))) as [tc |].
  - unfold bind at 1. simpl. unfold bind at 1.
    set (m2 := set_msgList _ m1).
    pose proof (dispatch_keeps env allowFileSystem allowWeb allowCode
                  currentWorkingDirectory tc m2) as (Hl & Hm & _).
    destruct (dispatch_total env allowFileSystem allowWeb allowCode
                currentWorkingDirectory tc m2) as (out & Hout).
    destruct (dispatch env allowFileSystem allowWeb allowCode
                currentWorkingDirectory tc m2) as [o m3].
    simpl in Hl, Hm, Hout. subst o. simpl.
    exists raw, "user", ("Tool Output: " ++ out). rewrite Hm, Hl.
    repeat split; auto. simpl. rewrite <- app_assoc. reflexivity.
  - unfold bind at 1. simpl.
    destruct (Js.includes (cleanup raw) "TASK_COMPLETED" || _)%bool; simpl.
    + split; reflexivity.
    + exists raw, "system", noToolNotice. rewrite <- app_assoc. auto.
Qed.

End Delegation.


(* ================================================================== *)
(** ** The tool dispatcher *)
(* ================================================================== *)

Section Dispatching.

Variable env : Env.
Variables allowFileSystem allowWeb allowCode : bool.
Variable currentWorkingDirectory : string.

Local Abbreviation dispatch' :=
  (dispatch env allowFileSystem allowWeb allowCode currentWorkingDirectory).

(** X4.  A call that names no tool of an enabled block (an unknown name, or
    a tool whose permission is off) is answered with the not-found error and
    changes nothing: no event is logged and no file is recorded. *)
Theorem call_outside_enabled_tools_is_not_found (tc : toolCall) (m : mem) :
  offered allowFileSystem allowWeb allowCode tc = false ->
  dispatch' tc m = (Ok toolNotFound, m).
Proof.
  unfold offered. intros H.
  apply orb_false_elim in H as [H HC]. apply orb_false_elim in H as [HF HW].
  assert (E1 : (if allowFileSystem
                then fileSystemTools env currentWorkingDirectory tc
                else ret "") m = (Ok "", m)).
  { destruct allowFileSystem; [| reflexivity]. simpl in HF.
    repeat (apply orb_false_elim in HF as [? HF]).
    unfold fileSystemTools.
    repeat match goal with E : Json.is_str _ _ = false |- _ => rewrite E; clear E end.
    reflexivity. }
  assert (E2 : (if allowWeb && String.eqb "" ""
                then webTools env tc else ret "") m = (Ok "", m)).
  { destruct allowWeb; [| reflexivity]. simpl in HW.
    repeat (apply orb_false_elim in HW as [? HW]).
    unfold webTools. simpl.
    repeat match goal with E : Json.is_str _ _ = false |- _ => rewrite E; clear E end.
    reflexivity. }
  assert (E3 : (if allowCode && String.eqb "" ""
                then codeTools env currentWorkingDirectory tc else ret "") m = (Ok "", m)).
  { destruct allowCode; [| reflexivity]. simpl in HC.
    repeat (apply orb_false_elim in HC as [? HC]).
    unfold codeTools. simpl.
    repeat match goal with E : Json.is_str _ _ = false |- _ => rewrite E; clear E end.
    reflexivity. }
  unfold dispatch, try_catch, bind. rewrite E1, E2, E3. reflexivity.
Qed.

(** A call that names [save_file] is answered by the file-system block
    alone: the web and code blocks have no branch for it. *)
Lemma dispatch_save_file (tc : toolCall) (m : mem) :
  tool tc = Some (Json.JStr "save_file") ->
  dispatch env true allowWeb allowCode currentWorkingDirectory tc m =
    match save_file env currentWorkingDirectory tc m with
    | (Ok out, m') => (Ok (if String.eqb out "" then toolNotFound else out), m')
    | (Threw e, m') => (Ok ("Error: " ++ e), m')
    end.
Proof.
  intros Ht. unfold dispatch, try_catch, bind at 1.
  unfold fileSystemTools. rewrite Ht. simpl.
  destruct (save_file env currentWorkingDirectory tc m) as [[out | e] m1];
    [| reflexivity].
  unfold bind at 1.
  assert (E2 : (if allowWeb && String.eqb out "" then webTools env tc else ret out) m1
               = (Ok out, m1)).
  { destruct allowWeb; [| reflexivity]. simpl.
    destruct (String.eqb out "") eqn:E; [| reflexivity].
    apply String.eqb_eq in E. subst out. unfold webTools. rewrite Ht. reflexivity. }
  rewrite E2. unfold bind at 1.
  assert (E3 : (if allowCode && String.eqb out "" then codeTools env currentWorkingDirectory tc else ret out) m1
               = (Ok out, m1)).
  { destruct allowCode; [| reflexivity]. simpl.
    destruct (String.eqb out "") eqn:E; [| reflexivity].
    apply String.eqb_eq in E. subst out. unfold codeTools. rewrite Ht. reflexivity. }
  rewrite E3. reflexivity.
Qed.

(** X5.  Saving one file through the tool: when the name passes
    [validatePath] and the directory and the file can be written, the
    directory of the validated path is made, the content is written to that
    path, the name as the model gave it is recorded, and the answer names
    the validated path. *)
Theorem save_file_writes_the_validated_path (tc : toolCall) (m : mem)
        (name data fpath : string) :
  tool tc = Some (Json.JStr "save_file") ->
  Json.isArray (argOf tc "files") = false ->
  savedName tc = Some (Json.JStr name) -> name <> "" ->
  savedContent tc = Some (Json.JStr data) -> data <> "" ->
  validatePath env currentWorkingDirectory name = Ok fpath ->
  mkdir env (trace m) (Path.dirname fpath) = Ok tt ->
  writeFile env (trace m ++ [EMkdir (Path.dirname fpath) (Ok tt)]) fpath data
  = Ok tt ->
  dispatch env true allowWeb allowCode currentWorkingDirectory tc m
  = (Ok ("Success: File saved to " ++ fpath),
     Mem (msgList m) (loops m) (finalContent m) (filesModified m ++ [name])
         (processedFiles m)
         (trace m ++ [EMkdir (Path.dirname fpath) (Ok tt);
                      EWriteFile fpath data (Ok tt)])).
Proof.
  intros Ht Hf Hn Hne Hc Hde Hv Hmk Hwr.
  rewrite (dispatch_save_file _ _ Ht).
  assert (E : save_file env currentWorkingDirectory tc m
    = (Ok ("Success: File saved to " ++ fpath),
       Mem (msgList m) (loops m) (finalContent m) (filesModified m ++ [name])
         (processedFiles m)
         (trace m ++ [EMkdir (Path.dirname fpath) (Ok tt);
                      EWriteFile fpath data (Ok tt)]))).
  { unfold save_file. unfold savedName in Hn. unfold savedContent in Hc.
    apply String.eqb_neq in Hne, Hde.
    destruct (argOf tc "files") as [[] |]; try discriminate Hf;
      rewrite Hn, Hc;
      change (Json.truthy (Json.JStr name)) with (negb (String.eqb name ""));
      change (Json.truthy (Json.JStr data)) with (negb (String.eqb data ""));
      rewrite Hne, Hde; cbn [negb andb];
      unfold bind at 1, validatePath_any; rewrite Hv;
      unfold bind at 1, do_mkdir, await; rewrite Hmk;
      unfold bind at 1, do_writeFile_any, do_writeFile, await;
      cbn [trace set_trace]; rewrite Hwr;
      unfold bind, push_file, update, ret, set_filesModified, set_trace;
      cbn [trace msgList loops finalContent filesModified processedFiles toText];
      rewrite <- app_assoc; reflexivity. }
  rewrite E. reflexivity.
Qed.

(** X6.  A name that [validatePath] rejects is refused before anything
    happens: the answer carries the access-denied message, and no directory
    is made, no file written and no name recorded. *)
Theorem save_file_outside_workspace_is_refused (tc : toolCall) (m : mem)
        (name : string) (data : Json.json) (e : string) :
  tool tc = Some (Json.JStr "save_file") ->
  Json.isArray (argOf tc "files") = false ->
  savedName tc = Some (Json.JStr name) -> name <> "" ->
  savedContent tc = Some data -> Json.truthy data = true ->
  validatePath env currentWorkingDirectory name = Threw e ->
  e = "Access Denied: Path '" ++ name ++ "' is outside the workspace."
  /\ dispatch env true allowWeb allowCode currentWorkingDirectory tc m
     = (Ok ("Error: " ++ e), m).
Proof.
  intros Ht Hf Hn Hne Hc Hd Hv. split.
  - unfold validatePath in Hv. destruct (negb _) in Hv; congruence.
  - rewrite (dispatch_save_file _ _ Ht).
    assert (E : save_file env currentWorkingDirectory tc m = (Threw e, m)).
    { unfold save_file. unfold savedName in Hn. unfold savedContent in Hc.
      apply String.eqb_neq in Hne.
      destruct (argOf tc "files") as [[] |]; try discriminate Hf;
        rewrite Hn, Hc; simpl; rewrite Hne, Hd; simpl;
        unfold bind, validatePath_any; rewrite Hv; reflexivity. }
    rewrite E. reflexivity.
Qed.

Lemma validatePath_any_state (base : string) (v : Json.value) (m : mem) :
  snd (validatePath_any env base v m) = m.
Proof. unfold validatePath_any. destruct v as [[] |]; reflexivity. Qed.

Lemma do_writeFile_any_files (path : string) (data : Json.json) (m : mem) :
  filesModified (snd (do_writeFile_any env path data m)) = filesModified m.
Proof.
  unfold do_writeFile_any, do_writeFile, await.
  destruct data; try reflexivity; destruct (payload_of env _); reflexivity.
Qed.

(** One entry of a batch: it is saved and recorded, or skipped, or (a
    [null] entry) reading its name throws. *)
Lemma save_batch_item_outcome (fileObj : Json.json) (m : mem) :
  match save_batch_item env currentWorkingDirectory fileObj m with
  | (Ok (Some n), m') => filesModified m' = (filesModified m ++ [n])%list
  | (Ok None, m') => filesModified m' = filesModified m
  | (Threw e, m') =>
      fileObj = Json.JNull
      /\ e = "Cannot read properties of null (reading 'file_name')" /\ m' = m
  end.
Proof.
  unfold save_batch_item.
  destruct fileObj; [simpl; auto | | | | |];
    (unfold member; unfold bind at 1; unfold ret at 1;
     unfold bind at 1; unfold ret at 1; unfold bind at 1; unfold ret at 1;
     unfold bind at 1; unfold ret at 1; unfold bind at 1; unfold ret at 1;
     match goal with
     | |- context [match ?n with Some _ => _ | None => _ end] =>
         destruct n as [name |]; [| reflexivity]
     end;
     match goal with
     | |- context [match ?n with Some _ => _ | None => _ end] =>
         destruct n as [data |]; [| reflexivity]
     end;
     destruct (Json.truthy name && Json.truthy data); [| reflexivity];
     unfold try_catch, bind at 1;
     match goal with
     | |- context [validatePath_any ?e ?b ?v m] =>
         pose proof (validatePath_any_state b v m) as Hv;
         destruct (validatePath_any e b v m) as [[fpath | err] m0];
         simpl in Hv; subst m0; [| reflexivity]
     end;
     unfold bind at 1, do_mkdir, await; simpl;
     destruct (mkdir env (trace m) (Path.dirname fpath)); [| reflexivity];
     unfold bind at 1;
     match goal with
     | |- context [do_writeFile_any ?e ?p ?d ?s] =>
         pose proof (do_writeFile_any_files p d s) as Hw;
         destruct (do_writeFile_any e p d s) as [[[] | err] m1];
         simpl in Hw
     end;
     [simpl; rewrite Hw; reflexivity | simpl; exact Hw]).
Qed.

Lemma save_batch_outcome (files : list Json.json) :
  forall saved m,
    match save_batch env currentWorkingDirectory files saved m with
    | (Ok savedList, m') =>
        exists added,
          savedList = (saved ++ added)%list
          /\ filesModified m' = (filesModified m ++ added)%list
    | (Threw e, m') =>
        In Json.JNull files
        /\ e = "Cannot read properties of null (reading 'file_name')"
        /\ grows m m'
    end.
Proof.
  induction files as [| f files IH]; intros saved m; simpl.
  - exists []. rewrite !app_nil_r. auto.
  - unfold bind. pose proof (save_batch_item_outcome f m) as Hi.
    destruct (save_batch_item env currentWorkingDirectory f m)
      as [[[n |] | e] m1].
    + specialize (IH (saved ++ [n])%list m1).
      destruct (save_batch _ _ _ _ m1) as [[r | e] m2].
      * destruct IH as (added & -> & F). exists (n :: added).
        rewrite F, Hi, <- !app_assoc. auto.
      * destruct IH as (Hin & -> & (x & Hx)). repeat split; auto.
        exists (n :: x). rewrite Hx, Hi, <- app_assoc. reflexivity.
    + specialize (IH saved m1).
      destruct (save_batch _ _ _ _ m1) as [[r | e] m2].
      * destruct IH as (added & -> & F). exists added. rewrite F, Hi. auto.
      * destruct IH as (Hin & -> & (x & Hx)). repeat split; auto.
        exists x. rewrite Hx, Hi. reflexivity.
    + destruct Hi as (-> & -> & ->). repeat split; auto. apply grows_refl.
Qed.

(** X7.  A batch [save_file] reports what it recorded: the names in its
    answer are exactly the names it added to the list of modified files, in
    the same order, and the count is their number; with nothing saved the
    answer is the no-valid-files error.  The only way the batch can fail as
    a whole is a [null] entry, whose name cannot be read. *)
Theorem batch_save_reports_what_it_recorded (tc : toolCall)
        (files : list Json.json) (m : mem) :
  argOf tc "files" = Some (Json.JArr files) ->
  match save_file env currentWorkingDirectory tc m with
  | (Ok out, m') =>
      exists added,
        filesModified m' = (filesModified m ++ added)%list
        /\ out = (if (0 <? List.length added)%nat
                  then "Success: Saved " ++ Js.string_of_nat (List.length added)
                       ++ " files: " ++ Js.join ", " added
                  else "Error: No valid files found in batch.")
  | (Threw e, m') =>
      In Json.JNull files
      /\ e = "Cannot read properties of null (reading 'file_name')"
  end.
Proof.
  intros Hf. unfold save_file. rewrite Hf. unfold bind.
  pose proof (save_batch_outcome files [] m) as H.
  destruct (save_batch env currentWorkingDirectory files [] m) as [[r | e] m1].
  - destruct H as (added & -> & F). exists added. auto.
  - destruct H as (Hin & He & _). auto.
Qed.

(** X8.  Reading an empty file through the tool is answered as if the tool
    did not exist: the dispatcher takes the empty result for no result. *)
Theorem empty_file_reads_as_tool_not_found (tc : toolCall) (m : mem)
        (name fpath : string) :
  tool tc = Some (Json.JStr "read_file") ->
  argOf tc "file_name" = Some (Json.JStr name) -> name <> "" ->
  validatePath env currentWorkingDirectory name = Ok fpath ->
  readFile env (trace m) fpath = Ok "" ->
  dispatch env true allowWeb allowCode currentWorkingDirectory tc m
  = (Ok toolNotFound,
     set_trace (fun t => t ++ [EReadFile fpath (Ok "")])%list m).
Proof.
  intros Ht Hn Hne Hv Hr. apply String.eqb_neq in Hne.
  unfold dispatch, try_catch, bind at 1, fileSystemTools.
  rewrite Ht, Hn. simpl. rewrite Hne. simpl.
  unfold bind at 1, validatePath_any. rewrite Hv.
  unfold do_readFile, await. simpl. rewrite Hr.
  unfold bind at 1. rewrite andb_true_r.
  assert (E2 : forall s, (if allowWeb then webTools env tc else ret "") s = (Ok "", s)).
  { intros s. destruct allowWeb; [| reflexivity]. unfold webTools. rewrite Ht.
    reflexivity. }
  rewrite E2. unfold bind at 1. rewrite andb_true_r.
  assert (E3 : forall s, (if allowCode then codeTools env currentWorkingDirectory tc else ret "") s = (Ok "", s)).
  { intros s. destruct allowCode; [| reflexivity]. unfold codeTools. rewrite Ht.
    reflexivity. }
  rewrite E3. reflexivity.
Qed.

End Dispatching.


(* ================================================================== *)
(** ** Where the matches of a global pattern lie *)
(* ================================================================== *)

Module MatchFacts.
Import Regex RegexFacts.

Lemma drop_cons (k : nat) (s t : string) (c : ascii) :
  Js.drop k s = String c t -> t = Js.drop (S k) s /\ S k <= String.length s.
Proof.
  revert s. induction k as [| k IH]; intros s H.
  - simpl in H. subst s. split; [destruct t; reflexivity | simpl; lia].
  - destruct s as [| x u]; [discriminate |]. simpl in H.
    destruct (IH _ H) as [E L]. split; [exact E | simpl; lia].
Qed.

(** A match at a cursor is a prefix of what is left there. *)
Lemma match_at_span (r : regex) (c : cursor) (m : found) :
  match_at r c = Some m ->
  exists n,
    n <= String.length (rest c) /\ index m = pos c
    /\ whole m = Js.take n (rest c)
    /\ pos (stop m) = pos c + n /\ rest (stop m) = Js.drop n (rest c).
Proof.
  unfold match_at. intros H. apply exec_forward in H.
  destruct H as (c' & g' & (n & Hn & Hp & Hr) & Hk).
  injection Hk as <-. exists n. simpl. unfold consumed.
  repeat split; auto. f_equal. lia.
Qed.

Lemma search_from_span (r : regex) (s : string) :
  forall i m, search_from r i s = Some m ->
    exists a n,
      a + n <= String.length s /\ index m = i + a
      /\ whole m = Js.take n (Js.drop a s)
      /\ pos (stop m) = i + a + n /\ rest (stop m) = Js.drop (a + n) s.
Proof.
  induction s as [| y t IH]; intros i m H; simpl in H.
  - destruct (match_at r (Cur i "")) as [f |] eqn:E; [| discriminate].
    injection H as ->. apply match_at_span in E.
    destruct E as (n & Hn & Hi & Hw & Hp & Hr). simpl in *.
    exists 0, n. simpl. repeat split; auto; lia.
  - destruct (match_at r (Cur i (String y t))) as [f |] eqn:E.
    + injection H as ->. apply match_at_span in E.
      destruct E as (n & Hn & Hi & Hw & Hp & Hr). simpl in *.
      exists 0, n. simpl. repeat split; auto; lia.
    + apply IH in H. destruct H as (a & n & Hn & Hi & Hw & Hp & Hr).
      exists (S a), n. simpl. repeat split; auto; lia.
Qed.

(** The matches of [matchAll] are disjoint stretches of the subject, each
    the text at its index, in the order of the text. *)
Lemma matchAll_from_spans (r : regex) (text : string) :
  forall fuel i,
    i <= String.length text ->
    Forall (fun m => i <= index m
                     /\ index m + String.length (whole m) <= String.length text
                     /\ whole m = Js.substring text (index m)
                                    (index m + String.length (whole m)))
           (matchAll_from fuel r i (Js.drop i text))
    /\ StronglySorted
         (fun a b => index a + String.length (whole a) <= index b)
         (matchAll_from fuel r i (Js.drop i text)).
Proof.
  induction fuel as [| fuel IH]; intros i Hi; simpl.
  - split; constructor.
  - destruct (search_from r i (Js.drop i text)) as [m |] eqn:E;
      [| split; constructor].
    apply search_from_span in E.
    destruct E as (a & n & Hn & Hx & Hw & Hp & Hr).
    rewrite drop_length in Hn. rewrite drop_drop in Hw, Hr.
    assert (Hlen : String.length (whole m) = n).
    { rewrite Hw, take_length, drop_length. lia. }
    assert (Hm : i <= index m
                 /\ index m + String.length (whole m) <= String.length text
                 /\ whole m = Js.substring text (index m)
                                (index m + String.length (whole m))).
    { rewrite Hlen, Hx. repeat split; try lia.
      unfold Js.substring. rewrite Hw. f_equal. lia. }
    assert (Htail :
      let tail :=
        if (pos (stop m) =? index m)%nat
        then match rest (stop m) with
             | EmptyString => []
             | String _ t => matchAll_from fuel r (S (pos (stop m))) t
             end
        else matchAll_from fuel r (pos (stop m)) (rest (stop m)) in
      Forall (fun b => pos (stop m) <= index b
                       /\ index b + String.length (whole b) <= String.length text
                       /\ whole b = Js.substring text (index b)
                                      (index b + String.length (whole b))) tail
      /\ StronglySorted
           (fun a b => index a + String.length (whole a) <= index b) tail).
    { cbv zeta. destruct (pos (stop m) =? index m)%nat.
      - destruct (rest (stop m)) as [| y t] eqn:Er; [split; constructor |].
        symmetry in Hr. apply drop_cons in Hr. destruct Hr as [-> Hl].
        replace (S (pos (stop m))) with (S (i + (a + n))) by lia.
        destruct (IH (S (i + (a + n))) Hl) as (Hall & Hs). split; [| exact Hs].
        eapply Forall_impl; [| exact Hall]. simpl. intros b Hb. intuition lia.
      - rewrite Hr. replace (pos (stop m)) with (i + (a + n)) by lia.
        apply IH. lia. }
    cbv zeta in Htail. destruct Htail as (Hall & Hs). split.
    + constructor; [exact Hm |].
      eapply Forall_impl; [| exact Hall]. simpl. intros b Hb. intuition lia.
    + constructor; [exact Hs |].
      eapply Forall_impl; [| exact Hall]. simpl. intros b Hb. lia.
Qed.

End MatchFacts.

(* ================================================================== *)
(** ** The backward walk over the code blocks *)
(* ================================================================== *)

(** The blocks are disjoint stretches of the text, each the text at its
    index, in the order of the text. *)
Lemma blocks_disjoint (text : string) :
  Forall (fun b => spanEnd b <= String.length text
                   /\ fullBlock b = Js.substring text (start b) (spanEnd b))
         (blocks text)
  /\ StronglySorted (fun a b => spanEnd a <= start b) (blocks text).
Proof.
  unfold blocks, Regex.matchAll.
  destruct (MatchFacts.matchAll_from_spans codeBlockRegex text
              (S (String.length text)) 0 (Nat.le_0_l _)) as (Hall & Hs).
  change (Js.drop 0 text) with text in Hall, Hs.
  split.
  - apply Forall_map. eapply Forall_impl; [| exact Hall].
    intros m (_ & H1 & H2). split; assumption.
  - apply StronglySorted_map. exact Hs.
Qed.

Lemma StronglySorted_weaken {A} (R S : A -> A -> Prop) (l : list A) :
  (forall x y, R x y -> S x y) -> StronglySorted R l -> StronglySorted S l.
Proof.
  intros H. induction 1 as [| x l Hs IH Hall]; constructor; auto.
  eapply Forall_impl; [| exact Hall]. intros y. apply H.
Qed.

Lemma sameText_refl (m : mem) : sameText m m.
Proof. reflexivity. Qed.

Lemma sameText_trans (a b c : mem) : sameText a b -> sameText b c -> sameText a c.
Proof. unfold sameText. congruence. Qed.

Ltac same_text prim :=
  repeat first
    [ prim
    | progress cbv zeta
    | apply (preserves_ret sameText sameText_refl)
    | apply (preserves_throw sameText sameText_refl)
    | apply (preserves_read sameText sameText_refl)
    | apply (preserves_bind sameText sameText_trans); [| intros ?]
    | apply (preserves_try_catch sameText sameText_trans); [| intros ?]
    | match goal with
      | |- preserves _ (if ?b then _ else _) => destruct b
      | |- preserves _ (match ?x with _ => _ end) => destruct x
      end
    | solve [intros ?; reflexivity] ].

Section BackwardWalk.

Variable env : Env.
Variable currentWorkingDirectory : string.

Local Abbreviation processBlock' := (processBlock env currentWorkingDirectory).

Lemma extract_batch_item_sameText (item : Json.json) :
  preserves sameText (extract_batch_item env currentWorkingDirectory item).
Proof.
  unfold extract_batch_item, member, validatePath_any, do_mkdir, do_writeFile,
    push_file, add_processed.
  same_text fail.
Qed.

Lemma extract_batch_sameText (items : list Json.json) :
  forall n,
    preserves sameText (extract_batch env currentWorkingDirectory items n).
Proof.
  induction items as [| i items IH]; intros n; simpl.
  - same_text fail.
  - apply (preserves_bind sameText sameText_trans);
      [apply extract_batch_item_sameText | intros r; apply IH].
Qed.

(** What a block does to the text: nothing, or its own span is replaced. *)
Lemma processBlock_text (b : block) (m : mem) :
  finalContent (snd (processBlock' b m)) = finalContent m
  \/ exists replacement,
       finalContent (snd (processBlock' b m))
       = Js.take (start b) (finalContent m) ++ replacement
         ++ Js.drop (spanEnd b) (finalContent m).
Proof.
  set (P := fun x : mem =>
    finalContent x = finalContent m
    \/ exists replacement,
         finalContent x
         = Js.take (start b) (finalContent m) ++ replacement
           ++ Js.drop (spanEnd b) (finalContent m)).
  change (P (snd (processBlock' b m))).
  assert (Hsingle : forall s,
    finalContent s = finalContent m ->
    P (snd (saveSingle env currentWorkingDirectory b s))).
  { intros s Hs. rewrite saveSingle_run. cbn [snd]. unfold singleStep.
    destruct (_ && _ && _); [| left; exact Hs].
    destruct (mkdir env _ _); [| left; exact Hs].
    destruct (writeFile env _ _ _); [| left; exact Hs].
    right. unfold savedState. cbn [finalContent]. rewrite Hs.
    eexists. reflexivity. }
  remember (processBlock' b m) as r eqn:Er.
  unfold processBlock in Er. unfold bind at 1 in Er.
  destruct (String.eqb (lang b) "json");
    [| subst r; apply Hsingle; reflexivity].
  unfold unpackJson, try_catch in Er.
  destruct (Json.parse (code b)) as [[] |];
    try (subst r; apply Hsingle; reflexivity).
  unfold bind at 1 in Er.
  pose proof (extract_batch_sameText items 0 m) as He. unfold sameText in He.
  destruct (extract_batch env currentWorkingDirectory items 0 m)
    as [[n | e] m1]; simpl in He; [| subst r; apply Hsingle; exact He].
  destruct (0 <? n)%nat; [| subst r; apply Hsingle; exact He].
  subst r. right. unfold bind, replace_span, update, ret, set_finalContent.
  cbn [snd finalContent]. rewrite He. eexists. reflexivity.
Qed.

Lemma processBlock_prefix (text : string) (K : nat) (b : block) (m : mem) :
  prefixKept text K m -> start b <= K ->
  prefixKept text (start b) (snd (processBlock' b m)).
Proof.
  intros HK Hb. destruct (processBlock_text b m) as [E | (repl & E)].
  - eapply prefixKept_same; eassumption.
  - pose proof (prefixKept_length _ _ _ HK) as HL. destruct HK as (H1 & H2).
    split; [lia |]. rewrite E, take_app by (rewrite take_length; lia).
    rewrite take_take by lia.
    rewrite <- (take_take K (start b) (finalContent m)) by lia.
    rewrite H2. apply take_take. lia.
Qed.

Lemma walk_prefix (text : string) (todo : list block) :
  forall (K : nat) (m : mem),
    prefixKept text K m ->
    Forall (fun b => start b <= K) todo ->
    StronglySorted (fun a b => start b <= start a) todo ->
    forall k, k <= K -> Forall (fun b => k <= start b) todo ->
      prefixKept text k (snd (forEach processBlock' todo m)).
Proof.
  induction todo as [| b todo IH]; intros K m HK Hall Hs k Hk Hlow; simpl.
  - eapply prefixKept_same; [exact HK | exact Hk | reflexivity].
  - inversion Hall; subst. inversion Hs; subst. inversion Hlow; subst.
    pose proof (processBlock_prefix text K b m HK H1) as Hb.
    unfold bind.
    destruct (processBlock' b m) as [[[] | e] m1]; simpl in Hb.
    + apply (IH (start b) m1 Hb); auto.
    + simpl. eapply prefixKept_same; [exact Hb | assumption | reflexivity].
Qed.

(** X9.  Walking the blocks from the last to the first keeps the offsets
    valid: when a block is reached, however the blocks after it were handled
    (saved, unpacked as a batch, skipped or failed), the text up to the end
    of that block is still the text the blocks were found in.  So the span
    that is replaced holds exactly the block, and the file name is looked up
    in the original text. *)
Theorem backward_walk_keeps_offsets (text : string) (later earlier : list block)
        (b : block) (m : mem) :
  finalContent m = text ->
  rev (blocks text) = (later ++ b :: earlier)%list ->
  let m' := walked env currentWorkingDirectory later m in
  Js.take (spanEnd b) (finalContent m') = Js.take (spanEnd b) text
  /\ Js.substring (finalContent m') (start b) (spanEnd b) = fullBlock b
  /\ inferFileName (finalContent m') b = inferFileName text b.
Proof.
  intros Hm Hrev. cbv zeta.
  destruct (blocks_disjoint text) as (Hall & Hs).
  apply StronglySorted_rev in Hs. rewrite Hrev in Hs.
  apply StronglySorted_app_inv in Hs. destruct Hs as (Hlater & _ & Hcross).
  assert (Hin : forall x, In x (later ++ b :: earlier)%list ->
                  spanEnd x <= String.length text
                  /\ fullBlock x = Js.substring text (start x) (spanEnd x)).
  { intros x Hx. rewrite <- Hrev in Hx. apply in_rev in Hx.
    rewrite Forall_forall in Hall. apply Hall. exact Hx. }
  destruct (Hin b) as (Hb1 & Hb2); [apply in_or_app; right; left; reflexivity |].
  assert (Hpre : prefixKept text (spanEnd b)
                   (walked env currentWorkingDirectory later m)).
  { unfold walked.
    apply (walk_prefix text later (String.length text)).
    - split; [lia |]. simpl. rewrite Hm. reflexivity.
    - apply Forall_forall. intros x Hx.
      destruct (Hin x) as (H1 & _); [apply in_or_app; left; exact Hx |].
      unfold spanEnd in H1. lia.
    - eapply StronglySorted_weaken; [| exact Hlater].
      intros x y H. simpl in H. unfold spanEnd in H. lia.
    - exact Hb1.
    - apply Forall_forall. intros x Hx. apply (Hcross x b Hx). left. reflexivity. }
  destruct Hpre as (_ & Hpre). repeat split.
  - exact Hpre.
  - rewrite Hb2. apply substring_of_prefix; [unfold spanEnd; lia | exact Hpre].
  - apply inferFileName_prefix.
    rewrite <- (take_take (spanEnd b) (start b)) by (unfold spanEnd; lia).
    rewrite Hpre. apply take_take. unfold spanEnd. lia.
Qed.

End BackwardWalk.

Lemma bind_ret_l {A B} (a : A) (k : A -> M B) : bind (ret a) k = k a.
Proof. reflexivity. Qed.

Lemma member_ret (item : Json.json) (k : string) :
  item <> Json.JNull -> member item k = ret (Json.prop item k).
Proof. destruct item; intros H; try reflexivity. contradiction. Qed.

(* ================================================================== *)
(** ** The last block of a name is the one that is saved *)
(* ================================================================== *)

Lemma writesTo_app (path : string) (t u : list event) :
  writesTo path (t ++ u) = (writesTo path t ++ writesTo path u)%list.
Proof.
  unfold writesTo. rewrite writesOf_app, filter_app, map_app. reflexivity.
Qed.

Lemma untouched_refl (p path : string) (m : mem) : untouched p path m m.
Proof. repeat split. Qed.

Lemma untouched_trans (p path : string) (a b c : mem) :
  untouched p path a b -> untouched p path b c -> untouched p path a c.
Proof.
  intros (H1 & H2 & H3) (K1 & K2 & K3). repeat split; congruence.
Qed.

Section Authoritative.

Variable env : Env.
Variable currentWorkingDirectory : string.
Variables text p : string.
Hypothesis p_named : p <> "".
Hypothesis mkdir_ok :
  forall t, mkdir env t (Path.dirname (Path.join [currentWorkingDirectory; p])) = Ok tt.
Hypothesis writeFile_ok :
  forall t data, writeFile env t (Path.join [currentWorkingDirectory; p]) data = Ok tt.

Local Abbreviation path := (Path.join [currentWorkingDirectory; p]).
Local Abbreviation apart := (untouched p path).
Local Abbreviation processBlock' := (processBlock env currentWorkingDirectory).
Local Abbreviation step := (singleStep env currentWorkingDirectory).
Local Abbreviation only := (onlyByName env currentWorkingDirectory text p).

(** An event that is no successful write to the file of [p]. *)
Lemma apart_event (m : mem) (e : event) :
  writesTo path [e] = [] ->
  apart m (set_trace (fun t => t ++ [e])%list m).
Proof.
  intros H. repeat split. cbn [trace set_trace].
  rewrite writesTo_app, H, app_nil_r. reflexivity.
Qed.

Lemma apart_await {A} (ask : list event -> outcome A)
      (log : outcome A -> event) :
  (forall r, writesTo path [log r] = []) -> preserves apart (await ask log).
Proof. intros H m. unfold await. cbn [snd]. apply apart_event, H. Qed.

Lemma apart_write (fpath data : string) :
  fpath <> path -> preserves apart (do_writeFile env fpath data).
Proof.
  intros H. apply apart_await. intros [[] | e]; [| reflexivity].
  unfold writesTo. cbn [writesOf filter fst].
  apply String.eqb_neq in H. rewrite H. reflexivity.
Qed.

Lemma apart_push (name : string) :
  name <> p -> preserves apart (push_file name).
Proof.
  intros H m. repeat split.
  cbn [snd push_file update set_filesModified filesModified].
  rewrite timesIn_app.
  replace (String.eqb p name) with false; [lia |].
  symmetry. apply String.eqb_neq. congruence.
Qed.

Lemma apart_processed (name : string) :
  name <> p -> preserves apart (add_processed name).
Proof.
  intros H m. repeat split.
  cbn [snd add_processed update set_processedFiles processedFiles].
  destruct (has (processedFiles m) name); [reflexivity |].
  rewrite has_app.
  replace (String.eqb p name) with false; [apply orb_false_r |].
  symmetry. apply String.eqb_neq. congruence.
Qed.

Lemma apart_text (f : string -> string) :
  preserves apart (update (set_finalContent f)).
Proof. intros m. repeat split. Qed.

(** An entry of a batch that is saved under another name, at another
    place. *)
Lemma extract_batch_item_apart (item : Json.json) :
  (forall n, unpackedName item = Some n ->
     n <> p /\ validatePath env currentWorkingDirectory n <> Ok path) ->
  preserves apart (extract_batch_item env currentWorkingDirectory item).
Proof.
  intros H m.
  assert (Hnull : item = Json.JNull \/ item <> Json.JNull)
    by (destruct item; (left; reflexivity) || (right; discriminate)).
  destruct Hnull as [-> | Hitem]; [apply untouched_refl |].
  revert m. unfold extract_batch_item.
  rewrite !(member_ret _ _ Hitem), !bind_ret_l.
  fold (batchName item) (batchData item). unfold unpackedName in H.
  destruct (batchName item) as [[| | | name | |] |];
    try (apply (preserves_ret _ (untouched_refl p path))).
  destruct (batchData item) as [[| | | data | |] |];
    try (apply (preserves_ret _ (untouched_refl p path))).
  destruct (negb (String.eqb name "") && negb (String.eqb data ""));
    [| apply (preserves_ret _ (untouched_refl p path))].
  destruct (H name eq_refl) as (Hname & Hpath).
  intros m. unfold bind at 1, validatePath_any.
  destruct (validatePath env currentWorkingDirectory name) as [fpath | e] eqn:E;
    [| apply untouched_refl].
  assert (Hf : fpath <> path) by congruence.
  revert m.
  apply (preserves_bind _ (untouched_trans p path)); [| intros _].
  { unfold do_mkdir. apply apart_await. reflexivity. }
  apply (preserves_bind _ (untouched_trans p path)); [| intros _].
  { apply apart_write. exact Hf. }
  apply (preserves_bind _ (untouched_trans p path)); [| intros _].
  { apply apart_push. exact Hname. }
  apply (preserves_bind _ (untouched_trans p path)); [| intros _].
  { apply apart_processed. exact Hname. }
  apply (preserves_ret _ (untouched_refl p path)).
Qed.

Lemma extract_batch_apart (items : list Json.json) :
  (forall item n, In item items -> unpackedName item = Some n ->
     n <> p /\ validatePath env currentWorkingDirectory n <> Ok path) ->
  forall k,
    preserves apart (extract_batch env currentWorkingDirectory items k).
Proof.
  induction items as [| item items IH]; intros H k; cbn [extract_batch].
  - apply (preserves_ret _ (untouched_refl p path)).
  - apply (preserves_bind _ (untouched_trans p path)).
    + apply extract_batch_item_apart. intros n Hn.
      exact (H item n (or_introl eq_refl) Hn).
    + intros r. apply IH. intros i n Hi. apply (H i n). right. exact Hi.
Qed.

Lemma batchNames_entries (b : block) (items : list Json.json) :
  String.eqb (lang b) "json" = true ->
  Json.parse (code b) = Some (Json.JArr items) ->
  forall item n, In item items -> unpackedName item = Some n ->
    In n (batchNames b).
Proof.
  intros Hl Hp item n Hi Hn. unfold batchNames. rewrite Hl, Hp.
  apply in_flat_map. exists item. split; [exact Hi |]. rewrite Hn.
  left. reflexivity.
Qed.

(** The unpacking of a block whose entries go elsewhere: it always
    returns, leaves the name and the file of [p] alone, and leaves the text
    as it is unless it handled the block. *)
Lemma unpackJson_apart (b : block) (m : mem) :
  String.eqb (lang b) "json" = true ->
  only b ->
  exists handled m1,
    unpackJson env currentWorkingDirectory b m = (Ok handled, m1)
    /\ apart m m1
    /\ (handled = false -> finalContent m1 = finalContent m).
Proof.
  intros Hl (_ & Hb). unfold unpackJson, try_catch.
  destruct (Json.parse (code b)) as [[| | | | items |] |] eqn:Hp;
    try (exists false, m; repeat split; reflexivity).
  unfold bind at 1.
  pose proof (extract_batch_apart items
                (fun item n Hi Hn =>
                   Hb n (batchNames_entries b items Hl Hp item n Hi Hn)) 0 m)
    as Ha.
  pose proof (extract_batch_sameText env currentWorkingDirectory items 0 m)
    as Ht. unfold sameText in Ht.
  destruct (extract_batch env currentWorkingDirectory items 0 m)
    as [[k | e] m1]; cbn [snd] in Ha, Ht.
  - destruct (0 <? k)%nat.
    + eexists true, _. split; [reflexivity |].
      split; [| discriminate].
      eapply untouched_trans; [exact Ha |]. apply apart_text.
    + exists false, m1.
      split; [reflexivity | split; [exact Ha | intros _; exact Ht]].
  - exists false, m1.
      split; [reflexivity | split; [exact Ha | intros _; exact Ht]].
Qed.

(** The single-file path on a block that does not save [p]: because it
    does not resolve to [p], or because [p] has been processed. *)
Lemma step_apart (K : nat) (b : block) (m : mem) :
  prefixKept text K m -> start b <= K ->
  only b ->
  resolvesTo text p b = false \/ has (processedFiles m) p = true ->
  apart m (step b m).
Proof.
  intros HK Hb (Hname & _) Hcase.
  destruct (step_facts env currentWorkingDirectory text p p_named mkdir_ok
              writeFile_ok K b m HK Hb) as (_ & Hh & Ht & _ & _).
  assert (E0 : resolvesTo text p b && negb (has (processedFiles m) p) = false).
  { destruct Hcase as [-> | ->]; [reflexivity | apply andb_false_r]. }
  split; [| split].
  - rewrite Hh. destruct Hcase as [-> | ->]; [apply orb_false_r | reflexivity].
  - assert (Hn : inferFileName (finalContent m) b = inferFileName text b).
    { apply inferFileName_prefix.
      destruct (prefixKept_same text K (start b) m m HK Hb eq_refl) as (_ & H).
      exact H. }
    unfold singleStep. rewrite Hn.
    destruct (50 <? String.length (Js.trim (code b)))%nat eqn:Elong;
      cbn [andb]; [| reflexivity].
    destruct (negb (String.eqb (inferFileName text b) "")); cbn [andb];
      [| reflexivity].
    destruct (negb (has (processedFiles m) (inferFileName text b))) eqn:Eseen;
      [| reflexivity].
    assert (Hother : inferFileName text b <> p).
    { intros E. rewrite E in Eseen. unfold resolvesTo in E0.
      rewrite Elong, E, String.eqb_refl, Eseen in E0. discriminate. }
    assert (Hpath : Path.join [currentWorkingDirectory; inferFileName text b]
                    <> path).
    { intros E. apply Hother, Hname, E. }
    apply String.eqb_neq in Hpath.
    destruct (mkdir env (trace m) _) as [[] | e];
      [destruct (writeFile env _ _ _) as [[] | e] |];
      unfold savedState; cbn [trace set_trace];
      rewrite writesTo_app; unfold writesTo at 2;
      cbn [writesOf filter fst map]; try rewrite Hpath;
      cbn [map]; apply app_nil_r.
  - rewrite Ht, E0. lia.
Qed.

(** Any block that does not save [p]. *)
Lemma block_apart (K : nat) (b : block) (m : mem) :
  prefixKept text K m -> start b <= K ->
  only b ->
  resolvesTo text p b = false \/ has (processedFiles m) p = true ->
  apart m (snd (processBlock' b m)).
Proof.
  intros HK Hb Ho Hcase. unfold processBlock. unfold bind at 1.
  destruct (String.eqb (lang b) "json") eqn:Hl.
  - destruct (unpackJson_apart b m Hl Ho) as (handled & m1 & -> & Ha & Ht).
    destruct handled; [exact Ha |].
    rewrite saveSingle_run. cbn [snd].
    eapply untouched_trans; [exact Ha |].
    apply (step_apart K); try assumption.
    + eapply prefixKept_same; [exact HK | apply Nat.le_refl | exact (Ht eq_refl)].
    + destruct Ha as (Hh & _). rewrite Hh. exact Hcase.
  - unfold ret. rewrite saveSingle_run. cbn [snd].
    apply (step_apart K); assumption.
Qed.

Local Abbreviation run := (runBlocks env currentWorkingDirectory).

Lemma forEach_run (bs : list block) :
  forall m, forEach processBlock' bs m = (Ok tt, run bs m).
Proof.
  induction bs as [| b bs IH]; intros m; [reflexivity |].
  cbn [forEach runBlocks fold_left]. unfold bind.
  destruct (processBlock_total env currentWorkingDirectory b m) as ([] & Hb).
  destruct (processBlock' b m) as [r m1]. cbn [fst snd] in *. subst r.
  apply IH.
Qed.

(** A stretch of the walk in which no block saves [p]. *)
Lemma run_apart (todo : list block) :
  forall (K : nat) (m : mem),
    prefixKept text K m ->
    Forall (fun b => start b <= K) todo ->
    StronglySorted (fun a b => start b <= start a) todo ->
    Forall only todo ->
    has (processedFiles m) p = true
    \/ Forall (fun b => resolvesTo text p b = false) todo ->
    apart m (run todo m)
    /\ forall k, k <= K -> Forall (fun b => k <= start b) todo ->
                 prefixKept text k (run todo m).
Proof.
  induction todo as [| b todo IH]; intros K m HK Hall Hs Ho Hcase;
    cbn [runBlocks fold_left].
  - split; [apply untouched_refl |].
    intros k Hk _. apply (prefixKept_same text K k m m HK Hk eq_refl).
  - inversion Hall as [| ? ? Hb Hall']; subst.
    inversion Hs as [| ? ? Hs' Hle]; subst.
    inversion Ho as [| ? ? Hob Ho']; subst.
    assert (Hcase1 : resolvesTo text p b = false
                     \/ has (processedFiles m) p = true).
    { destruct Hcase as [H | H]; [right; exact H |].
      inversion H; subst. left. assumption. }
    pose proof (block_apart K b m HK Hb Hob Hcase1) as Ha.
    pose proof (processBlock_prefix env currentWorkingDirectory text K b m
                  HK Hb) as HK1.
    destruct (IH (start b) (snd (processBlock' b m)) HK1 Hle Hs' Ho')
      as (Ha' & Hk').
    { destruct Ha as (Hh & _). rewrite Hh.
      destruct Hcase as [H | H]; [left; exact H |].
      inversion H; subst. right. assumption. }
    split; [eapply untouched_trans; eassumption |].
    intros k Hk Hkall. inversion Hkall; subst. apply Hk'; assumption.
Qed.

Lemma run_app (a b : list block) (m : mem) :
  run (a ++ b) m = run b (run a m).
Proof. apply fold_left_app. Qed.

(** C7, amended.  Let [last] be the last block in text order that
    resolves to the name [p] (its body is long enough for the single-file
    path and the inference gives [p]); let it be no JSON batch, let the
    directory and the file of [p] be writable, and let nothing in the text
    lead to the file of [p] but the name [p] itself.  Then the backward walk
    saves [p] from [last], with the body of [last]; every earlier block that
    resolves to [p] is skipped: it neither writes the file of [p] nor records
    [p] again, and when it is no batch it has no effect at all; the file of
    [p] is written exactly once by the pass, with the body of [last]; and [p]
    is recorded in [filesModified] exactly once. *)
Theorem last_block_is_authoritative (m : mem) (later earlier : list block)
        (last : block) :
  finalContent m = text ->
  rev (blocks text) = (later ++ last :: earlier)%list ->
  (forall b, In b (blocks text) -> only b) ->
  resolvesTo text p last = true ->
  isBatch last = false ->
  (forall b, In b later -> resolvesTo text p b = false) ->
  let state done := walked env currentWorkingDirectory done m in
  state (later ++ [last])%list
  = savedState currentWorkingDirectory last p (state later)
  /\ (forall done e rest,
        earlier = (done ++ e :: rest)%list ->
        resolvesTo text p e = true ->
        untouched p path (state (later ++ last :: done)%list)
          (snd (processBlock' e (state (later ++ last :: done)%list)))
        /\ (isBatch e = false ->
            processBlock' e (state (later ++ last :: done)%list)
            = (Ok tt, state (later ++ last :: done)%list)))
  /\ writesTo path (trace (state (rev (blocks text))))
     = (writesTo path (trace m) ++ [code last])%list
  /\ timesIn p (filesModified (state (rev (blocks text))))
     = timesIn p (filesModified m) + 1
  /\ snd (autoSavePass env true currentWorkingDirectory true m)
     = state (rev (blocks text)).
Proof.
  intros Hfc Hrev Honly Hlast Hsingle Hlater state.
  set (m0 := set_processedFiles (fun _ => []) m).
  assert (Hstate : forall done, state done = run done m0).
  { intros done. unfold state, walked. fold m0. rewrite forEach_run.
    reflexivity. }
  assert (Hin : forall b, In b (later ++ last :: earlier) -> In b (blocks text)).
  { intros b Hb. rewrite <- Hrev in Hb. apply in_rev. exact Hb. }
  destruct (blocks_sorted text) as (Hbound & Hsorted).
  assert (Hdesc : StronglySorted (fun a b => start b <= start a)
                                 (later ++ last :: earlier)).
  { rewrite <- Hrev. apply StronglySorted_rev. exact Hsorted. }
  assert (Hbound' : forall b, In b (later ++ last :: earlier) ->
                              start b <= String.length text).
  { intros b Hb. rewrite Forall_forall in Hbound. apply Hbound, Hin, Hb. }
  assert (H0 : prefixKept text (String.length text) m0).
  { split; [lia |]. simpl. rewrite Hfc. reflexivity. }
  destruct (StronglySorted_app_inv _ _ _ Hdesc) as (Hd1 & Hd2 & Hcross).
  apply StronglySorted_inv in Hd2. destruct Hd2 as (Hd3 & Hbelow).
  (* the blocks after [last] *)
  destruct (run_apart later (String.length text) m0 H0) as (Ha1 & Hk1).
  { apply Forall_forall. intros b Hb. apply Hbound', in_or_app. left. exact Hb. }
  { exact Hd1. }
  { apply Forall_forall. intros b Hb. apply Honly, Hin, in_or_app. left. exact Hb. }
  { right. apply Forall_forall. exact Hlater. }
  assert (HKlast : prefixKept text (start last) (run later m0)).
  { apply Hk1.
    - apply Hbound', in_or_app. right. left. reflexivity.
    - apply Forall_forall. intros b Hb. apply (Hcross b last Hb). left. reflexivity. }
  assert (Hfresh : has (processedFiles (run later m0)) p = false).
  { destruct Ha1 as (Hh & _). rewrite Hh. reflexivity. }
  (* [last] itself *)
  assert (Hsave : run (later ++ [last]) m0
                  = savedState currentWorkingDirectory last p (run later m0)).
  { rewrite run_app. cbn [runBlocks fold_left].
    rewrite (processBlock_single env currentWorkingDirectory last _ Hsingle).
    cbn [snd].
    destruct (step_facts env currentWorkingDirectory text p p_named mkdir_ok
                writeFile_ok (start last) last _ HKlast (le_n _))
      as (_ & _ & _ & _ & Hs).
    apply Hs; assumption. }
  set (s1 := savedState currentWorkingDirectory last p (run later m0)) in *.
  assert (HK1 : prefixKept text (start last) s1).
  { apply (prefixKept_saved currentWorkingDirectory text (start last));
      [exact HKlast | apply Nat.le_refl]. }
  assert (Hseen : has (processedFiles s1) p = true).
  { unfold s1, savedState. cbn [processedFiles]. rewrite has_app, String.eqb_refl.
    apply orb_true_r. }
  (* the blocks before [last], in any number *)
  assert (Hfront : forall done rest,
            earlier = (done ++ rest)%list ->
            apart s1 (run done s1)
            /\ forall e, In e rest -> prefixKept text (start e) (run done s1)).
  { intros done rest Hsplit. rewrite Hsplit in Hd3, Hbelow.
    destruct (StronglySorted_app_inv _ _ _ Hd3) as (Hdd & _ & Hcr).
    destruct (run_apart done (start last) s1 HK1) as (Ha & Hk).
    - apply Forall_forall. intros b Hb. rewrite Forall_forall in Hbelow.
      apply Hbelow, in_or_app. left. exact Hb.
    - exact Hdd.
    - apply Forall_forall. intros b Hb. apply Honly, Hin, in_or_app. right.
      right. rewrite Hsplit. apply in_or_app. left. exact Hb.
    - left. exact Hseen.
    - split; [exact Ha |]. intros e He. apply Hk.
      + rewrite Forall_forall in Hbelow. apply Hbelow, in_or_app. right. exact He.
      + apply Forall_forall. intros b Hb. apply (Hcr b e Hb He). }
  assert (Hsplit1 : forall done, run (later ++ last :: done) m0 = run done s1).
  { intros done.
    change (later ++ last :: done)%list with (later ++ [last] ++ done)%list.
    rewrite app_assoc, run_app, Hsave. reflexivity. }
  split; [| split; [| split; [| split]]].
  - rewrite !Hstate. exact Hsave.
  - intros done e rest' Hearlier He.
    rewrite Hstate, Hsplit1.
    destruct (Hfront done (e :: rest') Hearlier) as ((Hh & _) & Hk).
    assert (Hdone : has (processedFiles (run done s1)) p = true)
      by (rewrite Hh; exact Hseen).
    split.
    + apply (block_apart (start e)).
      * exact (Hk e (or_introl eq_refl)).
      * apply Nat.le_refl.
      * apply Honly, Hin, in_or_app. right. right. rewrite Hearlier.
        apply in_or_app. right. left. reflexivity.
      * right. exact Hdone.
    + intros Hnb.
      rewrite (processBlock_single env currentWorkingDirectory e _ Hnb).
      f_equal.
      destruct (step_facts env currentWorkingDirectory text p p_named mkdir_ok
                  writeFile_ok (start e) e _ (Hk e (or_introl eq_refl)) (le_n _))
        as (_ & _ & _ & Hskip & _).
      apply Hskip; assumption.
  - rewrite Hrev, Hstate, Hsplit1.
    destruct (Hfront earlier [] (eq_sym (app_nil_r _))) as ((_ & Hw & _) & _).
    rewrite Hw. destruct Ha1 as (_ & Hw1 & _).
    unfold s1, savedState. cbn [trace]. rewrite writesTo_app, Hw1.
    unfold writesTo at 2. cbn [writesOf filter fst map].
    rewrite String.eqb_refl. reflexivity.
  - rewrite Hrev, Hstate, Hsplit1.
    destruct (Hfront earlier [] (eq_sym (app_nil_r _))) as ((_ & _ & Ht) & _).
    rewrite Ht. destruct Ha1 as (_ & _ & Ht1).
    unfold s1, savedState. cbn [filesModified].
    rewrite timesIn_app, String.eqb_refl, Ht1. reflexivity.
  - unfold autoSavePass, bind, read. simpl. rewrite Hfc.
    destruct (String.eqb text "") eqn:Etext.
    + apply String.eqb_eq in Etext. exfalso.
      assert (Hnil : rev (blocks text) = []) by (rewrite Etext; reflexivity).
      rewrite Hnil in Hrev. destruct later; discriminate.
    + simpl. unfold state, walked. reflexivity.
Qed.

End Authoritative.

(* ================================================================== *)
(** ** Unpacking a JSON batch *)
(* ================================================================== *)

Section Unpacking.

Variable env : Env.
Variable currentWorkingDirectory : string.
Hypothesis mkdir_ok : forall t p, mkdir env t p = Ok tt.
Hypothesis writeFile_ok : forall t p d, writeFile env t p d = Ok tt.

Lemma extract_batch_item_saves (item : Json.json) (e : entry) (m : mem) :
  entryOf env currentWorkingDirectory item e ->
  exists m',
    extract_batch_item env currentWorkingDirectory item m = (Ok 1, m')
    /\ filesModified m' = (filesModified m ++ [entryName e])%list
    /\ writesOf (trace m')
       = (writesOf (trace m) ++ [(entryPath e, entryData e)])%list
    /\ finalContent m' = finalContent m
    /\ (forall x, has (processedFiles m') x
                  = has (processedFiles m) x || String.eqb x (entryName e)).
Proof.
  intros (Hn & Hne & Hd & Hde & Hv).
  assert (Hitem : item <> Json.JNull).
  { intros ->. discriminate Hn. }
  apply String.eqb_neq in Hne, Hde.
  unfold batchName in Hn. unfold batchData in Hd.
  unfold extract_batch_item. rewrite !(member_ret _ _ Hitem), !bind_ret_l.
  rewrite Hn, Hd, Hne, Hde. cbn [negb andb].
  unfold bind at 1, validatePath_any. rewrite Hv.
  unfold bind at 1, do_mkdir, await. rewrite mkdir_ok.
  unfold bind at 1, do_writeFile, await. rewrite writeFile_ok.
  unfold bind, push_file, add_processed, update, ret.
  eexists. split; [reflexivity |]. cbn [filesModified set_filesModified
    set_processedFiles set_trace trace finalContent processedFiles].
  repeat split.
  - rewrite <- app_assoc, writesOf_app. reflexivity.
  - intros x. destruct (has (processedFiles m) (entryName e)) eqn:Hh.
    + destruct (String.eqb x (entryName e)) eqn:Hx;
        [| rewrite orb_false_r; reflexivity].
      apply String.eqb_eq in Hx. subst x. rewrite Hh. reflexivity.
    + apply has_app.
Qed.

Lemma extract_batch_saves (items : list Json.json) (entries : list entry) :
  Forall2 (entryOf env currentWorkingDirectory) items entries ->
  forall n m,
    exists m',
      extract_batch env currentWorkingDirectory items n m
      = (Ok (n + List.length entries), m')
      /\ filesModified m' = (filesModified m ++ map entryName entries)%list
      /\ writesOf (trace m')
         = (writesOf (trace m)
            ++ map (fun e => (entryPath e, entryData e)) entries)%list
      /\ finalContent m' = finalContent m
      /\ (forall x, has (processedFiles m') x
                    = has (processedFiles m) x
                      || existsb (fun e => String.eqb x (entryName e)) entries).
Proof.
  induction 1 as [| item e items entries He _ IH]; intros n m; simpl.
  - exists m. rewrite Nat.add_0_r, !app_nil_r. repeat split; auto.
    intros x. rewrite orb_false_r. reflexivity.
  - destruct (extract_batch_item_saves item e m He)
      as (m1 & E1 & F1 & W1 & T1 & P1).
    destruct (IH (n + 1) m1) as (m2 & E2 & F2 & W2 & T2 & P2).
    exists m2. unfold bind. rewrite E1, E2.
    rewrite F2, F1, W2, W1, T2, T1, <- !app_assoc.
    repeat split; auto; [f_equal; f_equal; lia |].
    intros x. rewrite P2, P1, orb_assoc. reflexivity.
Qed.

(** X10.  Unpacking a JSON batch: a block tagged [json] whose body is an
    array of entries that each have a non-empty name and content and pass
    [validatePath] is unpacked as a whole when the disk cooperates.  Every
    entry is written to its validated path, in order; the names are recorded
    as modified and marked as processed; and the block is replaced in the
    text by one note that carries the number of entries. *)
Theorem json_batch_is_unpacked (b : block) (items : list Json.json)
        (entries : list entry) (m : mem) :
  lang b = "json" ->
  Json.parse (code b) = Some (Json.JArr items) ->
  Forall2 (entryOf env currentWorkingDirectory) items entries ->
  entries <> [] ->
  exists m',
    processBlock env currentWorkingDirectory b m = (Ok tt, m')
    /\ filesModified m' = (filesModified m ++ map entryName entries)%list
    /\ writesOf (trace m')
       = (writesOf (trace m)
          ++ map (fun e => (entryPath e, entryData e)) entries)%list
    /\ finalContent m'
       = Js.take (start b) (finalContent m)
         ++ batchNote (List.length entries)
         ++ Js.drop (spanEnd b) (finalContent m)
    /\ Forall (fun e => has (processedFiles m') (entryName e) = true) entries.
Proof.
  intros Hl Hp Hall Hne.
  destruct (extract_batch_saves items entries Hall 0 m)
    as (m1 & E & F & W & T & P).
  unfold processBlock. rewrite Hl.
  change (String.eqb "json" "json") with true. cbv iota.
  unfold bind at 1, unpackJson, try_catch. rewrite Hp.
  unfold bind at 1. rewrite E. cbn [Nat.add].
  assert (Hpos : (0 <? List.length entries)%nat = true).
  { destruct entries; [contradiction | reflexivity]. }
  rewrite Hpos. unfold bind, replace_span, update, ret. cbn [String.eqb].
  eexists. split; [reflexivity |].
  cbn [filesModified set_finalContent trace finalContent processedFiles].
  rewrite T. repeat split; auto.
  apply Forall_forall. intros e He. rewrite P.
  apply orb_true_iff. right. apply existsb_exists. exists e.
  split; [exact He | apply String.eqb_refl].
Qed.

End Unpacking.


(* ================================================================== *)
(** ** The project history *)
(* ================================================================== *)

(** X11.  The history update after a run never fails the run and is
    contained: it leaves the final text and the list of modified files alone,
    the only file it appends or writes to is [beledarian_info.md] in the
    working directory, and it does nothing at all when no file was modified
    or the file-system permission is off. *)
Theorem history_update_is_contained (env : Env) (allowFileSystem : bool)
        (cwd taskPrompt : string) (m : mem) :
  exists m',
    updateProjectInfo env allowFileSystem cwd taskPrompt m = (Ok tt, m')
    /\ finalContent m' = finalContent m
    /\ filesModified m' = filesModified m
    /\ msgList m' = msgList m
    /\ (exists evs, trace m' = (trace m ++ evs)%list
                    /\ forallb (historyEvent cwd) evs = true)
    /\ (if (0 <? List.length (filesModified m))%nat && allowFileSystem
        then exists stamp entry r,
               trace m' = (trace m ++ ENow stamp
                             :: EAppendFile (Path.join [cwd; "beledarian_info.md"])
                                  entry r
                             :: match r with
                                | Ok _ => []
                                | Threw _ =>
                                    [EWriteFile (Path.join [cwd; "beledarian_info.md"])
                                       ("# Project History" ++ Js.nl ++ entry)
                                       (writeFile env
                                          (trace m ++ [ENow stamp;
                                             EAppendFile (Path.join [cwd; "beledarian_info.md"])
                                               entry r])
                                          (Path.join [cwd; "beledarian_info.md"])
                                          ("# Project History" ++ Js.nl ++ entry))]
                                end)%list
        else m' = m).
Proof.
  unfold updateProjectInfo. unfold bind at 1, read.
  destruct ((0 <? List.length (filesModified m))%nat && allowFileSystem).
  - unfold bind at 1, do_now.
    set (stamp := now_iso env (trace m)).
    set (entry := Js.nl ++ _).
    set (infoPath := Path.join [cwd; "beledarian_info.md"]).
    unfold try_catch, await, do_writeFile, await. cbn [trace set_trace].
    destruct (appendFile env (trace m ++ [ENow stamp]) infoPath entry)
      as [[] | e] eqn:Ea.
    + eexists. split; [reflexivity |]. cbn [finalContent filesModified msgList
        set_trace trace]. repeat split.
      * eexists. split; [rewrite <- app_assoc; reflexivity |].
        simpl. unfold infoPath. rewrite String.eqb_refl. reflexivity.
      * exists stamp, entry, (Ok tt). rewrite <- app_assoc. reflexivity.
    + rewrite <- app_assoc. cbn [app].
      destruct (writeFile env _ infoPath _) as [[] | e2] eqn:Ew;
        (eexists; split; [reflexivity |];
         cbn [finalContent filesModified msgList set_trace trace];
         repeat split;
         [ eexists; split; [rewrite <- !app_assoc; reflexivity |];
           simpl; unfold infoPath; rewrite String.eqb_refl; reflexivity
         | exists stamp, entry, (Threw e); rewrite <- !app_assoc; cbn [app];
           rewrite Ew; reflexivity ]).
  - exists m. repeat split. exists []. rewrite app_nil_r. split; reflexivity.
Qed.

(* ================================================================== *)
(** ** The tool-call grammar *)
(* ================================================================== *)

Lemma occurs_lastClose (t : string) :
  occurs "}"%char t = false -> lastClose t = None.
Proof.
  induction t as [| c t IH]; simpl; [reflexivity |].
  intros H. apply orb_false_elim in H as [H1 H2].
  rewrite (IH H2), H1. reflexivity.
Qed.

Lemma occurs_openToLastClose (s : string) :
  occurs "{"%char s = false -> openToLastClose s = None.
Proof.
  induction s as [| c t IH]; simpl; [reflexivity |].
  intros H. apply orb_false_elim in H as [H1 H2].
  rewrite H1. apply IH. exact H2.
Qed.

(** X12.  A reply without an opening brace or without a closing brace is
    never a tool call, whatever else it says: the bare [to=tool] form needs
    its JSON arguments too. *)
Theorem no_braces_no_tool_call (trimmed : string) :
  occurs "{"%char trimmed = false \/ occurs "}"%char trimmed = false ->
  parseToolCall trimmed = None /\ detectToolCall trimmed = None.
Proof.
  intros H.
  assert (E : jsonMatch trimmed = None).
  { rewrite SpanFacts.jsonMatch_direct. destruct H as [H | H].
    - apply occurs_openToLastClose. exact H.
    - apply SpanFacts.openToLastClose_none. apply occurs_lastClose. exact H. }
  unfold detectToolCall, parseToolCall. rewrite E. split; reflexivity.
Qed.

Lemma lookup_set_same (k : string) (v : Json.json) (fields : list (string * Json.json)) :
  Json.lookup k (Json.set k v fields) = Some v.
Proof.
  induction fields as [| [k' v'] fields IH]; simpl.
  - rewrite String.eqb_refl. reflexivity.
  - destruct (String.eqb k' k) eqn:E; simpl.
    + rewrite String.eqb_refl. reflexivity.
    + rewrite E. exact IH.
Qed.

Lemma lookup_set_other (k k' : string) (v : Json.json)
      (fields : list (string * Json.json)) :
  k <> k' -> Json.lookup k' (Json.set k v fields) = Json.lookup k' fields.
Proof.
  intros Hk. induction fields as [| [k0 v0] fields IH]; simpl.
  - destruct (String.eqb k k') eqn:E; [| reflexivity].
    apply String.eqb_eq in E. contradiction.
  - destruct (String.eqb k0 k) eqn:E; simpl.
    + apply String.eqb_eq in E. subst k0.
      destruct (String.eqb k k') eqn:E'; [| reflexivity].
      apply String.eqb_eq in E'. contradiction.
    + destruct (String.eqb k0 k'); [reflexivity | exact IH].
Qed.

Lemma prop_assign_same (a : Json.json) (k : string) (v : Json.json) :
  Json.prop (assign a k (Some v)) k
  = match a with Json.JObj _ => Some v | _ => None end.
Proof. destruct a; try reflexivity. simpl. apply lookup_set_same. Qed.

Lemma prop_assign_other (a : Json.json) (k k' : string) (v : Json.value) :
  k <> k' -> Json.prop (assign a k v) k' = Json.prop a k'.
Proof.
  intros H. destruct a, v; try reflexivity. simpl. apply lookup_set_other. exact H.
Qed.

(** What the normalization of [save_file] arguments leaves in a property. *)
Lemma map_save_file_args_prop (a : Json.json) (k : string) :
  Json.prop (map_save_file_args a) k
  = if String.eqb k "file_name"
    then (if Json.truthyV (Json.prop a "path")
             && negb (Json.truthyV (Json.prop a "file_name"))
          then Json.prop a "path" else Json.prop a "file_name")
    else if String.eqb k "content"
    then (if Json.truthyV (Json.prop a "data")
             && negb (Json.truthyV (Json.prop a "content"))
          then Json.prop a "data" else Json.prop a "content")
    else Json.prop a k.
Proof.
  unfold map_save_file_args.
  remember (if Json.truthyV (Json.prop a "path")
               && negb (Json.truthyV (Json.prop a "file_name"))
            then assign a "file_name" (Json.prop a "path") else a) as a1 eqn:Ea1.
  assert (H1 : forall k', k' <> "file_name" -> Json.prop a1 k' = Json.prop a k').
  { intros k' Hk'. subst a1. destruct (_ && _); [| reflexivity].
    apply prop_assign_other. congruence. }
  assert (H1f : Json.prop a1 "file_name"
                = if Json.truthyV (Json.prop a "path")
                     && negb (Json.truthyV (Json.prop a "file_name"))
                  then Json.prop a "path" else Json.prop a "file_name").
  { subst a1. destruct (Json.truthyV (Json.prop a "path")) eqn:Tp; simpl;
      [| reflexivity].
    destruct (negb _); [| reflexivity].
    destruct (Json.prop a "path") as [p |] eqn:Ep; [| discriminate].
    rewrite prop_assign_same. destruct a; try discriminate Ep. reflexivity. }
  rewrite (H1 "data"), (H1 "content") by discriminate.
  destruct (String.eqb k "file_name") eqn:Kf.
  - apply String.eqb_eq in Kf. subst k. rewrite <- H1f.
    destruct (Json.truthyV (Json.prop a "data")
              && negb (Json.truthyV (Json.prop a "content"))); [| reflexivity].
    apply prop_assign_other. discriminate.
  - apply String.eqb_neq in Kf. destruct (String.eqb k "content") eqn:Kc.
    + apply String.eqb_eq in Kc. subst k.
      destruct (Json.truthyV (Json.prop a "data")) eqn:Td; simpl;
        [| apply H1; discriminate].
      destruct (negb (Json.truthyV (Json.prop a "content")));
        [| apply H1; discriminate].
      destruct (Json.prop a "data") as [d |] eqn:Ed; [| discriminate].
      rewrite prop_assign_same.
      assert (Hd : Json.prop a1 "data" = Some d)
        by (rewrite H1 by discriminate; exact Ed).
      destruct a1; try discriminate Hd. reflexivity.
    + apply String.eqb_neq in Kc. rewrite <- (H1 k Kf).
      destruct (Json.truthyV (Json.prop a "data")
                && negb (Json.truthyV (Json.prop a "content"))); [| reflexivity].
      apply prop_assign_other. congruence.
Qed.

(** X13.  The normalization of [save_file] arguments (vendor and bare
    forms) is idempotent, never changes the content the handler takes, and
    changes the name the handler takes in one way only: a given [path] wins
    over a given [name] when there is no [file_name]. *)
Theorem save_file_args_normalization (a : Json.json) :
  let out := map_save_file_args a in
  (forall k, Json.prop (map_save_file_args out) k = Json.prop out k)
  /\ savedContent (callWith out) = savedContent (callWith a)
  /\ savedName (callWith out)
     = if Json.truthyV (Json.prop a "file_name") then Json.prop a "file_name"
       else if Json.truthyV (Json.prop a "path") then Json.prop a "path"
       else savedName (callWith a).
Proof.
  cbv zeta.
  assert (Harg : forall x k, argOf (callWith x) k = Json.prop x k).
  { intros x k. unfold argOf, callWith. simpl. destruct x; reflexivity. }
  split; [| split].
  - intros k. rewrite (map_save_file_args_prop (map_save_file_args a)).
    rewrite !(map_save_file_args_prop a). simpl.
    destruct (String.eqb k "file_name").
    + destruct (Json.truthyV (Json.prop a "path")) eqn:Tp,
               (Json.truthyV (Json.prop a "file_name")) eqn:Tf; simpl;
        rewrite ?Tp, ?Tf; reflexivity.
    + destruct (String.eqb k "content"); [| reflexivity].
      destruct (Json.truthyV (Json.prop a "data")) eqn:Td,
               (Json.truthyV (Json.prop a "content")) eqn:Tc; simpl;
        rewrite ?Td, ?Tc; reflexivity.
  - unfold savedContent. rewrite !Harg, !map_save_file_args_prop. simpl.
    unfold Json.or_.
    destruct (Json.truthyV (Json.prop a "data")) eqn:Td,
             (Json.truthyV (Json.prop a "content")) eqn:Tc; simpl;
      rewrite ?Td, ?Tc; reflexivity.
  - unfold savedName. rewrite !Harg, !map_save_file_args_prop. simpl.
    unfold Json.or_.
    destruct (Json.truthyV (Json.prop a "path")) eqn:Tp,
             (Json.truthyV (Json.prop a "file_name")) eqn:Tf,
             (Json.truthyV (Json.prop a "name")) eqn:Tn; simpl;
      rewrite ?Tp, ?Tf, ?Tn; reflexivity.
Qed.

Lemma toLowerCase_app (s t : string) :
  Js.toLowerCase (s ++ t) = Js.toLowerCase s ++ Js.toLowerCase t.
Proof. induction s as [| c s IH]; simpl; [reflexivity | rewrite IH; reflexivity]. Qed.

Lemma startsWith_app (p t : string) : Js.startsWith (p ++ t) p = true.
Proof.
  induction p as [| c p IH]; simpl; [destruct t; reflexivity |].
  rewrite Ascii.eqb_refl. exact IH.
Qed.

Lemma includes_app (pre mid post : string) :
  Js.includes (pre ++ mid ++ post) mid = true.
Proof.
  assert (Hstart : forall s sub, Js.startsWith s sub = true ->
                                 Js.includes s sub = true).
  { intros s sub H. destruct s; cbn [Js.includes]; rewrite H; reflexivity. }
  induction pre as [| c pre IH].
  - change ("" ++ mid ++ post) with (mid ++ post).
    apply Hstart. apply startsWith_app.
  - change (String c pre ++ mid ++ post) with (String c (pre ++ mid ++ post)).
    cbn [Js.includes]. rewrite IH. apply orb_true_r.
Qed.

(** X14.  The refusal check ignores case and position: a reply that
    contains one of the refusal phrases anywhere, in any mix of upper and
    lower case, is taken for a refusal. *)
Theorem refusal_phrase_in_any_case_is_detected (pre mid post kw : string) :
  In kw refusalKeywords ->
  Js.toLowerCase mid = kw ->
  isRefusal (pre ++ mid ++ post) = true.
Proof.
  intros Hin Hlow. unfold isRefusal. apply existsb_exists. exists kw.
  split; [exact Hin |].
  rewrite !toLowerCase_app, Hlow. apply includes_app.
Qed.


(* ================================================================== *)
(** ** The delegation as a whole *)
(* ================================================================== *)

Section Ends.

Variable env : Env.
Variables allowFileSystem allowWeb allowCode : bool.
Variable currentWorkingDirectory : string.
Variables allow_tools forceTools : bool.
Variable loopLimit : Z.
Variable autoSave : bool.
Variables taskPrompt role contextData subAgentProfilesStr : string.

(** Any fuel that covers the turns that are left lets the run finish. *)
Lemma runFrom_enough_fuel (fuel : nat) (m : mem) :
  Z.to_nat (loopLimit - loops m) <= fuel ->
  exists r m',
    runFrom env allowFileSystem allowWeb allowCode currentWorkingDirectory
      allow_tools forceTools loopLimit autoSave taskPrompt fuel m
    = Some (Ok r, m')
    /\ chatCalls (trace m') <= chatCalls (trace m) + Z.to_nat (loopLimit - loops m).
Proof.
  intros Hfuel.
  destruct (agentLoop_terminates env allowFileSystem allowWeb allowCode
              currentWorkingDirectory allow_tools forceTools loopLimit
              fuel m Hfuel) as (f & m1 & Hrun & Hne & Hcalls).
  unfold runFrom. rewrite Hrun.
  set (post := (autoSavePass env allowFileSystem currentWorkingDirectory autoSave ;;
                updateProjectInfo env allowFileSystem currentWorkingDirectory taskPrompt ;;
                text <- read finalContent ;;
                files <- read filesModified ;;
                ret (Response text files))).
  assert (Ht : total post).
  { subst post. apply total_bind; [apply autoSavePass_total | intros _].
    apply total_bind; [apply updateProjectInfo_total | intros _].
    repeat total_step. }
  assert (Hk : keeps post).
  { subst post. apply keeps_bind; [apply autoSavePass_keeps | intros _].
    apply keeps_bind; [apply updateProjectInfo_keeps | intros _].
    repeat keeps_step. }
  destruct (Ht m1) as (r & Hr). specialize (Hk m1).
  destruct (post m1) as [o m'] eqn:Hpost. simpl in Hr, Hk. subst o.
  destruct Hk as (_ & _ & Hc).
  destruct f as [| | res].
  - contradiction.
  - exists r, m'. split; [reflexivity | lia].
  - exists res, m1. split; [reflexivity | lia].
Qed.

Lemma runAgentLoop_ends (fuel : nat) (before : list event) :
  Z.to_nat loopLimit <= fuel ->
  exists r m' evs,
    runAgentLoop env allowFileSystem allowWeb allowCode currentWorkingDirectory
      allow_tools forceTools loopLimit autoSave taskPrompt role contextData
      subAgentProfilesStr fuel before = Some (Ok r, m')
    /\ trace m' = (before ++ evs)%list
    /\ chatCalls evs <= Z.to_nat loopLimit.
Proof.
  intros Hfuel. unfold runAgentLoop.
  pose proof (initialState_shape env allowFileSystem allowWeb allowCode
                currentWorkingDirectory taskPrompt role contextData
                subAgentProfilesStr allow_tools forceTools before) as S0.
  cbv zeta in S0. destruct S0 as (L0 & _ & _ & _ & r1 & r2 & T0).
  set (m0 := initialState _ _ _ _ _ _ _ _ _ _ _ _) in *.
  destruct (runFrom_enough_fuel fuel m0) as (r & m' & Hrun & Hcalls).
  { rewrite L0, Z.sub_0_r. exact Hfuel. }
  destruct (runFrom_audited _ _ _ _ _ _ _ _ _ _ _ _ _ _ Hrun)
    as ((evs & added & T & _) & _).
  eexists r, m', _. split; [exact Hrun |].
  rewrite T, T0, <- app_assoc. split; [reflexivity |].
  rewrite T, T0, L0, Z.sub_0_r, !chatCalls_app in Hcalls.
  rewrite chatCalls_app.
  change (chatCalls [EReadFile (Path.join [currentWorkingDirectory; "SUB_AGENT_INSTRUCTIONS.md"]) r1;
                     EReadFile (Path.join [currentWorkingDirectory; "beledarian_info.md"]) r2])
    with 0 in *.
  lia.
Qed.

(** When the first call to the endpoint fails, the run returns the error
    at once. *)
Lemma runAgentLoop_first_call_fails (fuel : nat) (before : list event) :
  let m0 := initialState env allowFileSystem allowWeb allowCode
              currentWorkingDirectory allow_tools forceTools taskPrompt role
              contextData subAgentProfilesStr before in
  (0 < loopLimit)%Z ->
  (forall raw, chat env (trace m0) (msgList m0) <> ChatOk raw) ->
  runAgentLoop env allowFileSystem allowWeb allowCode currentWorkingDirectory
    allow_tools forceTools loopLimit autoSave taskPrompt role contextData
    subAgentProfilesStr (S fuel) before
  = Some (Ok (Error (errorOf (chat env (trace m0) (msgList m0))) []),
          logChat m0 (chat env (trace m0) (msgList m0))).
Proof.
  cbv zeta. intros Hpos Hbad.
  pose proof (initialState_shape env allowFileSystem allowWeb allowCode
                currentWorkingDirectory taskPrompt role contextData
                subAgentProfilesStr allow_tools forceTools before) as S0.
  cbv zeta in S0. destruct S0 as (L0 & _ & F0 & _).
  unfold runAgentLoop, runFrom. cbn [agentLoop]. rewrite L0.
  apply Z.ltb_lt in Hpos. rewrite Hpos.
  rewrite (turn_failure _ _ _ _ _ _ _ _ _ Hbad), F0. reflexivity.
Qed.

End Ends.

Section Delegating.

Variable env : Env.
Variables enableSecondary debugMode autoSave showFullCode : bool.
Variables allowFileSystem allowWeb allowCode : bool.
Variable subAgentProfilesStr : string.
Variable currentWorkingDirectory : string.

Local Abbreviation tool' :=
  (consultSecondaryAgentTool env enableSecondary debugMode autoSave showFullCode
     allowFileSystem allowWeb allowCode subAgentProfilesStr
     currentWorkingDirectory).

Lemma debugContextOf_reads (files : list string) :
  forall acc t,
    exists evs,
      snd (debugContextOf env currentWorkingDirectory files acc t)
      = (t ++ evs)%list /\ chatCalls evs = 0.
Proof.
  induction files as [| f files IH]; intros acc t; simpl.
  - exists []. rewrite app_nil_r. split; reflexivity.
  - destruct (readFile env t _) as [c | e] eqn:R;
      match goal with
      | |- context [debugContextOf _ _ _ ?a ?u] =>
          destruct (IH a u) as (evs & E & C)
      end;
      rewrite E; eexists; rewrite <- app_assoc; (split; [reflexivity |]);
      rewrite chatCalls_app, C; reflexivity.
Qed.

Lemma generatedCode_reads (files : list string) :
  forall acc t,
    exists evs,
      snd (generatedCode env currentWorkingDirectory files acc t)
      = (t ++ evs)%list /\ chatCalls evs = 0.
Proof.
  induction files as [| f files IH]; intros acc t; simpl.
  - exists []. rewrite app_nil_r. split; reflexivity.
  - destruct (readFile env t _) as [c | e] eqn:R;
      match goal with
      | |- context [generatedCode _ _ _ ?a ?u] =>
          destruct (IH a u) as (evs & E & C)
      end;
      rewrite E; eexists; rewrite <- app_assoc; (split; [reflexivity |]);
      rewrite chatCalls_app, C; reflexivity.
Qed.

Lemma listGenerated_reads (files : list string) (fr : option string)
      (t : list event) :
  exists evs,
    snd (listGenerated env showFullCode currentWorkingDirectory files fr t)
    = (t ++ evs)%list /\ chatCalls evs = 0.
Proof.
  unfold listGenerated.
  destruct (0 <? List.length files)%nat;
    [| exists []; rewrite app_nil_r; split; reflexivity].
  destruct showFullCode; [| exists []; rewrite app_nil_r; split; reflexivity].
  match goal with
  | |- context [generatedCode _ _ _ ?a ?u] =>
      destruct (generatedCode_reads files a u) as (evs & E & C);
      destruct (generatedCode env currentWorkingDirectory files a u) as [r t3]
  end.
  simpl in E. subst t3. exists evs. split; [reflexivity | exact C].
Qed.

(** X15.  A delegation ends, and it costs at most eight chat calls, or
    thirteen with the auto-debug pass: the primary agent has a limit of eight
    turns, the reviewer of five, and nothing else calls the endpoint.  A
    disabled tool makes no call at all. *)
Theorem delegation_is_bounded (params : consultParams) (fuel : nat)
        (before : list event) :
  8 <= fuel ->
  exists r evs,
    tool' fuel params before = Some (r, (before ++ evs)%list)
    /\ chatCalls evs <= (if enableSecondary
                         then if debugMode then 13 else 8 else 0).
Proof.
  intros Hfuel. unfold consultSecondaryAgentTool, createSafeToolImplementation.
  destruct enableSecondary; simpl;
    [| eexists _, []; rewrite app_nil_r; split; [reflexivity | apply Nat.le_0_l]].
  unfold consultSecondaryAgent. simpl.
  destruct (runAgentLoop_ends env allowFileSystem allowWeb allowCode
              currentWorkingDirectory (allow_tools_param params) false 8%Z
              autoSave (task params) (agent_role params) (context params)
              subAgentProfilesStr fuel before Hfuel)
    as (primary & m1 & evs1 & Hrun & T1 & C1).
  replace (Z.to_nat 8) with 8 in C1 by reflexivity.
  rewrite Hrun, T1.
  destruct (truthyText (errorField primary)).
  { eexists _, evs1. split; [reflexivity |]. destruct debugMode; lia. }
  set (files := filesOf primary).
  assert (Hdebug :
    exists fr evs2,
      (if debugMode && (0 <? List.length files)%nat
       then autoDebug env autoSave allowFileSystem allowWeb allowCode
              subAgentProfilesStr currentWorkingDirectory
              (allow_tools_param params) files (responseField primary) fuel
              (before ++ evs1)%list
       else Some (Ok (responseField primary), (before ++ evs1)%list))
      = Some (Ok fr, (before ++ evs1 ++ evs2)%list)
      /\ chatCalls evs2 <= (if debugMode then 5 else 0)).
  { destruct debugMode; simpl;
      [| eexists _, []; rewrite !app_nil_r; split; [reflexivity | apply Nat.le_0_l]].
    destruct (0 <? List.length files)%nat;
      [| eexists _, []; rewrite !app_nil_r; split; [reflexivity | apply Nat.le_0_l]].
    unfold autoDebug.
    destruct (debugContextOf_reads files
                ("Here is the content of the created files:" ++ Js.nl)
                (before ++ evs1)%list) as (evsR & ER & CR).
    destruct (debugContextOf env currentWorkingDirectory files _ _)
      as [debugContext t1]. simpl in ER. subst t1.
    destruct (runAgentLoop_ends env allowFileSystem allowWeb allowCode
                currentWorkingDirectory (allow_tools_param params) true 5%Z
                autoSave (debugTaskOf files) "reviewer" debugContext
                subAgentProfilesStr fuel ((before ++ evs1) ++ evsR)%list)
      as (review & m2 & evs2 & Hrun2 & T2 & C2).
    { replace (Z.to_nat 5) with 5 by reflexivity. lia. }
    replace (Z.to_nat 5) with 5 in C2 by reflexivity.
    rewrite Hrun2, T2. eexists _, (evsR ++ evs2)%list.
    rewrite <- !app_assoc. split; [reflexivity |].
    rewrite chatCalls_app. lia. }
  destruct Hdebug as (fr & evs2 & -> & C2).
  destruct (listGenerated_reads files fr (before ++ evs1 ++ evs2)%list)
    as (evs3 & E3 & C3).
  destruct (listGenerated env showFullCode currentWorkingDirectory files fr
              (before ++ evs1 ++ evs2)%list) as [out t3].
  simpl in E3. subst t3.
  assert (Hsum : chatCalls (evs1 ++ evs2 ++ evs3)
                 <= (if debugMode then 13 else 8)).
  { rewrite !chatCalls_app. destruct debugMode; lia. }
  rewrite <- !app_assoc.
  destruct (hideCode showFullCode out);
    eexists _, (evs1 ++ evs2 ++ evs3)%list; (split; [reflexivity | exact Hsum]).
Qed.

(** X16.  When the first call to the endpoint fails with a message, the
    delegation returns that error after this one call: no reviewer runs, no
    file is read and nothing is listed, whatever the settings. *)
Theorem endpoint_failure_ends_delegation (params : consultParams) (fuel : nat)
        (before : list event) :
  let m0 := initialState env allowFileSystem allowWeb allowCode
              currentWorkingDirectory (allow_tools_param params) false
              (task params) (agent_role params) (context params)
              subAgentProfilesStr before in
  let reply := chat env (trace m0) (msgList m0) in
  enableSecondary = true ->
  (forall raw, reply <> ChatOk raw) ->
  errorOf reply <> "" ->
  tool' (S fuel) params before
  = Some (Ok (ConsultError (errorOf reply)),
          (trace m0 ++ [EChat (msgList m0) reply])%list).
Proof.
  cbv zeta. intros -> Hbad Hmsg.
  unfold consultSecondaryAgentTool, createSafeToolImplementation,
    consultSecondaryAgent. cbn [negb].
  rewrite (runAgentLoop_first_call_fails env allowFileSystem allowWeb allowCode
             currentWorkingDirectory (allow_tools_param params) false 8%Z
             autoSave (task params) (agent_role params) (context params)
             subAgentProfilesStr fuel before eq_refl Hbad).
  apply String.eqb_neq in Hmsg.
  unfold truthyText, errorField, shown. rewrite Hmsg. reflexivity.
Qed.

(** X17.  An error without a message is not recognised as an error: when
    the first call to the endpoint throws with an empty message, the
    delegation goes on with an undefined response.  With code hiding on
    (the full code is not shown) the tool then throws a [TypeError]; with it
    off the tool returns an undefined response and no file. *)
Theorem error_without_message_is_taken_for_success (params : consultParams)
        (fuel : nat) (before : list event) :
  let m0 := initialState env allowFileSystem allowWeb allowCode
              currentWorkingDirectory (allow_tools_param params) false
              (task params) (agent_role params) (context params)
              subAgentProfilesStr before in
  enableSecondary = true ->
  chat env (trace m0) (msgList m0) = ChatThrew "" ->
  tool' (S fuel) params before
  = Some (if showFullCode then Ok (ConsultResponse None [])
          else Threw "Cannot read properties of undefined (reading 'replace')",
          (trace m0 ++ [EChat (msgList m0) (ChatThrew "")])%list).
Proof.
  cbv zeta. intros -> Hchat.
  unfold consultSecondaryAgentTool, createSafeToolImplementation,
    consultSecondaryAgent. cbn [negb].
  rewrite (runAgentLoop_first_call_fails env allowFileSystem allowWeb allowCode
             currentWorkingDirectory (allow_tools_param params) false 8%Z
             autoSave (task params) (agent_role params) (context params)
             subAgentProfilesStr fuel before eq_refl)
    by (rewrite Hchat; discriminate).
  rewrite Hchat. cbn [errorOf errorField truthyText String.eqb negb filesOf
                      List.length Nat.ltb Nat.leb andb responseField].
  rewrite andb_false_r. unfold listGenerated, hideCode.
  cbn [List.length Nat.ltb Nat.leb logChat trace set_trace].
  destruct showFullCode; reflexivity.
Qed.

End Delegating.


(* ================================================================== *)
(** ** The state manager *)
(* ================================================================== *)

Lemma sapp_assoc (a b c : string) : (a ++ b) ++ c = a ++ b ++ c.
Proof. induction a as [| x a IH]; simpl; [reflexivity | rewrite IH; reflexivity]. Qed.

Lemma sapp_nil_r (a : string) : a ++ "" = a.
Proof. induction a as [| x a IH]; simpl; [reflexivity | rewrite IH; reflexivity]. Qed.

(** Reading back an escaped string literal gives the string. *)
Lemma string_body_escape (s : string) :
  forall acc rest,
    Json.string_body (Json.escape s ++ String Js.dquote rest) acc
    = Some (acc ++ s, rest).
Proof.
  induction s as [| c t IH]; intros acc rest.
  - simpl. rewrite sapp_nil_r. reflexivity.
  - assert (Hacc : (acc ++ String c "") ++ t = acc ++ String c t)
      by (rewrite sapp_assoc; reflexivity).
    rewrite <- Hacc, <- IH.
    destruct c as [[] [] [] [] [] [] [] []]; reflexivity.
Qed.

Lemma normalize_nonempty (p : string) : Path.normalize p <> "".
Proof.
  unfold Path.normalize. destruct (String.eqb p ""); [discriminate |].
  destruct (String.eqb (Path.normalizeString p _) "") eqn:E.
  - destruct (Path.isAbsolute p); [discriminate |].
    destruct (Path.endsWithSlash p); discriminate.
  - apply String.eqb_neq in E.
    destruct (Path.isAbsolute p); [discriminate |].
    destruct (Path.endsWithSlash p); [| exact E].
    destruct (Path.normalizeString p _); [contradiction | discriminate].
Qed.

Lemma join_nonempty (paths : list string) : Path.join paths <> "".
Proof.
  unfold Path.join. destruct (filter _ paths); [discriminate |].
  apply normalize_nonempty.
Qed.

Section Managing.

Variable env : Env.
Variable homedir : string.

Local Abbreviation getState := (StateManager.getPersistedState env homedir).
Local Abbreviation saveState := (StateManager.savePersistedState env homedir).
Local Abbreviation statePath' := (StateManager.statePath homedir).

(** X18.  Loading the state never fails and always yields a working
    directory: one read of the state file, and the result has a truthy
    [currentWorkingDirectory], which is the default directory whenever the
    file is missing, is not JSON, or holds no such property. *)
Theorem persisted_state_always_has_a_directory (m : mem) :
  exists state,
    getState m
    = (Ok state,
       set_trace (fun t => t ++ [EReadFile statePath' (readFile env (trace m) statePath')])%list m)
    /\ Json.truthyV (Json.prop state "currentWorkingDirectory") = true
    /\ (state = StateManager.defaultState homedir
        \/ exists content,
             readFile env (trace m) statePath' = Ok content
             /\ Json.parse content = Some state).
Proof.
  assert (Hdef : Json.truthyV
                   (Json.prop (StateManager.defaultState homedir)
                              "currentWorkingDirectory") = true).
  { simpl. apply negb_true_iff, String.eqb_neq, join_nonempty. }
  unfold StateManager.getPersistedState, try_catch, bind at 1, do_readFile, await.
  destruct (readFile env (trace m) statePath') as [content | e] eqn:R;
    [| eexists; split; [reflexivity | split; [exact Hdef | left; reflexivity]]].
  destruct (Json.parse content) as [state |] eqn:P;
    [| eexists; split; [reflexivity | split; [exact Hdef | left; reflexivity]]].
  destruct state;
    try (eexists; split; [reflexivity | split; [exact Hdef | left; reflexivity]]).
  unfold bind, member, ret.
  destruct (Json.truthyV (Json.prop (Json.JObj fields) "currentWorkingDirectory"))
    eqn:T.
  - eexists. split; [reflexivity |]. split; [exact T |].
    right. exists content. split; [reflexivity | exact P].
  - eexists. split; [reflexivity | split; [exact Hdef | left; reflexivity]].
Qed.

(** Parsing an object with the one property, up to the string that is its
    value. *)
Lemma parse_value_state (body : string) (fuel : nat) :
  Json.parse_value (S (S (S fuel)))
    ("{" ++ Js.nl ++ "  " ++ String Js.dquote "currentWorkingDirectory"
     ++ String Js.dquote ": " ++ String Js.dquote body)
  = match (match Json.string_body body "" with
           | Some (str, t') => Some (Json.JStr str, t')
           | None => None
           end) with
    | Some (v, t3) =>
        match Json.skip_blanks t3 with
        | String "}"%char t4 =>
            Some (Json.JObj [("currentWorkingDirectory", v)], t4)
        | String ","%char t4 =>
            Json.parse_field (S fuel) t4 [("currentWorkingDirectory", v)]
        | _ => None
        end
    | None => None
    end.
Proof. reflexivity. Qed.

Lemma parse_stringifyState (dir : string) :
  Json.parse (StateManager.stringifyState dir)
  = Some (Json.JObj [("currentWorkingDirectory", Json.JStr dir)]).
Proof.
  unfold Json.parse.
  assert (Hf : exists f,
             S (String.length (StateManager.stringifyState dir)) = S (S (S f)))
    by (eexists; reflexivity).
  destruct Hf as (f & ->).
  change (StateManager.stringifyState dir)
    with ("{" ++ Js.nl ++ "  " ++ String Js.dquote "currentWorkingDirectory"
          ++ String Js.dquote ": "
          ++ String Js.dquote (Json.escape dir ++ String Js.dquote (Js.nl ++ "}"))).
  rewrite parse_value_state, string_body_escape. reflexivity.
Qed.

(** X19.  What [savePersistedState] writes is read back by
    [getPersistedState]: when the directory can be made and the file
    written, the state file receives the state as JSON, and a later load that
    reads this text yields the same working directory, whatever characters
    it contains; an empty directory name is replaced by the default. *)
Theorem saved_state_is_read_back (dir : string) (m m1 : mem) :
  mkdir env (trace m) (StateManager.stateDir homedir) = Ok tt ->
  writeFile env (trace m ++ [EMkdir (StateManager.stateDir homedir) (Ok tt)])
    statePath' (StateManager.stringifyState dir) = Ok tt ->
  readFile env (trace m1) statePath' = Ok (StateManager.stringifyState dir) ->
  saveState dir m
  = (Ok tt,
     set_trace (fun t => t ++ [EMkdir (StateManager.stateDir homedir) (Ok tt);
                               EWriteFile statePath'
                                 (StateManager.stringifyState dir) (Ok tt)])%list m)
  /\ fst (getState m1)
     = Ok (if String.eqb dir "" then StateManager.defaultState homedir
           else Json.JObj [("currentWorkingDirectory", Json.JStr dir)]).
Proof.
  intros Hmk Hwr Hrd. split.
  - unfold StateManager.savePersistedState, try_catch, bind, do_mkdir,
      do_writeFile, await.
    rewrite Hmk. cbn [trace set_trace]. rewrite Hwr.
    unfold set_trace. cbn [trace msgList loops finalContent filesModified
                             processedFiles].
    rewrite <- app_assoc. reflexivity.
  - unfold StateManager.getPersistedState, try_catch, bind at 1, do_readFile, await.
    rewrite Hrd, parse_stringifyState.
    unfold bind, member, ret. cbn [fst Json.prop Json.lookup String.eqb
                                   Ascii.eqb Bool.eqb Json.truthyV Json.truthy].
    destruct (String.eqb dir ""); reflexivity.
Qed.

End Managing.


(* ================================================================== *)
(** ** The search tool's retries *)
(* ================================================================== *)

Module DuckDuckGoFacts.
Import DuckDuckGo.

Section Retries.

Variable importLibrary : list step -> option thrown.
Variable search : list step -> string -> answer.
Variable query : string.

(** From attempt number [attempt], the loop ends within the attempts that
    are left; each further search follows a wait that doubles. *)
Lemma retryLoop_ends (fuel : nat) :
  forall attempt t,
    maxRetries - attempt <= fuel ->
    exists r added,
      retryLoop search query fuel attempt t = Some (r, (t ++ added)%list)
      /\ List.length (filter isSearch added) <= maxRetries - attempt
      /\ (attempt < maxRetries -> 1 <= List.length (filter isSearch added))
      /\ waits added
         = map (fun k => (1000 * 2 ^ Z.of_nat k)%Z)
               (List.seq attempt (List.length (filter isSearch added) - 1))
      /\ (attempt < maxRetries -> r <> inl None).
Proof.
  assert (HM : maxRetries = 3) by reflexivity.
  induction fuel as [| fuel IH]; intros attempt t Hfuel.
  - assert (E : (attempt <? maxRetries)%nat = false)
      by (apply Nat.ltb_ge; lia).
    cbn [retryLoop]. rewrite E. exists (inl None), []. rewrite app_nil_r.
    apply Nat.ltb_ge in E. cbn [filter List.length waits flat_map].
    repeat split; try lia; try reflexivity.
  - cbn [retryLoop]. destruct (attempt <? maxRetries)%nat eqn:E.
    2:{ exists (inl None), []. rewrite app_nil_r.
        apply Nat.ltb_ge in E. cbn [filter List.length waits flat_map].
        repeat split; try lia; try reflexivity. }
    apply Nat.ltb_lt in E.
    destruct (search t query) as [res | err] eqn:Hs.
    + eexists _, [_]. split; [reflexivity |].
      cbn [filter isSearch List.length waits flat_map app].
      repeat split; try lia; try discriminate; try reflexivity.
    + destruct (rateLimited (thrownText err) && (attempt <? maxRetries - 1)%nat)
        eqn:R.
      * apply andb_true_iff in R. destruct R as [_ R]. apply Nat.ltb_lt in R.
        match goal with
        | |- context [retryLoop _ _ fuel (attempt + 1) ?u] =>
            destruct (IH (attempt + 1) u) as (r & added & Hrun & Hn & Hone & Hw & Hr);
              [lia |]
        end.
        rewrite Hrun. eexists r, (_ :: _ :: _ :: added).
        split; [rewrite <- !app_assoc; reflexivity |].
        specialize (Hone ltac:(lia)). specialize (Hr ltac:(lia)).
        cbn [filter isSearch List.length waits flat_map app].
        fold (waits added). rewrite Hw.
        repeat split; try lia; try (intros _; exact Hr).
        destruct (List.length (filter isSearch added)) as [| n]; [lia |].
        replace (S (S n) - 1) with (S n) by lia.
        replace (S n - 1) with n by lia.
        cbn [List.seq map]. rewrite Nat.add_1_r. reflexivity.
      * eexists _, [_]. split; [reflexivity |].
        cbn [filter isSearch List.length waits flat_map app].
        repeat split; try lia; try discriminate; try reflexivity.
Qed.

(** X20.  The search tool always answers, after at most three searches:
    it never throws; when the library cannot be loaded it reports that
    failure without any search, and otherwise it makes one to three
    searches; it waits only between searches, 1000 ms before the second and
    2000 ms before the third, and so at most three seconds in all. *)
Theorem search_tries_at_most_three_times (t : list step) :
  exists r added,
    duckduckgo_search importLibrary search query maxRetries t
    = Some (r, (t ++ added)%list)
    /\ List.length (filter isSearch added) <= 3
    /\ match importLibrary (configured t) with
       | None => 1 <= List.length (filter isSearch added)
       | Some err =>
           filter isSearch added = []
           /\ r = SearchError ("Search failed: " ++ messageOf err)
       end
    /\ waits added
       = firstn (List.length (filter isSearch added) - 1) [1000; 2000]%Z.
Proof.
  unfold duckduckgo_search.
  destruct (importLibrary (configured t)) as [err |].
  { eexists _, [_; _]. unfold configured. rewrite <- app_assoc.
    split; [reflexivity |]. cbn. repeat split; lia. }
  destruct (retryLoop_ends maxRetries 0 (loaded t) (le_n _))
    as (r & added & Hrun & Hn & Hone & Hw & _).
  assert (HM : maxRetries = 3) by reflexivity.
  specialize (Hone ltac:(lia)).
  rewrite Hrun.
  assert (Hshape : waits added
                   = firstn (List.length (filter isSearch added) - 1)
                            [1000; 2000]%Z).
  { rewrite Hw.
    destruct (List.length (filter isSearch added)) as [| [| [| [| n]]]];
      try lia; reflexivity. }
  unfold loaded, configured. rewrite <- !app_assoc.
  destruct r as [[[[[| h more] |] | err] |] | err];
    eexists _, (_ :: _ :: added);
    (split; [reflexivity |]);
    cbn [filter isSearch List.length waits flat_map app]; fold (waits added);
    (split; [lia | split; [lia | exact Hshape]]).
Qed.

(** X21.  Only rate-limit errors are retried: when the library has loaded
    and the first search throws something whose text mentions neither
    [anomaly], [429] nor [too quickly], the tool gives up at once and
    reports the failure with the message of the error. *)
Theorem other_errors_are_not_retried (t : list step) (err : thrown) :
  importLibrary (configured t) = None ->
  search (loaded t) query = Failed err ->
  rateLimited (thrownText err) = false ->
  duckduckgo_search importLibrary search query maxRetries t
  = Some (SearchError ("Search failed: " ++ messageOf err),
          (loaded t ++ [Searched (Failed err)])%list).
Proof.
  intros Hi Hs Hr. unfold duckduckgo_search, maxRetries. rewrite Hi.
  cbn [retryLoop].
  change (0 <? 3)%nat with true. cbv iota. rewrite Hs, Hr. reflexivity.
Qed.

End Retries.

End DuckDuckGoFacts.


(* ================================================================== *)
(** ** A run that only ever calls tools *)
(* ================================================================== *)

Section ToolsOnly.

Variable env : Env.
Variables allowFileSystem allowWeb allowCode : bool.
Variable currentWorkingDirectory : string.
Variables allow_tools forceTools : bool.
Variable loopLimit : Z.
Variable autoSave : bool.
Variables taskPrompt role contextData subAgentProfilesStr : string.

Local Abbreviation turn' :=
  (turn env allowFileSystem allowWeb allowCode currentWorkingDirectory
        allow_tools forceTools loopLimit).
Local Abbreviation agentLoop' :=
  (agentLoop env allowFileSystem allowWeb allowCode currentWorkingDirectory
             allow_tools forceTools loopLimit).

Hypothesis tools_on : toolsEnabled allow_tools forceTools = true.
Hypothesis always_calls :
  forall t msgs, exists raw tc,
    chat env t msgs = ChatOk raw
    /\ isRefusal (Js.trim (cleanup raw)) = false
    /\ detectToolCall (Js.trim (cleanup raw)) = Some tc.

Ltac valid_same :=
  apply (preserves_same sameText sameText_refl); intros;
  apply validatePath_any_state.

Lemma save_batch_sameText (files : list Json.json) :
  forall saved,
    preserves sameText (save_batch env currentWorkingDirectory files saved).
Proof.
  induction files as [| f files IH]; intros saved; simpl.
  - same_text fail.
  - apply (preserves_bind sameText sameText_trans); [| intros r; apply IH].
    unfold save_batch_item, member, do_mkdir,
      do_writeFile_any, do_writeFile, push_file.
    same_text valid_same.
Qed.

Lemma delete_matching_sameText (test : string -> bool) (files : list string) :
  forall deleted,
    preserves sameText
      (delete_matching env currentWorkingDirectory test files deleted).
Proof.
  induction files as [| f files IH]; intros deleted; simpl.
  - same_text fail.
  - destruct (test f); [| apply IH].
    apply (preserves_bind sameText sameText_trans); [| intros r; apply IH].
    same_text fail.
Qed.

Lemma dispatch_sameText (tc : toolCall) :
  preserves sameText
    (dispatch env allowFileSystem allowWeb allowCode currentWorkingDirectory tc).
Proof.
  unfold dispatch, fileSystemTools, webTools, codeTools,
    originalRunPythonImplementation, do_date_now, save_file,
    replace_text_in_file, delete_files_by_pattern,
    do_readFile, do_readdir, do_mkdir, do_writeFile_any, do_writeFile, push_file.
  same_text ltac:(first [ valid_same | apply save_batch_sameText
                        | apply delete_matching_sameText ]).
Qed.

Lemma updateProjectInfo_sameText :
  preserves sameText
    (updateProjectInfo env allowFileSystem currentWorkingDirectory taskPrompt).
Proof.
  unfold updateProjectInfo, do_now, do_writeFile. same_text fail.
Qed.

(** A turn in which the reply is a tool call. *)
Lemma turn_with_call (m : mem) :
  exists m',
    turn' m = (Ok Continue, m')
    /\ loops m' = (loops m + 1)%Z
    /\ finalContent m' = finalContent m
    /\ chatCalls (trace m') = chatCalls (trace m) + 1.
Proof.
  destruct (always_calls (trace m) (msgList m)) as (raw & tc & Hc & Hr & Hd).
  unfold turn. rewrite Hc. unfold handleContent. rewrite tools_on, Hr, Hd.
  cbn [negb]. set (m1 := set_trace _ m).
  unfold bind at 1. cbn [push_message update]. unfold bind at 1.
  set (m2 := set_msgList _ m1).
  pose proof (dispatch_keeps env allowFileSystem allowWeb allowCode
                currentWorkingDirectory tc m2) as (Hl & _ & Hcalls).
  pose proof (dispatch_sameText tc m2) as Htext. unfold sameText in Htext.
  destruct (dispatch_total env allowFileSystem allowWeb allowCode
              currentWorkingDirectory tc m2) as (out & Hout).
  destruct (dispatch env allowFileSystem allowWeb allowCode
              currentWorkingDirectory tc m2) as [o m3].
  simpl in Hl, Hcalls, Htext, Hout. subst o.
  eexists. split; [reflexivity |]. cbn [loops finalContent trace set_msgList
    set_loops increment_loops update]. 
  rewrite Hl, Htext, Hcalls. subst m2 m1. cbn [loops finalContent trace
    set_msgList set_trace]. rewrite chatCalls_app.
  repeat split; reflexivity.
Qed.

Lemma agentLoop_with_calls (fuel : nat) :
  forall m,
    Z.to_nat (loopLimit - loops m) <= fuel ->
    exists m',
      agentLoop' fuel m = Some (Break, m')
      /\ finalContent m' = finalContent m
      /\ chatCalls (trace m')
         = chatCalls (trace m) + Z.to_nat (loopLimit - loops m).
Proof.
  induction fuel as [| fuel IH]; intros m Hfuel.
  - assert (E : (loops m <? loopLimit)%Z = false) by (apply Z.ltb_ge; lia).
    simpl. rewrite E. exists m. repeat split.
    apply Z.ltb_ge in E. replace (Z.to_nat (loopLimit - loops m)) with 0 by lia.
    lia.
  - cbn [agentLoop]. destruct (loops m <? loopLimit)%Z eqn:E.
    + apply Z.ltb_lt in E.
      destruct (turn_with_call m) as (m1 & Ht & Hl & Hf & Hc).
      rewrite Ht. destruct (IH m1) as (m' & Hrun & Hf' & Hc'); [lia |].
      exists m'. split; [exact Hrun |]. split; [congruence |].
      rewrite Hc', Hc, Hl. lia.
    + exists m. repeat split.
      apply Z.ltb_ge in E. replace (Z.to_nat (loopLimit - loops m)) with 0 by lia.
      lia.
Qed.

(** X22.  A model that answers every turn with a tool call never gets to
    give an answer: the loop runs for exactly the allowed number of turns,
    leaves by its test with the final text still empty, nothing is
    extracted, and the invocation returns an empty response. *)
Theorem tool_calls_until_the_limit_leave_no_answer (before : list event) :
  exists files m',
    runAgentLoop env allowFileSystem allowWeb allowCode currentWorkingDirectory
      allow_tools forceTools loopLimit autoSave taskPrompt role contextData
      subAgentProfilesStr (Z.to_nat loopLimit) before
    = Some (Ok (Response "" files), m')
    /\ chatCalls (trace m') = chatCalls before + Z.to_nat loopLimit.
Proof.
  unfold runAgentLoop.
  pose proof (initialState_shape env allowFileSystem allowWeb allowCode
                currentWorkingDirectory taskPrompt role contextData
                subAgentProfilesStr allow_tools forceTools before) as S0.
  cbv zeta in S0. destruct S0 as (L0 & F0 & _ & _ & r1 & r2 & T0).
  set (m0 := initialState _ _ _ _ _ _ _ _ _ _ _ _) in *.
  destruct (agentLoop_with_calls (Z.to_nat loopLimit) m0) as (m1 & Hrun & Hf & Hc).
  { rewrite L0, Z.sub_0_r. apply le_n. }
  rewrite L0, Z.sub_0_r, T0, chatCalls_app in Hc.
  change (chatCalls [EReadFile (Path.join [currentWorkingDirectory; "SUB_AGENT_INSTRUCTIONS.md"]) r1;
                     EReadFile (Path.join [currentWorkingDirectory; "beledarian_info.md"]) r2])
    with 0 in Hc.
  rewrite F0 in Hf.
  unfold runFrom. rewrite Hrun.
  unfold bind at 1, autoSavePass, bind at 1, read. rewrite Hf.
  rewrite !andb_false_r. cbn [ret].
  unfold bind at 1.
  pose proof (updateProjectInfo_keeps env allowFileSystem
                currentWorkingDirectory taskPrompt m1) as (_ & _ & Hk).
  pose proof (updateProjectInfo_sameText m1) as Hs. unfold sameText in Hs.
  destruct (updateProjectInfo_total env allowFileSystem
              currentWorkingDirectory taskPrompt m1) as ([] & Hu).
  destruct (updateProjectInfo env allowFileSystem currentWorkingDirectory
              taskPrompt m1) as [o m2].
  simpl in Hk, Hs, Hu. subst o.
  unfold bind, read, ret. rewrite Hs, Hf.
  eexists _, m2. split; [reflexivity |]. rewrite Hk, Hc. lia.
Qed.

End ToolsOnly.


(* ================================================================== *)
(** ** Replacing text in a file *)
(* ================================================================== *)

Lemma startsWith_split (s p : string) :
  Js.startsWith s p = true -> s = p ++ Js.drop (String.length p) s.
Proof.
  revert s. induction p as [| a p IH]; intros s H.
  - destruct s; reflexivity.
  - destruct s as [| b s]; [discriminate |]. simpl in H.
    apply andb_true_iff in H. destruct H as [E H].
    apply Ascii.eqb_eq in E. subst b. simpl. f_equal. apply IH. exact H.
Qed.

Lemma includes_step (c : ascii) (t sub : string) :
  Js.includes (String c t) sub
  = Js.startsWith (String c t) sub || Js.includes t sub.
Proof. reflexivity. Qed.

(** [content.replace(old, new)] rewrites the first occurrence of [old]:
    what comes before it and after it stays, and the replacement text is
    expanded with the match and its surroundings. *)
Lemma replace_first_spec (old new : string) (content : string) :
  forall before,
    Js.includes content old = true ->
    exists pre post,
      content = pre ++ old ++ post
      /\ (forall k, k < String.length pre ->
            Js.startsWith (Js.drop k content) old = false)
      /\ replace_first content old new before
         = before ++ pre ++ expand new old (before ++ pre) post ++ post.
Proof.
  induction content as [| c t IH]; intros before H.
  - cbn [Js.includes] in H. rewrite orb_false_r in H.
    exists "", (Js.drop (String.length old) ""). cbn [replace_first].
    rewrite H. rewrite sapp_nil_r. repeat split.
    + apply (startsWith_split "" old H).
    + intros k Hk. simpl in Hk. lia.
  - cbn [replace_first]. destruct (Js.startsWith (String c t) old) eqn:S0.
    + exists "", (Js.drop (String.length old) (String c t)).
      rewrite sapp_nil_r. repeat split.
      * apply (startsWith_split _ old S0).
      * intros k Hk. simpl in Hk. lia.
    + rewrite includes_step, S0 in H. simpl in H.
      destruct (IH (before ++ String c "") H) as (pre & post & E & Hfirst & Hr).
      exists (String c pre), post. repeat split.
      * simpl. f_equal. exact E.
      * intros [| k] Hk; [exact S0 |]. simpl in Hk. simpl. apply Hfirst. lia.
      * rewrite Hr, !sapp_assoc. reflexivity.
Qed.

Lemma replace_first_absent (old new : string) (content : string) :
  forall before,
    Js.includes content old = false ->
    replace_first content old new before = before ++ content.
Proof.
  induction content as [| c t IH]; intros before H.
  - cbn [Js.includes] in H. rewrite orb_false_r in H.
    cbn [replace_first]. rewrite H, sapp_nil_r. reflexivity.
  - rewrite includes_step in H. apply orb_false_elim in H as [S0 H].
    cbn [replace_first]. rewrite S0, (IH _ H), sapp_assoc. reflexivity.
Qed.

Lemma expand_plain (new matched before after : string) :
  occurs "$"%char new = false -> expand new matched before after = new.
Proof.
  induction new as [| d more IH]; intros H; [reflexivity |].
  cbn [occurs] in H. apply orb_false_elim in H as [Hd H].
  cbn [expand]. rewrite Hd, (IH H). reflexivity.
Qed.

(** The position of the first occurrence determines the split. *)
Lemma first_occurrence_unique (old content pre post pre' post' : string) :
  content = pre ++ old ++ post ->
  content = pre' ++ old ++ post' ->
  (forall k, k < String.length pre ->
     Js.startsWith (Js.drop k content) old = false) ->
  (forall k, k < String.length pre' ->
     Js.startsWith (Js.drop k content) old = false) ->
  pre = pre' /\ post = post'.
Proof.
  revert content pre'. induction pre as [| c pre IH]; intros content pre' E E' H H'.
  - destruct pre' as [| c' pre'].
    + split; [reflexivity |]. simpl in E, E'. rewrite E in E'.
      clear - E'. revert E'. induction old as [| a old IHo]; simpl; intros E'.
      * exact E'.
      * injection E' as E'. apply IHo. exact E'.
    + exfalso. specialize (H' 0 ltac:(simpl; lia)). simpl in H'.
      rewrite E in H'. simpl in H'. rewrite startsWith_app in H'. discriminate.
  - destruct pre' as [| c' pre'].
    + exfalso. specialize (H 0 ltac:(simpl; lia)). simpl in H.
      rewrite E' in H. simpl in H. rewrite startsWith_app in H. discriminate.
    + simpl in E, E'. destruct content as [| x content]; [discriminate |].
      injection E as -> E. injection E' as <- E'.
      destruct (IH content pre' E E') as [-> ->].
      * intros k Hk. apply (H (S k)). simpl. lia.
      * intros k Hk. apply (H' (S k)). simpl. lia.
      * split; reflexivity.
Qed.

Section Replacing.

Variable env : Env.
Variables allowWeb allowCode : bool.
Variable currentWorkingDirectory : string.

(** The guard of the [replace_text_in_file] branch of the dispatcher. *)
Lemma dispatch_replace_text (tc : toolCall) (name old new : string) (m : mem) :
  tool tc = Some (Json.JStr "replace_text_in_file") ->
  argOf tc "file_name" = Some (Json.JStr name) -> name <> "" ->
  argOf tc "old_string" = Some (Json.JStr old) -> old <> "" ->
  argOf tc "new_string" = Some (Json.JStr new) ->
  fileSystemTools env currentWorkingDirectory tc m
  = if String.eqb new "" then (Ok "", m)
    else replace_text_in_file env currentWorkingDirectory tc m.
Proof.
  intros Ht Hn Hne Ho Hoe Hw. unfold fileSystemTools. rewrite Ht, Hn, Ho, Hw.
  apply String.eqb_neq in Hne, Hoe.
  cbn [Json.truthyV Json.truthy]. rewrite Hne, Hoe.
  change (Json.is_str (Some (Json.JStr "replace_text_in_file")) "read_file")
    with false.
  change (Json.is_str (Some (Json.JStr "replace_text_in_file")) "list_directory")
    with false.
  change (Json.is_str (Some (Json.JStr "replace_text_in_file")) "save_file")
    with false.
  change (Json.is_str (Some (Json.JStr "replace_text_in_file"))
            "replace_text_in_file") with true.
  change (Json.is_str (Some (Json.JStr "replace_text_in_file"))
            "delete_files_by_pattern") with false.
  change (Json.is_str (Some (Json.JStr "replace_text_in_file"))
            "rag_local_files") with false.
  cbn [andb negb]. destruct (String.eqb new ""); reflexivity.
Qed.

(** X23.  Replacing text through the tool rewrites the file in place.  A
    [replace_text_in_file] call whose file name and old text are not empty
    is dispatched as follows.  When the new text is not empty either, the
    text that was read is [pre ++ old ++ post] with the first occurrence of
    [old] at that place and no second one counted, and the new text has no
    dollar sign, the file is written back as [pre ++ new ++ post], its name
    is recorded and the call reports success.  When the new text is empty
    the guard of the branch fails: nothing is read or written and the call
    is answered as a tool that was not found. *)
Theorem unique_text_is_replaced_in_place (tc : toolCall) (m : mem)
        (name old new fpath pre post : string) :
  tool tc = Some (Json.JStr "replace_text_in_file") ->
  argOf tc "file_name" = Some (Json.JStr name) -> name <> "" ->
  argOf tc "old_string" = Some (Json.JStr old) -> old <> "" ->
  argOf tc "new_string" = Some (Json.JStr new) ->
  validatePath env currentWorkingDirectory name = Ok fpath ->
  readFile env (trace m) fpath = Ok (pre ++ old ++ post) ->
  (forall k, k < String.length pre ->
     Js.startsWith (Js.drop k (pre ++ old ++ post)) old = false) ->
  split_length (pre ++ old ++ post) old <= 2 ->
  occurs "$"%char new = false ->
  writeFile env (trace m ++ [EReadFile fpath (Ok (pre ++ old ++ post))])
    fpath (pre ++ new ++ post) = Ok tt ->
  dispatch env true allowWeb allowCode currentWorkingDirectory tc m
  = if String.eqb new "" then (Ok toolNotFound, m)
    else
      (Ok "Success: Text replaced.",
       Mem (msgList m) (loops m) (finalContent m) (filesModified m ++ [name])
           (processedFiles m)
           (trace m ++ [EReadFile fpath (Ok (pre ++ old ++ post));
                        EWriteFile fpath (pre ++ new ++ post) (Ok tt)])).
Proof.
  intros Ht Hn Hne Ho Hoe Hw Hv Hr Hfirst Hcount Hplain Hwr.
  unfold dispatch, try_catch. unfold bind at 1.
  rewrite (dispatch_replace_text tc name old new m Ht Hn Hne Ho Hoe Hw).
  destruct (String.eqb new "") eqn:Enew.
  { unfold webTools, codeTools. rewrite Ht.
    change (Json.is_str (Some (Json.JStr "replace_text_in_file"))
              "wikipedia_search") with false.
    change (Json.is_str (Some (Json.JStr "replace_text_in_file"))
              "duckduckgo_search") with false.
    change (Json.is_str (Some (Json.JStr "replace_text_in_file"))
              "fetch_web_content") with false.
    change (Json.is_str (Some (Json.JStr "replace_text_in_file"))
              "run_python") with false.
    cbn [andb]. unfold bind, ret.
    destruct allowWeb, allowCode; reflexivity. }
  assert (Hinc : Js.includes (pre ++ old ++ post) old = true)
    by apply includes_app.
  destruct (replace_first_spec old new (pre ++ old ++ post) "" Hinc)
    as (pre' & post' & E & Hfirst' & Hrep).
  destruct (first_occurrence_unique old _ pre post pre' post' eq_refl E
              Hfirst Hfirst') as [<- <-].
  rewrite (expand_plain _ _ _ _ Hplain) in Hrep. cbn [append] in Hrep.
  assert (Hrun :
    replace_text_in_file env currentWorkingDirectory tc m
    = (Ok "Success: Text replaced.",
       Mem (msgList m) (loops m) (finalContent m) (filesModified m ++ [name])
           (processedFiles m)
           (trace m ++ [EReadFile fpath (Ok (pre ++ old ++ post));
                        EWriteFile fpath (pre ++ new ++ post) (Ok tt)]))).
  { unfold replace_text_in_file. rewrite Hn, Ho, Hw.
    unfold bind at 1, validatePath_any. rewrite Hv.
    unfold bind at 1, do_readFile, await. rewrite Hr.
    cbn [toText]. rewrite Hinc. cbn [negb].
    assert (Hc : (1 <? Z.of_nat (split_length (pre ++ old ++ post) old) - 1)%Z = false)
      by (apply Z.ltb_ge; lia).
    rewrite Hc, Hrep.
    unfold bind at 1, do_writeFile, await. cbn [trace set_trace]. rewrite Hwr.
    unfold bind, push_file, update, ret, set_filesModified, set_trace.
    cbn [trace msgList loops finalContent filesModified processedFiles].
    rewrite <- app_assoc. reflexivity. }
  rewrite Hrun. unfold bind, ret.
  change (String.eqb "Success: Text replaced." "") with false.
  rewrite !andb_false_r. reflexivity.
Qed.

End Replacing.

(** X24.  The new text is a replacement pattern, not a literal: with
    [$&] as the new text the content comes back unchanged, and [$$] puts a
    single dollar sign in place of the old text. *)
Theorem new_text_is_a_replacement_pattern (content old : string) :
  Js.includes content old = true ->
  replace_first content old "$&" "" = content
  /\ exists pre post,
       content = pre ++ old ++ post
       /\ replace_first content old "$$" "" = pre ++ "$" ++ post.
Proof.
  intros H. split.
  - destruct (replace_first_spec old "$&" content "" H) as (pre & post & E & _ & R).
    rewrite R. cbn [expand append Ascii.eqb Bool.eqb].
    rewrite sapp_nil_r. symmetry. exact E.
  - destruct (replace_first_spec old "$$" content "" H) as (pre & post & E & _ & R).
    exists pre, post. split; [exact E |]. rewrite R. reflexivity.
Qed.


(* ================================================================== *)
(** ** A delegation without tools *)
(* ================================================================== *)

Section WithoutTools.

Variable env : Env.
Variables enableSecondary debugMode autoSave showFullCode : bool.
Variables allowFileSystem allowWeb allowCode : bool.
Variable subAgentProfilesStr : string.
Variable currentWorkingDirectory : string.

(** With tools off the run is one call: the cleaned reply is returned from
    inside the loop. *)
Lemma runAgentLoop_without_tools (loopLimit : Z)
      (taskPrompt role contextData : string) (fuel : nat)
      (before : list event) (raw : string) :
  let m0 := initialState env allowFileSystem allowWeb allowCode
              currentWorkingDirectory false false taskPrompt role contextData
              subAgentProfilesStr before in
  (0 < loopLimit)%Z ->
  chat env (trace m0) (msgList m0) = ChatOk raw ->
  runAgentLoop env allowFileSystem allowWeb allowCode currentWorkingDirectory
    false false loopLimit autoSave taskPrompt role contextData
    subAgentProfilesStr (S fuel) before
  = Some (Ok (Response (cleanup raw) []), logChat m0 (ChatOk raw)).
Proof.
  cbv zeta. intros Hpos Hchat.
  pose proof (initialState_shape env allowFileSystem allowWeb allowCode
                currentWorkingDirectory taskPrompt role contextData
                subAgentProfilesStr false false before) as S0.
  cbv zeta in S0. destruct S0 as (L0 & _ & F0 & _).
  unfold runAgentLoop, runFrom. cbn [agentLoop]. rewrite L0.
  apply Z.ltb_lt in Hpos. rewrite Hpos.
  rewrite (turn_success _ _ _ _ _ _ _ _ _ _ Hchat).
  unfold handleContent, toolsEnabled. cbn [orb negb].
  unfold bind, read, ret, logChat. cbn [filesModified set_trace].
  rewrite F0. reflexivity.
Qed.

(** X25.  A delegation with [allow_tools] off (the default) saves
    nothing: the agent's first reply is returned from inside the loop, so
    the auto-save pass and the history update are never reached, no reviewer
    runs and no file is listed, even when auto-save, debug mode and the
    file-system permission are all on.  The delegation is one chat call, and
    its response is the cleaned reply, with any code block hidden unless the
    full code is to be shown. *)
Theorem delegation_without_tools_saves_nothing (params : consultParams)
        (fuel : nat) (before : list event) (raw : string) :
  let m0 := initialState env allowFileSystem allowWeb allowCode
              currentWorkingDirectory false false (task params)
              (agent_role params) (context params) subAgentProfilesStr before in
  enableSecondary = true ->
  allow_tools_param params = false ->
  chat env (trace m0) (msgList m0) = ChatOk raw ->
  consultSecondaryAgentTool env enableSecondary debugMode autoSave showFullCode
    allowFileSystem allowWeb allowCode subAgentProfilesStr
    currentWorkingDirectory (S fuel) params before
  = Some (Ok (ConsultResponse
                (Some (if showFullCode then cleanup raw
                       else Regex.replaceAll anyBlockRegex hiddenNote
                              (cleanup raw)))
                []),
          (trace m0 ++ [EChat (msgList m0) (ChatOk raw)])%list).
Proof.
  cbv zeta. intros -> Hoff Hchat.
  unfold consultSecondaryAgentTool, createSafeToolImplementation,
    consultSecondaryAgent. cbn [negb]. rewrite Hoff.
  rewrite (runAgentLoop_without_tools 8%Z (task params) (agent_role params)
             (context params) fuel before raw eq_refl Hchat).
  cbn [errorField truthyText filesOf List.length Nat.ltb Nat.leb
       responseField].
  rewrite andb_false_r. unfold listGenerated, hideCode.
  cbn [List.length Nat.ltb Nat.leb logChat trace set_trace].
  destruct showFullCode; reflexivity.
Qed.

End WithoutTools.


(* ================================================================== *)
(** ** [validatePath] on clean names *)
(* ================================================================== *)

Module PathFacts.

Lemma split_skip_zero (s : string) :
  Js.split_aux_skip "/" 0 s = Js.split_aux "/" "" s.
Proof. destruct s; reflexivity. Qed.

(** Splitting at slashes reads one segment, then goes on after the slash. *)
Lemma split_aux_segment (seg : string) :
  occurs "/"%char seg = false ->
  forall acc,
    Js.split_aux "/" acc seg = [acc ++ seg]
    /\ forall more,
         Js.split_aux "/" acc (seg ++ String "/" more)
         = (acc ++ seg) :: Js.split_aux "/" "" more.
Proof.
  induction seg as [| c seg IH]; intros H acc.
  - split; [simpl; rewrite sapp_nil_r; reflexivity |].
    intros more. cbn [append Js.split_aux Js.startsWith Ascii.eqb Bool.eqb andb].
    assert (E : Js.startsWith more "" = true) by (destruct more; reflexivity).
    rewrite E, sapp_nil_r. cbn [String.length Nat.sub].
    rewrite split_skip_zero. reflexivity.
  - cbn [occurs] in H. apply orb_false_elim in H as [Hc H].
    assert (Hs : forall t, Js.startsWith (String c t) "/" = false).
    { intros t. cbn [Js.startsWith]. rewrite Ascii.eqb_sym, Hc. reflexivity. }
    destruct (IH H (acc ++ String c "")) as [IH1 IH2].
    split.
    + cbn [Js.split_aux]. rewrite Hs, IH1, sapp_assoc. reflexivity.
    + intros more. cbn [append Js.split_aux]. rewrite Hs, IH2, sapp_assoc.
      reflexivity.
Qed.

Lemma split_join (segs : list string) :
  segs <> [] ->
  Forall (fun seg => occurs "/"%char seg = false) segs ->
  Js.split (Js.join "/" segs) "/" = segs.
Proof.
  unfold Js.split. induction segs as [| x segs IH]; intros Hne Hall;
    [contradiction |].
  inversion Hall as [| ? ? Hx Hrest]; subst.
  destruct segs as [| y segs].
  - cbn [Js.join]. apply (split_aux_segment x Hx "").
  - change (Js.join "/" (x :: y :: segs))
      with (x ++ String "/" (Js.join "/" (y :: segs))).
    rewrite (proj2 (split_aux_segment x Hx "")).
    f_equal. apply IH; [discriminate | exact Hrest].
Qed.

Lemma join_cons (x : string) (segs : list string) :
  segs <> [] -> Js.join "/" (x :: segs) = x ++ "/" ++ Js.join "/" segs.
Proof. destruct segs; [contradiction | reflexivity]. Qed.

Lemma join_app (a b : list string) :
  a <> [] -> b <> [] ->
  Js.join "/" (a ++ b) = Js.join "/" a ++ "/" ++ Js.join "/" b.
Proof.
  induction a as [| x a IH]; intros Ha Hb; [contradiction |].
  destruct a as [| y a].
  - destruct b; [contradiction | reflexivity].
  - change (Js.join "/" ((x :: y :: a) ++ b))
      with (x ++ "/" ++ Js.join "/" ((y :: a) ++ b)).
    rewrite IH by (discriminate || exact Hb).
    cbn [Js.join]. rewrite !sapp_assoc. reflexivity.
Qed.

(** Clean segments are kept as they are; empty ones are dropped. *)
Lemma fold_segments_clean (above : bool) (segs : list string) :
  Forall (fun seg => String.eqb seg "" = true \/ cleanSegment seg = true) segs ->
  forall kept,
    Path.fold_segments above segs kept
    = (rev kept ++ filter (fun seg => negb (String.eqb seg "")) segs)%list.
Proof.
  induction 1 as [| seg segs Hseg _ IH]; intros kept; cbn [Path.fold_segments filter].
  - rewrite app_nil_r. reflexivity.
  - destruct Hseg as [E | C].
    + rewrite E. cbn [orb negb]. apply IH.
    + unfold cleanSegment in C.
      apply andb_true_iff in C. destruct C as [C _].
      apply andb_true_iff in C. destruct C as [C C3].
      apply andb_true_iff in C. destruct C as [C1 C2].
      apply negb_true_iff in C1, C2, C3. rewrite C1, C2, C3. cbn [orb negb].
      rewrite IH. cbn [rev]. rewrite <- app_assoc. reflexivity.
Qed.

Lemma filter_clean (segs : list string) :
  Forall (fun seg => cleanSegment seg = true) segs ->
  filter (fun seg => negb (String.eqb seg "")) segs = segs.
Proof.
  induction 1 as [| seg segs C _ IH]; [reflexivity |].
  cbn [filter]. unfold cleanSegment in C.
  apply andb_true_iff in C. destruct C as [C _].
  apply andb_true_iff in C. destruct C as [C _].
  apply andb_true_iff in C. destruct C as [C1 _].
  rewrite C1, IH. reflexivity.
Qed.

Lemma clean_no_slash (segs : list string) :
  Forall (fun seg => cleanSegment seg = true) segs ->
  Forall (fun seg => occurs "/"%char seg = false) segs.
Proof.
  intros H. eapply Forall_impl; [| exact H]. intros seg C.
  unfold cleanSegment in C. apply andb_true_iff in C. destruct C as [_ C].
  apply negb_true_iff in C. exact C.
Qed.

(** Normalizing a path written with clean and empty segments keeps the
    clean ones. *)
Lemma normalize_segments (above : bool) (segs : list string) :
  segs <> [] ->
  Forall (fun seg => String.eqb seg "" = true \/ cleanSegment seg = true) segs ->
  Path.normalizeString (Js.join "/" segs) above
  = Js.join "/" (filter (fun seg => negb (String.eqb seg "")) segs).
Proof.
  intros Hne H. unfold Path.normalizeString. rewrite split_join.
  - rewrite fold_segments_clean by exact H. reflexivity.
  - exact Hne.
  - eapply Forall_impl; [| exact H]. intros seg [E | C].
    + apply String.eqb_eq in E. subst seg. reflexivity.
    + unfold cleanSegment in C. apply andb_true_iff in C. destruct C as [_ C].
      apply negb_true_iff in C. exact C.
Qed.

Lemma clean_or_empty (segs : list string) :
  Forall (fun seg => cleanSegment seg = true) segs ->
  Forall (fun seg => String.eqb seg "" = true \/ cleanSegment seg = true) segs.
Proof.
  intros H. eapply Forall_impl; [| exact H]. intros seg C. right. exact C.
Qed.

(** What [resolve] hands to the normalization for an absolute base and a
    relative name, and what comes out. *)
Lemma normalize_under_base (baseSegs nameSegs : list string) :
  Forall (fun seg => cleanSegment seg = true) baseSegs ->
  Forall (fun seg => cleanSegment seg = true) nameSegs ->
  Path.normalizeString
    (("/" ++ Js.join "/" baseSegs) ++ "/" ++ Js.join "/" nameSegs ++ "/" ++ "")
    false
  = Js.join "/" (baseSegs ++ nameSegs).
Proof.
  intros Hb Hn.
  set (pad := fun l : list string => match l with [] => [""] | _ => l end).
  assert (Hpad : forall l, Js.join "/" (pad l) = Js.join "/" l)
    by (intros [| x l]; reflexivity).
  assert (Hpadne : forall l, pad l <> []) by (intros [| x l]; discriminate).
  assert (E : ("/" ++ Js.join "/" baseSegs) ++ "/" ++ Js.join "/" nameSegs ++ "/" ++ ""
              = Js.join "/" ("" :: pad baseSegs ++ pad nameSegs ++ [""])).
  { rewrite join_cons.
    - rewrite join_app; [| apply Hpadne |].
      + rewrite join_app; [| apply Hpadne | discriminate].
        rewrite !Hpad. cbn [Js.join]. rewrite !sapp_assoc. reflexivity.
      + intros H. apply app_eq_nil in H. destruct H as [_ H]. discriminate.
    - intros H. apply app_eq_nil in H. destruct H as [H _].
      exact (Hpadne _ H). }
  assert (Hfilter : forall l,
            Forall (fun seg => cleanSegment seg = true) l ->
            filter (fun seg => negb (String.eqb seg "")) (pad l) = l).
  { intros [| x l] H; [reflexivity |]. apply filter_clean. exact H. }
  assert (Hok : forall l,
            Forall (fun seg => cleanSegment seg = true) l ->
            Forall (fun seg => String.eqb seg "" = true \/ cleanSegment seg = true)
                   (pad l)).
  { intros [| x l] H; [constructor; [left; reflexivity | constructor] |].
    apply clean_or_empty. exact H. }
  rewrite E, normalize_segments.
  - cbn [filter String.eqb negb]. rewrite !filter_app.
    rewrite !Hfilter by assumption. cbn [filter String.eqb negb].
    rewrite app_nil_r. reflexivity.
  - discriminate.
  - constructor; [left; reflexivity |]. apply Forall_app. split; [apply Hok; exact Hb |].
    apply Forall_app. split; [apply Hok; exact Hn |].
    constructor; [left; reflexivity | constructor].
Qed.

Lemma normalize_base (baseSegs : list string) :
  Forall (fun seg => cleanSegment seg = true) baseSegs ->
  Path.normalizeString (("/" ++ Js.join "/" baseSegs) ++ "/" ++ "") false
  = Js.join "/" baseSegs.
Proof.
  intros Hb.
  set (pad := fun l : list string => match l with [] => [""] | _ => l end).
  assert (E : ("/" ++ Js.join "/" baseSegs) ++ "/" ++ ""
              = Js.join "/" ("" :: pad baseSegs ++ [""])).
  { rewrite join_cons.
    - rewrite join_app; [| destruct baseSegs; discriminate | discriminate].
      assert (Hpad : Js.join "/" (pad baseSegs) = Js.join "/" baseSegs)
        by (destruct baseSegs; reflexivity).
      rewrite Hpad. cbn [Js.join]. rewrite !sapp_assoc. reflexivity.
    - intros H. apply app_eq_nil in H. destruct H as [_ H]. discriminate. }
  rewrite E, normalize_segments.
  - cbn [filter String.eqb negb]. rewrite filter_app.
    cbn [filter String.eqb negb]. rewrite app_nil_r.
    destruct baseSegs as [| b bs]; [reflexivity |].
    change (pad (b :: bs)) with (b :: bs). rewrite filter_clean by exact Hb.
    reflexivity.
  - discriminate.
  - constructor; [left; reflexivity |]. apply Forall_app. split.
    + destruct baseSegs; [constructor; [left; reflexivity | constructor] |].
      apply clean_or_empty. exact Hb.
    + constructor; [left; reflexivity | constructor].
Qed.

(** Clean segments at the front are kept; the rest is folded after them. *)
Lemma fold_segments_app (above : bool) (segs rest : list string) :
  Forall (fun seg => String.eqb seg "" = true \/ cleanSegment seg = true) segs ->
  forall kept,
    Path.fold_segments above (segs ++ rest) kept
    = Path.fold_segments above rest
        (rev (filter (fun seg => negb (String.eqb seg "")) segs) ++ kept)%list.
Proof.
  induction 1 as [| seg segs Hseg _ IH]; intros kept;
    cbn [app Path.fold_segments filter rev]; [reflexivity |].
  destruct Hseg as [E | C].
  - rewrite E. cbn [orb negb]. apply IH.
  - unfold cleanSegment in C.
    apply andb_true_iff in C. destruct C as [C _].
    apply andb_true_iff in C. destruct C as [C C3].
    apply andb_true_iff in C. destruct C as [C1 C2].
    apply negb_true_iff in C1, C2, C3. rewrite C1, C2, C3. cbn [orb negb rev].
    rewrite IH, <- app_assoc. reflexivity.
Qed.

(** Stepping out of the base and into a sibling: the last segment of the
    base is dropped and the sibling's segments follow. *)
Lemma normalize_sibling (parent more : list string) (last sibling : string) :
  Forall (fun seg => cleanSegment seg = true) parent ->
  cleanSegment last = true ->
  Forall (fun seg => cleanSegment seg = true) (sibling :: more) ->
  Path.normalizeString
    (("/" ++ Js.join "/" (parent ++ [last])) ++ "/"
     ++ Js.join "/" (".." :: sibling :: more) ++ "/" ++ "")
    false
  = Js.join "/" (parent ++ sibling :: more).
Proof.
  intros Hp Hl Hs.
  assert (Hlast : occurs "/"%char last = false /\ String.eqb last ".." = false).
  { unfold cleanSegment in Hl.
    apply andb_true_iff in Hl. destruct Hl as [Hl H4].
    apply andb_true_iff in Hl. destruct Hl as [_ H3].
    apply negb_true_iff in H3, H4. split; assumption. }
  destruct Hlast as (Hslash & Hdots).
  assert (E : ("/" ++ Js.join "/" (parent ++ [last])) ++ "/"
              ++ Js.join "/" (".." :: sibling :: more) ++ "/" ++ ""
              = Js.join "/" (("" :: parent ++ [last])
                             ++ ".." :: (sibling :: more) ++ [""])).
  { change (("" :: parent ++ [last]) ++ ".." :: (sibling :: more) ++ [""])%list
      with ("" :: ((parent ++ [last]) ++ (".." :: sibling :: more) ++ [""]))%list.
    rewrite (join_cons "" ((parent ++ [last]) ++ (".." :: sibling :: more) ++ [""])).
    - rewrite (join_app (parent ++ [last]) ((".." :: sibling :: more) ++ [""])).
      + rewrite (join_app (".." :: sibling :: more) [""]) by discriminate.
        change (Js.join "/" [""]) with "". rewrite !sapp_assoc. reflexivity.
      + intros H. apply app_eq_nil in H. destruct H as [_ H]. discriminate.
      + discriminate.
    - intros H. apply app_eq_nil in H. destruct H as [H _].
      apply app_eq_nil in H. destruct H as [_ H]. discriminate. }
  rewrite E. unfold Path.normalizeString. rewrite split_join.
  - set (rest := ((sibling :: more) ++ [""])%list).
    rewrite fold_segments_app.
    + assert (Ff : filter (fun seg => negb (String.eqb seg ""))
                     ("" :: parent ++ [last]) = (parent ++ [last])%list).
      { cbn [filter String.eqb negb]. apply filter_clean.
        apply Forall_app. split; [exact Hp | constructor; [exact Hl | constructor]]. }
      rewrite Ff, rev_app_distr, app_nil_r. cbn [rev app Path.fold_segments].
      cbn [String.eqb Ascii.eqb Bool.eqb orb andb]. rewrite Hdots.
      subst rest. rewrite fold_segments_clean.
      * rewrite rev_involutive, filter_app, (filter_clean _ Hs).
        cbn [filter String.eqb negb]. rewrite app_nil_r. reflexivity.
      * apply Forall_app. split; [apply clean_or_empty; exact Hs |].
        constructor; [left; reflexivity | constructor].
    + constructor; [left; reflexivity |]. apply Forall_app. split.
      * apply clean_or_empty. exact Hp.
      * constructor; [right; exact Hl | constructor].
  - discriminate.
  - apply Forall_app. split.
    + constructor; [reflexivity |]. apply Forall_app. split.
      * apply clean_no_slash. exact Hp.
      * constructor; [exact Hslash | constructor].
    + constructor; [reflexivity |]. apply Forall_app. split.
      * apply clean_no_slash. exact Hs.
      * constructor; [reflexivity | constructor].
Qed.

(** The joined path of a sibling whose name extends [last] begins with the
    joined path of the base. *)
Lemma join_sibling_prefix (parent more : list string) (last suffix : string) :
  exists tail,
    Js.join "/" (parent ++ (last ++ suffix) :: more)
    = Js.join "/" (parent ++ [last]) ++ tail.
Proof.
  assert (Hs : exists tail, Js.join "/" ((last ++ suffix) :: more) = last ++ tail).
  { destruct more as [| x more].
    - exists suffix. reflexivity.
    - exists (suffix ++ "/" ++ Js.join "/" (x :: more)).
      change (Js.join "/" ((last ++ suffix) :: x :: more))
        with ((last ++ suffix) ++ "/" ++ Js.join "/" (x :: more)).
      rewrite sapp_assoc. reflexivity. }
  destruct Hs as (tail & Hs). exists tail.
  destruct parent as [| p parent].
  - cbn [app]. rewrite Hs. reflexivity.
  - rewrite !join_app by discriminate. rewrite Hs. cbn [Js.join].
    rewrite !sapp_assoc. reflexivity.
Qed.

End PathFacts.

Section CleanNames.

Variable env : Env.

(** X26.  [validatePath] accepts every clean name: for a base directory
    given as an absolute path of clean segments and a requested path made of
    clean segments (no [..], no [.], no empty segment), the answer is the
    base with the requested segments appended, whatever the process's own
    directory is. *)
Theorem validatePath_accepts_clean_names (baseSegs nameSegs : list string) :
  Forall (fun seg => cleanSegment seg = true) baseSegs ->
  Forall (fun seg => cleanSegment seg = true) nameSegs ->
  nameSegs <> [] ->
  validatePath env ("/" ++ Js.join "/" baseSegs) (Js.join "/" nameSegs)
  = Ok ("/" ++ Js.join "/" (baseSegs ++ nameSegs)).
Proof.
  intros Hb Hn Hne.
  assert (Hname : exists c t, Js.join "/" nameSegs = String c t
                              /\ Ascii.eqb "/"%char c = false).
  { destruct nameSegs as [| x more]; [contradiction |].
    inversion Hn as [| ? ? Cx _]; subst.
    unfold cleanSegment in Cx.
    apply andb_true_iff in Cx. destruct Cx as [Cx Cs].
    apply andb_true_iff in Cx. destruct Cx as [Cx _].
    apply andb_true_iff in Cx. destruct Cx as [Cx _].
    destruct x as [| c x]; [discriminate |].
    apply negb_true_iff in Cs. cbn [occurs] in Cs.
    apply orb_false_elim in Cs as [Cs _].
    exists c. destruct more; eexists; (split; [reflexivity |]);
      rewrite Ascii.eqb_sym; exact Cs. }
  destruct Hname as (c & t & En & Ec).
  assert (Hroot : forall x, Js.startsWith ("/" ++ x) "/" = true).
  { intros x. cbn [append Js.startsWith Ascii.eqb Bool.eqb andb].
    destruct x; reflexivity. }
  assert (Hbase : String.eqb ("/" ++ Js.join "/" baseSegs) "" = false)
    by reflexivity.
  assert (Rbase : Path.resolve (process_cwd env) ["/" ++ Js.join "/" baseSegs]
                  = "/" ++ Js.join "/" baseSegs).
  { unfold Path.resolve. cbn [rev app Path.resolve_args].
    rewrite Hbase. unfold Path.isAbsolute. rewrite Hroot. cbn [negb].
    rewrite PathFacts.normalize_base by exact Hb. reflexivity. }
  assert (Rname : Path.resolve (process_cwd env)
                    ["/" ++ Js.join "/" baseSegs; Js.join "/" nameSegs]
                  = "/" ++ Js.join "/" (baseSegs ++ nameSegs)).
  { unfold Path.resolve. cbn [rev app Path.resolve_args].
    assert (Hn0 : String.eqb (Js.join "/" nameSegs) "" = false)
      by (rewrite En; reflexivity).
    assert (Hrel : Path.isAbsolute (Js.join "/" nameSegs) = false).
    { rewrite En. unfold Path.isAbsolute. cbn [Js.startsWith]. rewrite Ec.
      reflexivity. }
    rewrite Hn0, Hrel, Hbase. unfold Path.isAbsolute at 1. rewrite Hroot.
    cbn [negb].
    rewrite PathFacts.normalize_under_base by assumption. reflexivity. }
  unfold validatePath. rewrite Rname, Rbase.
  assert (Hstart : Js.startsWith
                     (Js.toLowerCase ("/" ++ Js.join "/" (baseSegs ++ nameSegs)))
                     (Js.toLowerCase ("/" ++ Js.join "/" baseSegs)) = true).
  { destruct baseSegs as [| b bs].
    - cbn [app Js.join append Js.toLowerCase Js.startsWith].
      rewrite Ascii.eqb_refl. cbn [andb].
      destruct (Js.toLowerCase (Js.join "/" nameSegs)); reflexivity.
    - rewrite PathFacts.join_app by (discriminate || exact Hne).
      rewrite <- sapp_assoc, toLowerCase_app. apply startsWith_app. }
  rewrite Hstart. reflexivity.
Qed.

(** X27.  The containment test of [validatePath] compares texts, not path
    segments: a requested path that steps out of the base directory into a
    sibling whose name begins with the name of the base (the workspace's name
    plus any suffix) is accepted, and the path returned lies in that sibling,
    outside the base. *)
Theorem validatePath_accepts_sibling_with_same_prefix
        (parent more : list string) (last suffix : string) :
  Forall (fun seg => cleanSegment seg = true) parent ->
  cleanSegment last = true ->
  Forall (fun seg => cleanSegment seg = true) ((last ++ suffix) :: more) ->
  validatePath env ("/" ++ Js.join "/" (parent ++ [last]))
    (Js.join "/" (".." :: (last ++ suffix) :: more))
  = Ok ("/" ++ Js.join "/" (parent ++ (last ++ suffix) :: more)).
Proof.
  intros Hp Hl Hs.
  assert (Hroot : forall x, Js.startsWith ("/" ++ x) "/" = true).
  { intros x. cbn [append Js.startsWith Ascii.eqb Bool.eqb andb].
    destruct x; reflexivity. }
  assert (Hb : Forall (fun seg => cleanSegment seg = true) (parent ++ [last])).
  { apply Forall_app. split; [exact Hp | constructor; [exact Hl | constructor]]. }
  assert (Hbase : String.eqb ("/" ++ Js.join "/" (parent ++ [last])) "" = false)
    by reflexivity.
  assert (Rbase : Path.resolve (process_cwd env)
                    ["/" ++ Js.join "/" (parent ++ [last])]
                  = "/" ++ Js.join "/" (parent ++ [last])).
  { unfold Path.resolve. cbn [rev app Path.resolve_args].
    rewrite Hbase. unfold Path.isAbsolute. rewrite Hroot. cbn [negb].
    rewrite PathFacts.normalize_base by exact Hb. reflexivity. }
  assert (Rname : Path.resolve (process_cwd env)
                    ["/" ++ Js.join "/" (parent ++ [last]);
                     Js.join "/" (".." :: (last ++ suffix) :: more)]
                  = "/" ++ Js.join "/" (parent ++ (last ++ suffix) :: more)).
  { unfold Path.resolve. cbn [rev app Path.resolve_args].
    assert (Hn0 : String.eqb (Js.join "/" (".." :: (last ++ suffix) :: more)) ""
                  = false) by reflexivity.
    assert (Hrel : Path.isAbsolute (Js.join "/" (".." :: (last ++ suffix) :: more))
                   = false) by reflexivity.
    rewrite Hn0, Hrel, Hbase. unfold Path.isAbsolute at 1. rewrite Hroot.
    cbn [negb].
    rewrite PathFacts.normalize_sibling by assumption. reflexivity. }
  unfold validatePath. rewrite Rname, Rbase.
  destruct (PathFacts.join_sibling_prefix parent more last suffix) as (tail & Et).
  rewrite Et, <- sapp_assoc, toLowerCase_app, startsWith_app. reflexivity.
Qed.

End CleanNames.


(* ================================================================== *)
(** ** No name is saved twice *)
(* ================================================================== *)

Section Deduplication.

Variable env : Env.
Variable currentWorkingDirectory : string.

Local Abbreviation step := (singleStep env currentWorkingDirectory).

Lemma singleStep_distinct (m0 : mem) (b : block) (s : mem) :
  distinctSince m0 s -> distinctSince m0 (step b s).
Proof.
  intros (added & F & D & P). unfold singleStep.
  destruct ((50 <? String.length (Js.trim (code b)))%nat
            && negb (String.eqb (inferFileName (finalContent s) b) "")
            && negb (has (processedFiles s) (inferFileName (finalContent s) b)))
    eqn:G; [| exists added; auto].
  apply andb_true_iff in G. destruct G as [_ G]. apply negb_true_iff in G.
  destruct (mkdir env (trace s) _); [| exists added; auto].
  destruct (writeFile env _ _ (code b)); [| exists added; auto].
  set (name := inferFileName (finalContent s) b) in *.
  exists (added ++ [name])%list. unfold savedState.
  cbn [filesModified processedFiles]. rewrite F, app_assoc.
  split; [reflexivity |]. split.
  - apply NoDup_app; [exact D | constructor; [intros [] | constructor] |].
    intros x Hx [<- | []]. rewrite (P _ Hx) in G. discriminate.
  - intros x Hx. rewrite has_app. apply in_app_or in Hx.
    destruct Hx as [Hx | [<- | []]].
    + rewrite (P _ Hx). reflexivity.
    + rewrite String.eqb_refl. apply orb_true_r.
Qed.

Lemma steps_distinct (m0 : mem) (bs : list block) :
  forall s, distinctSince m0 s ->
            distinctSince m0 (fold_left (fun m b => step b m) bs s).
Proof.
  induction bs as [| b bs IH]; intros s H; simpl; [exact H |].
  apply IH. apply singleStep_distinct. exact H.
Qed.

(** X28.  The auto-save pass never saves two blocks under the same name:
    when no block of the final text is a JSON batch, the names the pass adds
    to the list of modified files are pairwise distinct, however many blocks
    resolve to the same name and whatever the disk does. *)
Theorem auto_save_records_each_name_once (autoSave allowFileSystem : bool)
        (m : mem) :
  (forall b, In b (blocks (finalContent m)) -> isBatch b = false) ->
  exists added,
    filesModified (snd (autoSavePass env allowFileSystem
                          currentWorkingDirectory autoSave m))
    = (filesModified m ++ added)%list
    /\ NoDup added.
Proof.
  intros Hplain. unfold autoSavePass, bind at 1, read.
  destruct (autoSave && allowFileSystem
            && negb (String.eqb (finalContent m) ""));
    [| exists []; rewrite app_nil_r; split; [reflexivity | constructor]].
  unfold bind at 1, update.
  rewrite forEach_steps.
  - cbn [snd].
    destruct (steps_distinct (set_processedFiles (fun _ => []) m)
                (rev (blocks (finalContent m)))
                (set_processedFiles (fun _ => []) m)) as (added & F & D & _).
    + exists []. rewrite app_nil_r. repeat split; [constructor | intros x []].
    + exists added. split; [exact F | exact D].
  - apply Forall_forall. intros b Hb. apply Hplain. apply in_rev. exact Hb.
Qed.

End Deduplication.


(* ================================================================== *)
(** ** A JSON batch with an entry outside the workspace *)
(* ================================================================== *)

Section RejectedEntry.

Variable env : Env.
Variable currentWorkingDirectory : string.
Hypothesis mkdir_ok : forall t p, mkdir env t p = Ok tt.
Hypothesis writeFile_ok : forall t p d, writeFile env t p d = Ok tt.

Lemma extract_batch_app (a b : list Json.json) :
  forall n m,
    extract_batch env currentWorkingDirectory (a ++ b) n m
    = match extract_batch env currentWorkingDirectory a n m with
      | (Ok k, m1) => extract_batch env currentWorkingDirectory b k m1
      | (Threw e, m1) => (Threw e, m1)
      end.
Proof.
  induction a as [| x a IH]; intros n m; [reflexivity |].
  cbn [app extract_batch]. unfold bind.
  destruct (extract_batch_item env currentWorkingDirectory x m) as [[k | e] m1];
    [apply IH | reflexivity].
Qed.

Lemma extract_batch_item_rejected (bad : Json.json) (name data e : string)
      (m : mem) :
  batchName bad = Some (Json.JStr name) -> name <> "" ->
  batchData bad = Some (Json.JStr data) -> data <> "" ->
  validatePath env currentWorkingDirectory name = Threw e ->
  extract_batch_item env currentWorkingDirectory bad m = (Threw e, m).
Proof.
  intros Hn Hne Hd Hde Hv.
  assert (Hitem : bad <> Json.JNull) by (intros ->; discriminate Hn).
  apply String.eqb_neq in Hne, Hde.
  unfold batchName in Hn. unfold batchData in Hd.
  unfold extract_batch_item. rewrite !(member_ret _ _ Hitem), !bind_ret_l.
  rewrite Hn, Hd, Hne, Hde. cbn [negb andb].
  unfold bind at 1, validatePath_any. rewrite Hv. reflexivity.
Qed.

(** X29.  The JSON unpacking stops at the first entry that
    [validatePath] rejects, and this is not undone: the entries before it
    stay written and recorded, the entries after it are never looked at, no
    note replaces the block, and the block goes on to the single-file path
    as if it had not been a batch. *)
Theorem json_batch_stops_at_rejected_entry (b : block)
        (good rest : list Json.json) (bad : Json.json) (entries : list entry)
        (name data e : string) (m : mem) :
  lang b = "json" ->
  Json.parse (code b) = Some (Json.JArr (good ++ bad :: rest)) ->
  Forall2 (entryOf env currentWorkingDirectory) good entries ->
  batchName bad = Some (Json.JStr name) -> name <> "" ->
  batchData bad = Some (Json.JStr data) -> data <> "" ->
  validatePath env currentWorkingDirectory name = Threw e ->
  exists m1,
    processBlock env currentWorkingDirectory b m
    = saveSingle env currentWorkingDirectory b m1
    /\ filesModified m1 = (filesModified m ++ map entryName entries)%list
    /\ writesOf (trace m1)
       = (writesOf (trace m)
          ++ map (fun x => (entryPath x, entryData x)) entries)%list
    /\ finalContent m1 = finalContent m.
Proof.
  intros Hl Hp Hgood Hn Hne Hd Hde Hv.
  destruct (extract_batch_saves env currentWorkingDirectory mkdir_ok
              writeFile_ok good entries Hgood 0 m) as (m1 & E & F & W & T & _).
  exists m1. split; [| repeat split; assumption].
  unfold processBlock. rewrite Hl.
  change (String.eqb "json" "json") with true. cbv iota.
  unfold bind at 1, unpackJson, try_catch. rewrite Hp.
  unfold bind at 1. rewrite extract_batch_app, E.
  cbn [extract_batch]. unfold bind at 1.
  rewrite (extract_batch_item_rejected bad name data e m1 Hn Hne Hd Hde Hv).
  reflexivity.
Qed.

End RejectedEntry.


(* ================================================================== *)
(** ** Hiding the code blocks of the response *)
(* ================================================================== *)

Module HideFacts.

Import Regex.

Lemma exec_fence {A} (c : cursor) (g : captures)
      (k : cursor -> captures -> option A) :
  exec fence c g k
  = match fenced (rest c) with
    | Some v => k (Cur (3 + pos c) v) g
    | None => None
    end.
Proof.
  destruct c as [i s]. unfold fence, fenced, tick.
  destruct s as [| a [| b [| d v]]]; cbn [lit exec rest pos];
    try reflexivity.
  - destruct (just "`" a); reflexivity.
  - destruct (just "`" a); [| reflexivity]. cbn [exec rest pos].
    destruct (just "`" b); reflexivity.
  - destruct (just "`" a); [| reflexivity]. cbn [exec rest pos].
    destruct (just "`" b); [| reflexivity]. cbn [exec rest pos andb].
    destruct (just "`" d); reflexivity.
Qed.

Section Closing.

Context {A : Type}.
Variable after : A -> string.
Variable k : cursor -> captures -> option A.
Hypothesis k_after : forall c g, option_map after (k c g) = Some (rest c).

Lemma iterate_closing (u : string) :
  forall n j g,
    String.length u <= n ->
    option_map after
      (iterate (exec (Chr any)) false
         (fun c' g' => exec fence c' g' k) n (Cur j u) g)
    = closing u.
Proof.
  induction u as [| x t IH]; intros n j g Hn.
  - destruct n; reflexivity.
  - destruct n as [| n]; [simpl in Hn; lia |].
    cbn [iterate]. rewrite exec_fence. cbn [rest pos closing].
    destruct (fenced (String x t)) as [v |] eqn:F.
    + specialize (k_after (Cur (3 + j) v) g).
      destruct (k (Cur (3 + j) v) g); [exact k_after | discriminate].
    + cbn [orElse exec rest pos any].
      replace (String.length t <? String.length (String x t))%nat with true
        by (symmetry; apply Nat.ltb_lt; simpl; lia).
      apply IH. simpl in Hn. lia.
Qed.

End Closing.

Lemma match_at_block (i : nat) (s : string) :
  option_map (fun m => rest (stop m)) (match_at anyBlockRegex (Cur i s))
  = blockAt s.
Proof.
  unfold match_at, anyBlockRegex, blockAt. cbn [seq exec lazy_star].
  rewrite exec_fence. cbn [rest pos].
  destruct (fenced s) as [u |]; [| reflexivity].
  apply iterate_closing; [reflexivity | apply Nat.le_refl].
Qed.

Lemma search_from_noBlock (s : string) :
  forall i,
    noBlock s
    = match search_from anyBlockRegex i s with
      | Some _ => false
      | None => true
      end.
Proof.
  induction s as [| x t IH]; intros i; cbn [noBlock search_from];
    rewrite <- (match_at_block i);
    destruct (match_at anyBlockRegex (Cur i _)); try reflexivity.
  apply IH.
Qed.

Lemma fenced_shorter (s v : string) :
  fenced s = Some v -> String.length v < String.length s.
Proof.
  destruct s as [| a [| b [| d w]]]; try discriminate. cbn [fenced].
  destruct (tick a && tick b && tick d); [| discriminate].
  intros [= ->]. simpl. lia.
Qed.

Lemma closing_shorter (u v : string) :
  closing u = Some v -> String.length v < String.length u.
Proof.
  induction u as [| x t IH]; [discriminate |]. cbn [closing].
  destruct (fenced (String x t)) as [w |] eqn:F.
  - intros [= ->]. exact (fenced_shorter _ _ F).
  - intros H. apply IH in H. simpl. lia.
Qed.

Lemma blockAt_shorter (s v : string) :
  blockAt s = Some v -> String.length v < String.length s.
Proof.
  unfold blockAt. destruct (fenced s) as [u |] eqn:F; [| discriminate].
  intros H. apply closing_shorter in H. apply fenced_shorter in F. lia.
Qed.

Lemma closing_finds (a x w : string) :
  fenced x = Some w -> closing (a ++ x) <> None.
Proof.
  intros F. induction a as [| c a IH].
  - change ("" ++ x) with x. destruct x; cbn [closing]; rewrite F; discriminate.
  - change (String c a ++ x) with (String c (a ++ x)). cbn [closing].
    destruct (fenced (String c (a ++ x))); [discriminate | exact IH].
Qed.

Lemma blockAt_plain (c : ascii) (s : string) :
  tick c = false -> blockAt (String c s) = None.
Proof.
  intros H. unfold blockAt, fenced.
  destruct s as [| b [| d v]]; try reflexivity. rewrite H. reflexivity.
Qed.

Lemma noBlock_plain (n r : string) :
  plain n = true -> noBlock r = true -> noBlock (n ++ r) = true.
Proof.
  intros Hn Hr. induction n as [| c n IH]; [exact Hr |].
  cbn [plain] in Hn. apply andb_true_iff in Hn. destruct Hn as [Hc Hn].
  apply negb_true_iff in Hc.
  change (String c n ++ r) with (String c (n ++ r)). cbn [noBlock].
  rewrite (blockAt_plain _ _ Hc). exact (IH Hn).
Qed.

(** The text before the leftmost block holds no fence that the note could
    close or that could open a block with what follows the note. *)
Lemma noBlock_before (x w n r : string) (c0 : ascii) :
  fenced x = Some w ->
  tick c0 = false ->
  noBlock (String c0 n ++ r) = true ->
  forall p,
    (forall p1 p2, p = p1 ++ p2 -> p2 <> "" -> blockAt (p2 ++ x) = None) ->
    noBlock (p ++ String c0 n ++ r) = true.
Proof.
  intros F Hc0 Hr. induction p as [| c p IH]; intros Hp; [exact Hr |].
  change (String c p ++ String c0 n ++ r)
    with (String c (p ++ String c0 n ++ r)).
  cbn [noBlock].
  assert (E : blockAt (String c (p ++ String c0 n ++ r)) = None).
  { destruct p as [| b [| d p]].
    - change ("" ++ String c0 n ++ r) with (String c0 (n ++ r)).
      unfold blockAt, fenced.
      destruct (n ++ r); [reflexivity |]. rewrite Hc0, andb_false_r.
      reflexivity.
    - change (String b "" ++ String c0 n ++ r)
        with (String b (String c0 (n ++ r))).
      unfold blockAt, fenced.
      rewrite Hc0, andb_false_r. reflexivity.
    - change (String b (String d p) ++ String c0 n ++ r)
        with (String b (String d (p ++ String c0 n ++ r))).
      unfold blockAt, fenced.
      destruct (tick c && tick b && tick d) eqn:T; [| reflexivity].
      exfalso.
      assert (H := Hp "" (String c (String b (String d p))) eq_refl
                     ltac:(discriminate)).
      change (String c (String b (String d p)) ++ x)
        with (String c (String b (String d (p ++ x)))) in H.
      unfold blockAt, fenced in H. rewrite T in H.
      exact (closing_finds p x w F H). }
  rewrite E. apply IH. intros p1 p2 -> Hne.
  exact (Hp (String c p1) p2 eq_refl Hne).
Qed.

Lemma length_sapp (a b : string) :
  String.length (a ++ b) = String.length a + String.length b.
Proof. induction a as [| c a IH]; simpl; [reflexivity | rewrite IH; reflexivity]. Qed.

Lemma take_app_length (p x : string) :
  Js.take (String.length p) (p ++ x) = p.
Proof.
  induction p as [| c p IH]; [destruct x; reflexivity |].
  simpl. f_equal. exact IH.
Qed.

(** The leftmost match: where it starts, what is left after it, and that
    no block starts before it. *)
Lemma search_from_leftmost (s : string) :
  forall i m,
    search_from anyBlockRegex i s = Some m ->
    exists p x,
      s = p ++ x /\ index m = i + String.length p
      /\ blockAt x = Some (rest (stop m))
      /\ pos (stop m) <> index m
      /\ forall p1 p2, p = p1 ++ p2 -> p2 <> "" -> blockAt (p2 ++ x) = None.
Proof.
  assert (Here : forall i s m,
             match_at anyBlockRegex (Cur i s) = Some m ->
             index m = i + 0 /\ blockAt s = Some (rest (stop m))
             /\ pos (stop m) <> index m).
  { intros i s0 m E. assert (B := match_at_block i s0). rewrite E in B.
    cbn [option_map] in B. symmetry in B.
    destruct (MatchFacts.match_at_span _ _ _ E) as (n & _ & Hi & _ & Hp & Hr).
    cbn [pos rest] in Hi, Hp, Hr. repeat split; [lia | exact B |].
    apply blockAt_shorter in B. rewrite Hr, drop_length in B. lia. }
  induction s as [| y t IH]; intros i m H; cbn [search_from] in H.
  - destruct (match_at anyBlockRegex (Cur i "")) as [f |] eqn:E;
      [| discriminate].
    injection H as ->. destruct (Here _ _ _ E) as (Hi & B & Hp).
    exists "", "". repeat split; try assumption.
    intros [| ] p2 Hs Hne; [| discriminate].
    change ("" ++ p2) with p2 in Hs. congruence.
  - destruct (match_at anyBlockRegex (Cur i (String y t))) as [f |] eqn:E.
    + injection H as ->. destruct (Here _ _ _ E) as (Hi & B & Hp).
      exists "", (String y t). repeat split; try assumption.
      intros [| ] p2 Hs Hne; [| discriminate].
      change ("" ++ p2) with p2 in Hs. congruence.
    + destruct (IH _ _ H) as (p & x & Hs & Hi & B & Hp & Hb).
      exists (String y p), x. subst t. repeat split; try assumption.
      * simpl. lia.
      * intros [| c p1] p2 Hs Hne.
        -- change ("" ++ p2) with p2 in Hs. subst p2.
           assert (M := match_at_block i (String y (p ++ x))).
           rewrite E in M. symmetry. exact M.
        -- injection Hs as _ Hs. exact (Hb p1 p2 Hs Hne).
Qed.

Lemma replaceAll_from_noBlock (n : string) (c0 : ascii) :
  tick c0 = false -> plain n = true ->
  forall fuel i s,
    String.length s < fuel ->
    noBlock (replaceAll_from fuel anyBlockRegex (String c0 n) i s) = true.
Proof.
  intros Hc0 Hn.
  induction fuel as [| fuel IH]; intros i s Hf; [lia |].
  cbn [replaceAll_from].
  destruct (search_from anyBlockRegex i s) as [m |] eqn:E.
  - destruct (search_from_leftmost _ _ _ E) as (p & x & -> & Hi & B & Hp & Hb).
    replace (pos (stop m) =? index m)%nat with false
      by (symmetry; apply Nat.eqb_neq; exact Hp).
    replace (index m - i) with (String.length p) by lia.
    rewrite take_app_length.
    assert (L := blockAt_shorter _ _ B).
    assert (F : exists w, fenced x = Some w).
    { unfold blockAt in B. destruct (fenced x) as [w |]; [eauto | discriminate]. }
    destruct F as [w F].
    apply (noBlock_before x w n _ c0 F Hc0); [| exact Hb].
    apply (noBlock_plain (String c0 n)).
    + cbn [plain]. rewrite Hc0. exact Hn.
    + apply IH. rewrite length_sapp in Hf. lia.
  - rewrite (search_from_noBlock s i), E. reflexivity.
Qed.

Lemma replaceAll_noBlock (text : string) :
  search anyBlockRegex (replaceAll anyBlockRegex hiddenNote text) = None.
Proof.
  assert (H : noBlock (replaceAll anyBlockRegex hiddenNote text) = true).
  { unfold replaceAll.
    apply (replaceAll_from_noBlock
             (Js.drop 1 hiddenNote) (ascii_of_nat 10));
      [reflexivity | reflexivity | lia]. }
  rewrite (search_from_noBlock _ 0) in H. unfold search.
  destruct (search_from anyBlockRegex 0 _); [discriminate | reflexivity].
Qed.

End HideFacts.

Section Hiding.

Variable env : Env.
Variables enableSecondary debugMode autoSave : bool.
Variables allowFileSystem allowWeb allowCode : bool.
Variable subAgentProfilesStr : string.
Variable currentWorkingDirectory : string.

(** X30.  With the full code output off, no fenced code block reaches the
    main agent: whatever the sub-agent and the reviewer answered and
    whatever was appended after them, a response that the tool returns is a
    text in which the pattern of the code blocks finds nothing, every
    block having been replaced by the note, which holds no backtick. *)
Theorem hidden_response_has_no_code_block (params : consultParams)
        (fuel : nat) (before after : list event) (response : option string)
        (files : list string) :
  consultSecondaryAgentTool env enableSecondary debugMode autoSave false
    allowFileSystem allowWeb allowCode subAgentProfilesStr
    currentWorkingDirectory fuel params before
  = Some (Ok (ConsultResponse response files), after) ->
  exists text,
    response = Some text /\ Regex.search anyBlockRegex text = None.
Proof.
  unfold consultSecondaryAgentTool, createSafeToolImplementation,
    consultSecondaryAgent.
  destruct (negb enableSecondary); [discriminate |].
  destruct (runAgentLoop _ _ _ _ _ _ _ _ _ _ _ _ _ _ _)
    as [[[primaryResult | e] m1] |]; try discriminate.
  destruct (truthyText (errorField primaryResult)); [discriminate |].
  cbv zeta.
  destruct (if debugMode && _ then _ else _) as [[[finalResponse | e] t2] |];
    try discriminate.
  destruct (listGenerated _ _ _ _ _ _) as [listed t3].
  unfold hideCode. cbn [negb].
  destruct listed as [text |]; [| discriminate].
  intros [= <- _ _]. eexists. split; [reflexivity |].
  apply HideFacts.replaceAll_noBlock.
Qed.

End Hiding.

(* ================================================================== *)
(** * Instances and counterexamples *)
(* ================================================================== *)

(** A run in its fourth turn, one file saved so far, meets a 500. *)
Lemma transport_error_ends_run_witness :
  let m := Mem [Msg "user" "Task: t"] 3%Z "" ["a.ts"] [] [] in
  runFrom (calm [ChatStatus 500]) true true true "/home/u/ws" true false 8%Z
          true "t" 1 m
  = Some (Ok (Error "API Error: 500" ["a.ts"]),
          Mem [Msg "user" "Task: t"] 3%Z "" ["a.ts"] []
              [EChat [Msg "user" "Task: t"] (ChatStatus 500)]).
Proof.
  intros m.
  apply (transport_error_ends_run (calm [ChatStatus 500]) true true true
           "/home/u/ws" true false 8%Z true "t" 0 m).
  - simpl. lia.
  - intros raw. simpl. discriminate.
Defined.

(** A reply that hedges and still emits a tool call. *)
Lemma refusal_takes_priority_witness :
  let raw := Js.q "As an AI I cannot do that. {'tool':'save_file','args':{'file_name':'a.ts','content':'x'}}" in
  let m := fresh [Msg "user" "Task: t"] in
  detectToolCall (Js.trim (cleanup raw)) <> None /\
  turn (calm [ChatOk raw]) true true true "/home/u/ws" true false 8%Z m
  = (Ok Continue,
     Mem [Msg "user" "Task: t"; Msg "assistant" (cleanup raw);
          Msg "system" refusalNotice]
         1%Z "" [] [] [EChat [Msg "user" "Task: t"] (ChatOk raw)]).
Proof.
  intros raw m. split.
  - vm_compute. discriminate.
  - apply (refusal_takes_priority (calm [ChatOk raw]) true true true
             "/home/u/ws" true false 8%Z m raw "as an ai").
    + reflexivity.
    + reflexivity.
    + simpl. tauto.
    + vm_compute. reflexivity.
Defined.

(** The primary invocation with tools off. *)
Lemma tools_disabled_single_call_witness :
  let raw := "Here is the answer.<|im_end|>" in
  exists m,
    runAgentLoop (calm [ChatOk raw]) true true true "/home/u/ws" false false
                 8%Z true "t" "general" "" "{}" 1 []
    = Some (Ok (Response "Here is the answer." []), m)
    /\ chatCalls (trace m) = 1 /\ writesOf (trace m) = [].
Proof.
  intros raw. eexists.
  exact (tools_disabled_single_call (calm [ChatOk raw]) true true true
           "/home/u/ws" 8%Z true "t" "general" "" "{}" 0 [] raw
           ltac:(lia) eq_refl).
Defined.

(** The canonical shape is not normalized: its args keep [path] and [data]
    and have no [file_name]. *)
Lemma canonical_shape_not_normalized : ~ normalizedSaveFile canonicalShape.
Proof.
  intros (tc & Hparse & _ & Hname & _).
  vm_compute in Hparse. inversion Hparse; subst tc.
  vm_compute in Hname. discriminate.
Qed.

(** A reply that calls a tool and announces completion in the same text:
    the call is dispatched and the loop goes on. *)
Lemma marker_with_tool_call_continues : ~ markerAlwaysEnds.
Proof.
  intros H.
  pose (raw := Js.q "{'tool':'list_directory','args':{}} TASK_COMPLETED").
  destruct (H (calm [ChatOk raw]) true true true "/home/u/ws" true false 8%Z
              (fresh [Msg "user" "Task: t"]) raw)
    as (m' & Hturn & _).
  - reflexivity.
  - simpl. lia.
  - reflexivity.
  - vm_compute. reflexivity.
  - vm_compute in Hturn. discriminate.
Qed.

(** The same with a refusal phrase next to the marker. *)
Lemma marker_with_refusal_continues :
  let raw := "As an AI I consider this done. TASK_COMPLETED" in
  Js.includes (cleanup raw) "TASK_COMPLETED" = true /\
  fst (turn (calm [ChatOk raw]) true true true "/home/u/ws" true false 8%Z
            (fresh [Msg "user" "Task: t"])) = Ok Continue.
Proof. split; vm_compute; reflexivity. Qed.

(** Two objects in one text: the span considered runs from the first
    opening brace to the last closing brace, it does not parse, and the
    well-formed call at the front is lost. *)
Lemma greedy_span_loses_first_call :
  let text := Js.q "{'tool':'list_directory','args':{}} and then {'x':1}" in
  ~ considersFirstSpan
  /\ jsonMatch text = Some text
  /\ firstWellFormedSpan text = Some (Js.q "{'tool':'list_directory','args':{}}")
  /\ parsesToCall (Js.q "{'tool':'list_directory','args':{}}") = true
  /\ detectToolCall text = None.
Proof.
  intros text. split; [| repeat split; vm_compute; reflexivity].
  intros H. specialize (H text). vm_compute in H. discriminate.
Qed.

Lemma completion_marker_ends_loop_witness :
  let raw := "All files are saved. TASK_COMPLETED<|im_end|>" in
  let m := fresh [Msg "user" "Task: t"] in
  agentLoop (calm [ChatOk raw]) true true true "/home/u/ws" true false 8%Z 1 m
  = Some (Break,
          Mem [Msg "user" "Task: t"] 0%Z "All files are saved. TASK_COMPLETED"
              [] [] [EChat [Msg "user" "Task: t"] (ChatOk raw)]).
Proof.
  intros raw m.
  apply (completion_marker_ends_loop (calm [ChatOk raw]) true true true
           "/home/u/ws" true false 8%Z 0 m raw);
    vm_compute; reflexivity.
Defined.

Lemma malformed_call_is_no_call_witness :
  let raw := Js.q "I will call {'tool': 'save_file', 'args': {oops}} now" in
  let m := fresh [Msg "user" "Task: t"] in
  parseToolCall (Js.trim (cleanup raw)) = None
  /\ turn (calm [ChatOk raw]) true true true "/home/u/ws" true false 8%Z m
     = (Ok Continue,
        Mem [Msg "user" "Task: t"; Msg "assistant" raw; Msg "system" noToolNotice]
            1%Z "" [] [] [EChat [Msg "user" "Task: t"] (ChatOk raw)]).
Proof.
  intros raw m.
  destruct (malformed_call_is_no_call (calm [ChatOk raw]) true true true
              "/home/u/ws" true false 8%Z m raw) as (_ & Hnull & Hturn).
  - reflexivity.
  - reflexivity.
  - vm_compute. reflexivity.
  - right. exists (Js.q "{'tool': 'save_file', 'args': {oops}}").
    split; vm_compute; reflexivity.
  - split; [exact Hnull |]. rewrite Hturn. vm_compute. reflexivity.
Defined.

Lemma unlabeled_shell_block_is_skipped_witness :
  let text := "Run this:" ++ Js.nl ++ "```bash" ++ Js.nl
              ++ "npm install && npm run build && npm test -- --watch=false --coverage"
              ++ Js.nl ++ "```" ++ Js.nl ++ "TASK_COMPLETED" in
  let m := Mem [] 1%Z text [] [] [] in
  exists b, blocks text = [b]
            /\ (50 <? String.length (Js.trim (code b)))%nat = true
            /\ processBlock (calm []) "/home/u/ws" b m = (Ok tt, m).
Proof.
  intros text m. eexists. split; [vm_compute; reflexivity |].
  split; [vm_compute; reflexivity |].
  apply (unlabeled_shell_block_is_skipped (calm []) "/home/u/ws");
    vm_compute; reflexivity.
Defined.

(** A loop of three turns in which the model only chats: nudged twice, then
    accepted on the third and last turn. *)
Lemma loop_bounded_by_turn_limit_witness :
  (exists r m',
     runAgentLoop (calm [ChatOk "hm"; ChatOk "hm hm"; ChatOk "still thinking"])
       true true true "/home/u/ws" true false 3%Z true "t" "general" "" "{}"
       3 [] = Some (Ok r, m')
     /\ chatCalls (trace m') <= 0 + 3)
  /\
  agentLoop (calm [ChatOk "still thinking"]) true true true "/home/u/ws" true
    false 3%Z 1 (Mem [Msg "user" "Task: t"] 2%Z "" [] [] [])
  = Some (Break,
          Mem [Msg "user" "Task: t"] 2%Z "still thinking" [] []
              [EChat [Msg "user" "Task: t"] (ChatOk "still thinking")]).
Proof.
  destruct (loop_bounded_by_turn_limit
              (calm [ChatOk "hm"; ChatOk "hm hm"; ChatOk "still thinking"])
              true true true "/home/u/ws" true false 3%Z true "t" "general" ""
              "{}" []) as (Hrun & _).
  destruct (loop_bounded_by_turn_limit (calm [ChatOk "still thinking"])
              true true true "/home/u/ws" true false 3%Z true "t" "general" ""
              "{}" []) as (_ & Hlast).
  split.
  - exact Hrun.
  - apply (Hlast 0 (Mem [Msg "user" "Task: t"] 2%Z "" [] [] []) "still thinking");
      vm_compute; reflexivity.
Defined.

Lemma last_block_is_authoritative_witness :
  let m := Mem [] 1%Z batchAsideThenTwo [] [] [] in
  let state done := walked (calm []) "/home/u/ws" done m in
  rev (blocks batchAsideThenTwo) = [asideLast; asideFirst; asideBatch]
  /\ batchNames asideBatch = ["b.ts"]
  /\ resolvesTo batchAsideThenTwo "a.ts" asideFirst = true
  /\ state [asideLast] = savedState "/home/u/ws" asideLast "a.ts" (state [])
  /\ processBlock (calm []) "/home/u/ws" asideFirst (state [asideLast])
     = (Ok tt, state [asideLast])
  /\ writesTo "/home/u/ws/a.ts" (trace (state (rev (blocks batchAsideThenTwo))))
     = [versionB ++ Js.nl]
  /\ timesIn "a.ts" (filesModified (state (rev (blocks batchAsideThenTwo)))) = 0 + 1.
Proof.
  intros m state.
  assert (Hrev : rev (blocks batchAsideThenTwo)
                 = ([] ++ asideLast :: [asideFirst; asideBatch])%list)
    by (vm_compute; reflexivity).
  assert (Hfirst : resolvesTo batchAsideThenTwo "a.ts" asideFirst = true)
    by (vm_compute; reflexivity).
  assert (Honly : forall b, In b (blocks batchAsideThenTwo) ->
            onlyByName (calm []) "/home/u/ws" batchAsideThenTwo "a.ts" b).
  { intros b Hb. vm_compute in Hb.
    destruct Hb as [<- | [<- | [<- | []]]]; split.
    - intros H. vm_compute in H. discriminate.
    - intros n Hn. vm_compute in Hn. destruct Hn as [<- | []].
      split; [discriminate | vm_compute; discriminate].
    - intros _. vm_compute. reflexivity.
    - intros n Hn. vm_compute in Hn. contradiction.
    - intros _. vm_compute. reflexivity.
    - intros n Hn. vm_compute in Hn. contradiction. }
  destruct (last_block_is_authoritative (calm []) "/home/u/ws" batchAsideThenTwo
              "a.ts" ltac:(discriminate) (fun _ => eq_refl) (fun _ _ => eq_refl)
              m [] [asideFirst; asideBatch] asideLast eq_refl Hrev Honly
              ltac:(vm_compute; reflexivity) ltac:(vm_compute; reflexivity)
              (fun b (H : In b []) => match H with end))
    as (Hsaved & Hskip & Hwrites & Honce & _).
  split; [exact Hrev |]. split; [vm_compute; reflexivity |].
  split; [exact Hfirst |]. split; [exact Hsaved |].
  split; [| split; [| exact Honce]].
  - exact (proj2 (Hskip [] asideFirst [asideBatch] eq_refl Hfirst)
             ltac:(vm_compute; reflexivity)).
  - unfold state.
    change (writesTo "/home/u/ws/a.ts")
      with (writesTo (Path.join ["/home/u/ws"; "a.ts"])).
    rewrite Hwrites. reflexivity.
Defined.

(** Five texts with two blocks inferred as [a.ts] where the file does not
    end up written once from the last of them: the last block is too short
    for the single-file path, so the first one is saved; a JSON batch in front
    names [a.ts] too and is written after the last block; the first write
    fails, so the walk goes on to the earlier block; a block far in front
    spells the same file [./a.ts] and is written after the last block; the
    last block is a JSON batch, which is unpacked instead of being saved, so
    the first one is saved. *)
Lemma last_of_same_path_does_not_always_win :
  ~ lastOfSamePathWins (calm []) "/home/u/ws" shortLast "a.ts"
  /\ writesTo "/home/u/ws/a.ts" (trace (passOver (calm []) "/home/u/ws" shortLast))
     = [versionA ++ Js.nl]
  /\ ~ lastOfSamePathWins (calm []) "/home/u/ws" batchThenTwo "a.ts"
  /\ writesTo "/home/u/ws/a.ts" (trace (passOver (calm []) "/home/u/ws" batchThenTwo))
     = [versionB ++ Js.nl; "old"]
  /\ ~ lastOfSamePathWins firstWriteFails "/home/u/ws" twoVersions "a.ts"
  /\ writesTo "/home/u/ws/a.ts" (trace (passOver firstWriteFails "/home/u/ws" twoVersions))
     = [versionA ++ Js.nl]
  /\ ~ lastOfSamePathWins (calm []) "/home/u/ws" aliasThenTwo "a.ts"
  /\ writesTo "/home/u/ws/a.ts" (trace (passOver (calm []) "/home/u/ws" aliasThenTwo))
     = [versionB ++ Js.nl; versionC ++ Js.nl]
  /\ ~ lastOfSamePathWins (calm []) "/home/u/ws" batchLast "a.ts"
  /\ writesTo "/home/u/ws/a.ts" (trace (passOver (calm []) "/home/u/ws" batchLast))
     = [versionA ++ Js.nl].
Proof.
  assert (Hrefute : forall env text,
            2 <= List.length
                   (filter (fun b => String.eqb (inferFileName text b) "a.ts")
                           (blocks text)) ->
            writesTo (Path.join ["/home/u/ws"; "a.ts"])
                     (trace (passOver env "/home/u/ws" text))
            <> [code (List.last
                        (filter (fun b => String.eqb (inferFileName text b) "a.ts")
                                (blocks text))
                        (Block "" "" "" 0))] ->
            ~ lastOfSamePathWins env "/home/u/ws" text "a.ts").
  { intros env text Htwo Hne H. apply Hne. apply H. exact Htwo. }
  repeat split; try (vm_compute; reflexivity);
    apply Hrefute; try (vm_compute; repeat constructor); vm_compute; discriminate.
Qed.

(** C1, at the failing input.  The reply puts a block under the heading
    [../evil.ts].  [validatePath] rejects that name, but the single-file path
    of the extractor joins it to the working directory without asking: the
    run writes [/home/u/evil.ts], outside [/home/u/ws]. *)
Theorem single_file_path_leaves_workspace :
  validatePath (calm []) "/home/u/ws" "../evil.ts"
  = Threw "Access Denied: Path '../evil.ts' is outside the workspace."
  /\ Js.startsWith "/home/u/evil.ts" "/home/u/ws" = false
  /\ match runAgentLoop (calm [ChatOk escapingReply]) true true true
                        "/home/u/ws" true false 8%Z true "t" "coder" "" "{}" 8 []
     with
     | Some (Ok (Response _ files), m) =>
         files = ["../evil.ts"]
         /\ writesOf (trace m) = [("/home/u/evil.ts", versionA ++ Js.nl)]
     | _ => False
     end.
Proof.
  split; [vm_compute; reflexivity |].
  split; [vm_compute; reflexivity |].
  vm_compute. split; reflexivity.
Qed.

(** The prefix test of [validatePath] itself lets a sibling directory whose
    name extends that of the workspace through. *)
Lemma validatePath_accepts_sibling :
  validatePath (calm []) "/home/u/ws" "../ws2/evil.ts" = Ok "/home/u/ws2/evil.ts".
Proof. vm_compute. reflexivity. Qed.


Lemma call_outside_enabled_tools_is_not_found_witness :
  let tc := ToolCall (Some (Json.JStr "run_javascript"))
                     (Some (Json.JObj [("javascript", Json.JStr "1+1")])) in
  In "run_javascript" (allowedTools true true true)
  /\ dispatch (calm []) true true true "/home/u/ws" tc (fresh [])
     = (Ok toolNotFound, fresh []).
Proof.
  split; [vm_compute; tauto |].
  apply (call_outside_enabled_tools_is_not_found (calm []) true true true
           "/home/u/ws"). reflexivity.
Defined.

Lemma save_file_writes_the_validated_path_witness :
  dispatch (calm []) true true true "/home/u/ws" saveInside (fresh [])
  = (Ok "Success: File saved to /home/u/ws/src/a.ts",
     Mem [] 0%Z "" ["src/a.ts"] []
         [EMkdir "/home/u/ws/src" (Ok tt);
          EWriteFile "/home/u/ws/src/a.ts" "x" (Ok tt)]).
Proof.
  apply (save_file_writes_the_validated_path (calm []) true true "/home/u/ws"
           saveInside (fresh []) "src/a.ts" "x" "/home/u/ws/src/a.ts");
    try reflexivity; discriminate.
Defined.

Lemma save_file_outside_workspace_is_refused_witness :
  dispatch (calm []) true true true "/home/u/ws" saveOutside (fresh [])
  = (Ok "Error: Access Denied: Path '../evil.ts' is outside the workspace.",
     fresh []).
Proof.
  refine (proj2 (save_file_outside_workspace_is_refused (calm []) true true
                   "/home/u/ws" saveOutside (fresh []) "../evil.ts"
                   (Json.JStr "x")
                   "Access Denied: Path '../evil.ts' is outside the workspace."
                   _ _ _ _ _ _ _));
    try reflexivity; discriminate.
Defined.

Lemma batch_save_reports_what_it_recorded_witness :
  save_file (calm []) "/home/u/ws" saveBatch (fresh [])
  = (Ok "Success: Saved 2 files: a.ts, c.ts",
     Mem [] 0%Z "" ["a.ts"; "c.ts"] []
         [EMkdir "/home/u/ws" (Ok tt); EWriteFile "/home/u/ws/a.ts" "x" (Ok tt);
          EMkdir "/home/u/ws" (Ok tt); EWriteFile "/home/u/ws/c.ts" "z" (Ok tt)])
  /\ match save_file (calm []) "/home/u/ws" saveBatch (fresh []) with
     | (Ok out, m') =>
         exists added,
           filesModified m' = (filesModified (fresh []) ++ added)%list
           /\ out = (if (0 <? List.length added)%nat
                     then "Success: Saved " ++ Js.string_of_nat (List.length added)
                          ++ " files: " ++ Js.join ", " added
                     else "Error: No valid files found in batch.")
     | (Threw e, m') =>
         In Json.JNull sampleBatch
         /\ e = "Cannot read properties of null (reading 'file_name')"
     end.
Proof.
  split; [vm_compute; reflexivity |].
  apply (batch_save_reports_what_it_recorded (calm []) "/home/u/ws" saveBatch
           sampleBatch (fresh [])). reflexivity.
Defined.

Lemma empty_file_reads_as_tool_not_found_witness :
  dispatch emptyFiles true true true "/home/u/ws" (readCall "notes.txt") (fresh [])
  = (Ok toolNotFound,
     Mem [] 0%Z "" [] [] [EReadFile "/home/u/ws/notes.txt" (Ok "")]).
Proof.
  apply (empty_file_reads_as_tool_not_found emptyFiles true true "/home/u/ws"
           (readCall "notes.txt") (fresh []) "notes.txt" "/home/u/ws/notes.txt");
    try reflexivity; discriminate.
Defined.


Lemma backward_walk_keeps_offsets_witness :
  let m := Mem [] 0%Z twoVersions [] [] [] in
  let m' := walked (calm []) "/home/u/ws" [lastBlock] m in
  finalContent m' <> twoVersions
  /\ Js.take (spanEnd firstBlock) (finalContent m')
     = Js.take (spanEnd firstBlock) twoVersions
  /\ Js.substring (finalContent m') (start firstBlock) (spanEnd firstBlock)
     = fullBlock firstBlock
  /\ inferFileName (finalContent m') firstBlock
     = inferFileName twoVersions firstBlock.
Proof.
  split; [vm_compute; discriminate |].
  apply (backward_walk_keeps_offsets (calm []) "/home/u/ws" twoVersions
           [lastBlock] [] firstBlock (Mem [] 0%Z twoVersions [] [] []));
    [reflexivity | vm_compute; reflexivity].
Defined.

Lemma json_batch_is_unpacked_witness :
  let m := Mem [] 0%Z batchThenTwo [] [] [] in
  exists m',
    processBlock (calm []) "/home/u/ws" batchBlock m = (Ok tt, m')
    /\ filesModified m' = (filesModified m ++ map entryName batchEntries)%list
    /\ writesOf (trace m')
       = (writesOf (trace m)
          ++ map (fun e => (entryPath e, entryData e)) batchEntries)%list
    /\ finalContent m'
       = Js.take (start batchBlock) (finalContent m)
         ++ batchNote (List.length batchEntries)
         ++ Js.drop (spanEnd batchBlock) (finalContent m)
    /\ Forall (fun e => has (processedFiles m') (entryName e) = true) batchEntries.
Proof.
  apply (json_batch_is_unpacked (calm []) "/home/u/ws"
           (fun _ _ => eq_refl) (fun _ _ _ => eq_refl)
           batchBlock batchItems batchEntries).
  - reflexivity.
  - vm_compute. reflexivity.
  - repeat constructor; try discriminate.
  - discriminate.
Defined.


Lemma no_braces_no_tool_call_witness :
  let reply := "to=functions.save_file file_name=a.ts content=x }" in
  toolNameMatch reply = Some "functions.save_file"
  /\ parseToolCall reply = None /\ detectToolCall reply = None.
Proof.
  split; [vm_compute; reflexivity |].
  apply (no_braces_no_tool_call
           "to=functions.save_file file_name=a.ts content=x }").
  left. reflexivity.
Defined.

Lemma refusal_phrase_in_any_case_is_detected_witness :
  isRefusal ("Sorry. " ++ "As An AI" ++ ", I will not write files.") = true.
Proof.
  apply (refusal_phrase_in_any_case_is_detected
           "Sorry. " "As An AI" ", I will not write files." "as an ai").
  - simpl. tauto.
  - reflexivity.
Defined.


Lemma delegation_is_bounded_witness :
  exists r evs,
    consultSecondaryAgentTool (calm [ChatOk "Done. TASK_COMPLETED"]) true true
      true false true true true "{}" "/home/u/ws" 8 sampleParams []
    = Some (r, ([] ++ evs)%list)
    /\ chatCalls evs <= 13.
Proof.
  apply (delegation_is_bounded (calm [ChatOk "Done. TASK_COMPLETED"]) true true
           true false true true true "{}" "/home/u/ws" sampleParams 8 []).
  apply le_n.
Defined.

Lemma endpoint_failure_ends_delegation_witness :
  let m0 := initialState (calm [ChatStatus 500]) true true true "/home/u/ws"
              true false "Write a.ts" "coder" "" "{}" [] in
  consultSecondaryAgentTool (calm [ChatStatus 500]) true true true false
    true true true "{}" "/home/u/ws" 1 sampleParams []
  = Some (Ok (ConsultError "API Error: 500"),
          (trace m0 ++ [EChat (msgList m0) (ChatStatus 500)])%list).
Proof.
  apply (endpoint_failure_ends_delegation (calm [ChatStatus 500]) true true
           true false true true true "{}" "/home/u/ws" sampleParams 0 []).
  - reflexivity.
  - intros raw. vm_compute. discriminate.
  - vm_compute. discriminate.
Defined.

Lemma error_without_message_is_taken_for_success_witness :
  let m0 := initialState (calm [ChatThrew ""]) true true true "/home/u/ws"
              true false "Write a.ts" "coder" "" "{}" [] in
  consultSecondaryAgentTool (calm [ChatThrew ""]) true true true false
    true true true "{}" "/home/u/ws" 1 sampleParams []
  = Some (Threw "Cannot read properties of undefined (reading 'replace')",
          (trace m0 ++ [EChat (msgList m0) (ChatThrew "")])%list).
Proof.
  apply (error_without_message_is_taken_for_success (calm [ChatThrew ""]) true
           true true false true true true "{}" "/home/u/ws" sampleParams 0 []).
  - reflexivity.
  - vm_compute. reflexivity.
Defined.


Lemma saved_state_is_read_back_witness :
  let dir := Js.q "/home/u/my 'proj'" in
  let env := holding (StateManager.stringifyState dir) in
  StateManager.savePersistedState env "/home/u" dir (fresh [])
  = (Ok tt,
     set_trace (fun t => t ++ [EMkdir (StateManager.stateDir "/home/u") (Ok tt);
                               EWriteFile (StateManager.statePath "/home/u")
                                 (StateManager.stringifyState dir) (Ok tt)])%list
               (fresh []))
  /\ fst (StateManager.getPersistedState env "/home/u" (fresh []))
     = Ok (if String.eqb dir "" then StateManager.defaultState "/home/u"
           else Json.JObj [("currentWorkingDirectory", Json.JStr dir)]).
Proof.
  apply (saved_state_is_read_back
           (holding (StateManager.stringifyState (Js.q "/home/u/my 'proj'")))
           "/home/u" (Js.q "/home/u/my 'proj'") (fresh []) (fresh []));
    reflexivity.
Defined.


Lemma other_errors_are_not_retried_witness :
  let err := DuckDuckGo.ErrorObject "Error" "getaddrinfo ENOTFOUND duckduckgo.com" in
  DuckDuckGo.duckduckgo_search DuckDuckGo.loads
    (DuckDuckGo.always (DuckDuckGo.Failed err))
    "rocq" DuckDuckGo.maxRetries []
  = Some (DuckDuckGo.SearchError
            "Search failed: getaddrinfo ENOTFOUND duckduckgo.com",
          [DuckDuckGo.ReadSetting "searchApiKey"; DuckDuckGo.Imported None;
           DuckDuckGo.Searched (DuckDuckGo.Failed err)]).
Proof.
  apply (DuckDuckGoFacts.other_errors_are_not_retried DuckDuckGo.loads
           (DuckDuckGo.always
              (DuckDuckGo.Failed
                 (DuckDuckGo.ErrorObject "Error"
                    "getaddrinfo ENOTFOUND duckduckgo.com")))
           "rocq" []
           (DuckDuckGo.ErrorObject "Error" "getaddrinfo ENOTFOUND duckduckgo.com"));
    reflexivity.
Defined.


Lemma tool_calls_until_the_limit_leave_no_answer_witness :
  exists files m',
    runAgentLoop toolLoop true true true "/home/u/ws" true false 8%Z true
      "List the files" "general" "" "{}" (Z.to_nat 8) []
    = Some (Ok (Response "" files), m')
    /\ chatCalls (trace m') = chatCalls [] + Z.to_nat 8.
Proof.
  apply (tool_calls_until_the_limit_leave_no_answer toolLoop true true true
           "/home/u/ws" true false 8%Z true "List the files" "general" "" "{}").
  - reflexivity.
  - intros t msgs.
    exists listCall,
      (ToolCall (Some (Json.JStr "list_directory")) (Some (Json.JObj []))).
    repeat split; vm_compute; reflexivity.
Defined.


Lemma unique_text_is_replaced_in_place_witness :
  dispatch (holding "x = 1; y = 2;") true true true "/home/u/ws" editCall
    (fresh [])
  = (Ok "Success: Text replaced.",
     Mem [] 0%Z "" ["a.ts"] []
         [EReadFile "/home/u/ws/a.ts" (Ok "x = 1; y = 2;");
          EWriteFile "/home/u/ws/a.ts" "x = 1; y = 3;" (Ok tt)])
  /\ dispatch (holding "x = 1; y = 2;") true true true "/home/u/ws" eraseCall
       (fresh [])
     = (Ok toolNotFound, fresh []).
Proof.
  assert (Hfirst : forall k, k < String.length "x = 1; " ->
            Js.startsWith (Js.drop k ("x = 1; " ++ "y = 2" ++ ";")) "y = 2"
            = false).
  { intros k Hk. simpl in Hk.
    repeat (destruct k as [| k]; [reflexivity |]). lia. }
  split.
  - apply (unique_text_is_replaced_in_place (holding "x = 1; y = 2;") true true
             "/home/u/ws" editCall (fresh []) "a.ts" "y = 2" "y = 3"
             "/home/u/ws/a.ts" "x = 1; " ";");
      try reflexivity; try discriminate; exact Hfirst.
  - apply (unique_text_is_replaced_in_place (holding "x = 1; y = 2;") true true
             "/home/u/ws" eraseCall (fresh []) "a.ts" "y = 2" ""
             "/home/u/ws/a.ts" "x = 1; " ";");
      try reflexivity; try discriminate; exact Hfirst.
Defined.

Lemma new_text_is_a_replacement_pattern_witness :
  replace_first "price: 5 EUR" "5" "$&" "" = "price: 5 EUR"
  /\ exists pre post,
       "price: 5 EUR" = pre ++ "5" ++ post
       /\ replace_first "price: 5 EUR" "5" "$$" "" = pre ++ "$" ++ post.
Proof.
  apply (new_text_is_a_replacement_pattern "price: 5 EUR" "5"). reflexivity.
Defined.


Lemma delegation_without_tools_saves_nothing_witness :
  let params := ConsultParams "Write a.ts" "coder" "" false in
  let raw := tsBlock "a.ts" versionA ++ "TASK_COMPLETED" in
  let env := calm [ChatOk raw] in
  let m0 := initialState env true true true "/home/u/ws" false false
              "Write a.ts" "coder" "" "{}" [] in
  blocks (cleanup raw) <> []
  /\ consultSecondaryAgentTool env true true true true true true true "{}"
       "/home/u/ws" 1 params []
     = Some (Ok (ConsultResponse (Some (cleanup raw)) []),
             (trace m0 ++ [EChat (msgList m0) (ChatOk raw)])%list).
Proof.
  split; [vm_compute; discriminate |].
  apply (delegation_without_tools_saves_nothing
           (calm [ChatOk (tsBlock "a.ts" versionA ++ "TASK_COMPLETED")])
           true true true true true true true "{}" "/home/u/ws"
           (ConsultParams "Write a.ts" "coder" "" false) 0 []
           (tsBlock "a.ts" versionA ++ "TASK_COMPLETED"));
    reflexivity.
Defined.


Lemma validatePath_accepts_clean_names_witness :
  validatePath (calm []) "/home/u/ws" "src/lib/a.ts" = Ok "/home/u/ws/src/lib/a.ts".
Proof.
  apply (validatePath_accepts_clean_names (calm []) ["home"; "u"; "ws"]
           ["src"; "lib"; "a.ts"]).
  - repeat constructor.
  - repeat constructor.
  - discriminate.
Defined.

Lemma validatePath_accepts_sibling_with_same_prefix_witness :
  validatePath (calm []) "/home/u/ws" "../ws-backup/keys/id_rsa"
  = Ok "/home/u/ws-backup/keys/id_rsa".
Proof.
  apply (validatePath_accepts_sibling_with_same_prefix (calm []) ["home"; "u"]
           ["keys"; "id_rsa"] "ws" "-backup").
  - repeat constructor.
  - reflexivity.
  - repeat constructor.
Defined.


Lemma auto_save_records_each_name_once_witness :
  let m := Mem [] 0%Z twoVersions [] [] [] in
  filesModified (snd (autoSavePass (calm []) true "/home/u/ws" true m)) = ["a.ts"]
  /\ exists added,
       filesModified (snd (autoSavePass (calm []) true "/home/u/ws" true m))
       = (filesModified m ++ added)%list
       /\ NoDup added.
Proof.
  split; [vm_compute; reflexivity |].
  apply (auto_save_records_each_name_once (calm []) "/home/u/ws" true true
           (Mem [] 0%Z twoVersions [] [] [])).
  intros b Hb. vm_compute in Hb.
  destruct Hb as [<- | [<- | []]]; vm_compute; reflexivity.
Defined.


Lemma json_batch_stops_at_rejected_entry_witness :
  let m := Mem [] 0%Z mixedBatchText [] [] [] in
  snd (processBlock (calm []) "/home/u/ws" mixedBatchBlock m)
  = Mem [] 0%Z mixedBatchText ["a.ts"] ["a.ts"]
        [EMkdir "/home/u/ws" (Ok tt); EWriteFile "/home/u/ws/a.ts" "A" (Ok tt)]
  /\ exists m1,
       processBlock (calm []) "/home/u/ws" mixedBatchBlock m
       = saveSingle (calm []) "/home/u/ws" mixedBatchBlock m1
       /\ filesModified m1
          = (filesModified m ++ map entryName [Entry "a.ts" "/home/u/ws/a.ts" "A"])%list
       /\ writesOf (trace m1)
          = (writesOf (trace m)
             ++ map (fun x => (entryPath x, entryData x))
                    [Entry "a.ts" "/home/u/ws/a.ts" "A"])%list
       /\ finalContent m1 = finalContent m.
Proof.
  split; [vm_compute; reflexivity |].
  apply (json_batch_stops_at_rejected_entry (calm []) "/home/u/ws"
           (fun _ _ => eq_refl) (fun _ _ _ => eq_refl) mixedBatchBlock
           [Json.JObj [("path", Json.JStr "a.ts"); ("content", Json.JStr "A")]]
           [Json.JObj [("path", Json.JStr "c.ts"); ("content", Json.JStr "C")]]
           (Json.JObj [("path", Json.JStr "../b.ts"); ("content", Json.JStr "B")])
           [Entry "a.ts" "/home/u/ws/a.ts" "A"] "../b.ts" "B"
           "Access Denied: Path '../b.ts' is outside the workspace.");
    try reflexivity; try discriminate.
  repeat constructor; discriminate.
Defined.


Lemma hidden_response_has_no_code_block_witness :
  let raw := tsBlock "a.ts" versionA ++ "TASK_COMPLETED" in
  Regex.search anyBlockRegex (cleanup raw) <> None
  /\ exists text,
       Some (Regex.replaceAll anyBlockRegex hiddenNote (cleanup raw)) = Some text
       /\ Regex.search anyBlockRegex text = None.
Proof.
  split; [vm_compute; discriminate |].
  apply (hidden_response_has_no_code_block
           (calm [ChatOk (tsBlock "a.ts" versionA ++ "TASK_COMPLETED")])
           true true true true true true "{}" "/home/u/ws"
           (ConsultParams "Write a.ts" "coder" "" false) 1 []
           (let m0 := initialState
                        (calm [ChatOk (tsBlock "a.ts" versionA ++ "TASK_COMPLETED")])
                        true true true "/home/u/ws" false false
                        "Write a.ts" "coder" "" "{}" [] in
            trace m0
            ++ [EChat (msgList m0)
                  (ChatOk (tsBlock "a.ts" versionA ++ "TASK_COMPLETED"))])%list
           (Some (Regex.replaceAll anyBlockRegex hiddenNote
                    (cleanup (tsBlock "a.ts" versionA ++ "TASK_COMPLETED"))))
           []).
  vm_compute. reflexivity.
Defined.


Lemma file_system_off_touches_only_temporary_scripts_witness :
  exists r m' evs,
    runAgentLoop (calm [ChatOk pythonCall; ChatOk "TASK_COMPLETED"])
      false true true "/home/u/ws" true false 8%Z true "t" "coder" "" "{}"
      (Z.to_nat 8) []
    = Some (Ok r, m')
    /\ writesOf (trace m') = [("/home/u/ws/temp_script_3.py", "print(1)")]
    /\ Forall (offDisk "/home/u/ws") evs
    /\ filesOf r = [].
Proof.
  destruct (file_system_off_touches_only_temporary_scripts
              (calm [ChatOk pythonCall; ChatOk "TASK_COMPLETED"]) true true
              "/home/u/ws" true false 8%Z true "t" "coder" "" "{}" [])
    as (r & m' & r1 & r2 & evs & Hrun & _ & Hoff & _ & Hf).
  exists r, m', evs. split; [exact Hrun |].
  split; [| split; [exact Hoff | exact Hf]].
  pose proof Hrun as E. vm_compute in E. injection E as _ <-.
  vm_compute. reflexivity.
Defined.

Lemma search_tries_at_most_three_times_witness :
  exists added,
    DuckDuckGo.duckduckgo_search DuckDuckGo.missing
      (DuckDuckGo.always (DuckDuckGo.Found None)) "rocq" DuckDuckGo.maxRetries []
    = Some (DuckDuckGo.SearchError
              "Search failed: Cannot find module 'duck-duck-scrape'", added)
    /\ filter DuckDuckGo.isSearch added = [].
Proof.
  destruct (DuckDuckGoFacts.search_tries_at_most_three_times DuckDuckGo.missing
              (DuckDuckGo.always (DuckDuckGo.Found None)) "rocq" [])
    as (r & added & Hrun & _ & (Hnone & ->) & _).
  exists added. split; [exact Hrun | exact Hnone].
Defined.
